(* ===== verification/_CoqProject ===== *)
-Q . S2P
Prelude.v
GoStrings.v
GoRunes.v
Ccerr.v
Errors.v
Classify.v
Observe.v
World.v
Identity.v
Config.v
Client.v
Contract.v
Transactions.v
Views.v
Lifecycle.v
Resubmit.v
Outbox.v
Events.v
Positions.v
Protocol.v
Streams.v
Listeners.v
Blocks.v
Restarts.v
Commands.v
BlockOutcome.v
Backoff.v
Logs.v
ErrorTyping.v
Channel.v
Schedules.v
Progress.v
BlockProgress.v
Pool.v
PendingThreads.v
ClientThreads.v
Instances.v
Witnesses.v
RepoTests.v
