(* ===== verification/Prelude.v ===== *)
(** * A verification development for fabricsdk

    fabricsdk is a Go client library for Hyperledger Fabric on top of the
    fabric-gateway module. This library models the whole of its package code and
    its example commands, and proves what a caller relies on.

    ** The program and the files

    - ccerr/ccerr.go renders and parses coded chaincode errors: Ccerr.v, Module
      [ccerr]. The string functions of Go that it and the classifier call are
      written out in GoStrings.v (bytes) and GoRunes.v (UTF-8 and [ToLower]).
    - errors.go: Errors.v has Go's [error] values as an inductive type, with
      [errors.As] and [errors.Is] as searches of the [Unwrap] tree, the SDK's
      [Error] record and the caller's helpers; Classify.v has [classify],
      [chaincodeError], [legacyKind] and [commitFailure].
    - observe.go: Observe.v, the logger and observer hooks as values; what is
      logged is in Logs.v.
    - identity.go, identity_hsm.go: Identity.v. config.go: Config.v.
    - client.go: Client.v (construction, Close, call options, phase timeouts);
      its shortcuts for the default handle stand with the operations they call.
    - contract.go: Contract.v (Evaluate, Submit, SubmitAsync, Wait, Release,
      TxStatus, Height).
    - events.go: Events.v (options, checkpointers, subscriptions, the two
      listeners) and Streams.v (the goroutine of a subscription).
    - Shared objects under concurrent use: Pool.v (threads over a shared state,
      [sync.Once], mutexes, the rule of invariants, refinement), PendingThreads.v
      (Wait and Release of one [PendingTx], contract.go), ClientThreads.v (Close
      and calls of one client, client.go; Close of one [Identity], identity.go).
    - examples/basic/main.go, examples/events/main.go: Commands.v, with a monad
      [Cmd] of its own for processes that print and exit. A handler passed to a
      listener says what it prints and what it returns ([EventHandler],
      [BlockHandler]); the trace records both with its call.

    They meet as in the code: handles ([Contract]) hold their client
    ([FabricClient]), a client holds an [Identity]; every operation goes through
    [Contract_gateway], [observe] and [classify]; the listeners call
    [Contract_ChaincodeEvents] and [Contract_gateway].

    ** How the code is modelled

    World.v is the ground: a state [World] (the trace of everything that left the
    SDK, and the mutable fields of heap objects: [close] of identities, [closed]
    and [closeOnce] of clients, [once] of pending transactions), the state monad
    [M], and the class [Env] that answers each outside call from the trace so
    far. Theorems hold for every [Env], so for every behaviour of network, clock
    and peers. Errors are values ([error + A]); nil pointers are [None]; deferred
    calls are written where Go runs them. Code outside the repository is a class
    with the operations the program uses, and a class of laws where a theorem
    needs documented behaviour: [UnicodeTables], [GrpcStatus] ([GrpcStatusOk]),
    [PeerCodes], [X509Lib] ([X509LibOk]), [FileSystem], [TLSLib], [LedgerProto],
    [EventEnv] ([Delivers], [DeliversBlocks], [StreamChannel]), [Schedule]
    ([FairSchedule]), [Checkpointer] ([CheckpointerOk],
    the contract of the interface in events.go), [InMemoryCheckpointer].
    [GatewayErrors] (and [SubscriptionErrors], [NoHandlerErrors]) say that a
    network call fails with errors of other packages, not with an [*Error] or a
    [handlerError] of the SDK; [KeepsGoing] and [KeepsGoingBlocks] are
    environments in which nobody fails for good ([Undisturbed] is what they share); [TransactionIDs] and [true_ledger] (Resubmit.v, for it
    and Outbox.v) say what transaction IDs, commit statuses and qscc tell of the ledger;
    [TransactionalCheckpointer] (Restarts.v) is the checkpointer that the README
    asks for exactly-once processing. Instances.v has an instance of each law
    class; Witnesses.v applies each theorem that has hypotheses to concrete
    inputs, with those instances.

    RepoTests.v evaluates the definitions on the inputs of the repository's own
    tests: they give what the tests expect.

    ** The theorems

    - Ccerr: [Parse] inverts rendering and succeeds exactly on coded messages.
    - Errors, Classify: the helpers see through wrapping; the outcome of a
      failure is unknown exactly where it is; only safe failures are retryable;
      chaincode is blamed exactly when a message shows it; every error built is
      well formed ([wf_error]).
    - Config, Identity, Client: validation is exact; the TLS name survives the
      resolver; a key from PEM belongs to its certificate; nothing leaks from a
      failing constructor; Close releases once.
    - Transactions.v gives, per operation, a relation from results to the calls
      made ([submit_path], [query_path], ...), the protocol as a caller and a
      network see it; the [_run] lemmas refine the programs to the relations;
      Views.v projects a trace to its calls, Gateways, observations and log
      lines; Lifecycle.v proves the properties of calls and transactions from
      these: outcome, success, transaction ID, observation, closing, deadlines of
      the calls of transactions and queries, and that a handle signs with its
      identity and calls its target. Logs.v: the forms of all log lines.
    - Resubmit.v: the caller's protocol of the README (retry, resolve, give up) as
      a program over these operations: it never puts two transactions on the
      ledger, and what it learns is true. Outbox.v: a service of
      any number of processes that follow the protocol for [SubmitAsync] (store
      the ID, then wait), each killed at any point: one window apart, a
      transaction on the ledger is in a row or named by an error, and [TxStatus]
      tells the truth about the rows.
    - ErrorTyping.v: which exported calls return a well-formed [Error] when they
      fail (constructors, transactions, queries, subscriptions), and what the
      others return (the listeners, [Close]).
    - Streams.v: an atomic-step transition system of Gateway, goroutine and
      caller; an invariant by induction on reachability gives faithful delivery,
      a measure gives termination, and both give that nothing sent is lost.
    - Positions.v has what a trace shows of a listener and what fabric-gateway
      delivers at a position. Protocol.v is the abstract listener: a machine that
      opens, receives, hands over and records, over an interface ([Feed], what
      calls and items are; [Keeper], what a checkpointer promises), with its
      consequences: what is handled, and what processes that are killed at any
      point and started again handle. Listeners.v and Blocks.v show that the two
      listeners implement it ([consume_run], [session_run], [listen_run] and the
      like), so that no event or block is skipped or repeated over reconnects;
      Listeners.v also has how a listener ends, and that each event it accepted is
      checkpointed with success before the next is handed over. Restarts.v is the machine's theorem on crashes at both feeds: at
      least once with the checkpointers of the interface, exactly once with one
      that commits with the data. Channel.v composes the listener with the
      goroutines below it: [StreamChannel], what a stream in any interleaving
      offers, implements [Delivers], which the listener's theorems assume.
      Schedules.v implements [StreamChannel] in turn by the transition system of
      Streams.v, run by any [FairSchedule], so that what remains assumed is what
      fabric-gateway documents. Progress.v and BlockProgress.v: with enough fuel
      every event and every block is handled, although up to [d] reconnects in a
      row bring nothing. Backoff.v: the delays equal a closed form.
      BlockOutcome.v: the same for blocks, and that no Gateway stays open.
    - PendingThreads.v: every interleaving of Waits and Releases is a sequence of
      whole operations of the sequential programs of Contract.v (a simulation,
      with the point where each operation takes effect); mutual exclusion,
      release at most once; no deadlock and no endless run. ClientThreads.v: the
      same questions for Close of a client, and the race of Close of an identity.
    - Commands.v: the write of the example is done at most once and its outcome
      told truly; the event listener, killed at any point and started again, skips
      nothing and repeats at most one event per restart.

    ** Bounds and fuel

    The listeners loop for as long as their context lives. [listen] and
    [listen_blocks] take the number of streams opened, and of receives per
    stream, as fuel; a result [None] is a listener still running, never an answer
    of the code, and the theorems speak of the trace so far, for every fuel, so
    they cover runs of any length. The goroutine needs no fuel: its termination
    is a theorem. Progress.v says how much is enough: [d] + 1 sessions per event
    or block left. The caller of Resubmit.v has a number of retries. No other definition has
    fuel. Durations are int64 nanoseconds: the one product that can overflow, the
    doubling of the backoff, wraps ([wrap64]). Block numbers are [N]: the program
    does not compute with them (the position behind a block is the
    checkpointer's).

    ** What is not modelled

    The programs of Contract.v and of the listeners are sequential; the mutex and
    the [once] are in Pool.v, PendingThreads.v and ClientThreads.v, where the calls
    of a goroutine between two uses of shared state are one step. Go's memory
    model is sequential consistency there, which is what mutexes, [sync.Once] and
    atomics give; the identity's race needs no more. A listener reads its stream
    through [env_recv], which may answer anything; Channel.v and Schedules.v tie it
    to Streams.v.
    The context given to an observer or a handler is not recorded. A handler
    prints and returns; calls that it makes itself are not in the trace. A file system
    answers the same during one call. A process that is killed stops between two
    calls that leave the SDK; the checkpointers of Restarts.v survive it, as a file
    or a database does (a memory checkpointer does not). The text of a duration in
    a log line is the value [logDuration]; what a command prints is the call with
    its arguments, not the formatted text. A signal is an end of its context that
    the environment chooses. The code of fabric-gateway, gRPC and the standard library's
    cryptography is outside the repository and enters as parameters.

    ** Next

    Several listeners on one checkpointer; processes of an outbox that overlap. *)

From Stdlib Require Export Ascii ZArith Lia ZifyBool ZifyN.
From stdpp Require Export base tactics decidable list strings gmap pretty numbers.

(** Bytes are Rocq's [Byte.byte]; a Go string is a byte sequence, held as a
    [string] (each [ascii] is one byte). *)
Abbreviation bytes := (list Byte.byte).

#[global] Arguments String.append !_ _ : simpl nomatch.

(** The hint database of the development: [go] resolves the components'
    invariants. The rewriting database [views] is declared in Views.v. *)
Create HintDb go discriminated.

(** ** Proof automation *)

(** [case_go] splits on the first stuck [match], [if] or [decide] of the goal,
    keeping the equation. *)
Ltac case_go :=
  match goal with
  | |- context [decide ?P] => destruct (decide P)
  | |- context [match ?x with _ => _ end] =>
      lazymatch x with
      | context [match _ with _ => _ end] => fail
      | _ => let E := fresh "E" in destruct x eqn:E
      end
  end.

(** The same in a hypothesis. *)
Ltac case_go_in H :=
  match type of H with
  | context [decide ?P] => destruct (decide P)
  | context [match ?x with _ => _ end] =>
      lazymatch x with
      | context [match _ with _ => _ end] => fail
      | _ => let E := fresh "E" in destruct x eqn:E
      end
  end.

(** Split every branch of the goal and close what computation closes. *)
Ltac go_cases := repeat (case_go; simplify_eq/=; try done).
Ltac go_cases_in H := repeat (case_go_in H; simplify_eq/=; try done).

(** ** Lists and options *)

Section lists.
Context {A B : Type}.

(** The first element on which [f] answers, with its answer: a Go [for range]
    loop whose body returns. *)
Fixpoint first_some (f : A -> option B) (l : list A) : option B :=
  match l with
  | [] => None
  | x :: l' => match f x with Some y => Some y | None => first_some f l' end
  end.

Lemma first_some_app (f : A -> option B) (l1 l2 : list A) :
  first_some f (l1 ++ l2) =
  match first_some f l1 with Some y => Some y | None => first_some f l2 end.
Proof. induction l1 as [|x l1 IH]; simpl; [done|]. by destruct (f x). Qed.

Lemma first_some_None (f : A -> option B) (l : list A) :
  first_some f l = None <-> Forall (fun z => f z = None) l.
Proof.
  induction l as [|x l IH]; simpl; [done|].
  rewrite list.Forall_cons, <- IH.
  destruct (f x); [|tauto]. split; [done|]. by intros [? _].
Qed.

Lemma first_some_Some (f : A -> option B) (l : list A) (y : B) :
  first_some f l = Some y <->
  exists l1 x l2, l = l1 ++ x :: l2 /\ f x = Some y /\ Forall (fun z => f z = None) l1.
Proof.
  split.
  - induction l as [|x l IH]; simpl; [done|].
    destruct (f x) as [y'|] eqn:E; intros H.
    + simplify_eq. by exists [], x, l.
    + destruct (IH H) as (l1 & x' & l2 & -> & ? & ?).
      exists (x :: l1), x', l2. by repeat split; [|constructor].
  - intros (l1 & x & l2 & -> & Hx & Hl1).
    rewrite first_some_app, (proj2 (first_some_None _ _) Hl1). simpl. by rewrite Hx.
Qed.

(** Anything the loop returns satisfies what each answer satisfies. *)
Lemma first_some_ind (P : B -> Prop) (f : A -> option B) (l : list A) (y : B) :
  (forall x z, f x = Some z -> P z) -> first_some f l = Some y -> P y.
Proof.
  intros HP (l1 & x & l2 & _ & Hx & _)%first_some_Some. by apply (HP x).
Qed.

(** Selections that agree element by element. *)
Lemma omap_ext (f h : A -> option B) (l : list A) : (forall x, f x = h x) -> omap f l = omap h l.
Proof. intros He. apply list_omap_ext. induction l; by constructor. Qed.

End lists.

Lemma omap_fmap_ext {A B C} (f : A -> option C) (h : A -> option B) (g : B -> C) (l : list A) :
  (forall x, f x = g <$> h x) -> omap f l = g <$> omap h l.
Proof.
  intros He. induction l as [|x l IH]; [done|]. cbn [omap list_omap]. rewrite He.
  destruct (h x); [|done]. simpl. by f_equal.
Qed.

#[export] Hint Resolve -> first_some_None : go.

(** A [Forall] over a literal list, element by element. *)
Tactic Notation "all_forall" "by" tactic(t) :=
  repeat first [apply list.Forall_nil_2 | apply list.Forall_cons; split; [solve [t]|]].

