(* ===== verification/GoStrings.v ===== *)
(** * The functions of Go's [strings] package that the program calls

    Go strings are byte sequences. [TrimSpace] and [ToLower] work on runes: the
    first is written with the UTF-8 encodings of the Unicode white space
    characters, the second decodes UTF-8 as [unicode/utf8] does and is
    parameterised by the part of Unicode's case table above ASCII. *)

From S2P Require Import Prelude.

(** ** Substrings *)

(** [s[n:]] and [s[:n]]. *)
Fixpoint sdrop (n : nat) (s : string) : string :=
  match n, s with
  | O, _ => s
  | S n', String _ s' => sdrop n' s'
  | S _, EmptyString => EmptyString
  end.

Fixpoint stake (n : nat) (s : string) : string :=
  match n, s with
  | S n', String c s' => String c (stake n' s')
  | _, _ => EmptyString
  end.

Fixpoint HasPrefix (s pre : string) {struct pre} : bool :=
  match pre, s with
  | EmptyString, _ => true
  | String c pre', String d s' => Ascii.eqb c d && HasPrefix s' pre'
  | String _ _, EmptyString => false
  end.

Definition TrimPrefix (s pre : string) : string :=
  if HasPrefix s pre then sdrop (String.length pre) s else s.

Fixpoint Contains (s sub : string) : bool :=
  HasPrefix s sub || match s with String _ s' => Contains s' sub | EmptyString => false end.

(** [strings.Index]; [None] is Go's -1. *)
Fixpoint Index (s sub : string) : option nat :=
  if HasPrefix s sub then Some 0
  else match s with String _ s' => S <$> Index s' sub | EmptyString => None end.

(** [strings.LastIndex]; [None] is Go's -1. *)
Fixpoint LastIndex (s sub : string) : option nat :=
  match s with
  | EmptyString => if HasPrefix s sub then Some 0 else None
  | String _ s' =>
      match LastIndex s' sub with
      | Some i => Some (S i)
      | None => if HasPrefix s sub then Some 0 else None
      end
  end.

(** [strings.Cut]: before, after, found. *)
Definition Cut (s sep : string) : string * string * bool :=
  match Index s sep with
  | Some i => (stake i s, sdrop (i + String.length sep) s, true)
  | None => (s, EmptyString, false)
  end.

Fixpoint Join (l : list string) (sep : string) : string :=
  match l with
  | [] => EmptyString
  | [x] => x
  | x :: l' => x +:+ sep +:+ Join l' sep
  end.

(** ** White space *)

Definition byte_of (c : ascii) : N := N_of_ascii c.

(** One-byte white space: tab, LF, VT, FF, CR and the blank. *)
Definition space1 (c : ascii) : bool :=
  let b := byte_of c in ((9 <=? b) && (b <=? 13) || (b =? 32))%N.

(** U+0085 and U+00A0. *)
Definition space2 (c d : ascii) : bool :=
  ((byte_of c =? 194) && ((byte_of d =? 133) || (byte_of d =? 160)))%N.

(** U+1680, U+2000..U+200A, U+2028, U+2029, U+202F, U+205F, U+3000. *)
Definition space3 (c d e : ascii) : bool :=
  let '(x, y, z) := (byte_of c, byte_of d, byte_of e) in
  ((x =? 225) && (y =? 154) && (z =? 128)
   || (x =? 226) && (y =? 128) &&
        ((128 <=? z) && (z <=? 138) || (z =? 168) || (z =? 169) || (z =? 175))
   || (x =? 226) && (y =? 129) && (z =? 159)
   || (x =? 227) && (y =? 128) && (z =? 128))%N.

(** [TrimLeftFunc(s, unicode.IsSpace)]. *)
Fixpoint trim_left (s : string) : string :=
  match s with
  | String c s1 =>
      if space1 c then trim_left s1 else
      match s1 with
      | String d s2 =>
          if space2 c d then trim_left s2 else
          match s2 with
          | String e s3 => if space3 c d e then trim_left s3 else s
          | EmptyString => s
          end
      | EmptyString => s
      end
  | EmptyString => s
  end.

Definition all_space (s : string) : bool := bool_decide (trim_left s = EmptyString).

(** [TrimRightFunc(s, unicode.IsSpace)]: the longest suffix that is a sequence
    of white space encodings is cut off. *)
Fixpoint trim_right (s : string) : string :=
  match s with
  | EmptyString => EmptyString
  | String c s' => if all_space s then EmptyString else String c (trim_right s')
  end.

Definition TrimSpace (s : string) : string := trim_right (trim_left s).

(** ** Lemmas: substrings *)

#[local] Abbreviation len := String.length.

Lemma sapp_nil_r (s : string) : s +:+ "" = s.
Proof. induction s; simpl; by f_equal. Qed.

Lemma sapp_assoc (a b c : string) : (a +:+ b) +:+ c = a +:+ b +:+ c.
Proof. induction a; simpl; by f_equal. Qed.

Lemma sapp_cons c (a b : string) : String c a +:+ b = String c (a +:+ b).
Proof. done. Qed.

Lemma sapp_nil (a b : string) : a +:+ b = "" -> a = "" /\ b = "".
Proof. by destruct a. Qed.

Lemma slen_app (a b : string) : len (a +:+ b) = len a + len b.
Proof. induction a; simpl; [done|]. by rewrite IHa. Qed.

Lemma stake_app (a b : string) : stake (len a) (a +:+ b) = a.
Proof. induction a; simpl; [by destruct b|]. by rewrite IHa. Qed.

Lemma sdrop_app (a b : string) : sdrop (len a) (a +:+ b) = b.
Proof. by induction a. Qed.

Lemma stake_sdrop n (s : string) : stake n s +:+ sdrop n s = s.
Proof. revert s. induction n; intros [|c s]; simpl; [done..|]. by rewrite IHn. Qed.

Lemma HasPrefix_app (pre s : string) : HasPrefix (pre +:+ s) pre = true.
Proof. induction pre as [|c pre IH]; simpl; [by destruct s|]. by rewrite Ascii.eqb_refl. Qed.

Lemma HasPrefix_spec (s pre : string) :
  HasPrefix s pre = true <-> exists r, s = pre +:+ r.
Proof.
  split; [|intros [r ->]; apply HasPrefix_app].
  revert s. induction pre as [|c pre IH]; intros s H; [by exists s|].
  destruct s as [|d s]; simpl in H; [done|].
  apply andb_true_iff in H as [->%Ascii.eqb_eq Hs].
  destruct (IH s Hs) as [r ->]. by exists r.
Qed.

Lemma Contains_prefix (s sub : string) : HasPrefix s sub = true -> Contains s sub = true.
Proof. intros H. destruct s; cbn [Contains]; by rewrite H. Qed.

Lemma Index_prefix (s sub : string) : HasPrefix s sub = true -> Index s sub = Some 0.
Proof. intros H. destruct s; cbn [Index]; by rewrite H. Qed.

Lemma Contains_spec (s sub : string) :
  Contains s sub = true <-> exists a b, s = a +:+ sub +:+ b.
Proof.
  split.
  - induction s as [|c s IH]; cbn [Contains]; rewrite orb_true_iff.
    + rewrite HasPrefix_spec. intros [[r Hr]|]; [|done]. by exists "", r.
    + intros [[r Hr]%HasPrefix_spec|H].
      * by exists "", r.
      * destruct (IH H) as (a & b & ->). by exists (String c a), b.
  - intros (a & b & ->). induction a as [|c a IH].
    + apply Contains_prefix, (HasPrefix_app sub b).
    + rewrite sapp_cons. cbn [Contains]. by rewrite IH, orb_true_r.
Qed.

Lemma Contains_app_l (a s sub : string) : Contains s sub = true -> Contains (a +:+ s) sub = true.
Proof.
  rewrite !Contains_spec. intros (x & y & ->). exists (a +:+ x), y. by rewrite sapp_assoc.
Qed.

Lemma Contains_app_r (s b sub : string) : Contains s sub = true -> Contains (s +:+ b) sub = true.
Proof.
  rewrite !Contains_spec. intros (x & y & ->). exists x, (y +:+ b). by rewrite !sapp_assoc.
Qed.

Lemma Contains_Index (s sub : string) : Contains s sub = bool_decide (is_Some (Index s sub)).
Proof.
  induction s as [|c s IH]; cbn [Contains Index]; destruct (HasPrefix _ sub); simpl; try done.
  rewrite IH. destruct (Index s sub); simpl; done.
Qed.

(** What [Index] found is an occurrence. *)
Lemma Index_Some (s sub : string) i :
  Index s sub = Some i -> s = stake i s +:+ sub +:+ sdrop (i + len sub) s.
Proof.
  revert i. induction s as [|c s IH]; intros i; cbn [Index];
    destruct (HasPrefix _ sub) eqn:E.
  - intros [= <-]. apply HasPrefix_spec in E as [r E]. rewrite E. cbn. by rewrite sdrop_app.
  - done.
  - intros [= <-]. apply HasPrefix_spec in E as [r E]. cbn [stake Nat.add]. rewrite E.
    by rewrite sdrop_app.
  - destruct (Index s sub) as [j|] eqn:Hj; [|done]. intros [= <-].
    simpl. f_equal. by apply IH.
Qed.

(** The byte [c] does not occur in [s]. *)
Fixpoint lacks (c : ascii) (s : string) : bool :=
  match s with
  | EmptyString => true
  | String d s' => negb (Ascii.eqb c d) && lacks c s'
  end.

(** The first occurrence is found behind text that lacks its first byte. *)
Lemma Index_fresh c sub (a b : string) :
  lacks c a = true -> Index (a +:+ String c sub +:+ b) (String c sub) = Some (len a).
Proof.
  induction a as [|d a IH].
  - intros _. apply Index_prefix, (HasPrefix_app (String c sub) b).
  - cbn [lacks]. rewrite andb_true_iff, negb_true_iff. intros [Hd Ha].
    rewrite sapp_cons. cbn [Index HasPrefix]. rewrite Hd. simpl andb.
    by rewrite (IH Ha).
Qed.

Lemma Cut_fresh c sub (a b : string) :
  lacks c a = true ->
  Cut (a +:+ String c sub +:+ b) (String c sub) = (a, b, true).
Proof.
  intros H. unfold Cut. rewrite (Index_fresh _ _ _ _ H). rewrite stake_app.
  rewrite <- sapp_assoc, <- slen_app, sdrop_app. done.
Qed.

Lemma Cut_sound (s sep before after : string) :
  Cut s sep = (before, after, true) -> s = before +:+ sep +:+ after.
Proof.
  unfold Cut. destruct (Index s sep) eqn:E; [|done]. intros [= <- <-]. by apply Index_Some.
Qed.

(** ** Lemmas: white space *)

(** [s] starts with the encoding of a white space character. *)
Definition lead (s : string) : bool :=
  match s with
  | String c s1 =>
      space1 c ||
      match s1 with
      | String d s2 =>
          space2 c d || match s2 with String e _ => space3 c d e | EmptyString => false end
      | EmptyString => false
      end
  | EmptyString => false
  end.

Lemma trim_left_stop (s : string) : lead s = false -> trim_left s = s.
Proof.
  destruct s as [|c [|d [|e s]]]; cbn [lead trim_left]; [done|..];
    rewrite ?orb_false_iff; intros; destruct_and?; by repeat (case_match; [done|]).
Qed.

(** Case analysis along [trim_left]: one white space character goes, or none. *)
Lemma trim_left_ind (P : string -> Prop) :
  (forall c s, space1 c = true -> P s -> P (String c s)) ->
  (forall c d s, space1 c = false -> space2 c d = true -> P s -> P (String c (String d s))) ->
  (forall c d e s, space1 c = false -> space2 c d = false -> space3 c d e = true ->
     P s -> P (String c (String d (String e s)))) ->
  (forall s, lead s = false -> P s) ->
  forall s, P s.
Proof.
  intros H1 H2 H3 H4 s. remember (len s) as n eqn:En. revert s En.
  induction n as [n IH] using lt_wf_ind. intros s ->.
  destruct (lead s) eqn:E; [|by apply H4].
  destruct s as [|c s]; [done|]. destruct (space1 c) eqn:E1.
  { apply H1, (IH (len s)); [done| |done]. simpl; lia. }
  destruct s as [|d s]; [by cbn [lead] in E; rewrite E1 in E|].
  destruct (space2 c d) eqn:E2.
  { apply H2, (IH (len s)); [done..| |done]. simpl; lia. }
  destruct s as [|e s]; [by cbn [lead] in E; rewrite E1, E2 in E|].
  destruct (space3 c d e) eqn:E3; [|by cbn [lead] in E; rewrite E1, E2, E3 in E].
  apply H3, (IH (len s)); [done..| |done]. simpl; lia.
Qed.

(** A UTF-8 continuation byte: never the start of a white space character. *)
Definition cont (c : ascii) : bool := ((128 <=? byte_of c) && (byte_of c <? 192))%N.

Ltac bytes_lia := unfold space1, space2, space3, cont in *; cbn zeta in *; lia.

Lemma space2_cont c d : space2 c d = true -> cont d = true.
Proof. intros. bytes_lia. Qed.

Lemma space3_cont c d e : space3 c d e = true -> cont d = true /\ cont e = true.
Proof. intros. split; bytes_lia. Qed.

Lemma lead_cont c (s : string) : cont c = true -> lead (String c s) = false.
Proof.
  intros H. cbn [lead].
  assert (space1 c = false) as -> by bytes_lia.
  destruct s as [|d s]; [done|]. assert (space2 c d = false) as -> by bytes_lia.
  destruct s as [|e s]; [done|]. simpl. bytes_lia.
Qed.

Lemma trim_left_cont c (s : string) : cont c = true -> trim_left (String c s) = String c s.
Proof. intros. by apply trim_left_stop, lead_cont. Qed.

Lemma trim_left_1 c (s : string) : space1 c = true -> trim_left (String c s) = trim_left s.
Proof. intros H. cbn [trim_left]. by rewrite H. Qed.

Lemma trim_left_2 c d (s : string) :
  space1 c = false -> space2 c d = true -> trim_left (String c (String d s)) = trim_left s.
Proof. intros H1 H2. cbn [trim_left]. by rewrite H1, H2. Qed.

Lemma trim_left_3 c d e (s : string) :
  space1 c = false -> space2 c d = false -> space3 c d e = true ->
  trim_left (String c (String d (String e s))) = trim_left s.
Proof. intros H1 H2 H3. cbn [trim_left]. by rewrite H1, H2, H3. Qed.

(** What [trim_left] leaves does not start with white space. *)
Lemma lead_trim_left (s : string) : lead (trim_left s) = false.
Proof.
  induction s as [c s H IH|c d s H1 H2 IH|c d e s H1 H2 H3 IH|s H] using trim_left_ind.
  - by rewrite trim_left_1.
  - by rewrite trim_left_2.
  - by rewrite trim_left_3.
  - by rewrite trim_left_stop.
Qed.

Lemma trim_left_idemp (s : string) : trim_left (trim_left s) = trim_left s.
Proof. apply trim_left_stop, lead_trim_left. Qed.

Lemma all_space_spec (s : string) : all_space s = true <-> trim_left s = "".
Proof. apply bool_decide_eq_true. Qed.

(** White space first: what is left of the whole is left of the rest. *)
Lemma trim_left_app (a b : string) : all_space a = true -> trim_left (a +:+ b) = trim_left b.
Proof.
  rewrite all_space_spec.
  induction a as [c s H IH|c d s H1 H2 IH|c d e s H1 H2 H3 IH|s H] using trim_left_ind.
  - rewrite trim_left_1 by done. intros. rewrite !sapp_cons, trim_left_1 by done. auto.
  - rewrite trim_left_2 by done. intros. rewrite !sapp_cons, trim_left_2 by done. auto.
  - rewrite trim_left_3 by done. intros. rewrite !sapp_cons, trim_left_3 by done. auto.
  - rewrite trim_left_stop by done. by intros ->.
Qed.

Lemma all_space_app (a b : string) :
  all_space a = true -> all_space b = true -> all_space (a +:+ b) = true.
Proof. intros Ha Hb. apply all_space_spec. rewrite trim_left_app by done. by apply all_space_spec. Qed.

(** [trim_right] cuts off a white space suffix. *)
Lemma trim_right_split (s : string) : exists t, s = trim_right s +:+ t /\ all_space t = true.
Proof.
  induction s as [|c s (t & Es & Ht)]; [by exists ""|].
  cbn [trim_right]. destruct (all_space (String c s)) eqn:E.
  - by exists (String c s).
  - exists t. split; [|done]. simpl. by rewrite Es at 1.
Qed.

Lemma lead_prefix (a b : string) : lead (a +:+ b) = false -> lead a = false.
Proof.
  destruct a as [|c [|d [|e a]]]; [done|..]; simpl; [|destruct b|done];
    rewrite ?orb_false_iff; intros; destruct_and?; by rewrite ?orb_false_iff.
Qed.

Lemma trim_right_idemp (s : string) : trim_right (trim_right s) = trim_right s.
Proof.
  induction s as [|c s IH]; [done|].
  cbn [trim_right]. destruct (all_space (String c s)) eqn:E; [done|].
  cbn [trim_right]. rewrite IH.
  destruct (all_space (String c (trim_right s))) eqn:E'; [|done].
  destruct (trim_right_split s) as (t & Es & Ht).
  enough (all_space (String c s) = true) by congruence.
  rewrite Es, <- sapp_cons. by apply all_space_app.
Qed.

Lemma trim_right_all_space (s : string) : all_space s = true -> trim_right s = "".
Proof. destruct s; [done|]. cbn [trim_right]. by intros ->. Qed.

Lemma trim_right_cons c (s : string) :
  all_space (String c s) = false -> trim_right (String c s) = String c (trim_right s).
Proof. cbn [trim_right]. by intros ->. Qed.

Lemma all_space_stop c (s : string) : lead (String c s) = false -> all_space (String c s) = false.
Proof. intros. apply bool_decide_eq_false. by rewrite trim_left_stop. Qed.

(** Trimming the two ends commutes. *)
Lemma trim_left_right (s : string) : trim_left (trim_right s) = trim_right (trim_left s).
Proof.
  destruct (all_space s) eqn:Es.
  { rewrite trim_right_all_space by done. apply all_space_spec in Es. by rewrite Es. }
  revert Es.
  induction s as [c s H IH|c d s H1 H2 IH|c d e s H1 H2 H3 IH|s H] using trim_left_ind;
    intros Es.
  - rewrite trim_right_cons, !trim_left_1 by done. apply IH.
    revert Es. unfold all_space. by rewrite trim_left_1.
  - rewrite trim_right_cons, trim_right_cons, !trim_left_2 by
      eauto using all_space_stop, lead_cont, space2_cont.
    apply IH. revert Es. unfold all_space. by rewrite trim_left_2.
  - pose proof (space3_cont _ _ _ H3) as [? ?].
    rewrite trim_right_cons, trim_right_cons, trim_right_cons, !trim_left_3 by
      eauto using all_space_stop, lead_cont.
    apply IH. revert Es. unfold all_space. by rewrite trim_left_3.
  - rewrite (trim_left_stop s) by done. apply trim_left_stop.
    destruct (trim_right_split s) as (t & E & _). rewrite E in H. by eapply lead_prefix.
Qed.

Lemma TrimSpace_idemp (s : string) : TrimSpace (TrimSpace s) = TrimSpace s.
Proof.
  unfold TrimSpace. rewrite trim_left_right, trim_left_idemp. apply trim_right_idemp.
Qed.

(** [TrimSpace s] is [s] without a white space prefix and a white space suffix. *)
Lemma trim_left_split (s : string) : exists t, s = t +:+ trim_left s /\ all_space t = true.
Proof.
  induction s as [c s H IH|c d s H1 H2 IH|c d e s H1 H2 H3 IH|s H] using trim_left_ind.
  - destruct IH as (t & E & Ht). exists (String c t). rewrite trim_left_1 by done.
    split; [by simpl; rewrite E at 1|]. apply all_space_spec. rewrite trim_left_1 by done.
    by apply all_space_spec.
  - destruct IH as (t & E & Ht). exists (String c (String d t)). rewrite trim_left_2 by done.
    split; [by simpl; rewrite E at 1|]. apply all_space_spec. rewrite trim_left_2 by done.
    by apply all_space_spec.
  - destruct IH as (t & E & Ht). exists (String c (String d (String e t))).
    rewrite trim_left_3 by done.
    split; [by simpl; rewrite E at 1|]. apply all_space_spec. rewrite trim_left_3 by done.
    by apply all_space_spec.
  - exists "". by rewrite trim_left_stop.
Qed.

Lemma TrimSpace_split (s : string) :
  exists a b, s = a +:+ TrimSpace s +:+ b /\ all_space a = true /\ all_space b = true.
Proof.
  destruct (trim_left_split s) as (a & Ea & Ha).
  destruct (trim_right_split (trim_left s)) as (b & Eb & Hb).
  exists a, b. split; [|done]. unfold TrimSpace. by rewrite <- Eb.
Qed.

(** A leading blank does not matter. *)
Lemma TrimSpace_1 c (s : string) : space1 c = true -> TrimSpace (String c s) = TrimSpace s.
Proof. intros. unfold TrimSpace. by rewrite trim_left_1. Qed.

Lemma TrimSpace_trim_right (s : string) : TrimSpace (trim_right s) = TrimSpace s.
Proof. unfold TrimSpace. rewrite trim_left_right. apply trim_right_idemp. Qed.

(** A solid byte is ASCII and not white space: it belongs to no white space
    character, so no trimming crosses it. *)
Definition solid (c : ascii) : bool := (byte_of c <? 128)%N && negb (space1 c).

Lemma lead_solid c (s : string) : solid c = true -> lead (String c s) = false.
Proof.
  intros H. unfold solid in H. cbn [lead].
  assert (space1 c = false) as -> by lia.
  destruct s as [|d s]; [done|]. assert (space2 c d = false) as -> by bytes_lia.
  destruct s as [|e s]; [done|]. simpl. bytes_lia.
Qed.

Lemma all_space_solid c (a b : string) : solid c = true -> all_space (a +:+ String c b) = false.
Proof.
  intros Hc. apply bool_decide_eq_false.
  assert (Hn : cont c = false) by (unfold solid in Hc; bytes_lia).
  induction a as [d s H IH|d e s H1 H2 IH|d e f s H1 H2 H3 IH|s H] using trim_left_ind.
  - by rewrite sapp_cons, trim_left_1.
  - by rewrite !sapp_cons, trim_left_2.
  - by rewrite !sapp_cons, trim_left_3.
  - enough (lead (s +:+ String c b) = false) as E by (rewrite trim_left_stop by done; by destruct s).
    destruct s as [|d [|e [|f s]]]; [by apply lead_solid|..|done]; simpl in *;
      rewrite ?orb_false_iff in *; destruct_and?; split_and?; try done.
    + by destruct (space2 d c) eqn:E; [apply space2_cont in E; congruence|].
    + destruct b as [|g b]; [done|].
      by destruct (space3 d c g) eqn:E; [apply space3_cont in E as []; congruence|].
    + by destruct (space3 d e c) eqn:E; [apply space3_cont in E as []; congruence|].
Qed.

Lemma trim_right_solid c (a b : string) :
  solid c = true -> trim_right (a +:+ String c b) = a +:+ String c (trim_right b).
Proof.
  intros Hc. induction a as [|d a IH].
  - apply trim_right_cons. by apply (all_space_solid c "" b).
  - rewrite sapp_cons, trim_right_cons; [by rewrite IH|].
    by apply (all_space_solid c (String d a) b).
Qed.

(** Trimming text that starts with a solid byte and has another further on. *)
Lemma TrimSpace_solid c d (a b : string) :
  solid c = true -> solid d = true ->
  TrimSpace (String c a +:+ String d b) = String c a +:+ String d (trim_right b).
Proof.
  intros Hc Hd. unfold TrimSpace. rewrite trim_left_stop.
  - by apply trim_right_solid.
  - rewrite sapp_cons. by apply lead_solid.
Qed.

Lemma lacks_app c (a b : string) : lacks c (a +:+ b) = lacks c a && lacks c b.
Proof. induction a; simpl; [done|]. by rewrite IHa, andb_assoc. Qed.

(** Text before the first occurrence of a single byte lacks that byte. *)
Lemma Cut_lacks c (s a b : string) : Cut s (String c "") = (a, b, true) -> lacks c a = true.
Proof.
  unfold Cut. destruct (Index s (String c "")) as [i|] eqn:E; [|done]. intros [= <- _].
  revert i E. induction s as [|d s IH]; intros i; cbn [Index HasPrefix]; [done|].
  rewrite andb_true_r. destruct (Ascii.eqb c d) eqn:Ed; [by intros [= <-]|].
  destruct (Index s (String c "")) as [j|]; [|done]. intros [= <-].
  cbn [stake lacks]. rewrite Ed. simpl. by apply IH.
Qed.

(** ** Package [path/filepath] *)

(** The parts of [s] between slashes. *)
Fixpoint split_slash (cur s : string) : list string :=
  match s with
  | EmptyString => [cur]
  | String c s' =>
      if Ascii.eqb c "/" then cur :: split_slash "" s' else split_slash (cur +:+ String c "") s'
  end.

(** One step of [filepath.Clean] over the parts, the stack held top first. *)
Definition clean_step (rooted : bool) (stack : list string) (part : string) : list string :=
  if bool_decide (part = "") || bool_decide (part = ".") then stack
  else if bool_decide (part = "..") then
    match stack with
    | [] => if rooted then [] else [".."]
    | top :: rest => if bool_decide (top = "..") then ".." :: stack else rest
    end
  else part :: stack.

Definition Clean (p : string) : string :=
  let rooted := HasPrefix p "/" in
  let out := (if rooted then "/" else "")
             +:+ Join (reverse (foldl (clean_step rooted) [] (split_slash "" p))) "/" in
  if bool_decide (out = "") then "." else out.

(** [filepath.Join] of two elements; empty elements are ignored. *)
Definition JoinPath (a b : string) : string :=
  if bool_decide (a = "") then (if bool_decide (b = "") then "" else Clean b)
  else if bool_decide (b = "") then Clean a else Clean (a +:+ "/" +:+ b).

(** ** Lemmas: the last occurrence of a byte *)

Lemma LastIndex_none c (s : string) : lacks c s = true -> LastIndex s (String c "") = None.
Proof.
  induction s as [|d s IH]; cbn [lacks LastIndex HasPrefix]; [done|].
  rewrite andb_true_iff, negb_true_iff. intros [Hd Hs]. by rewrite (IH Hs), Hd.
Qed.

Lemma LastIndex_last c (a b : string) :
  lacks c b = true -> LastIndex (a +:+ String c b) (String c "") = Some (len a).
Proof.
  intros Hb. induction a as [|d a IH].
  - change ("" +:+ String c b) with (String c b); cbn [LastIndex HasPrefix]. by rewrite (LastIndex_none _ _ Hb), Ascii.eqb_refl.
  - rewrite sapp_cons. cbn [LastIndex]. by rewrite IH.
Qed.

Lemma split_last c (s : string) :
  lacks c s = true \/ exists a b, s = a +:+ String c b /\ lacks c b = true.
Proof.
  induction s as [|d s [H|(a & b & -> & H)]]; [by left| |].
  - cbn [lacks]. rewrite H, andb_true_r. destruct (Ascii.eqb c d) eqn:E; [right|by left].
    apply Ascii.eqb_eq in E as ->. by exists "", s.
  - right. by exists (String d a), b.
Qed.

Lemma Contains_Join (l : list string) (sep x : string) :
  x ∈ l -> Contains (Join l sep) x = true.
Proof.
  induction l as [|y l IH]; [by intros ?%elem_of_nil|].
  intros [->|Hx]%elem_of_cons; destruct l as [|z l]; cbn [Join].
  - rewrite <- (sapp_nil_r y) at 1. apply Contains_prefix, HasPrefix_app.
  - apply Contains_prefix, HasPrefix_app.
  - by apply elem_of_nil in Hx.
  - by apply Contains_app_l, Contains_app_l, IH.
Qed.
