(* ===== verification/GoRunes.v ===== *)
(** * [strings.ToLower]: UTF-8 decoding, case mapping, encoding

    [decode] is [utf8.DecodeRuneInString], [encode_rune] is
    [utf8.AppendRune] and [ToLower] is [strings.Map(unicode.ToLower, s)], which
    the package's ASCII fast path computes faster. Unicode's case table above
    ASCII is a parameter. *)

From S2P Require Import Prelude GoStrings.
Local Open Scope N_scope.

(** [unicode.ToLower] on runes outside ASCII. *)
Class UnicodeTables := unicode_ToLower_wide : N -> N.

Definition RuneError : N := 65533.

Definition between (lo hi : N) (c : ascii) : bool := (lo <=? byte_of c) && (byte_of c <=? hi).

(** The accepted range of the second byte after the lead byte [b0]. *)
Definition second_ok (b0 : N) (c : ascii) : bool :=
  if b0 =? 224 then between 160 191 c
  else if b0 =? 237 then between 128 159 c
  else if b0 =? 240 then between 144 191 c
  else if b0 =? 244 then between 128 143 c
  else between 128 191 c.

Definition low6 (c : ascii) : N := byte_of c mod 64.

(** The first rune and the bytes behind it; a byte that starts no valid
    encoding is [RuneError] of width 1. *)
Definition decode (s : string) : N * string :=
  match s with
  | EmptyString => (RuneError, EmptyString)
  | String c s1 =>
      let b0 := byte_of c in
      if b0 <? 128 then (b0, s1)
      else if between 194 223 c then
        match s1 with
        | String c1 s2 =>
            if second_ok b0 c1 then ((b0 mod 32) * 64 + low6 c1, s2) else (RuneError, s1)
        | _ => (RuneError, s1)
        end
      else if between 224 239 c then
        match s1 with
        | String c1 (String c2 s3) =>
            if second_ok b0 c1 && cont c2
            then ((b0 mod 16) * 4096 + low6 c1 * 64 + low6 c2, s3) else (RuneError, s1)
        | _ => (RuneError, s1)
        end
      else if between 240 244 c then
        match s1 with
        | String c1 (String c2 (String c3 s4)) =>
            if second_ok b0 c1 && cont c2 && cont c3
            then ((b0 mod 8) * 262144 + low6 c1 * 4096 + low6 c2 * 64 + low6 c3, s4)
            else (RuneError, s1)
        | _ => (RuneError, s1)
        end
      else (RuneError, s1)
  end.

(** [for _, r := range s]; the length of [s] is enough fuel, every rune takes a
    byte at least. *)
Fixpoint runes_fuel (n : nat) (s : string) : list N :=
  match n, s with
  | S n', String _ _ => let '(r, s') := decode s in r :: runes_fuel n' s'
  | _, _ => []
  end.

Definition runes (s : string) : list N := runes_fuel (String.length s) s.

Definition byte_string (l : list N) : string := foldr (fun n => String (ascii_of_N n)) "" l.

Definition encode_rune (r : N) : string :=
  if r <? 128 then byte_string [r]
  else if r <? 2048 then byte_string [192 + r / 64; 128 + r mod 64]
  else if ((55296 <=? r) && (r <=? 57343)) || (1114111 <? r) then byte_string [239; 191; 189]
  else if r <? 65536 then byte_string [224 + r / 4096; 128 + (r / 64) mod 64; 128 + r mod 64]
  else byte_string [240 + r / 262144; 128 + (r / 4096) mod 64; 128 + (r / 64) mod 64; 128 + r mod 64].

Definition lower_ascii (b : N) : N := if (65 <=? b) && (b <=? 90) then b + 32 else b.

Section to_lower.
Context {U : UnicodeTables}.

(** [unicode.ToLower]. *)
Definition lower_rune (r : N) : N := if r <? 128 then lower_ascii r else unicode_ToLower_wide r.

Definition encode_all (l : list N) : string := foldr (fun r s => encode_rune r +:+ s) "" l.

Definition ToLower (s : string) : string := encode_all (lower_rune <$> runes s).

End to_lower.

(** All bytes are ASCII. *)
Fixpoint is_ascii (s : string) : bool :=
  match s with EmptyString => true | String c s' => (byte_of c <? 128) && is_ascii s' end.

Fixpoint ascii_lower (s : string) : string :=
  match s with
  | EmptyString => EmptyString
  | String c s' => String (ascii_of_N (lower_ascii (byte_of c))) (ascii_lower s')
  end.

(** ** Lemmas *)

Lemma encode_all_app (a b : list N) : encode_all (a ++ b) = encode_all a +:+ encode_all b.
Proof. induction a; simpl; [done|]. by rewrite IHa, sapp_assoc. Qed.

(** A rune takes at least one byte. *)
Lemma decode_length c (s : string) :
  (String.length (snd (decode (String c s))) < String.length (String c s))%nat.
Proof.
  cbn [decode]. destruct s as [|c1 [|c2 [|c3 s]]]; repeat case_match; simpl in *; simplify_eq; lia.
Qed.

Lemma runes_fuel_enough n m (s : string) :
  (String.length s <= n)%nat -> (String.length s <= m)%nat -> runes_fuel n s = runes_fuel m s.
Proof.
  revert m s. induction n as [|n IH]; intros [|m] [|c s]; simpl (String.length _); try (done || lia).
  intros. cbn [runes_fuel]. pose proof (decode_length c s) as Hd.
  destruct (decode (String c s)) as [r s']. simpl in Hd. f_equal. apply IH; lia.
Qed.

Lemma runes_cons c (s : string) :
  runes (String c s) = fst (decode (String c s)) :: runes (snd (decode (String c s))).
Proof.
  unfold runes. cbn [String.length runes_fuel]. pose proof (decode_length c s) as Hd.
  destruct (decode (String c s)) as [r s']. simpl in *. f_equal. apply runes_fuel_enough; lia.
Qed.

(** An ASCII byte ends whatever was being decoded. *)
Lemma decode_app_ascii c (a b : string) :
  byte_of c < 128 -> a <> "" ->
  decode (a +:+ String c b) = (fst (decode a), snd (decode a) +:+ String c b).
Proof.
  intros Hc Ha.
  assert (Hs : forall b0, second_ok b0 c = false).
  { intros. unfold second_ok, between. repeat case_match; lia. }
  assert (Ht : cont c = false) by (unfold cont; lia).
  destruct a as [|c0 [|c1 [|c2 [|c3 a]]]]; [done|..]; simpl; rewrite ?Hs, ?Ht, ?andb_false_r;
    repeat case_match; simplify_eq; try done.
Qed.

Lemma runes_app_ascii c (a b : string) :
  byte_of c < 128 -> runes (a +:+ String c b) = runes a ++ byte_of c :: runes b.
Proof.
  intros Hc. remember (String.length a) as n eqn:En. revert a En.
  induction n as [n IH] using lt_wf_ind. intros a ->.
  destruct a as [|d a].
  - simpl. rewrite runes_cons. cbn [decode]. by rewrite (proj2 (N.ltb_lt _ _) Hc).
  - rewrite sapp_cons, runes_cons, <- sapp_cons, decode_app_ascii by done.
    rewrite (runes_cons d a). simpl fst. simpl snd. rewrite <- app_comm_cons. f_equal.
    eapply IH; [apply decode_length|done].
Qed.

Lemma runes_ascii_l (p b : string) :
  is_ascii p = true -> runes (p +:+ b) = (byte_of <$> String.list_ascii_of_string p) ++ runes b.
Proof.
  induction p as [|c p IH]; [done|]. cbn [is_ascii]. rewrite andb_true_iff. intros [Hc Hp].
  rewrite sapp_cons, runes_cons. cbn [decode]. rewrite Hc. cbn [fst snd]. by rewrite (IH Hp).
Qed.

Section to_lower_lemmas.
Context `{U : UnicodeTables}.

Lemma encode_all_ascii (p : string) :
  is_ascii p = true ->
  encode_all (lower_rune <$> (byte_of <$> String.list_ascii_of_string p)) = ascii_lower p.
Proof.
  induction p as [|c p IH]; [done|]. cbn [is_ascii]. rewrite andb_true_iff. intros [Hc Hp].
  cbn. fold (encode_all (lower_rune <$> (byte_of <$> String.list_ascii_of_string p))).
  rewrite (IH Hp). unfold lower_rune. rewrite Hc.
  assert ((lower_ascii (byte_of c) <? 128) = true) as E by (unfold lower_ascii; case_match; lia).
  unfold encode_rune. by rewrite E.
Qed.

(** Case folding works in place on an ASCII part, whatever surrounds it. *)
Lemma ToLower_app_ascii (p a b : string) :
  is_ascii p = true -> p <> "" ->
  ToLower (a +:+ p +:+ b) = ToLower a +:+ ascii_lower p +:+ ToLower b.
Proof.
  intros Hp Hne. destruct p as [|c p]; [done|].
  cbn [is_ascii] in Hp. apply andb_true_iff in Hp as [Hc Hp].
  unfold ToLower. rewrite sapp_cons, runes_app_ascii by lia.
  rewrite runes_ascii_l by done.
  rewrite fmap_app, fmap_cons, fmap_app, encode_all_app. f_equal.
  rewrite <- (encode_all_ascii (String c p)) by (cbn; by rewrite Hc).
  rewrite <- encode_all_app. done.
Qed.

Lemma ToLower_ascii (p : string) : is_ascii p = true -> ToLower p = ascii_lower p.
Proof.
  intros Hp. destruct p as [|c p]; [done|].
  pose proof (ToLower_app_ascii (String c p) "" "" Hp ltac:(done)) as E.
  rewrite sapp_nil_r in E. cbn in E |- *. rewrite E. by rewrite sapp_nil_r.
Qed.

End to_lower_lemmas.
