(* ===== verification/Ccerr.v ===== *)
(** * Package ccerr: coded chaincode errors (ccerr/ccerr.go)

    [Error] renders a coded error as "CODE: message"; [Parse] reads it back,
    also behind the prefix the Gateway puts before non-500 chaincode responses.
    [New] and [Is] handle Go [error] values and live in Errors.v. *)

From S2P Require Import Prelude GoStrings.

Module ccerr.

Definition Code := string.

Definition InvalidArgument : Code := "INVALID_ARGUMENT".
Definition NotFound : Code := "NOT_FOUND".
Definition AlreadyExists : Code := "ALREADY_EXISTS".
Definition Conflict : Code := "CONFLICT".
Definition Unauthorized : Code := "UNAUTHORIZED".
Definition FailedPrecondition : Code := "FAILED_PRECONDITION".

(** [map[Code]struct{}], a set. *)
Definition known : gset string :=
  {[ InvalidArgument; NotFound; AlreadyExists; Conflict; Unauthorized; FailedPrecondition ]}.

Record Error := mkError { Error_Code : Code; Error_Message : string }.

#[global] Instance Error_eq_dec : EqDecision Error.
Proof. solve_decision. Defined.

(** The method [Error] of [Error]. *)
Definition Error_Error (e : Error) : string := Error_Code e +:+ ": " +:+ Error_Message e.

(** The part of [Parse] that strips "chaincode response NNN, ". *)
Definition strip_response (m : string) : string :=
  if HasPrefix m "chaincode response " then
    match Index m ", " with Some i => sdrop (i + 2) m | None => m end
  else m.

Definition Parse (message : string) : Code * string * bool :=
  let m := strip_response (TrimSpace message) in
  let '(head, rest, found) := Cut m ":" in
  if negb found then ("", message, false) else
  let c := TrimSpace head in
  if decide (c ∈ known) then (c, TrimSpace rest, true) else ("", message, false).

(** ** Lemmas *)

Lemma known_cases c :
  c ∈ known ->
  c = InvalidArgument \/ c = NotFound \/ c = AlreadyExists \/ c = Conflict
  \/ c = Unauthorized \/ c = FailedPrecondition.
Proof. unfold known. rewrite !elem_of_union, !elem_of_singleton. tauto. Qed.

(** A known code starts with a solid byte, holds no colon and needs no trimming. *)
Lemma known_shape c :
  c ∈ known ->
  exists d s, c = String d s /\ solid d = true /\ lacks ":" c = true /\ TrimSpace c = c
    /\ Ascii.eqb "c" d = false.
Proof.
  intros H. destruct (known_cases c H) as [->|[->|[->|[->|[->| ->]]]]];
    do 2 eexists; split_and!; vm_compute; reflexivity.
Qed.

(** What [Parse] does once the code and the colon are exposed. *)
Lemma Parse_exposed message c rest :
  c ∈ known -> strip_response (TrimSpace message) = c +:+ ":" +:+ rest ->
  Parse message = (c, TrimSpace rest, true).
Proof.
  intros Hc E. unfold Parse. rewrite E.
  destruct (known_shape c Hc) as (d & s & _ & _ & Hl & Ht & _).
  rewrite (Cut_fresh ":" "" c rest Hl). simpl. rewrite Ht. by rewrite decide_True.
Qed.

Lemma strip_response_code c s :
  c ∈ known -> strip_response (c +:+ s) = c +:+ s.
Proof.
  intros Hc. destruct (known_shape c Hc) as (d & c' & -> & _ & _ & _ & Hd).
  unfold strip_response. rewrite sapp_cons. cbn [HasPrefix]. by rewrite Hd.
Qed.

(** The text [Parse] returns for a rendered message. *)
Lemma TrimSpace_message msg : TrimSpace (trim_right (String " " msg)) = TrimSpace msg.
Proof. rewrite TrimSpace_trim_right. by apply TrimSpace_1. Qed.

Lemma TrimSpace_render c msg :
  c ∈ known ->
  TrimSpace (c +:+ ": " +:+ msg) = c +:+ ":" +:+ trim_right (String " " msg).
Proof.
  intros Hc. destruct (known_shape c Hc) as (d & c' & -> & Hd & _).
  by apply (TrimSpace_solid d ":" c' (String " " msg)).
Qed.

Lemma Parse_false message c text : Parse message = (c, text, false) -> c = "" /\ text = message.
Proof.
  unfold Parse. destruct (Cut _ ":") as [[head rest] []]; simpl; [|by intros [= <- <-]].
  case_decide; [done|]. by intros [= <- <-].
Qed.

Lemma strip_response_response nnn s :
  lacks "," nnn = true ->
  strip_response ("chaincode response " +:+ nnn +:+ ", " +:+ s) = s.
Proof.
  intros Hn. unfold strip_response. rewrite HasPrefix_app.
  rewrite <- (sapp_assoc "chaincode response ").
  rewrite (Index_fresh "," " " ("chaincode response " +:+ nnn) s).
  - rewrite <- sapp_assoc. change 2 with (String.length ", ").
    by rewrite <- slen_app, sdrop_app.
  - by rewrite lacks_app, Hn.
Qed.

(** What it means for a message to carry a code, said without the algorithm:
    after trimming, and behind a Gateway response prefix if there is one, the
    text up to the first colon is a known code. *)
Inductive coded (message : string) : Code -> string -> Prop :=
| coded_intro head rest :
    strip_response (TrimSpace message) = head +:+ ":" +:+ rest ->
    lacks ":" head = true ->
    TrimSpace head ∈ known ->
    coded message (TrimSpace head) (TrimSpace rest).

Lemma coded_known message c text : coded message c text -> c ∈ known /\ TrimSpace text = text.
Proof. intros [head rest _ _ H]. split; [done|]. apply TrimSpace_idemp. Qed.

(** ** Properties *)

(** C36. Round trip: for every known code, [Parse] reads back the code of a
    message rendered by [Error.Error], with the message's surrounding white
    space removed. *)
Theorem Parse_render (e : Error) :
  Error_Code e ∈ known ->
  Parse (Error_Error e) = (Error_Code e, TrimSpace (Error_Message e), true).
Proof.
  destruct e as [c msg]. unfold Error_Error; cbn [Error_Code Error_Message]. intros Hc.
  rewrite <- (TrimSpace_message msg). apply Parse_exposed; [done|].
  rewrite TrimSpace_render by done. by apply strip_response_code.
Qed.

(** [Parse] is exactly the relation [coded]: it answers [ok] with a code and
    a text if and only if the message carries that code and text. *)
Theorem Parse_iff_coded (message : string) (c : Code) (text : string) :
  Parse message = (c, text, true) <-> coded message c text.
Proof.
  split.
  - unfold Parse. destruct (Cut _ ":") as [[head rest] found] eqn:E.
    destruct found; simpl; [|done]. case_decide as Hk; [|done]. intros [= <- <-].
    apply coded_intro; [by apply Cut_sound| |done]. by eapply Cut_lacks.
  - intros [head rest E Hl Hk]. unfold Parse. rewrite E.
    rewrite (Cut_fresh ":" "" head rest Hl). simpl. by rewrite decide_True.
Qed.

(** The same round trip behind the prefix "chaincode response NNN, " that
    the Gateway puts before non-500 responses, whatever the status text is as
    long as it holds no comma. *)
Theorem Parse_render_response (e : Error) (nnn : string) :
  Error_Code e ∈ known -> lacks "," nnn = true ->
  Parse ("chaincode response " +:+ nnn +:+ ", " +:+ Error_Error e)
  = (Error_Code e, TrimSpace (Error_Message e), true).
Proof.
  destruct e as [c msg]. unfold Error_Error; cbn [Error_Code Error_Message]. intros Hc Hn.
  rewrite <- (TrimSpace_message msg). apply Parse_exposed; [done|].
  pose proof (TrimSpace_solid "c" ":" ("haincode response " +:+ nnn +:+ ", " +:+ c)
                (String " " msg) eq_refl eq_refl) as E.
  rewrite <- (strip_response_response nnn (c +:+ ":" +:+ trim_right (String " " msg))) by done.
  f_equal. rewrite <- !sapp_cons, !sapp_assoc in E. exact E.
Qed.

(** Stability: a parsed message, rendered again and parsed again, gives the
    same code and text, so relaying an error loses nothing more. *)
Theorem Parse_stable (message : string) (c : Code) (text : string) :
  Parse message = (c, text, true) ->
  Parse (Error_Error (mkError c text)) = (c, text, true).
Proof.
  intros [Hk Ht]%Parse_iff_coded%coded_known.
  rewrite Parse_render by done. simpl. by rewrite Ht.
Qed.


End ccerr.
