(* ===== verification/Errors.v ===== *)
(** * Structured errors (errors.go, and the error values of the other files)

    Go's [error] interface is the inductive [error]: one constructor per error
    type the program builds or inspects, [externalError] for every other one.
    [errors.As] and [errors.Is] search [chain], the pre-order walk of the
    [Unwrap] tree. *)

From S2P Require Import Prelude GoStrings Ccerr.

(** ** Data *)

(** gRPC status codes: the ones the program names, and the rest. *)
Module codes.

Inductive Code :=
| OK | Canceled | Unknown | InvalidArgument | DeadlineExceeded | NotFound | PermissionDenied
| FailedPrecondition | Aborted | Unavailable | Unauthenticated | Other (n : N).

#[global] Instance Code_eq_dec : EqDecision Code.
Proof. solve_decision. Defined.

End codes.

Definition Kind := string.

Definition KindInvalidArgument : Kind := "invalid_argument".
Definition KindNotFound : Kind := "not_found".
Definition KindAlreadyExists : Kind := "already_exists".
Definition KindConflict : Kind := "conflict".
Definition KindUnauthorized : Kind := "unauthorized".
Definition KindFailedPrecondition : Kind := "failed_precondition".
Definition KindChaincode : Kind := "chaincode".
Definition KindEndorsement : Kind := "endorsement".
Definition KindSubmit : Kind := "submit".
Definition KindCommitFailed : Kind := "commit_failed".
Definition KindOutcomeUnknown : Kind := "outcome_unknown".
Definition KindTimeout : Kind := "timeout".
Definition KindUnavailable : Kind := "unavailable".
Definition KindCanceled : Kind := "canceled".
Definition KindConfig : Kind := "config".
Definition KindInternal : Kind := "internal".

Definition ErrorSource := string.

Definition SourceSDK : ErrorSource := "sdk".
Definition SourceChaincode : ErrorSource := "chaincode".
Definition SourceNetwork : ErrorSource := "network".

(** [peer.TxValidationCode], an int32; its zero value is 0. *)
Definition TxValidationCode := Z.

Record ErrorDetail := mkErrorDetail {
  Detail_Address : string;
  Detail_MSPID : string;
  Detail_Message : string }.

(** The struct [Error], over the type of its [Cause]. *)
Record Error_ (E : Type) := mkError {
  Error_Kind : Kind;
  Error_Source : ErrorSource;
  Error_Code : Z;
  Error_Message : string;
  Error_TxID : string;
  Error_ValidationCode : TxValidationCode;
  Error_GRPCCode : codes.Code;
  Error_Details : list ErrorDetail;
  Error_OutcomeUnknown : bool;
  Error_Cause : option E }.

Arguments mkError {E}.
Arguments Error_Kind {E}. Arguments Error_Source {E}. Arguments Error_Code {E}.
Arguments Error_Message {E}. Arguments Error_TxID {E}. Arguments Error_ValidationCode {E}.
Arguments Error_GRPCCode {E}. Arguments Error_Details {E}. Arguments Error_OutcomeUnknown {E}.
Arguments Error_Cause {E}.

(** The error variables the program compares by identity. *)
Inductive Sentinel := context_Canceled | context_DeadlineExceeded | ErrStreamClosed.

#[export] Instance Sentinel_eq_dec : EqDecision Sentinel.
Proof. solve_decision. Defined.

(** What the program reads of fabric-gateway's [CommitError]. *)
Record CommitError := mkCommitError {
  CommitError_TransactionID : string;
  CommitError_Code : TxValidationCode;
  CommitError_text : string }.

(** Go's [error] values.
    - [errorString]: [errors.New];
    - [wrapError]: [fmt.Errorf] with one [%w]; the text is the rendered message;
    - [joinError]: [errors.Join] of non-nil errors;
    - [handlerError]: the wrapper of events.go, which has no [Unwrap] method;
    - [externalError]: a value of any other package's error type: its text, and
      what its [Unwrap] method gives, if it has one; the tag tells values apart.
      A foreign type whose own [Is] method accepts a context error has that
      sentinel among its causes. *)
#[warnings="-register-all"]
Inductive error :=
| errorString (msg : string)
| sentinelError (s : Sentinel)
| wrapError (text : string) (inner : error)
| joinError (errs : list error)
| ccerrError (e : ccerr.Error)
| sdkError (e : Error_ error)
| commitError (c : CommitError)
| handlerError (err : error)
| externalError (tag : N) (text : string) (causes : list error).

Abbreviation Error := (Error_ error).

Definition sentinel_text (s : Sentinel) : string :=
  match s with
  | context_Canceled => "context canceled"
  | context_DeadlineExceeded => "context deadline exceeded"
  | ErrStreamClosed => "event stream closed by the gateway"
  end.

(** The method [Error] of [Error]. *)
Definition Error_Error (e : Error) : string :=
  "fabricsdk: " +:+ Error_Kind e
  +:+ (if decide (Error_TxID e = "") then "" else " (tx " +:+ Error_TxID e +:+ ")")
  +:+ (if decide (Error_Message e = "") then "" else ": " +:+ Error_Message e).

(** [err.Error()]. *)
Fixpoint error_text (err : error) : string :=
  match err with
  | errorString msg => msg
  | sentinelError s => sentinel_text s
  | wrapError text _ => text
  | joinError errs => Join (map error_text errs) (String "010" "")
  | ccerrError e => ccerr.Error_Error e
  | sdkError e => Error_Error e
  | commitError c => CommitError_text c
  | handlerError err => error_text err
  | externalError _ text _ => text
  end.

(** The method [Unwrap] of [Error]. *)
Definition Error_Unwrap (e : Error) : option error := Error_Cause e.

(** The pre-order walk of the [Unwrap] tree that [errors.As] and [errors.Is]
    search. *)
Fixpoint chain (err : error) : list error :=
  err ::
  match err with
  | wrapError _ inner => chain inner
  | joinError errs => flat_map chain errs
  | sdkError e => match Error_Cause e with Some cause => chain cause | None => [] end
  | externalError _ _ causes => flat_map chain causes
  | _ => []
  end.

(** [errors.As] for the target types the program uses, on a nilable error. *)
Definition errors_As {A} (f : error -> option A) (err : option error) : option A :=
  match err with Some err => first_some f (chain err) | None => None end.

Definition is_sdk (err : error) : option Error :=
  match err with sdkError e => Some e | _ => None end.
Definition is_commit (err : error) : option CommitError :=
  match err with commitError c => Some c | _ => None end.
Definition is_handler (err : error) : option error :=
  match err with handlerError err => Some err | _ => None end.
Definition is_ccerr (err : error) : option ccerr.Error :=
  match err with ccerrError e => Some e | _ => None end.

(** [errors.Is] against one of the sentinels. *)
Definition errors_Is (err : error) (s : Sentinel) : bool :=
  existsb (fun e => match e with sentinelError s' => bool_decide (s' = s) | _ => false end)
    (chain err).

(** [fmt.Errorf(prefix+"%w", err)]. *)
Definition Errorf_w (prefix : string) (err : error) : error :=
  wrapError (prefix +:+ error_text err) err.

(** [errors.Join]: nil errors are dropped, nil when none is left. *)
Definition errors_Join (errs : list (option error)) : option error :=
  match omap id errs with [] => None | es => Some (joinError es) end.

(** ** Package ccerr on Go errors *)

(** [ccerr.New]; [sprintf] is [fmt.Sprintf] on the caller's arguments. *)
Definition ccerr_New {A} (sprintf : string -> list A -> string)
    (code : ccerr.Code) (format : string) (args : list A) : error :=
  ccerrError (ccerr.mkError code (sprintf format args)).

Definition ccerr_Is (err : option error) (code : ccerr.Code) : bool :=
  match errors_As is_ccerr err with
  | Some e => bool_decide (ccerr.Error_Code e = code)
  | None => false
  end.

(** ** Inspecting errors *)

Definition Retryable (e : Error) : bool :=
  if Error_OutcomeUnknown e then false
  else bool_decide (Error_Kind e ∈
    [KindConflict; KindUnavailable; KindTimeout; KindEndorsement; KindSubmit]).

Definition asError (err : option error) : option Error := errors_As is_sdk err.

Definition KindOf (err : option error) : Kind :=
  match asError err with Some e => Error_Kind e | None => "" end.

Definition TxIDOf (err : option error) : string :=
  match asError err with Some e => Error_TxID e | None => "" end.

Definition isKind (err : option error) (k : Kind) : bool := bool_decide (KindOf err = k).

Definition IsNotFound (err : option error) : bool := isKind err KindNotFound.
Definition IsAlreadyExists (err : option error) : bool := isKind err KindAlreadyExists.
Definition IsConflict (err : option error) : bool := isKind err KindConflict.
Definition IsUnauthorized (err : option error) : bool := isKind err KindUnauthorized.
Definition IsInvalidArgument (err : option error) : bool := isKind err KindInvalidArgument.
Definition IsTimeout (err : option error) : bool := isKind err KindTimeout.

Definition IsOutcomeUnknown (err : option error) : bool :=
  match asError err with Some e => Error_OutcomeUnknown e | None => false end.

Definition IsRetryable (err : option error) : bool :=
  match asError err with Some e => Retryable e | None => false end.

Definition IsChaincode (err : option error) : bool :=
  match asError err with
  | Some e => bool_decide (Error_Source e = SourceChaincode)
  | None => false
  end.

(** ** Building errors *)

Definition kindCode : gmap string Z := list_to_map [
  (KindInvalidArgument, 400%Z); (KindNotFound, 404%Z); (KindAlreadyExists, 409%Z);
  (KindConflict, 409%Z); (KindUnauthorized, 403%Z); (KindFailedPrecondition, 422%Z);
  (KindChaincode, 400%Z); (KindEndorsement, 502%Z); (KindSubmit, 502%Z);
  (KindCommitFailed, 500%Z); (KindOutcomeUnknown, 504%Z); (KindTimeout, 504%Z);
  (KindUnavailable, 503%Z); (KindCanceled, 499%Z); (KindConfig, 500%Z); (KindInternal, 500%Z) ].

(** A read of [kindCode]: the zero value for a missing key. *)
Definition kindCode_of (k : Kind) : Z := default 0%Z (kindCode !! k).

Definition newError (kind : Kind) (source : ErrorSource) (msg : string) : Error :=
  mkError kind source (kindCode_of kind) msg "" 0%Z codes.OK [] false None.

(** [configError] of config.go. *)
Definition configError (err : error) : error :=
  sdkError (mkError KindConfig SourceSDK 500%Z
    ("invalid configuration: " +:+ error_text err) "" 0%Z codes.OK [] false (Some err)).

(** ** Lemmas *)

(** Two nilable errors carry the same [Error]: the helpers cannot tell them
    apart. *)
Definition same_error (a b : option error) : Prop := asError a = asError b.

#[export] Instance same_error_equiv : Equivalence same_error.
Proof. unfold same_error. split; [done|by intros ??|by intros ??? ->]. Qed.

(** A helper reads its argument through [asError] only. *)
Ltac solve_same h := intros ?? E; unfold same_error in E; unfold h; by rewrite E.

#[export] Instance KindOf_proper : Proper (same_error ==> eq) KindOf.
Proof. solve_same KindOf. Qed.
#[export] Instance TxIDOf_proper : Proper (same_error ==> eq) TxIDOf.
Proof. solve_same TxIDOf. Qed.
#[export] Instance isKind_proper : Proper (same_error ==> eq ==> eq) isKind.
Proof. intros a b E k ? <-. unfold isKind. by rewrite (KindOf_proper _ _ E). Qed.
#[export] Instance IsOutcomeUnknown_proper : Proper (same_error ==> eq) IsOutcomeUnknown.
Proof. solve_same IsOutcomeUnknown. Qed.
#[export] Instance IsRetryable_proper : Proper (same_error ==> eq) IsRetryable.
Proof. solve_same IsRetryable. Qed.
#[export] Instance IsChaincode_proper : Proper (same_error ==> eq) IsChaincode.
Proof. solve_same IsChaincode. Qed.

Lemma asError_sdk (e : Error) : asError (Some (sdkError e)) = Some e.
Proof. done. Qed.

(** [wraps e o]: [o] is [e] under any stack of single-error wrappers. *)
Inductive wraps (e : error) : error -> Prop :=
| wraps_here : wraps e e
| wraps_errorf text o : wraps e o -> wraps e (wrapError text o)
| wraps_join o : wraps e o -> wraps e (joinError [o])
| wraps_external tag text o : wraps e o -> wraps e (externalError tag text [o]).

Lemma wraps_same (e o : error) : wraps e o -> same_error (Some o) (Some e).
Proof.
  unfold same_error, asError, errors_As. induction 1; [done|..]; simpl; by rewrite ?app_nil_r.
Qed.

(** The errors of every [errors.As] search come from the chain. *)
Lemma asError_None_chain (err : error) :
  asError (Some err) = None <-> Forall (fun e => is_sdk e = None) (chain err).
Proof. apply first_some_None. Qed.

(** ** Well-formed errors *)

Definition chaincode_kinds : list Kind :=
  [KindInvalidArgument; KindNotFound; KindAlreadyExists; KindConflict; KindUnauthorized;
   KindFailedPrecondition; KindChaincode].

(** The invariant of every [Error] the SDK builds: a known kind with its HTTP
    code, [OutcomeUnknown] exactly on the kind of that name, a known source,
    chaincode errors with a chaincode kind, and a validation code only on the
    two kinds of commit failure. *)
Record wf_error (e : Error) : Prop := {
  wf_code : kindCode !! Error_Kind e = Some (Error_Code e);
  wf_unknown : Error_OutcomeUnknown e = bool_decide (Error_Kind e = KindOutcomeUnknown);
  wf_source : Error_Source e ∈ [SourceSDK; SourceChaincode; SourceNetwork];
  wf_chaincode : Error_Source e = SourceChaincode -> Error_Kind e ∈ chaincode_kinds;
  wf_validation : Error_ValidationCode e <> 0%Z ->
    Error_Kind e ∈ [KindConflict; KindCommitFailed] }.

Lemma kindCode_bounds k c : kindCode !! k = Some c -> (400 <= c <= 504)%Z.
Proof.
  intros H. apply elem_of_list_to_map_2 in H.
  rewrite !list_elem_of_In in H. cbn in H. destruct_or! H; simplify_eq; lia.
Qed.

(** [newError] on a known kind other than [KindOutcomeUnknown] is well formed. *)
Lemma newError_wf kind source msg :
  is_Some (kindCode !! kind) -> kind <> KindOutcomeUnknown ->
  source ∈ [SourceSDK; SourceChaincode; SourceNetwork] ->
  (source = SourceChaincode -> kind ∈ chaincode_kinds) ->
  wf_error (newError kind source msg).
Proof.
  intros [c Hc] Hk Hs Hcc. split; simpl; try done.
  - unfold kindCode_of. by rewrite Hc.
  - by rewrite bool_decide_eq_false_2.
Qed.

(** The two fields-only updates keep the invariant. *)
Definition with_call (e : Error) (txID : string) (code : codes.Code)
    (details : list ErrorDetail) (cause : option error) : Error :=
  mkError (Error_Kind e) (Error_Source e) (Error_Code e) (Error_Message e) txID
    (Error_ValidationCode e) code details (Error_OutcomeUnknown e) cause.

Definition set_OutcomeUnknown (e : Error) : Error :=
  mkError (Error_Kind e) (Error_Source e) (Error_Code e) (Error_Message e) (Error_TxID e)
    (Error_ValidationCode e) (Error_GRPCCode e) (Error_Details e) true (Error_Cause e).

Lemma with_call_wf e txID code details cause :
  wf_error e -> wf_error (with_call e txID code details cause).
Proof. by intros []. Qed.

Lemma unknown_wf msg :
  wf_error (set_OutcomeUnknown (newError KindOutcomeUnknown SourceNetwork msg)).
Proof. split; try done. simpl. rewrite !elem_of_cons. tauto. Qed.

Lemma configError_wf err : exists e, configError err = sdkError e /\ wf_error e.
Proof. eexists. split; [done|]. split; try done. simpl. rewrite !elem_of_cons. tauto. Qed.

#[export] Hint Resolve newError_wf with_call_wf unknown_wf : go.

(** ** Properties *)

(** The helpers see through wrapping: whatever stack of [%w] wrappers,
    single-error joins and foreign wrappers surrounds an [Error], every helper
    answers as on the [Error] itself. *)
Theorem helpers_see_through_wrapping (e : Error) (o : error) :
  wraps (sdkError e) o ->
  KindOf (Some o) = Error_Kind e /\ TxIDOf (Some o) = Error_TxID e
  /\ (forall k, isKind (Some o) k = bool_decide (Error_Kind e = k))
  /\ IsOutcomeUnknown (Some o) = Error_OutcomeUnknown e
  /\ IsRetryable (Some o) = Retryable e
  /\ IsChaincode (Some o) = bool_decide (Error_Source e = SourceChaincode).
Proof.
  intros H%wraps_same. repeat split; intros; by rewrite H.
Qed.

(** On a well-formed error the HTTP code lies between 400 and 504, an unknown
    outcome has kind [KindOutcomeUnknown] and code 504, and it is never
    retryable. *)
Theorem wf_error_codes (e : Error) :
  wf_error e ->
  (400 <= Error_Code e <= 504)%Z
  /\ (Error_OutcomeUnknown e = true ->
      Error_Kind e = KindOutcomeUnknown /\ Error_Code e = 504%Z /\ Retryable e = false).
Proof.
  intros [Hc Hu _ _ _]. split; [by eapply kindCode_bounds|].
  intros Ho. unfold Retryable. rewrite Ho. rewrite Ho in Hu. symmetry in Hu.
  apply bool_decide_eq_true in Hu as Hk. rewrite Hk in Hc. by vm_compute in Hc; simplify_eq.
Qed.
