(* ===== verification/Classify.v ===== *)
(** * Classification of fabric-gateway errors (errors.go)

    [classify] turns whatever a fabric-gateway call returned into an [Error].
    The gRPC status package, the generated protobuf enumeration and Unicode's
    case table are interfaces: type classes with the laws the code relies on. *)

From S2P Require Import Prelude GoStrings GoRunes Ccerr Errors.

(** ** What lies outside the repository *)

(** The getters of the Gateway's [ErrorDetail] message. *)
Record GatewayErrorDetail := mkGatewayErrorDetail {
  GetAddress : string; GetMspId : string; GetMessage : string }.

(** An element of [st.Details()]: the program only asks whether it is a Gateway
    [ErrorDetail]. *)
Inductive anyDetail := detailGateway (d : GatewayErrorDetail) | detailOther (n : N).

(** Package [google.golang.org/grpc/status]. *)
Class GrpcStatus := {
  Status : Type;
  status_Convert : error -> Status;
  status_New : codes.Code -> string -> Status;
  st_Code : Status -> codes.Code;
  st_Message : Status -> string;
  st_Details : Status -> list anyDetail }.

(** Documented behaviour of [status.New]. *)
Class GrpcStatusOk `{GrpcStatus} : Prop := {
  st_Code_New c m : st_Code (status_New c m) = c;
  st_Message_New c m : st_Message (status_New c m) = m;
  st_Details_New c m : st_Details (status_New c m) = [] }.

(** The enumeration [peer.TxValidationCode]. *)
Class PeerCodes := {
  TxValidationCode_VALID : TxValidationCode;
  TxValidationCode_MVCC_READ_CONFLICT : TxValidationCode;
  TxValidationCode_PHANTOM_READ_CONFLICT : TxValidationCode;
  TxValidationCode_name : Z -> string }.

(** Its values are distinct and VALID is the zero value. *)
Class PeerCodesOk `{PeerCodes} : Prop := {
  VALID_zero : TxValidationCode_VALID = 0%Z;
  MVCC_nonzero : TxValidationCode_MVCC_READ_CONFLICT <> 0%Z;
  PHANTOM_nonzero : TxValidationCode_PHANTOM_READ_CONFLICT <> 0%Z;
  MVCC_PHANTOM : TxValidationCode_MVCC_READ_CONFLICT <> TxValidationCode_PHANTOM_READ_CONFLICT }.

(** ** Classification tables *)

Inductive phase := phaseEvaluate | phaseEndorse | phaseSubmit | phaseCommitStatus.

#[export] Instance phase_eq_dec : EqDecision phase.
Proof. solve_decision. Defined.

Definition ccKind : gmap string Kind := list_to_map [
  (ccerr.InvalidArgument, KindInvalidArgument);
  (ccerr.NotFound, KindNotFound);
  (ccerr.AlreadyExists, KindAlreadyExists);
  (ccerr.Conflict, KindConflict);
  (ccerr.Unauthorized, KindUnauthorized);
  (ccerr.FailedPrecondition, KindFailedPrecondition) ].

Definition ccKind_of (c : ccerr.Code) : Kind := default "" (ccKind !! c).

Definition peerSidePhrases : list string := [
  "make sure the chaincode";
  "error in simulation";
  "could not launch chaincode";
  "failed to execute transaction";
  "transaction returned with failure";
  "channel '";
  "has not been initialized";
  "does not require initialization";
  "is already initialized";
  "access denied";
  "chaincode definition" ].

Definition kindFromCode (code : codes.Code) (ph : phase) : Kind :=
  match code with
  | codes.InvalidArgument => KindInvalidArgument
  | codes.PermissionDenied | codes.Unauthenticated => KindUnauthorized
  | codes.NotFound => KindNotFound
  | codes.DeadlineExceeded => KindTimeout
  | codes.Canceled => KindCanceled
  | codes.Unavailable => KindUnavailable
  | codes.FailedPrecondition => KindFailedPrecondition
  | codes.Aborted | codes.Unknown =>
      if decide (ph = phaseEndorse \/ ph = phaseEvaluate) then KindEndorsement else KindInternal
  | _ => KindInternal
  end.

(** The elements of [st.Details()] that are Gateway details. *)
Definition gatewayDetails_of (l : list anyDetail) : list ErrorDetail :=
  omap (fun d => match d with
                 | detailGateway gd => Some (mkErrorDetail (GetAddress gd) (GetMspId gd) (GetMessage gd))
                 | detailOther _ => None
                 end) l.

Section classify.
Context `{U : UnicodeTables} `{G : GrpcStatus} `{P : PeerCodes}.

(** [legacyKind]; the empty kind when nothing matches. *)
Definition legacyKind (msg : string) : Kind :=
  let m := ToLower msg in
  if existsb (fun p => Contains m p) peerSidePhrases then ""
  else if Contains m "version conflict" then KindConflict
  else if Contains m "already exists" then KindAlreadyExists
  else if Contains m "not found" || Contains m "does not exist" then KindNotFound
  else if Contains m "unauthorized" || Contains m "forbidden" || Contains m "permission denied"
  then KindUnauthorized
  else "".

Definition gatewayDetails (st : Status) : list ErrorDetail := gatewayDetails_of (st_Details st).

(** The messages [chaincodeError] looks at. *)
Definition candidates (st : Status) (details : list ErrorDetail) : list string :=
  (Detail_Message <$> details) ++
  (if decide (st_Message st = "") then []
   else [TrimPrefix (st_Message st) "evaluate call to endorser returned error: "]).

(** The three passes of [chaincodeError], each a loop that may return. *)
Definition pass_ccerr (m : string) : option Error :=
  match ccerr.Parse m with
  | (code, text, true) => Some (newError (ccKind_of code) SourceChaincode text)
  | _ => None
  end.

Definition pass_response (strict : bool) (m : string) : option Error :=
  if HasPrefix m "chaincode response " then
    let '(_, text, _) := Cut m ", " in
    let k := legacyKind text in
    if negb strict && negb (bool_decide (k = "")) then Some (newError k SourceChaincode text)
    else Some (newError KindChaincode SourceChaincode text)
  else None.

Definition pass_legacy (d : ErrorDetail) : option Error :=
  let k := legacyKind (Detail_Message d) in
  if decide (k = "") then None else Some (newError k SourceChaincode (Detail_Message d)).

Definition chaincodeError (st : Status) (details : list ErrorDetail) (strict : bool)
    : option Error :=
  if negb (bool_decide (st_Code st = codes.Aborted))
     && negb (bool_decide (st_Code st = codes.Unknown)) then None else
  let cands := candidates st details in
  match first_some pass_ccerr cands with
  | Some e => Some e
  | None =>
      match first_some (pass_response strict) cands with
      | Some e => Some e
      | None =>
          if strict || bool_decide (length details = 0) then None
          else first_some pass_legacy details
      end
  end.

Definition commitFailure (txID : string) (vc : TxValidationCode) (cause : option error) : Error :=
  let name := TxValidationCode_name vc in
  let e :=
    if decide (vc = TxValidationCode_MVCC_READ_CONFLICT
               \/ vc = TxValidationCode_PHANTOM_READ_CONFLICT)
    then newError KindConflict SourceNetwork
           ("transaction invalidated at commit by " +:+ name +:+ "; re-read and retry")
    else newError KindCommitFailed SourceNetwork
           ("transaction committed as invalid: " +:+ name +:+ " (" +:+ pretty vc +:+ ")") in
  mkError (Error_Kind e) (Error_Source e) (Error_Code e) (Error_Message e) txID vc
    (Error_GRPCCode e) (Error_Details e) (Error_OutcomeUnknown e) cause.

(** [status.Convert], with context errors raised before any RPC mapped to their
    codes. *)
Definition convert (err : error) : Status :=
  let st := status_Convert err in
  if errors_Is err context_Canceled && bool_decide (st_Code st = codes.Unknown) then
    status_New codes.Canceled (error_text err)
  else if errors_Is err context_DeadlineExceeded && bool_decide (st_Code st = codes.Unknown) then
    status_New codes.DeadlineExceeded (error_text err)
  else st.

(** The last switch of [classify]: an error that is not a chaincode error. *)
Definition phaseError (ph : phase) (st : Status) : Error :=
  match ph with
  | phaseCommitStatus =>
      set_OutcomeUnknown (newError KindOutcomeUnknown SourceNetwork
        ("could not confirm commit status: " +:+ st_Message st))
  | phaseSubmit =>
      match st_Code st with
      | codes.InvalidArgument | codes.FailedPrecondition | codes.Aborted =>
          newError KindSubmit SourceNetwork (st_Message st)
      | _ =>
          set_OutcomeUnknown (newError KindOutcomeUnknown SourceNetwork
            ("submit to orderer did not complete: " +:+ st_Message st))
      end
  | _ => newError (kindFromCode (st_Code st) ph) SourceNetwork (st_Message st)
  end.

(** [classify] on a status it has to interpret. *)
Definition classify_status (err : error) (txID : string) (ph : phase) (strict : bool) : Error :=
  let st := convert err in
  let code := st_Code st in
  let details := gatewayDetails st in
  let cc := if decide (ph = phaseEvaluate \/ ph = phaseEndorse)
            then chaincodeError st details strict else None in
  match cc with
  | Some e => with_call e txID code details (Some err)
  | None => with_call (phaseError ph st) txID code details (Some err)
  end.

Definition classify (err : option error) (txID : string) (ph : phase) (strict : bool)
    : option error :=
  match err with
  | None => None
  | Some e0 =>
      match asError err with
      | Some e => Some (sdkError e)
      | None =>
          match errors_As is_commit err with
          | Some ce => Some (sdkError (commitFailure (CommitError_TransactionID ce)
                                         (CommitError_Code ce) err))
          | None => Some (sdkError (classify_status e0 txID ph strict))
          end
      end
  end.

End classify.

(** ** Lemmas *)

(** No [Error] and no [CommitError] inside: what fabric-gateway's evaluate,
    endorse, submit and commit-status calls return. *)
Definition foreign (err : error) : Prop :=
  asError (Some err) = None /\ errors_As is_commit (Some err) = None.

(** The codes with which the Gateway rejects a transaction before ordering. *)
Definition definite_rejection (c : codes.Code) : bool :=
  bool_decide (c ∈ [codes.InvalidArgument; codes.FailedPrecondition; codes.Aborted]).

(** The phases in which chaincode can speak. *)
Definition before_orderer (ph : phase) : bool :=
  bool_decide (ph = phaseEvaluate \/ ph = phaseEndorse).

(** A kind usable with [newError] from the network, or from chaincode. *)
Definition network_kind (k : Kind) : Prop := is_Some (kindCode !! k) /\ k <> KindOutcomeUnknown.
Definition chaincode_kind (k : Kind) : Prop := network_kind k /\ k ∈ chaincode_kinds.

Lemma network_kind_wf k msg : network_kind k -> wf_error (newError k SourceNetwork msg).
Proof. intros []. apply newError_wf; try done. rewrite !elem_of_cons. tauto. Qed.

Lemma chaincode_kind_wf k msg : chaincode_kind k -> wf_error (newError k SourceChaincode msg).
Proof. intros [[] ?]. apply newError_wf; try done. rewrite !elem_of_cons. tauto. Qed.

(** Decides the two predicates on a concrete kind. *)
Ltac solve_kind :=
  repeat split; first [by eexists | by apply (bool_decide_unpack _); vm_compute].

Lemma ccKind_ok c : c ∈ ccerr.known -> chaincode_kind (ccKind_of c).
Proof. intros H. destruct (ccerr.known_cases c H) as [->|[->|[->|[->|[->| ->]]]]]; solve_kind. Qed.

Lemma kindFromCode_ok c ph : network_kind (kindFromCode c ph).
Proof. destruct c; simpl; try case_decide; solve_kind. Qed.

Section classify_lemmas.
Context `{U : UnicodeTables} `{G : GrpcStatus} `{P : PeerCodes}.

Lemma legacyKind_ok msg : legacyKind msg = "" \/ chaincode_kind (legacyKind msg).
Proof. unfold legacyKind. repeat case_match; (by left) || (right; solve_kind). Qed.

(** What any pass of [chaincodeError] returns: a chaincode kind, nothing else set. *)
Definition plain_chaincode (e : Error) : Prop :=
  exists k text, chaincode_kind k /\ e = newError k SourceChaincode text.

Lemma pass_ccerr_plain m e : pass_ccerr m = Some e -> plain_chaincode e.
Proof.
  unfold pass_ccerr. destruct (ccerr.Parse m) as [[c text] []] eqn:E; [|done]. intros [= <-].
  apply ccerr.Parse_iff_coded, ccerr.coded_known in E as [? _].
  by exists (ccKind_of c), text; split; [apply ccKind_ok|].
Qed.

Lemma pass_response_plain strict m e : pass_response strict m = Some e -> plain_chaincode e.
Proof.
  unfold pass_response. destruct (HasPrefix _ _); [|done].
  destruct (Cut m ", ") as [[? text] ?]. destruct (legacyKind_ok text) as [E|E].
  - rewrite E, andb_false_r. intros [= <-]. do 2 eexists; split; [|done]. solve_kind.
  - case_match; intros [= <-]; do 2 eexists; (split; [|done]); [done|solve_kind].
Qed.

Lemma pass_legacy_plain d e : pass_legacy d = Some e -> plain_chaincode e.
Proof.
  unfold pass_legacy. case_decide; [done|]. intros [= <-].
  do 2 eexists; split; [|done]. by destruct (legacyKind_ok (Detail_Message d)).
Qed.

Lemma chaincodeError_plain st details strict e :
  chaincodeError st details strict = Some e -> plain_chaincode e.
Proof.
  unfold chaincodeError. case_match; [done|].
  destruct (first_some pass_ccerr _) eqn:E1.
  { intros [= <-]. eapply first_some_ind, E1. apply pass_ccerr_plain. }
  destruct (first_some (pass_response _) _) eqn:E2.
  { intros [= <-]. eapply first_some_ind, E2. apply pass_response_plain. }
  case_match; [done|]. intros E3. eapply first_some_ind, E3. apply pass_legacy_plain.
Qed.

Lemma phaseError_wf ph st : wf_error (phaseError ph st).
Proof.
  assert (network_kind KindSubmit) by solve_kind.
  destruct ph; simpl; try case_match;
    auto using unknown_wf, network_kind_wf, kindFromCode_ok.
Qed.

Lemma classify_status_wf err txID ph strict : wf_error (classify_status err txID ph strict).
Proof.
  unfold classify_status. destruct (decide _).
  - destruct (chaincodeError _ _ _) eqn:E; [|by apply with_call_wf, phaseError_wf].
    apply chaincodeError_plain in E as (k & text & Hk & ->).
    by apply with_call_wf, chaincode_kind_wf.
  - apply with_call_wf, phaseError_wf.
Qed.

Lemma commitFailure_wf `{!PeerCodesOk} txID vc cause : wf_error (commitFailure txID vc cause).
Proof.
  unfold commitFailure. case_decide; split; try done; simpl; intros; rewrite ?elem_of_cons; tauto.
Qed.

Lemma classify_foreign err txID ph strict :
  foreign err -> classify (Some err) txID ph strict = Some (sdkError (classify_status err txID ph strict)).
Proof. intros [H1 H2]. unfold classify. by rewrite H1, H2. Qed.

(** Past the endorsement phase the status alone decides. *)
Lemma classify_status_late err txID ph strict :
  before_orderer ph = false ->
  classify_status err txID ph strict
  = with_call (phaseError ph (convert err)) txID (st_Code (convert err))
      (gatewayDetails (convert err)) (Some err).
Proof.
  intros H%bool_decide_eq_false. unfold classify_status. by rewrite decide_False.
Qed.

Lemma classify_status_early err txID ph strict :
  before_orderer ph = true ->
  classify_status err txID ph strict
  = with_call (default (newError (kindFromCode (st_Code (convert err)) ph) SourceNetwork
                          (st_Message (convert err)))
                 (chaincodeError (convert err) (gatewayDetails (convert err)) strict))
      txID (st_Code (convert err)) (gatewayDetails (convert err)) (Some err).
Proof.
  intros H%bool_decide_eq_true. unfold classify_status. rewrite decide_True by done.
  destruct (chaincodeError _ _ _); [done|]. by destruct H as [-> | ->].
Qed.

(** A decided early classification never leaves the outcome open. *)
Lemma early_not_unknown err txID ph strict :
  before_orderer ph = true ->
  Error_OutcomeUnknown (classify_status err txID ph strict) = false.
Proof.
  intros H. rewrite classify_status_early by done. simpl.
  destruct (chaincodeError _ _ _) eqn:E; [|done].
  by apply chaincodeError_plain in E as (? & ? & ? & ->).
Qed.

Lemma phaseError_submit st :
  phaseError phaseSubmit st =
  if definite_rejection (st_Code st) then newError KindSubmit SourceNetwork (st_Message st)
  else set_OutcomeUnknown (newError KindOutcomeUnknown SourceNetwork
         ("submit to orderer did not complete: " +:+ st_Message st)).
Proof. unfold phaseError, definite_rejection. by destruct (st_Code st). Qed.

(** The codes that may carry a chaincode message. *)
Definition chaincode_code (c : codes.Code) : bool :=
  bool_decide (c = codes.Aborted \/ c = codes.Unknown).

Lemma chaincodeError_code st details strict :
  chaincode_code (st_Code st) = false -> chaincodeError st details strict = None.
Proof.
  intros H%bool_decide_eq_false. unfold chaincodeError.
  by rewrite !bool_decide_eq_false_2 by tauto.
Qed.

Lemma chaincodeError_passes st details strict :
  chaincode_code (st_Code st) = true ->
  chaincodeError st details strict =
  match first_some pass_ccerr (candidates st details) with
  | Some e => Some e
  | None =>
      match first_some (pass_response strict) (candidates st details) with
      | Some e => Some e
      | None => if strict then None else first_some pass_legacy details
      end
  end.
Proof.
  intros H%bool_decide_eq_true. unfold chaincodeError.
  assert (negb (bool_decide (st_Code st = codes.Aborted))
          && negb (bool_decide (st_Code st = codes.Unknown)) = false) as ->
    by (destruct H as [-> | ->]; reflexivity).
  destruct (first_some pass_ccerr _); [done|].
  destruct (first_some (pass_response _) _); [done|].
  destruct strict; [done|]. by destruct details.
Qed.

Definition carries_code (m : string) : bool := snd (ccerr.Parse m).

Lemma pass_ccerr_None m : pass_ccerr m = None <-> carries_code m = false.
Proof. unfold pass_ccerr, carries_code. by destruct (ccerr.Parse m) as [[? ?] []]. Qed.

Lemma pass_response_None strict m :
  pass_response strict m = None <-> HasPrefix m "chaincode response " = false.
Proof. unfold pass_response. destruct (HasPrefix _ _); [|done]. repeat case_match; done. Qed.

Lemma pass_legacy_None d : pass_legacy d = None <-> legacyKind (Detail_Message d) = "".
Proof. unfold pass_legacy. by case_decide. Qed.

(** What marks an error as chaincode's own, as a test on the status. *)
Definition chaincode_evidence (st : Status) (strict : bool) : bool :=
  let details := gatewayDetails st in
  existsb carries_code (candidates st details)
  || existsb (fun m => HasPrefix m "chaincode response ") (candidates st details)
  || negb strict && existsb (fun d => negb (bool_decide (legacyKind (Detail_Message d) = ""))) details.

Lemma first_some_existsb {A B} (f : A -> option B) (test : A -> bool) (l : list A) :
  (forall x, f x = None <-> test x = false) ->
  (first_some f l = None <-> existsb test l = false).
Proof.
  intros H. induction l as [|x l IH]; simpl; [done|].
  rewrite orb_false_iff, <- IH, <- H. destruct (f x); naive_solver.
Qed.

Lemma chaincodeError_None st strict :
  chaincode_code (st_Code st) = true ->
  chaincodeError st (gatewayDetails st) strict = None <-> chaincode_evidence st strict = false.
Proof.
  intros H. rewrite chaincodeError_passes by done. unfold chaincode_evidence.
  rewrite !orb_false_iff.
  rewrite <- (first_some_existsb pass_ccerr _ _ pass_ccerr_None).
  rewrite <- (first_some_existsb (pass_response strict) _ _ (pass_response_None strict)).
  assert (Hl : first_some pass_legacy (gatewayDetails st) = None <->
    existsb (fun d => negb (bool_decide (legacyKind (Detail_Message d) = ""))) (gatewayDetails st) = false).
  { apply first_some_existsb. intros d. rewrite pass_legacy_None, negb_false_iff.
    by rewrite bool_decide_eq_true. }
  repeat case_match; simpl; naive_solver.
Qed.

End classify_lemmas.

#[export] Hint Resolve classify_status_wf commitFailure_wf phaseError_wf : go.

(** ** Properties *)

Section classify_structure.
Context `{U : UnicodeTables} `{G : GrpcStatus} `{P : PeerCodes}.

Lemma classify_Some err txID ph strict :
  exists e, classify (Some err) txID ph strict = Some (sdkError e).
Proof. unfold classify. repeat case_match; eauto. Qed.

End classify_structure.

Section classify_properties.
Context `{U : UnicodeTables} `{G : GrpcStatus} `{P : PeerCodes}.

(** Every failure becomes a structured [Error] and success stays success: on
    a non-nil error [classify] returns an [Error], on nil it returns nil. *)
Theorem classify_structured (err : option error) (txID : string) (ph : phase) (strict : bool) :
  match err with
  | None => classify err txID ph strict = None
  | Some _ => exists e, classify err txID ph strict = Some (sdkError e)
  end.
Proof. destruct err; [apply classify_Some|done]. Qed.

(** Classification happens once: classifying a classified error again, in
    any phase and mode, changes nothing, so an error keeps the meaning of the
    phase that produced it. *)
Theorem classify_idempotent (err : option error) (t t' : string) (ph ph' : phase) (s s' : bool) :
  classify (classify err t ph s) t' ph' s' = classify err t ph s.
Proof.
  destruct err as [e0|]; [|done]. by destruct (classify_Some e0 t ph s) as [e ->].
Qed.

(** The outcome is unknown exactly when the transaction may have been
    ordered: at the commit-status phase always, at the submit phase unless the
    Gateway's code is a definite rejection, never before. *)
Theorem classify_outcome_unknown (err : error) (txID : string) (ph : phase) (strict : bool) :
  foreign err ->
  IsOutcomeUnknown (classify (Some err) txID ph strict) = true <->
  ph = phaseCommitStatus
  \/ ph = phaseSubmit /\ definite_rejection (st_Code (convert err)) = false.
Proof.
  intros Hf. rewrite classify_foreign by done.
  change (IsOutcomeUnknown _) with (Error_OutcomeUnknown (classify_status err txID ph strict)).
  destruct (before_orderer ph) eqn:E.
  - rewrite early_not_unknown by done. apply bool_decide_eq_true in E. naive_solver.
  - rewrite classify_status_late by done. destruct ph; try done; [|naive_solver].
    rewrite phaseError_submit.
    destruct (definite_rejection _); simpl; naive_solver.
Qed.

(** Retry safety: once the transaction was handed to the orderer, an error
    is retryable if and only if the Gateway definitely rejected it before
    ordering. *)
Theorem classify_retry_safe (err : error) (txID : string) (ph : phase) (strict : bool) :
  foreign err -> ph = phaseSubmit \/ ph = phaseCommitStatus ->
  IsRetryable (classify (Some err) txID ph strict) = true <->
  ph = phaseSubmit /\ definite_rejection (st_Code (convert err)) = true.
Proof.
  intros Hf Hph. rewrite classify_foreign by done.
  change (IsRetryable _) with (Retryable (classify_status err txID ph strict)).
  rewrite classify_status_late by (by destruct Hph as [-> | ->]).
  destruct Hph as [-> | ->]; [rewrite phaseError_submit|naive_solver].
  destruct (definite_rejection _); naive_solver.
Qed.

(** Nothing is lost: a classified error carries the transaction ID it was
    given, the Gateway's gRPC code, every per-node detail in order, and the
    original error as its cause. *)
Theorem classify_context (err : error) (txID : string) (ph : phase) (strict : bool) :
  foreign err ->
  exists e, classify (Some err) txID ph strict = Some (sdkError e)
    /\ Error_TxID e = txID
    /\ Error_GRPCCode e = st_Code (convert err)
    /\ Error_Details e = gatewayDetails (convert err)
    /\ Error_Unwrap e = Some err.
Proof.
  intros Hf. eexists. split; [by apply classify_foreign|].
  unfold classify_status. by case_match.
Qed.

(** The invariant: if the [Error] already inside the input (if any) is well
    formed, so is the one [classify] returns. *)
Theorem classify_wf `{!PeerCodesOk} (err : error) (txID : string) (ph : phase) (strict : bool)
    (e : Error) :
  (forall e0, asError (Some err) = Some e0 -> wf_error e0) ->
  classify (Some err) txID ph strict = Some (sdkError e) -> wf_error e.
Proof.
  intros H0. unfold classify. destruct (asError (Some err)) as [e0|].
  - intros [= <-]. by apply H0.
  - case_match; intros [= <-]; auto using commitFailure_wf, classify_status_wf.
Qed.

(** A timeout is reported as [KindTimeout] exactly when it happened before
    the transaction could reach the orderer. *)
Theorem classify_timeout (err : error) (txID : string) (ph : phase) (strict : bool) :
  foreign err ->
  IsTimeout (classify (Some err) txID ph strict) = true <->
  before_orderer ph = true /\ st_Code (convert err) = codes.DeadlineExceeded.
Proof.
  intros Hf. rewrite classify_foreign by done.
  change (IsTimeout _) with
    (bool_decide (Error_Kind (classify_status err txID ph strict) = KindTimeout)).
  rewrite bool_decide_eq_true.
  destruct (before_orderer ph) eqn:E.
  - rewrite classify_status_early by done. simpl.
    destruct (chaincodeError _ _ _) eqn:Ec; simpl.
    + assert (Hc : st_Code (convert err) = codes.Aborted \/ st_Code (convert err) = codes.Unknown).
      { unfold chaincodeError in Ec. repeat case_bool_decide; try done; auto. }
      apply chaincodeError_plain in Ec as (k & text & [_ Hk] & ->). simpl.
      unfold chaincode_kinds in Hk. rewrite !elem_of_cons, elem_of_nil in Hk.
      split; [|destruct Hc; naive_solver congruence].
      intros ->. by destruct_or! Hk.
    + destruct (st_Code (convert err)); simpl; try case_decide; naive_solver.
  - rewrite classify_status_late by done. destruct ph; try done; [|naive_solver].
    rewrite phaseError_submit.
    destruct (definite_rejection _); naive_solver.
Qed.

(** A deadline or cancellation of the caller's context that stopped the call
    before any RPC is classified like the RPC's own: timeout or canceled before
    the orderer, outcome unknown after. *)
Theorem classify_context_errors `{!GrpcStatusOk} (err : error) (txID : string) (ph : phase)
    (strict : bool) (s : Sentinel) :
  foreign err -> errors_Is err s = true -> s <> ErrStreamClosed ->
  (s = context_DeadlineExceeded -> errors_Is err context_Canceled = false) ->
  st_Code (status_Convert err) = codes.Unknown ->
  KindOf (classify (Some err) txID ph strict) =
  if before_orderer ph then
    match s with context_Canceled => KindCanceled | _ => KindTimeout end
  else KindOutcomeUnknown.
Proof.
  intros Hf Hs Hn Hc Hu. rewrite classify_foreign by done.
  change (KindOf _) with (Error_Kind (classify_status err txID ph strict)).
  assert (Hcode : st_Code (convert err) =
    match s with context_Canceled => codes.Canceled | _ => codes.DeadlineExceeded end).
  { unfold convert. rewrite (bool_decide_eq_true_2 _ Hu), !andb_true_r.
    destruct s; [by rewrite Hs, st_Code_New| |done].
    by rewrite Hc, Hs, st_Code_New by done. }
  destruct (before_orderer ph) eqn:E.
  - rewrite classify_status_early by done. unfold chaincodeError. rewrite Hcode. by destruct s.
  - rewrite classify_status_late by done. destruct ph; try done.
    rewrite phaseError_submit, Hcode. by destruct s.
Qed.

(** Commit failures: a transaction committed as invalid keeps its ID and
    validation code; read conflicts are retryable conflicts (409), every other
    code is a final commit failure (500); the outcome is never unknown. *)
Theorem classify_commit_failure (err : error) (ce : CommitError) (txID : string) (ph : phase)
    (strict : bool) :
  asError (Some err) = None -> errors_As is_commit (Some err) = Some ce ->
  let conflict := CommitError_Code ce = TxValidationCode_MVCC_READ_CONFLICT
                  \/ CommitError_Code ce = TxValidationCode_PHANTOM_READ_CONFLICT in
  exists e, classify (Some err) txID ph strict = Some (sdkError e)
    /\ Error_TxID e = CommitError_TransactionID ce
    /\ Error_ValidationCode e = CommitError_Code ce
    /\ Error_Unwrap e = Some err
    /\ Error_OutcomeUnknown e = false
    /\ (Retryable e = true <-> conflict)
    /\ (Error_Kind e = if decide conflict then KindConflict else KindCommitFailed)
    /\ (Error_Code e = if decide conflict then 409%Z else 500%Z).
Proof.
  intros H1 H2 conflict. unfold classify. rewrite H1, H2. eexists; split; [done|].
  unfold commitFailure. fold conflict. destruct (decide conflict); repeat split; naive_solver.
Qed.

(** C34. End to end with package ccerr: a coded chaincode error, delivered in
    the Gateway's details as it was rendered or behind a response prefix, is
    classified by its code with its message, in both modes and whatever the
    other peers said, unless an earlier detail carries a code itself. *)
Theorem classify_ccerr (err : error) (txID : string) (ph : phase) (strict : bool)
    (ce : ccerr.Error) (l1 l2 : list ErrorDetail) (d : ErrorDetail) :
  foreign err -> before_orderer ph = true ->
  chaincode_code (st_Code (convert err)) = true ->
  gatewayDetails (convert err) = l1 ++ d :: l2 ->
  forallb (fun d' => negb (carries_code (Detail_Message d'))) l1 = true ->
  ccerr.Error_Code ce ∈ ccerr.known ->
  Detail_Message d = ccerr.Error_Error ce
  \/ (exists nnn, lacks "," nnn = true
      /\ Detail_Message d = "chaincode response " +:+ nnn +:+ ", " +:+ ccerr.Error_Error ce) ->
  exists e, classify (Some err) txID ph strict = Some (sdkError e)
    /\ Error_Kind e = ccKind_of (ccerr.Error_Code ce)
    /\ Error_Source e = SourceChaincode
    /\ Error_Message e = TrimSpace (ccerr.Error_Message ce)
    /\ Error_TxID e = txID.
Proof.
  intros Hf Hph Hc Hd Hl1 Hk Hm. eexists. split; [by apply classify_foreign|].
  rewrite classify_status_early, chaincodeError_passes by done.
  assert (Hp : ccerr.Parse (Detail_Message d)
    = (ccerr.Error_Code ce, TrimSpace (ccerr.Error_Message ce), true)).
  { destruct Hm as [-> | (nnn & Hn & ->)];
      [by apply ccerr.Parse_render|by apply ccerr.Parse_render_response]. }
  assert (Hfirst : first_some pass_ccerr (candidates (convert err) (gatewayDetails (convert err)))
    = Some (newError (ccKind_of (ccerr.Error_Code ce)) SourceChaincode
              (TrimSpace (ccerr.Error_Message ce)))).
  { unfold candidates. rewrite Hd, fmap_app, <- app_assoc, first_some_app.
    replace (first_some pass_ccerr _) with (@None Error).
    { simpl. unfold pass_ccerr at 1. by rewrite Hp. }
    symmetry. apply first_some_None, Forall_fmap, Forall_forall. intros d' Hd'.
    apply pass_ccerr_None. rewrite forallb_forall in Hl1.
    by apply negb_true_iff, Hl1. }
  rewrite Hfirst. done.
Qed.

(** C35. An error is blamed on chaincode exactly when it came from an evaluate
    or endorse call with code Aborted or Unknown and some message shows it: a
    known code, a "chaincode response" prefix or, outside strict mode, a keyword
    in a detail. *)
Theorem classify_chaincode_iff (err : error) (txID : string) (ph : phase) (strict : bool) :
  foreign err ->
  IsChaincode (classify (Some err) txID ph strict) = true <->
  before_orderer ph = true
  /\ chaincode_code (st_Code (convert err)) = true
  /\ chaincode_evidence (convert err) strict = true.
Proof.
  intros Hf. rewrite classify_foreign by done.
  change (IsChaincode _) with
    (bool_decide (Error_Source (classify_status err txID ph strict) = SourceChaincode)).
  rewrite bool_decide_eq_true.
  destruct (before_orderer ph) eqn:E.
  - rewrite classify_status_early by done.
    destruct (chaincode_code (st_Code (convert err))) eqn:Ec;
      [|rewrite chaincodeError_code by done; simpl; naive_solver].
    pose proof (chaincodeError_None (convert err) strict Ec) as Hn.
    destruct (chaincodeError _ _ _) eqn:Ecc.
    + apply chaincodeError_plain in Ecc as (k & text & _ & ->). simpl.
      destruct (chaincode_evidence _ _); naive_solver.
    + simpl. destruct (chaincode_evidence _ _); naive_solver.
  - rewrite classify_status_late by done. destruct ph; try done; [|naive_solver].
    rewrite phaseError_submit. destruct (definite_rejection _); naive_solver.
Qed.

(** Peer-side wording is never taken for a chaincode keyword: a message that
    holds one of the peer's phrases, in any letter case and inside any other
    text (UTF-8 or not), has no legacy kind. *)
Theorem legacyKind_peer_side (a q b : string) :
  is_ascii q = true -> ascii_lower q ∈ peerSidePhrases ->
  legacyKind (a +:+ q +:+ b) = "".
Proof.
  intros Hq Hin. unfold legacyKind.
  assert (q <> "") by (intros ->; revert Hin; by apply (bool_decide_eq_false _)).
  rewrite ToLower_app_ascii by done.
  assert (existsb (fun p => Contains (ToLower a +:+ ascii_lower q +:+ ToLower b) p)
            peerSidePhrases = true) as ->; [|done].
  apply existsb_exists. exists (ascii_lower q).
  split; [by apply list_elem_of_In|]. apply Contains_spec. eauto.
Qed.

End classify_properties.
