(* ===== verification/Observe.v ===== *)
(** * Logging and metrics hooks (observe.go)

    The [Logger] and [Observer] interfaces, as the values the SDK can hold:
    its own no-op implementations, its adapters, and implementations of the
    caller, told apart by a number. What a call of a hook does is the list of
    calls that leave the SDK: none for the no-op hooks. *)

From S2P Require Import Prelude GoStrings Errors.

(** An argument of a log line; [logDuration] is the text of a duration. *)
Inductive logValue := logString (s : string) | logUint (n : N) | logDuration (d : Z).

Inductive logLevel := levelInfo | levelError.

Inductive Logger :=
| noopLogger
| slogLogger (l : N)
| callerLogger (l : N).

(** [NewSlogLogger]; a nil [*slog.Logger] is [None]. *)
Definition NewSlogLogger (l : option N) : Logger :=
  match l with None => noopLogger | Some l => slogLogger l end.

Record LogLine := mkLogLine {
  log_to : Logger; log_level : logLevel; log_msg : string; log_kv : list logValue }.

Definition Logger_call (level : logLevel) (l : Logger) (msg : string) (kv : list logValue)
    : list LogLine :=
  match l with
  | noopLogger => []
  | slogLogger _ | callerLogger _ => [mkLogLine l level msg kv]
  end.

(** The methods of the interface. *)
Definition Logger_Info := Logger_call levelInfo.
Definition Logger_Error := Logger_call levelError.

Definition OpEvaluate : string := "evaluate".
Definition OpEndorse : string := "endorse".
Definition OpSubmit : string := "submit".
Definition OpCommit : string := "commit".
Definition OpTxStatus : string := "tx_status".

Record CallInfo := mkCallInfo {
  Info_Operation : string;
  Info_Channel : string;
  Info_Chaincode : string;
  Info_Contract : string;
  Info_Function : string;
  Info_MSPID : string;
  Info_TxID : string;
  Info_Duration : Z;
  Info_Err : option error }.

Inductive Observer :=
| noopObserver
| ObserverFunc (f : N)
| callerObserver (o : N).

(** [ObserveCall] of each implementation: what reaches the caller's code. *)
Definition Observer_ObserveCall (o : Observer) (info : CallInfo) : list (Observer * CallInfo) :=
  match o with
  | noopObserver => []
  | ObserverFunc _ | callerObserver _ => [(o, info)]
  end.
