(* ===== verification/World.v ===== *)
(** * The world around the SDK

    Everything the SDK calls outside the repository, as an environment that
    answers each call, and the state and error monad the components are written
    in. Opaque values of other packages (certificates, connections, Gateways,
    proposals, ...) are numbers. The environment's answers may depend on the
    whole [trace] of calls made so far, so a theorem over every environment
    covers every behaviour of the network, the clock and the peers. *)

From S2P Require Import Prelude GoStrings Errors Observe.

(** ** Values of other packages *)

Definition Certificate := N.     (* *x509.Certificate *)
Definition PrivateKey := N.      (* crypto.PrivateKey *)
Definition PublicKey := N.       (* crypto.PublicKey *)
Definition Sign := N.            (* identity.Sign *)
Definition X509Identity := N.    (* *identity.X509Identity *)
Definition CloseFn := N.         (* the close function of an HSM signer *)
Definition Conn := N.            (* grpc.ClientConnInterface *)
Definition Gateway := N.         (* *client.Gateway *)
Definition Proposal := N.        (* *client.Proposal *)
Definition Transaction := N.     (* *client.Transaction *)
Definition Commit := N.          (* *client.Commit *)
Definition TLSKeyPair := N.      (* tls.Certificate *)
Definition HSMFactory := N.      (* *identity.HSMSignerFactory *)

(** [time.Duration] and instants, in nanoseconds. *)
Definition Duration := Z.

(** Contexts as the program derives them; [CallerCtx] is a context of the
    caller, with its deadline if it has one. *)
Inductive Context :=
| Background
| CallerCtx (n : N) (deadline : option Z)
| WithCancel (parent : Context)
| WithDeadline (parent : Context) (d : Z).

(** [ctx.Deadline()]. *)
Fixpoint Deadline (ctx : Context) : option Z :=
  match ctx with
  | Background => None
  | CallerCtx _ d => d
  | WithCancel p => Deadline p
  | WithDeadline p d =>
      match Deadline p with Some d' => Some (Z.min d d') | None => Some d end
  end.

(** [client.ConnectOption]s, by the constructor that made them. *)
Inductive ConnectOption :=
| WithSign (s : Sign)
| WithHashSHA256
| WithClientConnection (c : Conn)
| WithEvaluateTimeout (d : Duration)
| WithEndorseTimeout (d : Duration)
| WithSubmitTimeout (d : Duration)
| WithCommitStatusTimeout (d : Duration)
| WithTLSClientCertificateHash (h : bytes).

(** [client.ProposalOption]s. *)
Inductive ProposalOption :=
| WithBytesArguments (args : list bytes)
| WithArguments (args : list string)
| WithTransient (data : gmap string bytes)
| WithEndorsingOrganizations (mspIDs : list string).

(** [gw.GetNetwork(channel)], [network.GetContract] and
    [network.GetContractWithName]: the calls that made the handle; a nil Gateway
    is [None]. *)
Inductive Network := GetNetwork (g : option Gateway) (channel : string).
Inductive ClientContract :=
| GetContract (n : Network) (chaincode : string)
| GetContractWithName (n : Network) (chaincode contract : string).

(** [tls.Config] as the program fills it, and [grpc.DialOption]s. *)
Record TLSConfig := mkTLSConfig {
  RootCAs : bytes; ServerName : string; MinVersionTLS12 : bool;
  Certificates : option TLSKeyPair }.
Inductive DialOption :=
| WithTransportCredentials (c : TLSConfig)
| WithKeepaliveParams (k : N)
| callerDialOption (n : N).

(** What [commit.Status] returns. *)
Record CommitInfo := mkCommitInfo {
  Status_Successful : bool; Status_Code : TxValidationCode; Status_BlockNumber : N }.

(** A chaincode event as fabric-gateway delivers it, a committed block, and the
    channel of a subscription. *)
Record GatewayEvent := mkGatewayEvent {
  ge_BlockNumber : N; ge_TransactionID : string; ge_ChaincodeName : string;
  ge_EventName : string; ge_Payload : bytes }.
Definition Block := N.
Definition Upstream := N.

(** Options of an event subscription; a checkpointer is read when the
    subscription is opened, so its position stands for it. *)
Inductive EventsOption :=
| WithStartBlock (n : N)
| WithCheckpoint (block : N) (tx : string).

(** An event of events.go. *)
Record ChaincodeEvent := mkChaincodeEvent {
  Event_BlockNumber : N; Event_TxID : string; Event_ChaincodeName : string;
  Event_EventName : string; Event_Payload : bytes }.

(** What [TxStatus] of contract.go returns. *)
Record TxStatus := mkTxStatus {
  Status_TxID : string;
  Found : bool;
  ValidationCode : TxValidationCode;
  Valid : bool }.

(** ** What the code around the SDK prints *)

(** An argument of a formatted print; a nil pointer or error is [None]. *)
Inductive fmtArg :=
| argString (s : string)
| argUint (n : N)
| argBytes (b : bytes)
| argError (err : option error)
| argTxStatus (st : option TxStatus).

(** What a command, or a handler it passes to the SDK, does apart from calling
    the SDK. Formats are written without their final newline. *)
Inductive Action :=
| actPrintf (format : string) (args : list fmtArg)
| actPrintln (s : string)
| actFatalf (format : string) (args : list fmtArg)
| actCheckpointerClose (cp : N).

(** ** The trace: every call that leaves the SDK, with what the proofs need of its
    result; for a handler, what it printed and what it returned *)

Inductive Event :=
| EvNewClient (target : string) (opts : list DialOption) (r : option Conn)
| EvConnClose (c : Conn)
| EvConnect (x : X509Identity) (opts : list ConnectOption) (r : option Gateway)
| EvGatewayClose (g : Gateway)
| EvNewProposal (c : ClientContract) (fn : string) (opts : list ProposalOption)
    (r : option Proposal)
| EvEvaluate (p : Proposal) (ctx : Context) (r : error + bytes)
| EvEndorse (p : Proposal) (ctx : Context) (r : error + Transaction)
| EvSubmit (t : Transaction) (ctx : Context) (r : error + Commit)
| EvCommitStatus (c : Commit) (ctx : Context) (r : error + CommitInfo)
| EvCancel (ctx : Context)
| EvNewHSMSigner (r : option (Sign * CloseFn))
| EvCloseFn (f : CloseFn)
| EvObserve (o : Observer) (info : CallInfo)
| EvLog (line : LogLine)
| EvChaincodeEvents (n : Network) (ctx : Context) (chaincode : string) (opts : list EventsOption)
    (r : option Upstream)
| EvBlockEvents (n : Network) (ctx : Context) (opts : list EventsOption) (r : option Upstream)
| EvRecv (u : Upstream) (r : option GatewayEvent)
| EvRecvBlock (u : Upstream) (r : option Block)
| EvHandle (ev : ChaincodeEvent) (out : list Action) (r : option error)
| EvHandleBlock (b : Block) (out : list Action) (r : option error)
| EvCheckpointTransaction (cp : N) (block : N) (tx : string) (r : option error)
| EvCheckpointBlock (cp : N) (block : N) (r : option error)
| EvSleep (ctx : Context) (d : Duration) (elapsed : bool).

Abbreviation trace := (list Event).

(** ** The environment *)

Class Env := {
  env_now : trace -> Z;
  env_NewClient : trace -> string -> list DialOption -> error + Conn;
  env_ConnClose : trace -> Conn -> option error;
  env_Connect : trace -> X509Identity -> list ConnectOption -> error + Gateway;
  env_GatewayClose : trace -> Gateway -> option error;
  env_NewProposal : trace -> ClientContract -> string -> list ProposalOption -> error + Proposal;
  Proposal_TransactionID : Proposal -> string;
  env_Evaluate : trace -> Proposal -> Context -> error + bytes;
  env_Endorse : trace -> Proposal -> Context -> error + Transaction;
  Transaction_Result : Transaction -> bytes;
  env_Submit : trace -> Transaction -> Context -> error + Commit;
  env_CommitStatus : trace -> Commit -> Context -> error + CommitInfo;
  env_NewHSMSigner : trace -> HSMFactory -> string -> string -> string -> error + (Sign * CloseFn);
  env_CloseFn : trace -> CloseFn -> option error }.

(** ** State and monad *)

(** Addresses of heap objects whose fields change or whose identity matters. *)
Abbreviation loc := positive.

Record World := mkWorld {
  w_trace : trace;
  (* the [close] field of the Identity at an address; absent is nil *)
  w_close : gmap loc CloseFn;
  (* [closed] and [closeOnce] of the FabricClient at an address *)
  w_closed : gset loc;
  w_closeOnce : gset loc;
  (* [once] of the PendingTx at an address *)
  w_once : gset loc;
  (* the next free address *)
  w_next : loc }.

Definition M (A : Type) : Type := World -> A * World.

#[export] Instance M_ret : MRet M := fun A x w => (x, w).
#[export] Instance M_bind : MBind M := fun A B f m w => let '(x, w') := m w in f x w'.

Definition emit (evs : list Event) : M unit :=
  fun w => (tt, mkWorld (w_trace w ++ evs) (w_close w) (w_closed w) (w_closeOnce w)
                  (w_once w) (w_next w)).

Definition get_trace : M trace := fun w => (w_trace w, w).

Definition alloc : M loc :=
  fun w => (w_next w, mkWorld (w_trace w) (w_close w) (w_closed w) (w_closeOnce w)
                        (w_once w) (Pos.succ (w_next w))).

Definition get_close (l : loc) : M (option CloseFn) := fun w => (w_close w !! l, w).
Definition put_close (l : loc) (f : option CloseFn) : M unit :=
  fun w => (tt, mkWorld (w_trace w) (partial_alter (fun _ => f) l (w_close w)) (w_closed w)
                  (w_closeOnce w) (w_once w) (w_next w)).

(** [closed.Load()] and [closed.Store(true)]. *)
Definition load_closed (l : loc) : M bool := fun w => (bool_decide (l ∈ w_closed w), w).
Definition store_closed (l : loc) : M unit :=
  fun w => (tt, mkWorld (w_trace w) (w_close w) ({[l]} ∪ w_closed w) (w_closeOnce w)
                  (w_once w) (w_next w)).

(** [sync.Once] of a client's Close: whether this is the first [Do]. *)
Definition first_closeOnce (l : loc) : M bool :=
  fun w => (bool_decide (l ∉ w_closeOnce w),
            mkWorld (w_trace w) (w_close w) (w_closed w) ({[l]} ∪ w_closeOnce w)
              (w_once w) (w_next w)).

(** [sync.Once] of a PendingTx. *)
Definition first_once (l : loc) : M bool :=
  fun w => (bool_decide (l ∉ w_once w),
            mkWorld (w_trace w) (w_close w) (w_closed w) (w_closeOnce w)
              ({[l]} ∪ w_once w) (w_next w)).

(** ** Calls to the outside *)

Definition result_opt {A B} (r : A + B) : option B :=
  match r with inl _ => None | inr b => Some b end.

Section calls.
Context `{E : Env}.

(** A call that the environment answers from the trace, recorded with [ev]. *)
Definition outside {A} (answer : trace -> A) (ev : A -> Event) : M A :=
  tr ← get_trace;
  let r := answer tr in
  _ ← emit [ev r];
  mret r.

Definition now : M Z := tr ← get_trace; mret (env_now tr).

Definition grpc_NewClient (target : string) (opts : list DialOption) : M (error + Conn) :=
  outside (fun tr => env_NewClient tr target opts) (fun r => EvNewClient target opts (result_opt r)).
Definition Conn_Close (c : Conn) : M (option error) :=
  outside (fun tr => env_ConnClose tr c) (fun _ => EvConnClose c).
Definition client_Connect (x : X509Identity) (opts : list ConnectOption) : M (error + Gateway) :=
  outside (fun tr => env_Connect tr x opts) (fun r => EvConnect x opts (result_opt r)).
Definition Gateway_Close (g : Gateway) : M (option error) :=
  outside (fun tr => env_GatewayClose tr g) (fun _ => EvGatewayClose g).
Definition NewProposal (c : ClientContract) (fn : string) (opts : list ProposalOption)
    : M (error + Proposal) :=
  outside (fun tr => env_NewProposal tr c fn opts) (fun r => EvNewProposal c fn opts (result_opt r)).
Definition EvaluateWithContext (p : Proposal) (ctx : Context) : M (error + bytes) :=
  outside (fun tr => env_Evaluate tr p ctx) (fun r => EvEvaluate p ctx r).
Definition EndorseWithContext (p : Proposal) (ctx : Context) : M (error + Transaction) :=
  outside (fun tr => env_Endorse tr p ctx) (fun r => EvEndorse p ctx r).
Definition SubmitWithContext (t : Transaction) (ctx : Context) : M (error + Commit) :=
  outside (fun tr => env_Submit tr t ctx) (fun r => EvSubmit t ctx r).
Definition StatusWithContext (c : Commit) (ctx : Context) : M (error + CommitInfo) :=
  outside (fun tr => env_CommitStatus tr c ctx) (fun r => EvCommitStatus c ctx r).
Definition NewHSMSigner (f : HSMFactory) (label pin id : string) : M (error + (Sign * CloseFn)) :=
  outside (fun tr => env_NewHSMSigner tr f label pin id) (fun r => EvNewHSMSigner (result_opt r)).
Definition call_CloseFn (f : CloseFn) : M (option error) :=
  outside (fun tr => env_CloseFn tr f) (fun _ => EvCloseFn f).

End calls.

(** The cancel function of a derived context. *)
Definition cancel (ctx : Context) : M unit := emit [EvCancel ctx].

(** A call of a logger or observer hook. *)
Definition log_info (l : Logger) (msg : string) (kv : list logValue) : M unit :=
  emit (EvLog <$> Logger_Info l msg kv).
Definition log_error (l : Logger) (msg : string) (kv : list logValue) : M unit :=
  emit (EvLog <$> Logger_Error l msg kv).
Definition observe_call (o : Observer) (info : CallInfo) : M unit :=
  emit ((fun '(o, info) => EvObserve o info) <$> Observer_ObserveCall o info).

(** ** Lemmas *)

(** Unfold the monad: a program applied to a world becomes a term over the
    environment's answers. *)
Ltac run_M :=
  repeat (progress (
    unfold mbind, mret, M_bind, M_ret, outside, get_trace, emit, now, alloc, get_close, put_close,
      load_closed, store_closed, first_closeOnce, first_once; cbn beta iota zeta; simpl)).

Lemma elem_of_lit {A} (x y : A) : x ∈ [y] <-> x = y.
Proof. by rewrite list_elem_of_singleton. Qed.

(** The world after the trace grew by [evs]. *)
Definition push (evs : trace) (w : World) : World := snd (emit evs w).

Lemma push_trace evs w : w_trace (push evs w) = w_trace w ++ evs.
Proof. done. Qed.
Lemma push_push a b w : push b (push a w) = push (a ++ b) w.
Proof. unfold push. simpl. by rewrite <- app_assoc. Qed.
Lemma push_nil w : push [] w = w.
Proof. unfold push. simpl. rewrite app_nil_r. by destruct w. Qed.
Lemma push_same evs w : w_close (push evs w) = w_close w /\ w_closed (push evs w) = w_closed w
  /\ w_closeOnce (push evs w) = w_closeOnce w /\ w_once (push evs w) = w_once w
  /\ w_next (push evs w) = w_next w.
Proof. done. Qed.

Lemma outside_run {A} (answer : trace -> A) (ev : A -> Event) w :
  outside answer ev w = (answer (w_trace w), push [ev (answer (w_trace w))] w).
Proof. done. Qed.

(** An event is absent from a literal trace. *)
Ltac absent_in H :=
  rewrite ?elem_of_app, ?elem_of_cons, ?elem_of_nil in H;
  repeat (destruct H as [H|H]; [done|]); done.
Ltac absent :=
  intros; lazymatch goal with
  | |- _ ∉ _ => let H := fresh in intros H; absent_in H
  | H : _ ∈ _ |- _ => absent_in H
  end.

Lemma elem_of_logs ev (ls : list LogLine) : ev ∈ EvLog <$> ls -> exists l, ev = EvLog l.
Proof. intros (l & -> & _)%list_elem_of_fmap. by exists l. Qed.

(** [emits P m]: [m] only appends to the trace, and only events that satisfy
    [P]. *)
Definition emits (P : Event -> Prop) {A} (m : M A) : Prop :=
  forall w, exists new, w_trace (snd (m w)) = w_trace w ++ new /\ Forall P new.

Section emits.
Variable P : Event -> Prop.

Lemma emits_quiet {A} (m : M A) : (forall w, w_trace (snd (m w)) = w_trace w) -> emits P m.
Proof. intros H w. exists []. by rewrite H, app_nil_r. Qed.

Lemma emits_ret {A} (x : A) : emits P (mret x).
Proof. by apply emits_quiet. Qed.

Lemma emits_bind {A B} (m : M A) (f : A -> M B) :
  emits P m -> (forall x, emits P (f x)) -> emits P (m ≫= f).
Proof.
  intros Hm Hf w. destruct (Hm w) as (n1 & E1 & H1).
  unfold mbind, M_bind. destruct (m w) as [x w1]. simpl in E1.
  destruct (Hf x w1) as (n2 & E2 & H2). exists (n1 ++ n2).
  rewrite E2, E1, app_assoc. split; [done|]. by apply Forall_app.
Qed.

Lemma emits_emit evs : Forall P evs -> emits P (emit evs).
Proof. intros H w. by exists evs. Qed.

Lemma emits_outside {A} (answer : trace -> A) (ev : A -> Event) :
  (forall r, P (ev r)) -> emits P (outside answer ev).
Proof.
  intros H1 w. run_M. eexists. split; [done|]. by repeat constructor.
Qed.

Lemma emits_now `{Env} : emits P now.
Proof. by apply emits_quiet. Qed.
Lemma emits_alloc : emits P alloc.
Proof. by apply emits_quiet. Qed.
Lemma emits_get_close l : emits P (get_close l).
Proof. by apply emits_quiet. Qed.
Lemma emits_put_close l f : emits P (put_close l f).
Proof. by apply emits_quiet. Qed.
Lemma emits_load_closed l : emits P (load_closed l).
Proof. by apply emits_quiet. Qed.
Lemma emits_store_closed l : emits P (store_closed l).
Proof. by apply emits_quiet. Qed.
Lemma emits_first_closeOnce l : emits P (first_closeOnce l).
Proof. by apply emits_quiet. Qed.
Lemma emits_first_once l : emits P (first_once l).
Proof. by apply emits_quiet. Qed.

Lemma emits_observe o info : P (EvObserve o info) -> emits P (observe_call o info).
Proof. intros H. apply emits_emit. destruct o; simpl; by repeat constructor. Qed.

Lemma emits_log_info l msg kv :
  P (EvLog (mkLogLine l levelInfo msg kv)) -> emits P (log_info l msg kv).
Proof. intros H. apply emits_emit. destruct l; simpl; by repeat constructor. Qed.

Lemma emits_log_error l msg kv :
  P (EvLog (mkLogLine l levelError msg kv)) -> emits P (log_error l msg kv).
Proof. intros H. apply emits_emit. destruct l; simpl; by repeat constructor. Qed.

Lemma emits_cancel ctx : P (EvCancel ctx) -> emits P (cancel ctx).
Proof. intros. apply emits_emit. by repeat constructor. Qed.

End emits.

#[export] Hint Resolve emits_ret emits_now emits_alloc emits_get_close emits_put_close
  emits_load_closed emits_store_closed emits_first_closeOnce emits_first_once : go.
#[export] Hint Resolve emits_outside emits_observe emits_log_info emits_log_error emits_cancel : go.

(** Walks a program: binds, branches and primitives; [t] closes the predicate on
    the events. *)
Ltac solve_emits_with t :=
  repeat first
    [ apply emits_ret | apply emits_now | apply emits_alloc | apply emits_get_close
    | apply emits_put_close | apply emits_load_closed | apply emits_store_closed
    | apply emits_first_closeOnce | apply emits_first_once
    | apply emits_bind; [|intros ?]
    | apply emits_outside; intros ?; solve [t]
    | apply emits_observe; solve [t] | apply emits_log_info; solve [t]
    | apply emits_log_error; solve [t] | apply emits_cancel; solve [t]
    | solve [eauto with go]
    | match goal with
      | |- emits _ (match ?x with _ => _ end) => destruct x
      end ].
