(* ===== verification/Identity.v ===== *)
(** * Client identities (identity.go, identity_hsm.go)

    An [Identity] is a heap object: its address and its immutable fields, with
    the mutable [close] field in the world. Certificates, keys and signers
    belong to [crypto] and fabric-gateway's identity package, the files to the
    operating system: the classes [X509Lib] and [FileSystem]. *)

From stdpp Require Import sorting.
From S2P Require Import Prelude GoStrings Errors World.

(** ** What lies outside the repository *)

Class X509Lib := {
  X509_MspID : X509Identity -> string;
  NewX509Identity : string -> Certificate -> error + X509Identity;
  CertificateFromPEM : bytes -> error + Certificate;
  PrivateKeyFromPEM : bytes -> error + PrivateKey;
  NewPrivateKeySign : PrivateKey -> error + Sign;
  cert_PublicKey : Certificate -> PublicKey;
  (* key.(crypto.Signer), and the signer's Public() *)
  key_Signer : PrivateKey -> option PublicKey;
  (* pub.(interface{ Equal(crypto.PublicKey) bool }) *)
  key_Equal : PublicKey -> option (PublicKey -> bool);
  (* pub.( *ecdsa.PublicKey), its ECDH() and the bytes of that key *)
  key_ECDSA : PublicKey -> option N;
  ecdsa_ECDH : N -> error + N;
  ecdh_Bytes : N -> bytes;
  Sum256 : bytes -> bytes }.

(** An X.509 identity has the MSP ID it was made with. *)
Class X509LibOk `{X509Lib} : Prop :=
  MspID_New m c x : NewX509Identity m c = inr x -> X509_MspID x = m.

Record DirEntry := mkDirEntry { Entry_Name : string; Entry_IsRegular : bool }.

Class FileSystem := {
  os_Stat : string -> error + bool;          (* IsDir() of the file's info *)
  os_ReadFile : string -> error + bytes;
  os_ReadDir : string -> error + list DirEntry }.

(** ** Data *)

Record Identity := mkIdentity {
  id_addr : loc; id_x509 : X509Identity; id_cert : Certificate; id_sign : Sign }.

Record HSMOptions := mkHSMOptions { HSM_Label : string; HSM_Pin : string; HSM_Identifier : bytes }.

(** ** Operations *)

(** [string(b)]. *)
Definition string_of_bytes (b : bytes) : string := String.string_of_list_byte b.

Section identity.
Context `{X : X509Lib} `{F : FileSystem} `{E : Env}.

Definition NewIdentity (mspID : string) (cert : option Certificate) (sign : option Sign)
    : M (error + Identity) :=
  if decide (TrimSpace mspID = "") then
    mret (inl (configError (errorString "identity: MSP ID is empty")))
  else match cert with
  | None => mret (inl (configError (errorString "identity: certificate is nil")))
  | Some cert =>
    match sign with
    | None => mret (inl (configError (errorString "identity: sign function is nil")))
    | Some sign =>
      match NewX509Identity mspID cert with
      | inl err => mret (inl (configError (Errorf_w "identity: " err)))
      | inr x509 => a ← alloc; mret (inr (mkIdentity a x509 cert sign))
      end
    end
  end.

Definition checkKeyMatchesCert (key : PrivateKey) (cert : Certificate) : option error :=
  match key_Signer key with
  | None => Some (errorString "identity: private key type cannot sign")
  | Some pub =>
      let mismatch := Some (errorString "identity: private key does not match the certificate") in
      match key_Equal (cert_PublicKey cert) with
      | None => mismatch
      | Some equal => if equal pub then None else mismatch
      end
  end.

Definition IdentityFromPEM (mspID : string) (certPEM keyPEM : bytes) : M (error + Identity) :=
  match CertificateFromPEM certPEM with
  | inl err => mret (inl (configError (Errorf_w "identity: parse certificate: " err)))
  | inr cert =>
    match PrivateKeyFromPEM keyPEM with
    | inl err => mret (inl (configError (Errorf_w "identity: parse private key: " err)))
    | inr key =>
      match checkKeyMatchesCert key cert with
      | Some err => mret (inl (configError err))
      | None =>
        match NewPrivateKeySign key with
        | inl err => mret (inl (configError (Errorf_w "identity: create signer: " err)))
        | inr sign => NewIdentity mspID (Some cert) (Some sign)
        end
      end
    end
  end.

(** The loop of [readPEMPath] over the directory's entries. *)
Definition visible (e : DirEntry) : bool := negb (HasPrefix (Entry_Name e) "." || negb (Entry_IsRegular e)).

Definition readPEMPath (p : string) : error + bytes :=
  match os_Stat p with
  | inl err => inl err
  | inr false => os_ReadFile p
  | inr true =>
    match os_ReadDir p with
    | inl err => inl err
    | inr entries =>
        let files := merge_sort String.le (Entry_Name <$> List.filter visible entries) in
        match files with
        | [] => inl (errorString ("no files in directory " +:+ p))
        | [f] => os_ReadFile (JoinPath p f)
        | _ => inl (errorString ("directory " +:+ p +:+ " holds " +:+ pretty (length files)
                 +:+ " files (" +:+ Join files ", " +:+ "); pass the path of one file"))
        end
    end
  end.

Definition LoadIdentity (mspID certPath keyPath : string) : M (error + Identity) :=
  match readPEMPath certPath with
  | inl err => mret (inl (configError (Errorf_w "identity: certificate: " err)))
  | inr certPEM =>
    match readPEMPath keyPath with
    | inl err => mret (inl (configError (Errorf_w "identity: private key: " err)))
    | inr keyPEM => IdentityFromPEM mspID certPEM keyPEM
    end
  end.

(** The methods [MSPID], [Certificate] and [Close]. *)
Definition MSPID (i : Identity) : string := X509_MspID (id_x509 i).
Definition Identity_Certificate (i : Identity) : Certificate := id_cert i.

Definition Identity_Close (i : option Identity) : M (option error) :=
  match i with
  | None => mret None
  | Some i =>
      c ← get_close (id_addr i);
      match c with
      | None => mret None
      | Some c => _ ← put_close (id_addr i) None; call_CloseFn c
      end
  end.

(** [IdentityFromHSM]; a nil factory is [None]. *)
Definition hsm_identifier (cert : Certificate) (opts : HSMOptions) : error + bytes :=
  match HSM_Identifier opts with
  | [] =>
      match key_ECDSA (cert_PublicKey cert) with
      | None => inl (configError (errorString "identity: HSM identities must use ECDSA certificates"))
      | Some pub =>
          match ecdsa_ECDH pub with
          | inl err => inl (configError (Errorf_w "identity: convert public key: " err))
          | inr ecdh => inr (Sum256 (ecdh_Bytes ecdh))
          end
      end
  | id => inr id
  end.

Definition IdentityFromHSM (factory : option HSMFactory) (mspID : string) (certPEM : bytes)
    (opts : HSMOptions) : M (error + Identity) :=
  match factory with
  | None => mret (inl (configError (errorString "identity: HSM signer factory is nil")))
  | Some factory =>
    match CertificateFromPEM certPEM with
    | inl err => mret (inl (configError (Errorf_w "identity: parse certificate: " err)))
    | inr cert =>
      match hsm_identifier cert opts with
      | inl err => mret (inl err)
      | inr id =>
        r ← NewHSMSigner factory (HSM_Label opts) (HSM_Pin opts) (string_of_bytes id);
        match r with
        | inl err => mret (inl (configError (Errorf_w "identity: open HSM signer: " err)))
        | inr (sign, closeFn) =>
          r ← NewIdentity mspID (Some cert) (Some sign);
          match r with
          | inl err => _ ← call_CloseFn closeFn; mret (inl err)
          | inr ident => _ ← put_close (id_addr ident) (Some closeFn); mret (inr ident)
          end
        end
      end
    end
  end.

End identity.

(** ** Lemmas *)

Section identity_lemmas.
Context `{X : X509Lib} `{F : FileSystem} `{E : Env}.

(** What a successful [NewIdentity] passed. *)
Lemma NewIdentity_inr mspID cert sign w i w' :
  NewIdentity mspID cert sign w = (inr i, w') ->
  exists c s x, cert = Some c /\ sign = Some s /\ TrimSpace mspID <> ""
    /\ NewX509Identity mspID c = inr x
    /\ i = mkIdentity (w_next w) x c s
    /\ w' = snd (alloc w).
Proof.
  unfold NewIdentity. case_decide; [done|]. destruct cert as [c|]; [|done].
  destruct sign as [s|]; [|done]. destruct (NewX509Identity mspID c) as [|x] eqn:Ex; [done|].
  run_M. intros [= <- <-]. by exists c, s, x.
Qed.

(** A failing [NewIdentity] changes nothing and reports a configuration error. *)
Lemma NewIdentity_inl mspID cert sign w err w' :
  NewIdentity mspID cert sign w = (inl err, w') -> w' = w /\ KindOf (Some err) = KindConfig.
Proof.
  unfold NewIdentity. repeat case_match; run_M; intros; simplify_eq; done.
Qed.

(** [readPEMPath] on a directory sorts and counts the visible files. *)
Lemma merge_sort_singleton (s : string) : merge_sort String.le [s] = [s].
Proof. done. Qed.

Lemma merge_sort_length (l : list string) : length (merge_sort String.le l) = length l.
Proof. apply Permutation_length, merge_sort_Permutation. Qed.

End identity_lemmas.

(** ** Properties *)

Section identity_properties.
Context `{X : X509Lib} `{F : FileSystem} `{E : Env}.

(** An identity from PEM always has a key that belongs to its certificate:
    when [IdentityFromPEM] succeeds, both blobs parsed, the signer's public key
    equals the certificate's, the signing function is the key's own, and the
    identity carries the requested MSP ID and that certificate. *)
Theorem IdentityFromPEM_key_matches `{!X509LibOk} (mspID : string) (certPEM keyPEM : bytes)
    (w w' : World) (i : Identity) :
  IdentityFromPEM mspID certPEM keyPEM w = (inr i, w') ->
  MSPID i = mspID /\ TrimSpace mspID <> ""
  /\ CertificateFromPEM certPEM = inr (Identity_Certificate i)
  /\ exists key pub equal, PrivateKeyFromPEM keyPEM = inr key
     /\ key_Signer key = Some pub
     /\ key_Equal (cert_PublicKey (Identity_Certificate i)) = Some equal
     /\ equal pub = true
     /\ NewPrivateKeySign key = inr (id_sign i).
Proof.
  unfold IdentityFromPEM. destruct (CertificateFromPEM certPEM) as [|cert] eqn:Ec; [done|].
  destruct (PrivateKeyFromPEM keyPEM) as [|key] eqn:Ek; [done|].
  destruct (checkKeyMatchesCert key cert) eqn:Em; [done|].
  destruct (NewPrivateKeySign key) as [|sign] eqn:Es; [done|].
  intros (c & s & x & [= <-] & [= <-] & Hm & Hx & -> & _)%NewIdentity_inr.
  unfold checkKeyMatchesCert in Em.
  destruct (key_Signer key) as [pub|] eqn:Esg; [|done].
  destruct (key_Equal (cert_PublicKey cert)) as [equal|] eqn:Eeq; [|done].
  destruct (equal pub) eqn:Ep; [|done].
  split; [by eapply MspID_New|]. split_and!; [done..|]. by exists key, pub, equal.
Qed.

(** [NewIdentity] accepts exactly a non-blank MSP ID with a certificate and
    a signing function that the identity package accepts; every refusal is a
    configuration error. The signing function is taken as it is: no check ties
    it to the certificate. *)
Theorem NewIdentity_accepts (mspID : string) (cert : option Certificate) (sign : option Sign)
    (w : World) :
  match fst (NewIdentity mspID cert sign w) with
  | inr i => exists c s, cert = Some c /\ sign = Some s /\ TrimSpace mspID <> ""
      /\ NewX509Identity mspID c = inr (id_x509 i) /\ id_cert i = c /\ id_sign i = s
      /\ forall s', fst (NewIdentity mspID cert (Some s') w)
                    = inr (mkIdentity (id_addr i) (id_x509 i) c s')
  | inl err => KindOf (Some err) = KindConfig
      /\ (forall c s x, cert = Some c -> sign = Some s -> NewX509Identity mspID c = inr x ->
          TrimSpace mspID = "")
  end.
Proof.
  destruct (NewIdentity mspID cert sign w) as [[err|i] w'] eqn:En; simpl.
  - split; [by apply NewIdentity_inl in En as [_ ?]|]. intros c s x -> -> Hx.
    unfold NewIdentity in En. case_decide; [done|]. by rewrite Hx in En.
  - apply NewIdentity_inr in En as (c & s & x & -> & -> & Hm & Hx & -> & _).
    exists c, s. split_and!; try done. intros s'. unfold NewIdentity. rewrite decide_False by done.
    by rewrite Hx.
Qed.

(** A directory is read only when the choice is unique: with exactly one
    regular non-hidden entry [readPEMPath] reads that file, with none or several
    it fails without reading any. *)
Theorem readPEMPath_directory (p : string) (entries : list DirEntry) :
  os_Stat p = inr true -> os_ReadDir p = inr entries ->
  match List.filter visible entries with
  | [e] => readPEMPath p = os_ReadFile (JoinPath p (Entry_Name e))
  | _ => exists msg, readPEMPath p = inl (errorString msg)
  end.
Proof.
  intros Hs Hd. unfold readPEMPath. rewrite Hs, Hd.
  destruct (List.filter visible entries) as [|e [|e' l]]; [by eexists|done|].
  pose proof (merge_sort_length (Entry_Name <$> e :: e' :: l)) as Hl.
  destruct (merge_sort _ _) as [|f [|f' fs]]; simpl in Hl; [done|done|by eexists].
Qed.

Fixpoint close_times (n : nat) (i : option Identity) : M unit :=
  match n with O => mret tt | S n' => _ ← Identity_Close i; close_times n' i end.

(** [Close] may be called any number of times: the signer's close function
    is called exactly once if there is one, and a nil identity does nothing. *)
Theorem Identity_Close_once (n : nat) (i : option Identity) (w : World) :
  w_trace (snd (close_times (S n) i w)) = w_trace w ++
    match i with
    | Some i => match w_close w !! id_addr i with Some f => [EvCloseFn f] | None => [] end
    | None => []
    end.
Proof.
  assert (Hidle : forall m w, (forall j, i = Some j -> w_close w !! id_addr j = None) ->
    w_trace (snd (close_times m i w)) = w_trace w).
  { induction m as [|m IH]; intros w0 H; [done|].
    cbn [close_times]. unfold Identity_Close, call_CloseFn.
    destruct i as [i|]; run_M; [|by apply IH].
    rewrite (H i eq_refl). by apply IH. }
  cbn [close_times]. destruct i as [i|]; [|rewrite app_nil_r; by apply Hidle].
  unfold Identity_Close, call_CloseFn. run_M.
  destruct (w_close w !! id_addr i) as [f|] eqn:Ef; [|rewrite app_nil_r; apply Hidle; naive_solver].
  rewrite Hidle; [done|]. intros j [= <-]. simpl. by rewrite lookup_partial_alter_eq.
Qed.

(** A branch that opens nothing. *)
Ltac no_session :=
  run_M; exists []; rewrite app_nil_r; split; [done|]; by intros ?? Hin; apply elem_of_nil in Hin.

(** C39. No HSM session leaks: whenever [IdentityFromHSM] opened a signer, either
    it failed and closed it again, or it returned an identity that signs with it
    and will close it. *)
Theorem IdentityFromHSM_no_leak (factory : option HSMFactory) (mspID : string) (certPEM : bytes)
    (opts : HSMOptions) (w : World) :
  let '(r, w') := IdentityFromHSM factory mspID certPEM opts w in
  exists new, w_trace w' = w_trace w ++ new
    /\ forall sign f, EvNewHSMSigner (Some (sign, f)) ∈ new ->
       match r with
       | inl _ => EvCloseFn f ∈ new
       | inr i => (EvCloseFn f ∉ new) /\ id_sign i = sign /\ w_close w' !! id_addr i = Some f
       end.
Proof.
  unfold IdentityFromHSM.
  destruct factory as [fac|]; [|no_session].
  destruct (CertificateFromPEM certPEM) as [|cert]; [no_session|].
  destruct (hsm_identifier cert opts) as [|id]; [no_session|].
  unfold NewHSMSigner. run_M.
  destruct (env_NewHSMSigner _ _ _ _ _) as [err|[sign closeFn]]; simpl.
  { eexists; split; [done|]. intros ??. by rewrite elem_of_lit. }
  destruct (NewIdentity _ _ _ _) as [[err|i] w1] eqn:En.
  - apply NewIdentity_inl in En as [-> _]. unfold call_CloseFn. run_M.
    eexists; split; [by rewrite <- app_assoc|]. intros s f Hin. simpl in *.
    apply elem_of_cons in Hin as [[= -> ->]|Hin%elem_of_lit]; [|done].
    rewrite !elem_of_cons. tauto.
  - apply NewIdentity_inr in En as (c & s & x & [= <-] & [= <-] & _ & _ & -> & ->). run_M.
    eexists; split; [done|]. intros s' f. rewrite !elem_of_lit. intros [= -> ->].
    split_and!; [done..|]. by rewrite lookup_partial_alter_eq.
Qed.

End identity_properties.
