(* ===== verification/Config.v ===== *)
(** * Configuration (config.go) *)

From S2P Require Import Prelude GoStrings Errors Observe World Identity.
Local Open Scope Z_scope.

Definition Second : Duration := 1000000000.

Definition DefaultEvaluateTimeout : Duration := 5 * Second.
Definition DefaultEndorseTimeout : Duration := 15 * Second.
Definition DefaultSubmitTimeout : Duration := 5 * Second.
Definition DefaultCommitStatusTimeout : Duration := 60 * Second.

(** [KeepAlive] and [DialOptions] hold values of the grpc package; [Identity],
    [Logger] and [Observer] may be nil. *)
Record Config := mkConfig {
  PeerEndpoint : string;
  PeerHostOverride : string;
  TLSCertPath : string;
  ClientTLSCertPath : string;
  ClientTLSKeyPath : string;
  KeepAlive : option N;
  DialOptions : list DialOption;
  cfg_Identity : option Identity;
  cfg_MSPID : string;
  CertPath : string;
  KeyPath : string;
  ChannelName : string;
  ChaincodeName : string;
  ContractName : string;
  EvaluateTimeout : Duration;
  EndorseTimeout : Duration;
  SubmitTimeout : Duration;
  CommitStatusTimeout : Duration;
  StrictErrorCodes : bool;
  cfg_Logger : option Logger;
  cfg_Observer : option Observer }.

Definition withDefaults (c : Config) : Config :=
  let or_default d default := if decide (d = 0) then default else d in
  mkConfig (PeerEndpoint c) (PeerHostOverride c) (TLSCertPath c) (ClientTLSCertPath c)
    (ClientTLSKeyPath c) (KeepAlive c) (DialOptions c) (cfg_Identity c) (cfg_MSPID c)
    (CertPath c) (KeyPath c) (ChannelName c) (ChaincodeName c) (ContractName c)
    (or_default (EvaluateTimeout c) DefaultEvaluateTimeout)
    (or_default (EndorseTimeout c) DefaultEndorseTimeout)
    (or_default (SubmitTimeout c) DefaultSubmitTimeout)
    (or_default (CommitStatusTimeout c) DefaultCommitStatusTimeout)
    (StrictErrorCodes c)
    (Some (default noopLogger (cfg_Logger c)))
    (Some (default noopObserver (cfg_Observer c))).

(** [if cond { problems = append(problems, text) }]. *)
Definition problem (cond : bool) (text : string) : list string := if cond then [text] else [].

Definition blank (s : string) : bool := bool_decide (TrimSpace s = "").

Definition problems (c : Config) (ownConn : bool) : list string :=
  (if ownConn then
     problem (blank (PeerEndpoint c)) "PeerEndpoint is required"
     ++ problem (blank (TLSCertPath c)) "TLSCertPath is required"
     ++ problem (negb (Bool.eqb (bool_decide (ClientTLSCertPath c = ""))
                          (bool_decide (ClientTLSKeyPath c = ""))))
          "ClientTLSCertPath and ClientTLSKeyPath must be set together"
   else [])
  ++ (match cfg_Identity c with
      | None =>
          problem (blank (cfg_MSPID c)) "MSPID is required when Identity is nil"
          ++ problem (blank (CertPath c)) "CertPath is required when Identity is nil"
          ++ problem (blank (KeyPath c)) "KeyPath is required when Identity is nil"
      | Some _ => []
      end)
  ++ problem (blank (ChannelName c)) "ChannelName is required"
  ++ problem (blank (ChaincodeName c)) "ChaincodeName is required"
  ++ problem (existsb (fun d => d <? 0)
       [EvaluateTimeout c; EndorseTimeout c; SubmitTimeout c; CommitStatusTimeout c])
       "timeouts must not be negative".

Definition validate (c : Config) (ownConn : bool) : option error :=
  match problems c ownConn with
  | [] => None
  | ps => Some (configError (errorString (Join ps "; ")))
  end.

Definition grpcTarget (endpoint : string) : string :=
  if Contains endpoint "://" || HasPrefix endpoint "dns:"
     || HasPrefix endpoint "passthrough:" || HasPrefix endpoint "unix:"
  then endpoint else "dns:///" +:+ endpoint.

Definition serverNameFor (cfg : Config) : string :=
  if bool_decide (PeerHostOverride cfg = "") then
    let host := PeerEndpoint cfg in
    let host := match LastIndex host "/" with Some i => sdrop (i + 1) host | None => host end in
    match LastIndex host ":" with Some i => stake i host | None => host end
  else PeerHostOverride cfg.

(** ** Lemmas *)

Lemma blank_true s : blank s = true <-> TrimSpace s = "".
Proof. apply bool_decide_eq_true. Qed.

Lemma problem_nil cond text : problem cond text = [] <-> cond = false.
Proof. by destruct cond. Qed.

(** The two slices of [serverNameFor] that drop the path and the port. *)
Lemma after_slash_none s : lacks "/" s = true ->
  match LastIndex s "/" with Some i => sdrop (i + 1) s | None => s end = s.
Proof. intros H. by rewrite LastIndex_none. Qed.

Lemma after_slash a b : lacks "/" b = true ->
  match LastIndex (a +:+ String "/" b) "/" with
  | Some i => sdrop (i + 1) (a +:+ String "/" b) | None => a +:+ String "/" b end = b.
Proof.
  intros H. rewrite LastIndex_last by done.
  replace (String.length a + 1)%nat with (String.length (a +:+ "/")) by (by rewrite slen_app).
  rewrite <- (sdrop_app (a +:+ "/") b) at 2. by rewrite sapp_assoc.
Qed.

Lemma before_colon h p : lacks ":" p = true ->
  match LastIndex (h +:+ String ":" p) ":" with
  | Some i => stake i (h +:+ String ":" p) | None => h +:+ String ":" p end = h.
Proof. intros H. by rewrite LastIndex_last, stake_app. Qed.

Lemma grpcTarget_cases e : grpcTarget e = e \/ grpcTarget e = "dns:///" +:+ e.
Proof. unfold grpcTarget. destruct (_ || _); auto. Qed.

Lemma grpcTarget_dns e : grpcTarget ("dns:///" +:+ e) = "dns:///" +:+ e.
Proof. unfold grpcTarget. by rewrite (Contains_app_r "dns:///" e "://" eq_refl). Qed.

(** What [validate] demands, field by field. *)
Record valid_config (c : Config) (ownConn : bool) : Prop := {
  valid_network : ownConn = true ->
    TrimSpace (PeerEndpoint c) <> "" /\ TrimSpace (TLSCertPath c) <> ""
    /\ (ClientTLSCertPath c = "" <-> ClientTLSKeyPath c = "");
  valid_identity : cfg_Identity c = None ->
    TrimSpace (cfg_MSPID c) <> "" /\ TrimSpace (CertPath c) <> "" /\ TrimSpace (KeyPath c) <> "";
  valid_target : TrimSpace (ChannelName c) <> "" /\ TrimSpace (ChaincodeName c) <> "";
  valid_timeouts : 0 <= EvaluateTimeout c /\ 0 <= EndorseTimeout c
    /\ 0 <= SubmitTimeout c /\ 0 <= CommitStatusTimeout c }.

Lemma blank_false s : blank s = false <-> TrimSpace s <> "".
Proof. apply bool_decide_eq_false. Qed.

Lemma problems_nil c ownConn : problems c ownConn = [] <-> valid_config c ownConn.
Proof.
  unfold problems. rewrite !app_nil.
  assert (Hpair : forall a b : string, negb (Bool.eqb (bool_decide (a = "")) (bool_decide (b = ""))) = false
    <-> (a = "" <-> b = "")).
  { intros a b. rewrite negb_false_iff, Bool.eqb_true_iff. repeat case_bool_decide; naive_solver. }
  assert (Htime : existsb (fun d => d <? 0)
       [EvaluateTimeout c; EndorseTimeout c; SubmitTimeout c; CommitStatusTimeout c] = false <->
     0 <= EvaluateTimeout c /\ 0 <= EndorseTimeout c
     /\ 0 <= SubmitTimeout c /\ 0 <= CommitStatusTimeout c).
  { simpl. rewrite !orb_false_iff, !Z.ltb_ge. naive_solver. }
  rewrite !problem_nil, !blank_false, Htime. split.
  - intros (Hn & Hi & Hc & Hcc & Ht). split; [..|done|done].
    + intros ->. revert Hn. by rewrite !app_nil, !problem_nil, !blank_false, Hpair.
    + intros Hid. revert Hi. rewrite Hid. by rewrite !app_nil, !problem_nil, !blank_false.
  - intros [Hn Hi [? ?] (? & ? & ? & ?)]. split_and!; try done.
    + destruct ownConn; [|done]. rewrite !app_nil, !problem_nil, !blank_false, Hpair. by apply Hn.
    + destruct (cfg_Identity c); [done|]. rewrite !app_nil, !problem_nil, !blank_false. by apply Hi.
Qed.

Lemma validate_None c ownConn : validate c ownConn = None <-> valid_config c ownConn.
Proof. rewrite <- problems_nil. unfold validate. by destruct (problems c ownConn). Qed.

Lemma withDefaults_bounds c ownConn : valid_config c ownConn ->
  let c' := withDefaults c in
  0 < EvaluateTimeout c' /\ 0 < EndorseTimeout c' /\ 0 < SubmitTimeout c'
  /\ 0 < CommitStatusTimeout c'.
Proof.
  intros [_ _ _ (? & ? & ? & ?)].
  assert (Hd : forall d def, 0 <= d -> 0 < def -> 0 < (if decide (d = 0) then def else d))
    by (intros; case_decide; lia).
  split_and!; by apply Hd.
Qed.

(** ** Properties *)

(** C38. [validate] accepts exactly the valid configurations; otherwise it
    reports one configuration error whose text mentions every problem found. *)
Theorem validate_spec (c : Config) (ownConn : bool) :
  match validate c ownConn with
  | None => valid_config c ownConn
  | Some err => ~ valid_config c ownConn /\ KindOf (Some err) = KindConfig
      /\ forall p, p ∈ problems c ownConn -> Contains (error_text err) p = true
  end.
Proof.
  unfold validate. pose proof (problems_nil c ownConn) as Hn.
  destruct (problems c ownConn) as [|p ps] eqn:E; [by apply Hn|].
  split_and!; [by intros ?%Hn|done|].
  intros q Hq%(Contains_Join _ "; ").
  change (error_text _) with ("fabricsdk: config: invalid configuration: " +:+ Join (p :: ps) "; ").
  by apply Contains_app_l.
Qed.

(** Defaults: a validated configuration with defaults has four positive
    timeouts, a logger and an observer, so no phase runs unbounded and no hook
    is nil; applying the defaults again changes nothing. *)
Theorem withDefaults_positive (c : Config) (ownConn : bool) :
  validate c ownConn = None ->
  let c' := withDefaults c in
  0 < EvaluateTimeout c' /\ 0 < EndorseTimeout c' /\ 0 < SubmitTimeout c'
  /\ 0 < CommitStatusTimeout c' /\ is_Some (cfg_Logger c') /\ is_Some (cfg_Observer c')
  /\ withDefaults c' = c'.
Proof.
  intros Hv%validate_None. pose proof (withDefaults_bounds c ownConn Hv) as (? & ? & ? & ?).
  split_and!; try done; [by eexists..|].
  unfold withDefaults. simpl. f_equal; repeat case_decide; done.
Qed.

(** The gRPC target has an explicit resolver, adding one is idempotent, and
    it never changes the TLS server name: the name verified for an endpoint is
    the name verified for the target that is dialled. *)
Theorem grpcTarget_server_name (c : Config) :
  let set_endpoint e := mkConfig e (PeerHostOverride c) (TLSCertPath c) (ClientTLSCertPath c)
    (ClientTLSKeyPath c) (KeepAlive c) (DialOptions c) (cfg_Identity c) (cfg_MSPID c)
    (CertPath c) (KeyPath c) (ChannelName c) (ChaincodeName c) (ContractName c)
    (EvaluateTimeout c) (EndorseTimeout c) (SubmitTimeout c) (CommitStatusTimeout c)
    (StrictErrorCodes c) (cfg_Logger c) (cfg_Observer c) in
  let target := grpcTarget (PeerEndpoint c) in
  grpcTarget target = target
  /\ (target = PeerEndpoint c \/ target = "dns:///" +:+ PeerEndpoint c)
  /\ serverNameFor (set_endpoint target) = serverNameFor c.
Proof.
  intros set_endpoint target. unfold target.
  destruct (grpcTarget_cases (PeerEndpoint c)) as [E|E]; rewrite E.
  - split_and!; [done|by left|by destruct c].
  - split_and!; [by apply grpcTarget_dns|by right|].
    unfold serverNameFor. cbn [PeerHostOverride PeerEndpoint set_endpoint].
    case_bool_decide; [|done].
    destruct (split_last "/" (PeerEndpoint c)) as [H'|(a & b & Eb & Hb)].
    + rewrite (after_slash_none (PeerEndpoint c)) by done.
      change ("dns:///" +:+ PeerEndpoint c) with ("dns://" +:+ String "/" (PeerEndpoint c)).
      by rewrite after_slash.
    + rewrite Eb. by rewrite <- sapp_assoc, !after_slash.
Qed.

(** Without an override, the server name of an endpoint "prefix/host:port"
    or "host:port" is its host. *)
Theorem serverNameFor_host (c : Config) (pre host port : string) :
  PeerHostOverride c = "" ->
  (pre = "" \/ exists p, pre = p +:+ "/") ->
  lacks "/" host = true -> lacks "/" port = true -> lacks ":" port = true ->
  PeerEndpoint c = pre +:+ host +:+ ":" +:+ port ->
  serverNameFor c = host.
Proof.
  intros Ho Hpre Hh Hp Hpc He. unfold serverNameFor. rewrite bool_decide_eq_true_2 by done.
  assert (Hl : lacks "/" (host +:+ ":" +:+ port) = true) by (rewrite !lacks_app, Hh; simpl; by rewrite Hp).
  assert (Ehost : match LastIndex (PeerEndpoint c) "/" with
    | Some i => sdrop (i + 1) (PeerEndpoint c) | None => PeerEndpoint c end = host +:+ ":" +:+ port).
  { rewrite He. destruct Hpre as [->|[p ->]].
    - by apply after_slash_none.
    - rewrite sapp_assoc. by apply after_slash. }
  rewrite Ehost. by apply before_colon.
Qed.

(** An endpoint that names its resolver without slashes is dialled as it is, but
    keeps the scheme in the name that TLS verifies. *)
Lemma serverNameFor_keeps_scheme (c : Config) (host port : string) :
  PeerHostOverride c = "" -> PeerEndpoint c = "dns:" +:+ host +:+ ":" +:+ port ->
  lacks "/" host = true -> lacks "/" port = true -> lacks ":" port = true ->
  grpcTarget (PeerEndpoint c) = PeerEndpoint c /\ serverNameFor c = "dns:" +:+ host.
Proof.
  intros Ho He Hh Hp Hpc. split.
  - rewrite He. unfold grpcTarget. by destruct (Contains _ _).
  - apply (serverNameFor_host c "" ("dns:" +:+ host) port); auto.
Qed.
