(* ===== verification/Client.v ===== *)
(** * The client (client.go): construction, release, call options, timeouts

    A [FabricClient] is a heap object: its address and the fields that [build]
    and [New] fill in before the client is handed out; [closed] and [closeOnce]
    are in the world. *)

From S2P Require Import Prelude GoStrings Errors Observe World Identity Config.
Local Open Scope Z_scope.

(** ** What lies outside the repository *)

(** [crypto/x509] and [crypto/tls]: whether a PEM blob holds certificates, a key
    pair on disk, and [pair.Certificate[0]] of a pair. *)
Class TLSLib := {
  AppendCertsFromPEM : bytes -> bool;
  LoadX509KeyPair : string -> string -> error + TLSKeyPair;
  pair_leaf : TLSKeyPair -> bytes }.

(** ** Data *)

Record FabricClient := mkFabricClient {
  fc_addr : loc;
  fc_cfg : Config;
  fc_conn : Conn;
  fc_ownedConn : option Conn;
  fc_id : option Identity;
  fc_ownsID : bool;
  fc_gw : option Gateway;
  fc_tlsHash : bytes }.

(** The logger and observer of a client: [withDefaults] left neither nil. *)
Definition fc_Logger (fc : FabricClient) : Logger := default noopLogger (cfg_Logger (fc_cfg fc)).
Definition fc_Observer (fc : FabricClient) : Observer :=
  default noopObserver (cfg_Observer (fc_cfg fc)).

(** ** Call options *)

Record callOptions := mkCallOptions {
  opt_args : list bytes;
  opt_transient : option (gmap string bytes);
  opt_orgs : list string }.

Definition CallOption := callOptions -> callOptions.

(** Go's conversion [[]byte(s)]. *)
Definition bytes_of_string (s : string) : bytes := String.list_byte_of_string s.

Definition Args (args : list string) : CallOption := fun o =>
  mkCallOptions (foldl (fun acc a => acc ++ [bytes_of_string a]) (opt_args o) args)
    (opt_transient o) (opt_orgs o).

Definition BytesArgs (args : list bytes) : CallOption := fun o =>
  mkCallOptions (opt_args o ++ args) (opt_transient o) (opt_orgs o).

(** A nil map is [None]. *)
Definition Transient (data : option (gmap string bytes)) : CallOption := fun o =>
  mkCallOptions (opt_args o) data (opt_orgs o).

Definition EndorsingOrgs (mspIDs : list string) : CallOption := fun o =>
  mkCallOptions (opt_args o) (opt_transient o) (opt_orgs o ++ mspIDs).

Definition proposalOptions (opts : list CallOption) : list ProposalOption :=
  let o := foldl (fun o opt => opt o) (mkCallOptions [] None []) opts in
  [WithBytesArguments (opt_args o)]
  ++ (match opt_transient o with Some data => [WithTransient data] | None => [] end)
  ++ (if decide (opt_orgs o = []) then [] else [WithEndorsingOrganizations (opt_orgs o)]).

Section client.
Context `{X : X509Lib} `{F : FileSystem} `{T : TLSLib} `{E : Env}.

(** [withDefaultTimeout]; a nil context is [None]. *)
Definition withDefaultTimeout (ctx : option Context) (d : Duration) : M Context :=
  let ctx := default Background ctx in
  if bool_decide (is_Some (Deadline ctx)) || (d <=? 0) then mret (WithCancel ctx)
  else n ← now; mret (WithDeadline ctx (n + d)).

(** ** Construction *)

(** The options [connect] passes. *)
Definition connectOptions (fc : FabricClient) (id : Identity) : list ConnectOption :=
  let cfg := fc_cfg fc in
  let opts := [
    WithSign (id_sign id);
    WithHashSHA256;
    WithClientConnection (fc_conn fc);
    WithEvaluateTimeout (EvaluateTimeout cfg);
    WithEndorseTimeout (EndorseTimeout cfg);
    WithSubmitTimeout (SubmitTimeout cfg);
    WithCommitStatusTimeout (CommitStatusTimeout cfg) ] in
  if decide (fc_tlsHash fc = []) then opts
  else opts ++ [WithTLSClientCertificateHash (fc_tlsHash fc)].

Definition connect (fc : FabricClient) (id : Identity) : M (error + Gateway) :=
  r ← client_Connect (id_x509 id) (connectOptions fc id);
  match r with
  | inl err => mret (inl (configError (Errorf_w "connect gateway: " err)))
  | inr gw => mret (inr gw)
  end.

Definition transportCredentials (cfg : Config) : error + (TLSConfig * bytes) :=
  match os_ReadFile (TLSCertPath cfg) with
  | inl err => inl (configError (Errorf_w "read TLS CA certificate: " err))
  | inr caPEM =>
    if negb (AppendCertsFromPEM caPEM) then
      inl (configError (errorString ("no PEM certificates found in " +:+ TLSCertPath cfg)))
    else
    let serverName := serverNameFor cfg in
    if bool_decide (ClientTLSCertPath cfg = "") then
      inr (mkTLSConfig caPEM serverName true None, [])
    else match LoadX509KeyPair (ClientTLSCertPath cfg) (ClientTLSKeyPath cfg) with
    | inl err => inl (configError (Errorf_w "load client TLS key pair: " err))
    | inr keyPair =>
        inr (mkTLSConfig caPEM serverName true (Some keyPair), Sum256 (pair_leaf keyPair))
    end
  end.

(** The identity [build] uses, and whether the client owns it. *)
Definition clientIdentity (cfg : Config) : M (error + (Identity * bool)) :=
  match cfg_Identity cfg with
  | Some id => mret (inr (id, false))
  | None =>
      r ← LoadIdentity (cfg_MSPID cfg) (CertPath cfg) (KeyPath cfg);
      match r with inl err => mret (inl err) | inr id => mret (inr (id, true)) end
  end.

Definition build (cfg : Config) (conn : Conn) (tlsHash : bytes) : M (error + FabricClient) :=
  a ← alloc;
  r ← clientIdentity cfg;
  match r with
  | inl err => mret (inl err)
  | inr (id, ownsID) =>
    let fc := mkFabricClient a cfg conn None (Some id) ownsID None tlsHash in
    r ← connect fc id;
    match r with
    | inl err =>
        _ ← (if ownsID then Identity_Close (Some id) else mret None);
        mret (inl err)
    | inr gw => mret (inr (mkFabricClient a cfg conn None (Some id) ownsID (Some gw) tlsHash))
    end
  end.

Definition New (cfg : Config) : M (error + FabricClient) :=
  match validate cfg true with
  | Some err => mret (inl err)
  | None =>
    let cfg := withDefaults cfg in
    match transportCredentials cfg with
    | inl err => mret (inl err)
    | inr (creds, tlsHash) =>
      let opts := [WithTransportCredentials creds]
                  ++ (match KeepAlive cfg with Some k => [WithKeepaliveParams k] | None => [] end)
                  ++ DialOptions cfg in
      r ← grpc_NewClient (grpcTarget (PeerEndpoint cfg)) opts;
      match r with
      | inl err => mret (inl (configError (Errorf_w "create gRPC client: " err)))
      | inr conn =>
        r ← build cfg conn tlsHash;
        match r with
        | inl err => _ ← Conn_Close conn; mret (inl err)
        | inr fc =>
          let fc := mkFabricClient (fc_addr fc) (fc_cfg fc) (fc_conn fc) (Some conn) (fc_id fc)
                      (fc_ownsID fc) (fc_gw fc) (fc_tlsHash fc) in
          _ ← log_info (fc_Logger fc) "fabricsdk: client ready" [
                logString "peer"; logString (PeerEndpoint cfg);
                logString "mspID"; logString (from_option MSPID "" (fc_id fc));
                logString "channel"; logString (ChannelName cfg);
                logString "chaincode"; logString (ChaincodeName cfg) ];
          mret (inr fc)
        end
      end
    end
  end.

(** A nil connection is [None]. *)
Definition NewWithConnection (conn : option Conn) (cfg : Config) : M (error + FabricClient) :=
  match conn with
  | None => mret (inl (configError (errorString "connection is nil")))
  | Some conn =>
    match validate cfg false with
    | Some err => mret (inl err)
    | None => build (withDefaults cfg) conn []
    end
  end.

(** ** Release *)

Definition FabricClient_Close (fc : FabricClient) : M (option error) :=
  first ← first_closeOnce (fc_addr fc);
  errs ← (if first : bool then
    _ ← store_closed (fc_addr fc);
    e1 ← match fc_gw fc with Some gw => e ← Gateway_Close gw; mret [e] | None => mret [] end;
    e2 ← match fc_ownedConn fc with Some c => e ← Conn_Close c; mret [e] | None => mret [] end;
    e3 ← (if fc_ownsID fc then e ← Identity_Close (fc_id fc); mret [e] else mret []);
    mret (e1 ++ e2 ++ e3)
  else mret []);
  mret (errors_Join errs).

(** The method [Identity]. *)
Definition FabricClient_Identity (fc : FabricClient) : option Identity := fc_id fc.

End client.

#[global] Arguments Identity_Close : simpl never.
#[global] Arguments connect : simpl never.
#[global] Arguments build : simpl never.

(** ** Lemmas *)

(** What an operation that only allocates does to the world. *)
Definition only_allocs (w w' : World) : Prop :=
  w_trace w' = w_trace w /\ w_close w' = w_close w /\ w_closed w' = w_closed w
  /\ w_closeOnce w' = w_closeOnce w /\ w_once w' = w_once w /\ (w_next w <= w_next w')%positive.

Lemma only_allocs_refl w : only_allocs w w.
Proof. by repeat split. Qed.

Lemma NewIdentity_only_allocs `{X : X509Lib} mspID cert sign w :
  only_allocs w (snd (NewIdentity mspID cert sign w)).
Proof.
  destruct (NewIdentity mspID cert sign w) as [[err|i] w'] eqn:E.
  - apply NewIdentity_inl in E as [-> _]. apply only_allocs_refl.
  - apply NewIdentity_inr in E as (c & s & x & _ & _ & _ & _ & _ & ->). run_M. split_and!; simpl; try done. lia.
Qed.

Lemma LoadIdentity_only_allocs `{X : X509Lib} `{F : FileSystem} mspID certPath keyPath w :
  only_allocs w (snd (LoadIdentity mspID certPath keyPath w)).
Proof.
  unfold LoadIdentity, IdentityFromPEM.
  destruct (readPEMPath certPath); [apply only_allocs_refl|].
  destruct (readPEMPath keyPath); [apply only_allocs_refl|].
  destruct (CertificateFromPEM _); [apply only_allocs_refl|].
  destruct (PrivateKeyFromPEM _); [apply only_allocs_refl|].
  destruct (checkKeyMatchesCert _ _); [apply only_allocs_refl|].
  destruct (NewPrivateKeySign _); [apply only_allocs_refl|apply NewIdentity_only_allocs].
Qed.

(** A client as the constructors hand it out, in a world where it is open. *)
Record wf_client (fc : FabricClient) : Prop := {
  wf_id : is_Some (fc_id fc);
  wf_gw : is_Some (fc_gw fc);
  wf_timeouts : 0 < EvaluateTimeout (fc_cfg fc) /\ 0 < EndorseTimeout (fc_cfg fc)
    /\ 0 < SubmitTimeout (fc_cfg fc) /\ 0 < CommitStatusTimeout (fc_cfg fc);
  wf_hooks : is_Some (cfg_Logger (fc_cfg fc)) /\ is_Some (cfg_Observer (fc_cfg fc)) }.

(** Addresses in use lie below the next free one. *)
Definition wf_world (w : World) : Prop :=
  (forall l, l ∈ w_closed w -> (l < w_next w)%positive)
  /\ (forall l, l ∈ w_closeOnce w -> (l < w_next w)%positive)
  /\ (forall l, l ∈ w_once w -> (l < w_next w)%positive).

Lemma wf_world_fresh w : wf_world w ->
  (w_next w ∉ w_closed w) /\ (w_next w ∉ w_closeOnce w) /\ (w_next w ∉ w_once w).
Proof. intros (H1 & H2 & H3). split_and!; intros H; [apply H1 in H|apply H2 in H|apply H3 in H]; lia. Qed.

(** A constructor's result: either it failed and left no connection or Gateway
    of its own open, or it returned an open client that holds them. *)
Definition constructed (cfg : Config) (w : World) (r : error + FabricClient) (w' : World)
    (new : trace) : Prop :=
  match r with
  | inl _ => forall x o g, EvConnect x o (Some g) ∉ new
  | inr fc =>
      fc_addr fc = w_next w /\ (w_next w < w_next w')%positive /\ fc_cfg fc = cfg
      /\ is_Some (fc_id fc)
      /\ (fc_ownsID fc = true <-> cfg_Identity cfg = None)
      /\ w_closed w' = w_closed w /\ w_closeOnce w' = w_closeOnce w /\ w_once w' = w_once w
      /\ (forall g, EvGatewayClose g ∉ new)
      /\ exists g, fc_gw fc = Some g
         /\ forall x o g', EvConnect x o (Some g') ∈ new -> g' = g
  end.

Section client_lemmas.
Context `{X : X509Lib} `{F : FileSystem} `{T : TLSLib} `{E : Env}.

Lemma Identity_Close_emits i : emits (fun ev => exists f, ev = EvCloseFn f) (Identity_Close i).
Proof.
  unfold Identity_Close. destruct i; [|apply emits_ret].
  apply emits_bind; [apply emits_get_close|intros [f|]; [|apply emits_ret]].
  apply emits_bind; [apply emits_put_close|intros _].
  apply emits_outside. intros ?. by eexists.
Qed.

(** [connect] is one call of [client.Connect]. *)
Lemma connect_run fc id w :
  let a := env_Connect (w_trace w) (id_x509 id) (connectOptions fc id) in
  connect fc id w =
  (match a with
   | inl err => inl (configError (Errorf_w "connect gateway: " err)) | inr g => inr g end,
   snd (emit [EvConnect (id_x509 id) (connectOptions fc id) (result_opt a)] w)).
Proof. unfold connect, client_Connect. run_M. by destruct (env_Connect _ _ _). Qed.

Lemma clientIdentity_run cfg w :
  only_allocs w (snd (clientIdentity cfg w))
  /\ forall i b, fst (clientIdentity cfg w) = inr (i, b) -> (b = true <-> cfg_Identity cfg = None).
Proof.
  unfold clientIdentity. destruct (cfg_Identity cfg) as [i|] eqn:Ei.
  - split; [apply only_allocs_refl|]. by intros ?? [= <- <-].
  - pose proof (LoadIdentity_only_allocs (cfg_MSPID cfg) (CertPath cfg) (KeyPath cfg) w) as Ha.
    run_M. destruct (LoadIdentity _ _ _ w) as [[err|i] w1]; split; try done.
    by intros ?? [= <- <-].
Qed.

(** The context [withDefaultTimeout] derives for a phase with timeout [d]. *)
Definition phase_ctx (ctx : option Context) (d : Duration) (c : Context) : Prop :=
  exists w, c = fst (withDefaultTimeout ctx d w).

Lemma withDefaultTimeout_run ctx d w :
  withDefaultTimeout ctx d w = (fst (withDefaultTimeout ctx d w), w).
Proof. unfold withDefaultTimeout. by destruct (_ || _). Qed.

Lemma withDefaultTimeout_cases ctx d w :
  Deadline (fst (withDefaultTimeout ctx d w)) =
  match ctx ≫= Deadline with
  | Some t => Some t
  | None => if 0 <? d then Some (env_now (w_trace w) + d) else None
  end.
Proof.
  unfold withDefaultTimeout.
  assert (Hd : Deadline (default Background ctx) = ctx ≫= Deadline) by (by destruct ctx).
  rewrite <- Hd. destruct (Deadline (default Background ctx)) as [t|] eqn:Et; simpl; [done|].
  rewrite Z.ltb_antisym. destruct (d <=? 0); simpl; [done|]. by rewrite Et.
Qed.

Lemma phase_ctx_deadline ctx d c : phase_ctx ctx d c -> 0 < d -> is_Some (Deadline c).
Proof.
  intros [w ->] Hd. rewrite withDefaultTimeout_cases.
  destruct (ctx ≫= Deadline); [by eexists|].
  rewrite (proj2 (Z.ltb_lt _ _)) by done. by eexists.
Qed.

Lemma build_constructed cfg conn h w :
  let '(r, w') := build cfg conn h w in
  exists new, w_trace w' = w_trace w ++ new
    /\ constructed cfg w r w' new
    /\ (forall t o c, EvNewClient t o c ∉ new) /\ (forall c, EvConnClose c ∉ new)
    /\ (forall fc, r = inr fc -> fc_conn fc = conn /\ fc_ownedConn fc = None /\ fc_tlsHash fc = h).
Proof.
  unfold build. run_M. set (w0 := mkWorld _ _ _ _ _ _).
  destruct (clientIdentity_run cfg w0) as [(Et & _ & Ecl & Eco & Eo & En) Hown].
  destruct (clientIdentity cfg w0) as [r1 w1]. simpl in Et, Ecl, Eco, Eo, En, Hown.
  destruct r1 as [err|[i owns]].
  { exists []. rewrite app_nil_r. cbn [constructed]. split_and!; try done; absent. }
  set (fc0 := mkFabricClient _ _ _ _ _ _ _ _). rewrite connect_run. cbn zeta.
  set (opts := connectOptions _ _). destruct (env_Connect _ _ opts) as [err|g]; run_M.
  - destruct owns.
    + pose proof (Identity_Close_emits (Some i)) as Hem.
      match goal with |- context [let (_, _) := Identity_Close _ ?W in _] =>
        destruct (Hem W) as (n & En' & Hn); destruct (Identity_Close (Some i) W) as [ce w2] end.
      simpl in En'. exists ([EvConnect (id_x509 i) opts None] ++ n).
      rewrite En', Et, <- app_assoc. split; [done|]. rewrite list.Forall_forall in Hn.
      assert (Habs : forall ev, (forall f, ev <> EvCloseFn f) ->
        ev <> EvConnect (id_x509 i) opts None -> ev ∉ [EvConnect (id_x509 i) opts None] ++ n).
      { intros ev Hf He [->%elem_of_lit|[f ->]%Hn]%elem_of_app; [done|by eapply Hf]. }
      cbn [constructed]. split_and!; try done; intros; apply Habs; done.
    + eexists. simpl. rewrite Et. split; [done|].
      cbn [constructed]. split_and!; try done; absent.
  - eexists. simpl. rewrite Et. split; [done|].
    cbn [constructed]. split_and!; try done; [simpl; lia|by eapply Hown|absent| |absent..|].
    + exists g. split; [done|]. intros ???. rewrite elem_of_lit. by intros [= -> -> ->].
    + by intros ? [= <-].
Qed.

End client_lemmas.

(** A call option by the constructor that made it. *)
Inductive optionCall :=
| callArgs (args : list string)
| callBytesArgs (args : list bytes)
| callTransient (data : option (gmap string bytes))
| callEndorsingOrgs (mspIDs : list string).

Definition option_of (c : optionCall) : CallOption :=
  match c with
  | callArgs args => Args args
  | callBytesArgs args => BytesArgs args
  | callTransient data => Transient data
  | callEndorsingOrgs mspIDs => EndorsingOrgs mspIDs
  end.

Definition args_of (c : optionCall) : list bytes :=
  match c with
  | callArgs args => bytes_of_string <$> args
  | callBytesArgs args => args
  | _ => []
  end.
Definition transient_of (c : optionCall) : list (option (gmap string bytes)) :=
  match c with callTransient data => [data] | _ => [] end.
Definition orgs_of (c : optionCall) : list string :=
  match c with callEndorsingOrgs mspIDs => mspIDs | _ => [] end.

Lemma foldl_append {A B} (f : A -> B) (l : list A) (acc : list B) :
  foldl (fun acc a => acc ++ [f a]) acc l = acc ++ (f <$> l).
Proof.
  revert acc. induction l as [|a l IH]; intros acc; simpl; [by rewrite app_nil_r|].
  by rewrite IH, <- app_assoc.
Qed.

Lemma options_fold (calls : list optionCall) o :
  foldl (fun o opt => opt o) o (option_of <$> calls) =
  mkCallOptions (opt_args o ++ (calls ≫= args_of))
    (default (opt_transient o) (list.last (calls ≫= transient_of)))
    (opt_orgs o ++ (calls ≫= orgs_of)).
Proof.
  revert o. induction calls as [|c calls IH]; intros [a t g]; simpl; [by rewrite !app_nil_r|].
  rewrite IH. clear IH. destruct c; simpl; rewrite <- ?app_assoc, ?app_nil_r; try done.
  - unfold Args. simpl. by rewrite foldl_append, <- app_assoc.
  - f_equal. rewrite last_cons. change (list_bind _ _ transient_of calls) with (calls ≫= transient_of).
    by destruct (list.last (calls ≫= transient_of)).
Qed.

(** ** Properties *)

(** Call options compose in the order written: every argument of [Args] and
    [BytesArgs] is kept in order, the last [Transient] decides the transient
    data (a nil map removes it), the endorsing organizations accumulate; and
    transient data or organizations appear in the proposal only when given. *)
Theorem proposalOptions_spec (calls : list optionCall) :
  let transient := default None (list.last (calls ≫= transient_of)) in
  let orgs := calls ≫= orgs_of in
  proposalOptions (option_of <$> calls) =
  WithBytesArguments (calls ≫= args_of)
  :: (match transient with Some data => [WithTransient data] | None => [] end)
  ++ (match orgs with [] => [] | _ => [WithEndorsingOrganizations orgs] end).
Proof.
  unfold proposalOptions. rewrite options_fold. simpl. f_equal. f_equal.
  by destruct (calls ≫= orgs_of).
Qed.

Section client_properties.
Context `{X : X509Lib} `{F : FileSystem} `{T : TLSLib} `{E : Env}.

(** Every phase is bounded: the context of a call has the caller's deadline if
    there is one, else the phase's timeout from now; a non-positive timeout is
    the only way to run without a deadline; nothing is called and no state
    changes. *)
Theorem withDefaultTimeout_deadline (ctx : option Context) (d : Duration) (w : World) :
  let '(c, w') := withDefaultTimeout ctx d w in
  w' = w
  /\ Deadline c = match ctx ≫= Deadline with
                  | Some t => Some t
                  | None => if 0 <? d then Some (env_now (w_trace w) + d) else None
                  end.
Proof.
  rewrite withDefaultTimeout_run. split; [done|apply withDefaultTimeout_cases].
Qed.

(** C37. [New] leaks nothing and hands out a usable client: on failure every
    connection it dialled has been closed and no Gateway was left open; on
    success the client owns the one connection it dialled, both are open, its
    default identity and Gateway are set, every timeout is positive, the hooks
    are not nil, and the client is not closed. *)
Theorem New_no_leak (cfg : Config) (w : World) :
  wf_world w ->
  let '(r, w') := New cfg w in
  exists new, w_trace w' = w_trace w ++ new
    /\ match r with
       | inl _ =>
           (forall t o c, EvNewClient t o (Some c) ∈ new -> EvConnClose c ∈ new)
           /\ (forall x o g, EvConnect x o (Some g) ∉ new)
       | inr fc =>
           wf_client fc /\ wf_world w' /\ (fc_addr fc ∉ w_closed w')
           /\ (fc_addr fc ∉ w_closeOnce w')
           /\ fc_ownedConn fc = Some (fc_conn fc)
           /\ (forall t o c, EvNewClient t o (Some c) ∈ new -> c = fc_conn fc)
           /\ (forall c, EvConnClose c ∉ new) /\ (forall g, EvGatewayClose g ∉ new)
           /\ (forall x o g, EvConnect x o (Some g) ∈ new -> fc_gw fc = Some g)
       end.
Proof.
  intros Hwf. unfold New.
  assert (Hnone : forall err : error, exists new, w_trace w = w_trace w ++ new
    /\ (forall t o c, EvNewClient t o (Some c) ∈ new -> EvConnClose c ∈ new)
    /\ (forall x o g, EvConnect x o (Some g) ∉ new)).
  { intros _. exists []. rewrite app_nil_r. split_and!; [done|absent..]. }
  destruct (validate cfg true) as [err|] eqn:Hv; [by apply Hnone|].
  apply validate_None in Hv. pose proof (withDefaults_bounds cfg true Hv) as Hpos.
  destruct (transportCredentials _) as [err|[creds h]]; [by apply Hnone|].
  unfold grpc_NewClient. run_M. set (opts := _ :: _ ++ _).
  destruct (env_NewClient _ _ opts) as [err|conn]; run_M.
  { eexists. split; [done|]. split; absent. }
  match goal with |- context [build ?c ?k ?h ?W] =>
    pose proof (build_constructed c k h W) as Hb; destruct (build c k h W) as [[err|fc] w1] end;
  destruct Hb as (new & Et & Hc & Hn1 & Hn2 & Hfc); run_M.
  - eexists. simpl in Et. rewrite Et, <- !app_assoc. split; [done|]. simpl in Hc. split.
    + intros t o c [[= -> -> ->]%elem_of_lit|[Hin|Hin]%elem_of_app]%elem_of_app.
      * apply elem_of_app. right. apply elem_of_app. right. by apply elem_of_lit.
      * by apply Hn1 in Hin.
      * by apply elem_of_lit in Hin.
    + intros x o g [Hin%elem_of_lit|[Hin%Hc|Hin%elem_of_lit]%elem_of_app]%elem_of_app; done.
  - destruct Hc as (Ea & Hnext & Ecfg & Hid & _ & Ecl & Eco & Eo & Hng & g & Eg & Hg).
    destruct (Hfc fc eq_refl) as (Econn & _ & _). simpl in Et, Ea, Hnext, Ecl, Eco, Eo.
    eexists. simpl. rewrite Et, <- !app_assoc. split; [done|].
    pose proof (wf_world_fresh w Hwf) as (Hf1 & Hf2 & _). destruct Hwf as (Hw1 & Hw2 & Hw3).
    rewrite Ea, Ecl, Eco, Econn.
    assert (Hsplit : forall ev logs, ev ∈ [EvNewClient (grpcTarget (PeerEndpoint cfg)) opts (Some conn)]
      ++ new ++ (EvLog <$> logs) -> (forall l, ev <> EvLog l) ->
      ev = EvNewClient (grpcTarget (PeerEndpoint cfg)) opts (Some conn) \/ ev ∈ new).
    { intros ev logs [->%elem_of_lit|[Hin|[l ->]%elem_of_logs]%elem_of_app]%elem_of_app Hl; auto.
      by destruct (Hl l). }
    split_and!; try done.
    + split; simpl; rewrite ?Ecfg; [done|by rewrite Eg|done|by split; eexists].
    + split_and!; simpl; rewrite ?Ecl, ?Eco, ?Eo; intros l Hl;
        [apply Hw1 in Hl|apply Hw2 in Hl|apply Hw3 in Hl]; lia.
    + by intros t o c [[= -> -> ->]|Hin%Hn1]%Hsplit.
    + by intros c [?|Hin%Hn2]%Hsplit.
    + by intros g' [?|Hin%Hng]%Hsplit.
    + intros x o g' [?|Hin]%Hsplit; [done| |done]. by rewrite Eg, (Hg _ _ _ Hin).
Qed.

(** [NewWithConnection] never dials or closes a connection: it uses the one it
    was given, does not own it, and hands out a client that is usable and open;
    a failed construction leaves no Gateway open. *)
Theorem NewWithConnection_shares (conn : option Conn) (cfg : Config) (w : World) :
  let '(r, w') := NewWithConnection conn cfg w in
  exists new, w_trace w' = w_trace w ++ new
    /\ (forall t o c, EvNewClient t o c ∉ new) /\ (forall c, EvConnClose c ∉ new)
    /\ match r with
       | inl _ => forall x o g, EvConnect x o (Some g) ∉ new
       | inr fc => wf_client fc /\ conn = Some (fc_conn fc) /\ fc_ownedConn fc = None
           /\ (fc_ownsID fc = true <-> cfg_Identity cfg = None)
       end.
Proof.
  unfold NewWithConnection.
  assert (Hnone : forall err : error, exists new, w_trace w = w_trace w ++ new
    /\ (forall t o c, EvNewClient t o c ∉ new) /\ (forall c, EvConnClose c ∉ new)
    /\ (forall x o g, EvConnect x o (Some g) ∉ new)).
  { intros _. exists []. rewrite app_nil_r. split_and!; [done|absent..]. }
  destruct conn as [conn|]; [|by apply (Hnone (errorString ""))].
  destruct (validate cfg false) as [err|] eqn:Hv; [by apply Hnone|].
  apply validate_None in Hv. pose proof (withDefaults_bounds cfg false Hv) as Hpos.
  pose proof (build_constructed (withDefaults cfg) conn [] w) as Hb.
  destruct (build _ _ _ _) as [[err|fc] w1];
    destruct Hb as (new & Et & Hc & Hn1 & Hn2 & Hfc); exists new; split_and!; try done.
  - destruct Hc as (_ & _ & Ecfg & Hid & _ & _ & _ & _ & _ & g & Eg & _).
    split; rewrite ?Ecfg; [done|by rewrite Eg|done|by split; eexists].
  - by destruct (Hfc fc eq_refl) as (-> & _).
  - by destruct (Hfc fc eq_refl) as (_ & ? & _).
  - by destruct Hc as (_ & _ & _ & _ & Ho & _).
Qed.

(** What a client's first Close releases, in order. *)
Definition releases (fc : FabricClient) (w : World) : trace :=
  (match fc_gw fc with Some g => [EvGatewayClose g] | None => [] end)
  ++ (match fc_ownedConn fc with Some c => [EvConnClose c] | None => [] end)
  ++ (match fc_id fc with
      | Some i => match fc_ownsID fc, w_close w !! id_addr i with
                  | true, Some f => [EvCloseFn f] | _, _ => [] end
      | None => []
      end).

Lemma FabricClient_Close_again (fc : FabricClient) (w : World) :
  fc_addr fc ∈ w_closeOnce w -> FabricClient_Close fc w = (None, w).
Proof.
  intros H. unfold FabricClient_Close. run_M. rewrite bool_decide_eq_false_2 by (intros []; done).
  run_M. f_equal. destruct w. simpl in *. f_equal. set_solver.
Qed.

(** [Close] marks the client closed and releases, once and in this order, its
    Gateway, the connection if [New] dialled it and the identity if the client
    loaded it; a caller's connection or identity is left alone; every later call
    does nothing and returns nil. *)
Theorem FabricClient_Close_once (fc : FabricClient) (w : World) :
  let '(r, w1) := FabricClient_Close fc w in
  (fc_addr fc ∈ w_closeOnce w1)
  /\ FabricClient_Close fc w1 = (None, w1)
  /\ ((fc_addr fc ∉ w_closeOnce w) ->
      (fc_addr fc ∈ w_closed w1) /\ w_trace w1 = w_trace w ++ releases fc w)
  /\ ((fc_addr fc ∈ w_closeOnce w) -> w1 = w /\ r = None).
Proof.
  destruct (FabricClient_Close fc w) as [r w1] eqn:E1.
  destruct (decide (fc_addr fc ∈ w_closeOnce w)) as [Hin|Hin].
  { rewrite FabricClient_Close_again in E1 by done. simplify_eq.
    split_and!; [done|by apply FabricClient_Close_again|done|done]. }
  assert (Hw : (fc_addr fc ∈ w_closeOnce w1) /\ (fc_addr fc ∈ w_closed w1)
    /\ w_trace w1 = w_trace w ++ releases fc w).
  { revert E1. unfold FabricClient_Close, Gateway_Close, Conn_Close, Identity_Close, call_CloseFn, releases.
    run_M. rewrite bool_decide_eq_true_2 by done.
    destruct (fc_gw fc), (fc_ownedConn fc), (fc_ownsID fc), (fc_id fc) as [i|]; run_M;
      try destruct (w_close w !! id_addr i); intros [= <- <-]; simpl;
      rewrite <- ?app_assoc, ?app_nil_r; set_solver. }
  destruct Hw as (H1 & H2 & H3). split_and!; [done|by apply FabricClient_Close_again|done|done].
Qed.

End client_properties.
