(* ===== verification/Contract.v ===== *)
(** * Contract handles, transactions and ledger queries (contract.go, client.go)

    A [Contract] is a value: its methods that return a copy return a new record.
    A [PendingTx] is a heap object whose [once] is in the world. Every operation
    is a program of the monad [M]: the trace holds its calls in order, deferred
    calls included. The model is sequential; PendingThreads.v shows that concurrent
    Waits and Releases, with the mutex and the [once], do nothing that these
    programs one after the other do not. *)

From S2P Require Import Prelude GoStrings GoRunes Errors Classify Observe World Identity Config Client.
Local Open Scope Z_scope.

(** ** What lies outside the repository *)

(** [proto.Unmarshal] of the two messages qscc returns, and the field the
    program reads of each. *)
Class LedgerProto := {
  Unmarshal_ProcessedTransaction : bytes -> error + TxValidationCode;
  Unmarshal_BlockchainInfo : bytes -> error + N }.

(** ** Data *)

Record Contract := mkContract {
  c_fc : FabricClient;
  c_id : option Identity;
  c_channel : string;
  c_chaincode : string;
  c_contract : string }.

Record TxResult := mkTxResult {
  Result_TxID : string; Result_BlockNumber : N; Result_Payload : bytes }.

Record PendingTx := mkPendingTx {
  p_addr : loc;
  Pending_TxID : string;
  Pending_Payload : bytes;
  p_c : Contract;
  p_fn : string;
  p_commit : Commit;
  (* the Gateway that [release] closes; nothing for the client's own *)
  p_release : option Gateway }.

(** ** Handles *)

Definition Contract_WithIdentity (c : Contract) (id : option Identity) : Contract :=
  mkContract (c_fc c) id (c_channel c) (c_chaincode c) (c_contract c).
Definition Contract_WithTarget (c : Contract) (channel chaincode contractName : string) : Contract :=
  mkContract (c_fc c) (c_id c) channel chaincode contractName.

Definition Contract_Channel (c : Contract) : string := c_channel c.
Definition Contract_Chaincode (c : Contract) : string := c_chaincode c.
Definition Contract_ContractName (c : Contract) : string := c_contract c.
Definition Contract_Identity (c : Contract) : option Identity := c_id c.

Definition FabricClient_Contract (fc : FabricClient) : Contract :=
  let cfg := fc_cfg fc in
  mkContract fc (fc_id fc) (ChannelName cfg) (ChaincodeName cfg) (ContractName cfg).
Definition FabricClient_Target (fc : FabricClient) (channel chaincode contractName : string)
    : Contract :=
  Contract_WithTarget (FabricClient_Contract fc) channel chaincode contractName.
Definition FabricClient_WithIdentity (fc : FabricClient) (id : option Identity) : Contract :=
  Contract_WithIdentity (FabricClient_Contract fc) id.

(** [c.id == c.fc.id] on non-nil pointers: the same object. *)
Definition is_default_identity (c : Contract) (i : Identity) : bool :=
  match fc_id (c_fc c) with
  | Some d => bool_decide (id_addr i = id_addr d)
  | None => false
  end.

(** [target]; a nil Gateway is [None]. *)
Definition target (c : Contract) (gw : option Gateway) : ClientContract :=
  let network := GetNetwork gw (c_channel c) in
  if bool_decide (c_contract c = "") then GetContract network (c_chaincode c)
  else GetContractWithName network (c_chaincode c) (c_contract c).

Definition noSuchTx : string := "no such transaction ID".

Section contract.
Context `{X : X509Lib} `{E : Env} `{U : UnicodeTables} `{G : GrpcStatus} `{P : PeerCodes}
  `{L : LedgerProto}.

(** [classify] on a non-nil error: never nil ([classify_Some]). *)
Definition classified (err : error) (txID : string) (ph : phase) (strict : bool) : error :=
  default err (classify (Some err) txID ph strict).

(** ** Gateways *)

(** The release function that [gateway] returns is given by the Gateway it
    closes, if it closes one. *)
Definition Contract_gateway (c : Contract) : M (error + (option Gateway * option Gateway)) :=
  closed ← load_closed (fc_addr (c_fc c));
  if closed : bool then mret (inl (sdkError (newError KindConfig SourceSDK "client is closed")))
  else match c_id c with
  | None => mret (inl (configError (errorString "identity is nil")))
  | Some id =>
    if is_default_identity c id then mret (inr (fc_gw (c_fc c), None))
    else
      r ← connect (c_fc c) id;
      match r with
      | inl err => mret (inl err)
      | inr gw => mret (inr (Some gw, Some gw))
      end
  end.

Definition release (rel : option Gateway) : M unit :=
  match rel with
  | None => mret tt
  | Some gw => _ ← Gateway_Close gw; mret tt
  end.

(** ** Observation *)

Definition call_info (c : Contract) (op fn txID : string) (duration : Z) (err : option error)
    : CallInfo :=
  mkCallInfo op (c_channel c) (c_chaincode c) (c_contract c) fn
    (match c_id c with Some i => MSPID i | None => "" end) txID duration err.

Definition observe (c : Contract) (op fn txID : string) (start : Z) (err : option error) : M unit :=
  t ← now;
  _ ← observe_call (fc_Observer (c_fc c)) (call_info c op fn txID (t - start) err);
  match err with
  | None => mret tt
  | Some _ =>
      log_error (fc_Logger (c_fc c)) ("fabricsdk: " +:+ op +:+ " failed") [
        logString "fn"; logString fn; logString "txID"; logString txID;
        logString "kind"; logString (KindOf err) ]
  end.

(** ** Evaluate *)

Definition Contract_EvaluateWith (c : Contract) (ctx : option Context) (fn : string)
    (opts : list CallOption) : M (error + bytes) :=
  let cfg := fc_cfg (c_fc c) in
  start ← now;
  (* the deferred observe *)
  let finish (txID : string) (r : error + bytes) : M (error + bytes) :=
    _ ← observe c OpEvaluate fn txID start (match r with inl err => Some err | inr _ => None end);
    mret r in
  g ← Contract_gateway c;
  match g with
  | inl err => finish "" (inl err)
  | inr (gw, rel) =>
    p ← NewProposal (target c gw) fn (proposalOptions opts);
    match p with
    | inl err => _ ← release rel; finish "" (inl (configError err))
    | inr proposal =>
      let txID := Proposal_TransactionID proposal in
      ectx ← withDefaultTimeout ctx (EvaluateTimeout cfg);
      res ← EvaluateWithContext proposal ectx;
      _ ← cancel ectx;
      _ ← release rel;
      match res with
      | inl err =>
          finish txID (inl (classified err txID phaseEvaluate (StrictErrorCodes cfg)))
      | inr result => finish txID (inr result)
      end
    end
  end.

Definition Contract_Evaluate (c : Contract) (ctx : option Context) (fn : string)
    (args : list string) : M (error + bytes) :=
  Contract_EvaluateWith c ctx fn [Args args].

(** ** Submit *)

Definition Contract_SubmitAsync (c : Contract) (ctx : option Context) (fn : string)
    (opts : list CallOption) : M (error + PendingTx) :=
  let cfg := fc_cfg (c_fc c) in
  g ← Contract_gateway c;
  match g with
  | inl err => mret (inl err)
  | inr (gw, rel) =>
    (* the deferred release, unless the PendingTx keeps the Gateway *)
    let fail (err : error) : M (error + PendingTx) := _ ← release rel; mret (inl err) in
    p ← NewProposal (target c gw) fn (proposalOptions opts);
    match p with
    | inl err => fail (configError err)
    | inr proposal =>
      let txID := Proposal_TransactionID proposal in
      start ← now;
      ectx ← withDefaultTimeout ctx (EndorseTimeout cfg);
      tx ← EndorseWithContext proposal ectx;
      _ ← cancel ectx;
      match tx with
      | inl err =>
          let err := classified err txID phaseEndorse (StrictErrorCodes cfg) in
          _ ← observe c OpEndorse fn txID start (Some err);
          fail err
      | inr tx =>
        _ ← observe c OpEndorse fn txID start None;
        start ← now;
        sctx ← withDefaultTimeout ctx (SubmitTimeout cfg);
        commit ← SubmitWithContext tx sctx;
        _ ← cancel sctx;
        match commit with
        | inl err =>
            let err := classified err txID phaseSubmit (StrictErrorCodes cfg) in
            _ ← observe c OpSubmit fn txID start (Some err);
            fail err
        | inr commit =>
            _ ← observe c OpSubmit fn txID start None;
            a ← alloc;
            mret (inr (mkPendingTx a txID (Transaction_Result tx) c fn commit rel))
        end
      end
    end
  end.

(** [p.once.Do(p.release)]. *)
Definition PendingTx_Release (p : PendingTx) : M unit :=
  first ← first_once (p_addr p);
  if first : bool then release (p_release p) else mret tt.

Definition PendingTx_Wait (p : PendingTx) (ctx : option Context) : M (error + TxResult) :=
  let fc := c_fc (p_c p) in
  start ← now;
  cctx ← withDefaultTimeout ctx (CommitStatusTimeout (fc_cfg fc));
  (* the deferred cancel and observe *)
  let finish (r : error + TxResult) : M (error + TxResult) :=
    _ ← cancel cctx;
    _ ← observe (p_c p) OpCommit (p_fn p) (Pending_TxID p) start
          (match r with inl err => Some err | inr _ => None end);
    mret r in
  st ← StatusWithContext (p_commit p) cctx;
  match st with
  | inl err => finish (inl (classified err (Pending_TxID p) phaseCommitStatus true))
  | inr st =>
    _ ← PendingTx_Release p;
    if negb (Status_Successful st) then
      finish (inl (sdkError (commitFailure (Pending_TxID p) (Status_Code st) None)))
    else
      _ ← log_info (fc_Logger fc) "fabricsdk: committed" [
            logString "fn"; logString (p_fn p); logString "txID"; logString (Pending_TxID p);
            logString "block"; logUint (Status_BlockNumber st) ];
      finish (inr (mkTxResult (Pending_TxID p) (Status_BlockNumber st) (Pending_Payload p)))
  end.

Definition Contract_SubmitWith (c : Contract) (ctx : option Context) (fn : string)
    (opts : list CallOption) : M (error + TxResult) :=
  pending ← Contract_SubmitAsync c ctx fn opts;
  match pending with
  | inl err => mret (inl err)
  | inr pending => PendingTx_Wait pending ctx
  end.

Definition Contract_Submit (c : Contract) (ctx : option Context) (fn : string)
    (args : list string) : M (error + TxResult) :=
  Contract_SubmitWith c ctx fn [Args args].

(** ** Ledger queries *)

Definition qscc (c : Contract) (ctx : option Context) (fn : string) (args : list string)
    : M (error + bytes) :=
  g ← Contract_gateway c;
  match g with
  | inl err => mret (inl err)
  | inr (gw, rel) =>
    p ← NewProposal (GetContract (GetNetwork gw (c_channel c)) "qscc") fn [WithArguments args];
    match p with
    | inl err => _ ← release rel; mret (inl (configError err))
    | inr proposal =>
      ectx ← withDefaultTimeout ctx (EvaluateTimeout (fc_cfg (c_fc c)));
      r ← EvaluateWithContext proposal ectx;
      _ ← cancel ectx;
      _ ← release rel;
      mret r
    end
  end.

Definition mentions (err : error) (text : string) : bool :=
  let st := status_Convert err in
  Contains (st_Message st) text
  || existsb (fun d => Contains (Detail_Message d) text) (gatewayDetails st)
  || Contains (error_text err) text.

(** The decoding failures of [TxStatus] and [Height]. *)
Definition decodeError (msg : string) (err : error) : error :=
  sdkError (mkError KindInternal SourceSDK 500 msg "" 0 codes.OK [] false (Some err)).

Definition Contract_TxStatus (c : Contract) (ctx : option Context) (txID : string)
    : M (error + TxStatus) :=
  start ← now;
  raw ← qscc c ctx "GetTransactionByID" [c_channel c; txID];
  let r :=
    match raw with
    | inl err =>
        if mentions err noSuchTx then
          inr (mkTxStatus txID false 0 false)
        else inl (classified err "" phaseEvaluate true)
    | inr raw =>
        match Unmarshal_ProcessedTransaction raw with
        | inl err => inl (decodeError "decode ProcessedTransaction" err)
        | inr vc => inr (mkTxStatus txID true vc (bool_decide (vc = TxValidationCode_VALID)))
        end
    end in
  _ ← observe c OpTxStatus "GetTransactionByID" txID start
        (match r with inl err => Some err | inr _ => None end);
  mret r.

Definition Contract_Height (c : Contract) (ctx : option Context) : M (error + N) :=
  raw ← qscc c ctx "GetChainInfo" [c_channel c];
  match raw with
  | inl err => mret (inl (classified err "" phaseEvaluate true))
  | inr raw =>
      match Unmarshal_BlockchainInfo raw with
      | inl err => mret (inl (decodeError "decode BlockchainInfo" err))
      | inr height => mret (inr height)
      end
  end.

(** ** The client's shortcuts for the default identity and target *)

Definition FabricClient_Evaluate (fc : FabricClient) := Contract_Evaluate (FabricClient_Contract fc).
Definition FabricClient_EvaluateWith (fc : FabricClient) :=
  Contract_EvaluateWith (FabricClient_Contract fc).
Definition FabricClient_Submit (fc : FabricClient) := Contract_Submit (FabricClient_Contract fc).
Definition FabricClient_SubmitWith (fc : FabricClient) :=
  Contract_SubmitWith (FabricClient_Contract fc).
Definition FabricClient_SubmitAsync (fc : FabricClient) :=
  Contract_SubmitAsync (FabricClient_Contract fc).
Definition FabricClient_TxStatus (fc : FabricClient) := Contract_TxStatus (FabricClient_Contract fc).
Definition FabricClient_Height (fc : FabricClient) := Contract_Height (FabricClient_Contract fc).

End contract.
