(* ===== verification/Transactions.v ===== *)
(** * What calls and transactions do (contract.go)

    For each operation a relation between its result and the calls it makes, one
    constructor per way through the code: the protocol a caller and a network
    see. The [_run] lemmas show that the programs of Contract.v follow these
    relations; the properties are proved from the relations. *)

From S2P Require Import Prelude GoStrings GoRunes Errors Classify Observe World Identity Config Client Contract.
Local Open Scope Z_scope.

Section paths.
Context `{X : X509Lib} `{E : Env} `{U : UnicodeTables} `{G : GrpcStatus} `{P : PeerCodes}
  `{L : LedgerProto}.

(** ** The pieces *)

(** What reporting a phase makes known: one call of the observer and, for a
    failure, one log line. *)
Definition failure_line (c : Contract) (op fn txID : string) (err : option error) : list LogLine :=
  Logger_Error (fc_Logger (c_fc c)) ("fabricsdk: " +:+ op +:+ " failed")
    [logString "fn"; logString fn; logString "txID"; logString txID;
     logString "kind"; logString (KindOf err)].

Definition observed (c : Contract) (op fn txID : string) (dur : Z) (err : option error) : trace :=
  ((fun '(o, info) => EvObserve o info) <$>
     Observer_ObserveCall (fc_Observer (c_fc c)) (call_info c op fn txID dur err))
  ++ match err with None => [] | Some _ => EvLog <$> failure_line c op fn txID err end.

Definition closes (rel : option Gateway) : trace :=
  match rel with Some g => [EvGatewayClose g] | None => [] end.

(** How a handle gets its Gateway. *)
Inductive acquires (c : Contract) (w : World)
    : error + (option Gateway * option Gateway) -> trace -> Prop :=
| acq_closed :
    fc_addr (c_fc c) ∈ w_closed w ->
    acquires c w (inl (sdkError (newError KindConfig SourceSDK "client is closed"))) []
| acq_nil :
    fc_addr (c_fc c) ∉ w_closed w -> c_id c = None ->
    acquires c w (inl (configError (errorString "identity is nil"))) []
| acq_default i :
    fc_addr (c_fc c) ∉ w_closed w -> c_id c = Some i -> is_default_identity c i = true ->
    acquires c w (inr (fc_gw (c_fc c), None)) []
| acq_fail i err tr :
    fc_addr (c_fc c) ∉ w_closed w -> c_id c = Some i -> is_default_identity c i = false ->
    env_Connect tr (id_x509 i) (connectOptions (c_fc c) i) = inl err ->
    acquires c w (inl (configError (Errorf_w "connect gateway: " err)))
      [EvConnect (id_x509 i) (connectOptions (c_fc c) i) None]
| acq_own i g :
    fc_addr (c_fc c) ∉ w_closed w -> c_id c = Some i -> is_default_identity c i = false ->
    acquires c w (inr (Some g, Some g))
      [EvConnect (id_x509 i) (connectOptions (c_fc c) i) (Some g)].

(** ** Queries: one evaluate call *)

Inductive query_result :=
| not_sent (err : error)
| answered (p : Proposal) (r : error + bytes).

(** [k] says which contract of the Gateway is asked. *)
Inductive query_path (c : Contract) (ctx : option Context) (k : option Gateway -> ClientContract)
    (fn : string) (popts : list ProposalOption) (w : World) : query_result -> trace -> Prop :=
| query_refused err a :
    acquires c w (inl err) a -> query_path c ctx k fn popts w (not_sent err) a
| query_proposal g rel a err tr :
    acquires c w (inr (g, rel)) a -> env_NewProposal tr (k g) fn popts = inl err ->
    query_path c ctx k fn popts w (not_sent (configError err))
      (a ++ [EvNewProposal (k g) fn popts None] ++ closes rel)
| query_answered g rel a p ectx r tr :
    acquires c w (inr (g, rel)) a ->
    phase_ctx ctx (EvaluateTimeout (fc_cfg (c_fc c))) ectx -> env_Evaluate tr p ectx = r ->
    query_path c ctx k fn popts w (answered p r)
      (a ++ [EvNewProposal (k g) fn popts (Some p); EvEvaluate p ectx r; EvCancel ectx]
         ++ closes rel).

(** What [EvaluateWith] makes of a query. *)
Definition evaluate_result (c : Contract) (q : query_result) : error + bytes :=
  match q with
  | not_sent err => inl err
  | answered p (inl err) =>
      inl (classified err (Proposal_TransactionID p) phaseEvaluate (StrictErrorCodes (fc_cfg (c_fc c))))
  | answered p (inr r) => inr r
  end.
Definition query_txID (q : query_result) : string :=
  match q with not_sent _ => "" | answered p _ => Proposal_TransactionID p end.

Definition error_of {A} (r : error + A) : option error :=
  match r with inl err => Some err | inr _ => None end.

(** What [qscc] returns. *)
Definition raw_result (q : query_result) : error + bytes :=
  match q with not_sent err => inl err | answered _ r => r end.

(** ** Transactions *)

Inductive submit_path (c : Contract) (ctx : option Context) (fn : string) (opts : list CallOption)
    (w : World) : error + PendingTx -> trace -> Prop :=
| submit_refused err a :
    acquires c w (inl err) a -> submit_path c ctx fn opts w (inl err) a
| submit_proposal g rel a err tr :
    acquires c w (inr (g, rel)) a ->
    env_NewProposal tr (target c g) fn (proposalOptions opts) = inl err ->
    submit_path c ctx fn opts w (inl (configError err))
      (a ++ [EvNewProposal (target c g) fn (proposalOptions opts) None] ++ closes rel)
| submit_not_endorsed g rel a p ectx err err' tr dur :
    acquires c w (inr (g, rel)) a ->
    phase_ctx ctx (EndorseTimeout (fc_cfg (c_fc c))) ectx ->
    env_Endorse tr p ectx = inl err ->
    err' = classified err (Proposal_TransactionID p) phaseEndorse (StrictErrorCodes (fc_cfg (c_fc c))) ->
    submit_path c ctx fn opts w (inl err')
      (a ++ [EvNewProposal (target c g) fn (proposalOptions opts) (Some p);
             EvEndorse p ectx (inl err); EvCancel ectx]
         ++ observed c OpEndorse fn (Proposal_TransactionID p) dur (Some err') ++ closes rel)
| submit_not_ordered g rel a p ectx tx sctx err err' tr dur dur' :
    acquires c w (inr (g, rel)) a ->
    phase_ctx ctx (EndorseTimeout (fc_cfg (c_fc c))) ectx ->
    phase_ctx ctx (SubmitTimeout (fc_cfg (c_fc c))) sctx ->
    env_Submit tr tx sctx = inl err ->
    err' = classified err (Proposal_TransactionID p) phaseSubmit (StrictErrorCodes (fc_cfg (c_fc c))) ->
    submit_path c ctx fn opts w (inl err')
      (a ++ [EvNewProposal (target c g) fn (proposalOptions opts) (Some p);
             EvEndorse p ectx (inr tx); EvCancel ectx]
         ++ observed c OpEndorse fn (Proposal_TransactionID p) dur None
         ++ [EvSubmit tx sctx (inl err); EvCancel sctx]
         ++ observed c OpSubmit fn (Proposal_TransactionID p) dur' (Some err') ++ closes rel)
| submit_ordered g rel a p ectx tx sctx k dur dur' :
    acquires c w (inr (g, rel)) a ->
    phase_ctx ctx (EndorseTimeout (fc_cfg (c_fc c))) ectx ->
    phase_ctx ctx (SubmitTimeout (fc_cfg (c_fc c))) sctx ->
    submit_path c ctx fn opts w
      (inr (mkPendingTx (w_next w) (Proposal_TransactionID p) (Transaction_Result tx) c fn k rel))
      (a ++ [EvNewProposal (target c g) fn (proposalOptions opts) (Some p);
             EvEndorse p ectx (inr tx); EvCancel ectx]
         ++ observed c OpEndorse fn (Proposal_TransactionID p) dur None
         ++ [EvSubmit tx sctx (inr k); EvCancel sctx]
         ++ observed c OpSubmit fn (Proposal_TransactionID p) dur' None).

(** The line that reports a commit. *)
Definition committed_line (p : PendingTx) (st : CommitInfo) : list LogLine :=
  Logger_Info (fc_Logger (c_fc (p_c p))) "fabricsdk: committed"
    [logString "fn"; logString (p_fn p); logString "txID"; logString (Pending_TxID p);
     logString "block"; logUint (Status_BlockNumber st)].

(** What the first use of [once] closes. *)
Definition once_closes (p : PendingTx) (w : World) : trace :=
  if bool_decide (p_addr p ∈ w_once w) then [] else closes (p_release p).

Inductive wait_path (p : PendingTx) (ctx : option Context) (w : World)
    : error + TxResult -> trace -> Prop :=
| wait_unknown cctx err err' tr dur :
    phase_ctx ctx (CommitStatusTimeout (fc_cfg (c_fc (p_c p)))) cctx ->
    env_CommitStatus tr (p_commit p) cctx = inl err ->
    err' = classified err (Pending_TxID p) phaseCommitStatus true ->
    wait_path p ctx w (inl err')
      ([EvCommitStatus (p_commit p) cctx (inl err); EvCancel cctx]
       ++ observed (p_c p) OpCommit (p_fn p) (Pending_TxID p) dur (Some err'))
| wait_invalid cctx st err' tr dur :
    phase_ctx ctx (CommitStatusTimeout (fc_cfg (c_fc (p_c p)))) cctx ->
    env_CommitStatus tr (p_commit p) cctx = inr st ->
    Status_Successful st = false ->
    err' = sdkError (commitFailure (Pending_TxID p) (Status_Code st) None) ->
    wait_path p ctx w (inl err')
      ([EvCommitStatus (p_commit p) cctx (inr st)] ++ once_closes p w ++ [EvCancel cctx]
       ++ observed (p_c p) OpCommit (p_fn p) (Pending_TxID p) dur (Some err'))
| wait_valid cctx st tr dur :
    phase_ctx ctx (CommitStatusTimeout (fc_cfg (c_fc (p_c p)))) cctx ->
    env_CommitStatus tr (p_commit p) cctx = inr st ->
    Status_Successful st = true ->
    wait_path p ctx w (inr (mkTxResult (Pending_TxID p) (Status_BlockNumber st) (Pending_Payload p)))
      ([EvCommitStatus (p_commit p) cctx (inr st)] ++ once_closes p w
       ++ (EvLog <$> committed_line p st) ++ [EvCancel cctx]
       ++ observed (p_c p) OpCommit (p_fn p) (Pending_TxID p) dur None).

(** ** The programs follow the paths *)

Lemma bind_run {A B} (m : M A) (f : A -> M B) w x w' :
  m w = (x, w') -> (m ≫= f) w = f x w'.
Proof. intros H. unfold mbind, M_bind. by rewrite H. Qed.

Lemma release_run rel w : release rel w = (tt, push (closes rel) w).
Proof. destruct rel; [done|]. simpl. by rewrite push_nil. Qed.

Lemma cancel_run ctx w : cancel ctx w = (tt, push [EvCancel ctx] w).
Proof. done. Qed.

Lemma alloc_run w : alloc w = (w_next w, snd (alloc w)).
Proof. done. Qed.

Lemma log_info_run l msg kv w :
  log_info l msg kv w = (tt, push (EvLog <$> Logger_Info l msg kv) w).
Proof. done. Qed.

Lemma log_error_run l msg kv w :
  log_error l msg kv w = (tt, push (EvLog <$> Logger_Error l msg kv) w).
Proof. done. Qed.

Lemma get_trace_run w : get_trace w = (w_trace w, w).
Proof. done. Qed.

Lemma now_run w : now w = (env_now (w_trace w), w).
Proof. done. Qed.

Lemma observe_run c op fn txID start err w :
  observe c op fn txID start err w
  = (tt, push (observed c op fn txID (env_now (w_trace w) - start) err) w).
Proof.
  unfold observe, observed. rewrite (bind_run _ _ _ _ _ (now_run w)).
  unfold observe_call, log_error. destruct err; unfold mbind, M_bind.
  - change (emit ?a ?v) with (tt, push a v) at 1. cbn beta iota.
    change (emit ?a ?v) with (tt, push a v). by rewrite push_push.
  - by rewrite app_nil_r.
Qed.

Lemma gateway_run c w : exists r a,
  Contract_gateway c w = (r, push a w) /\ acquires c w r a.
Proof.
  unfold Contract_gateway, mbind, M_bind, load_closed.
  destruct (bool_decide (fc_addr (c_fc c) ∈ w_closed w)) eqn:Ec.
  { apply bool_decide_eq_true in Ec. do 2 eexists. rewrite push_nil. split; [done|by constructor]. }
  apply bool_decide_eq_false in Ec. destruct (c_id c) as [i|] eqn:Ei.
  2:{ do 2 eexists. rewrite push_nil. split; [done|by constructor]. }
  destruct (is_default_identity c i) eqn:Ed.
  { do 2 eexists. rewrite push_nil. split; [done|by econstructor]. }
  rewrite connect_run. cbn zeta. destruct (env_Connect _ _ _) as [err|g] eqn:Ec'; do 2 eexists.
  - split; [done|by econstructor].
  - split; [done|by econstructor].
Qed.

Lemma closed_push a w : w_closed (push a w) = w_closed w.
Proof. done. Qed.

End paths.

(** One primitive step of a program whose run is known. *)
Ltac run_step :=
  first
  [ erewrite bind_run by apply release_run | erewrite bind_run by apply cancel_run
  | erewrite bind_run by apply now_run | erewrite bind_run by apply observe_run
  | erewrite bind_run by apply log_error_run | erewrite bind_run by apply get_trace_run
  | erewrite bind_run by apply withDefaultTimeout_run
  | erewrite bind_run by apply outside_run ];
  rewrite ?push_push, <- ?app_assoc; cbv beta.

Section refinement.
Context `{X : X509Lib} `{E : Env} `{U : UnicodeTables} `{G : GrpcStatus} `{P : PeerCodes}
  `{L : LedgerProto}.

Lemma qscc_run c ctx fn args w : exists q a,
  qscc c ctx fn args w = (raw_result q, push a w)
  /\ query_path c ctx (fun g => GetContract (GetNetwork g (c_channel c)) "qscc") fn
       [WithArguments args] w q a.
Proof.
  destruct (gateway_run c w) as (r & a & Hg & Ha). unfold qscc.
  rewrite (bind_run _ _ _ _ _ Hg). destruct r as [err|[g rel]].
  { exists (not_sent err), a. split; [done|by constructor]. }
  run_step. destruct (env_NewProposal _ _ _ _) as [err|p] eqn:Ep.
  - run_step. exists (not_sent (configError err)). eexists. split; [done|exact (query_proposal c ctx _ _ _ w g rel a err _ Ha Ep)].
  - repeat run_step. eexists (answered p _), _. split; [done|].
    refine (query_answered c ctx _ _ _ w g rel a p _ _ _ Ha _ eq_refl). by eexists.
Qed.

(** The query inside [EvaluateWith], then its report. *)
Lemma EvaluateWith_run c ctx fn opts w : exists q a dur,
  Contract_EvaluateWith c ctx fn opts w
  = (evaluate_result c q,
     push (a ++ observed c OpEvaluate fn (query_txID q) dur (error_of (evaluate_result c q))) w)
  /\ query_path c ctx (target c) fn (proposalOptions opts) w q a.
Proof.
  destruct (gateway_run c w) as (r & a & Hg & Ha). unfold Contract_EvaluateWith.
  run_step. rewrite (bind_run _ _ _ _ _ Hg). destruct r as [err|[g rel]].
  { run_step. exists (not_sent err). do 2 eexists. split; [done|by constructor]. }
  run_step. destruct (env_NewProposal _ _ _ _) as [err|p] eqn:Ep.
  - repeat run_step. exists (not_sent (configError err)), (a ++ [EvNewProposal (target c g) fn
      (proposalOptions opts) None] ++ closes rel). eexists. rewrite <- !app_assoc. split; [done|].
    exact (query_proposal c ctx _ _ _ w g rel a err _ Ha Ep).
  - do 4 run_step. set (ectx := fst (withDefaultTimeout _ _ _)). set (res := env_Evaluate _ _ _).
    exists (answered p res), (a ++ [EvNewProposal (target c g) fn (proposalOptions opts) (Some p);
      EvEvaluate p ectx res; EvCancel ectx] ++ closes rel).
    destruct res eqn:Eres; run_step; eexists; rewrite <- !app_assoc; (split; [done|]);
      refine (query_answered c ctx _ _ _ w g rel a p _ _ _ Ha _ Eres); by eexists.
Qed.

Lemma SubmitAsync_run c ctx fn opts w : exists r a,
  Contract_SubmitAsync c ctx fn opts w
  = (r, match r with inl _ => push a w | inr _ => snd (alloc (push a w)) end)
  /\ submit_path c ctx fn opts w r a.
Proof.
  destruct (gateway_run c w) as (r & a & Hg & Ha). unfold Contract_SubmitAsync.
  rewrite (bind_run _ _ _ _ _ Hg). destruct r as [err|[g rel]].
  { eexists (inl _), _. split; [done|by constructor]. }
  run_step. destruct (env_NewProposal _ _ _ _) as [err|p] eqn:Ep.
  { repeat run_step. eexists (inl _), _. split; [done|].
    exact (submit_proposal c ctx fn opts w g rel a err _ Ha Ep). }
  do 4 run_step. set (ectx := fst (withDefaultTimeout _ _ _)).
  destruct (env_Endorse _ _ _) as [err|tx] eqn:Et.
  { do 2 run_step. eexists (inl _), _. split; [done|].
    eapply submit_not_endorsed; [done|by eexists|done|done]. }
  do 5 run_step. set (sctx := fst (withDefaultTimeout _ (SubmitTimeout _) _)).
  destruct (env_Submit _ _ _) as [err|k] eqn:Es.
  { do 2 run_step. eexists (inl _), _. split; [done|].
    eapply submit_not_ordered; [done|by eexists|by eexists|done|done]. }
  run_step. erewrite bind_run by apply alloc_run. eexists (inr (mkPendingTx (w_next w) _ _ _ _ _ _)), _.
  split; [unfold mret, M_ret; f_equal|].
  eapply submit_ordered; [done|by eexists..].
Qed.

Lemma PendingTx_Release_run p w : exists o,
  PendingTx_Release p w = (tt, mkWorld (w_trace w ++ once_closes p w) (w_close w) (w_closed w)
    (w_closeOnce w) o (w_next w)) /\ o = {[p_addr p]} ∪ w_once w.
Proof.
  eexists. split; [|done]. unfold PendingTx_Release, mbind, M_bind, first_once, once_closes.
  destruct (decide (p_addr p ∈ w_once w)) as [H|H].
  - rewrite bool_decide_eq_false_2, bool_decide_eq_true_2 by (done || by intros []).
    simpl. by rewrite app_nil_r.
  - rewrite bool_decide_eq_true_2, bool_decide_eq_false_2 by done. by rewrite release_run.
Qed.

Lemma Wait_run p ctx w : exists r a,
  exists w', PendingTx_Wait p ctx w = (r, w') /\ w_trace w' = w_trace w ++ a
  /\ wait_path p ctx w r a
  /\ w_once w' = match a with
       | EvCommitStatus _ _ (inr _) :: _ => {[p_addr p]} ∪ w_once w
       | _ => w_once w
       end.
Proof.
  unfold PendingTx_Wait. do 3 run_step. set (cctx := fst (withDefaultTimeout _ _ _)).
  assert (Hctx : phase_ctx ctx (CommitStatusTimeout (fc_cfg (c_fc (p_c p)))) cctx) by by eexists.
  cbv beta. destruct (env_CommitStatus _ _ _) as [err|st] eqn:Es.
  { repeat run_step. do 3 eexists. split_and!; [done|done| |done].
    by eapply wait_unknown. }
  cbv beta iota. match goal with |- context [(PendingTx_Release p ≫= ?f) ?W] =>
    destruct (PendingTx_Release_run p W) as (o & Hr & Ho) end.
  change (once_closes p (push ?e w)) with (once_closes p w) in Hr.
  rewrite (bind_run _ _ _ _ _ Hr).
  destruct (Status_Successful st) eqn:Ess; cbn [negb]; cbv iota.
  - erewrite bind_run by apply log_info_run.
    repeat run_step. do 3 eexists. split; [done|]. split.
    { simpl. rewrite <- !app_assoc. done. }
    split; [by eapply wait_valid|done].
  - repeat run_step. do 3 eexists. split; [done|]. split.
    { simpl. rewrite <- !app_assoc. done. }
    split; [by eapply wait_invalid|done].
Qed.

(** What [TxStatus] makes of the raw answer. *)
Definition status_result (txID : string) (raw : error + bytes) : error + TxStatus :=
  match raw with
  | inl err =>
      if mentions err noSuchTx then inr (mkTxStatus txID false 0 false)
      else inl (classified err "" phaseEvaluate true)
  | inr raw =>
      match Unmarshal_ProcessedTransaction raw with
      | inl err => inl (decodeError "decode ProcessedTransaction" err)
      | inr vc => inr (mkTxStatus txID true vc (bool_decide (vc = TxValidationCode_VALID)))
      end
  end.

(** qscc's contract on a Gateway. *)
Definition qscc_contract (c : Contract) (g : option Gateway) : ClientContract :=
  GetContract (GetNetwork g (c_channel c)) "qscc".

Lemma TxStatus_run c ctx txID w : exists q a dur,
  Contract_TxStatus c ctx txID w
  = (status_result txID (raw_result q),
     push (a ++ observed c OpTxStatus "GetTransactionByID" txID dur
                  (error_of (status_result txID (raw_result q)))) w)
  /\ query_path c ctx (qscc_contract c) "GetTransactionByID" [WithArguments [c_channel c; txID]] w q a.
Proof.
  unfold Contract_TxStatus. run_step.
  destruct (qscc_run c ctx "GetTransactionByID" [c_channel c; txID] w) as (q & a & Hq & Hp).
  rewrite (bind_run _ _ _ _ _ Hq). run_step. do 3 eexists. split; [|exact Hp]. done.
Qed.

Lemma Height_run c ctx w : exists q a r,
  Contract_Height c ctx w = (r, push a w)
  /\ query_path c ctx (qscc_contract c) "GetChainInfo" [WithArguments [c_channel c]] w q a
  /\ r = match raw_result q with
         | inl err => inl (classified err "" phaseEvaluate true)
         | inr raw =>
             match Unmarshal_BlockchainInfo raw with
             | inl err => inl (decodeError "decode BlockchainInfo" err)
             | inr height => inr height
             end
         end.
Proof.
  unfold Contract_Height.
  destruct (qscc_run c ctx "GetChainInfo" [c_channel c] w) as (q & a & Hq & Hp).
  rewrite (bind_run _ _ _ _ _ Hq). exists q, a.
  destruct (raw_result q); [|destruct (Unmarshal_BlockchainInfo _)]; eexists; by repeat split.
Qed.

End refinement.
