(* ===== verification/Views.v ===== *)
(** * Views of the trace

    What the properties read of a trace: the calls to the network, the Gateways
    opened and closed, the observations and the log lines. Each view is an
    [omap], so that it splits over the pieces of a path. *)

From S2P Require Import Prelude GoStrings GoRunes Errors Classify Observe World Identity Config Client Contract Transactions.
Local Open Scope Z_scope.

(** ** The views *)

Definition rpc_of (ev : Event) : option Event :=
  match ev with
  | EvEvaluate _ _ _ | EvEndorse _ _ _ | EvSubmit _ _ _ | EvCommitStatus _ _ _ => Some ev
  | _ => None
  end.
Definition opened_of (ev : Event) : option Gateway :=
  match ev with EvConnect _ _ r => r | _ => None end.
Definition closed_of (ev : Event) : option Gateway :=
  match ev with EvGatewayClose g => Some g | _ => None end.
Definition info_of (ev : Event) : option CallInfo :=
  match ev with EvObserve _ info => Some info | _ => None end.
Definition line_of (ev : Event) : option LogLine :=
  match ev with EvLog l => Some l | _ => None end.
Definition proposal_of (ev : Event) : option Proposal :=
  match ev with EvNewProposal _ _ _ r => r | _ => None end.

Definition connect_of (ev : Event) : option (X509Identity * list ConnectOption * option Gateway) :=
  match ev with EvConnect x o r => Some (x, o, r) | _ => None end.
Definition ask_of (ev : Event)
    : option (ClientContract * string * list ProposalOption * option Proposal) :=
  match ev with EvNewProposal k f popts p => Some (k, f, popts, p) | _ => None end.

Definition rpcs : trace -> list Event := omap rpc_of.
Definition opened : trace -> list Gateway := omap opened_of.
Definition closed : trace -> list Gateway := omap closed_of.
Definition observations : trace -> list CallInfo := omap info_of.
Definition log_lines : trace -> list LogLine := omap line_of.
Definition proposals : trace -> list Proposal := omap proposal_of.
Definition connects := omap connect_of : trace -> list _.
Definition asks := omap ask_of : trace -> list _.

(** The context of a network call. *)
Definition rpc_ctx (ev : Event) : option Context :=
  match ev with
  | EvEvaluate _ ctx _ | EvEndorse _ ctx _ | EvSubmit _ ctx _ | EvCommitStatus _ ctx _ => Some ctx
  | _ => None
  end.

(** The operation name under which a network call is reported. *)
Definition rpc_op (ev : Event) : string :=
  match ev with
  | EvEvaluate _ _ _ => OpEvaluate
  | EvEndorse _ _ _ => OpEndorse
  | EvSubmit _ _ _ => OpSubmit
  | EvCommitStatus _ _ _ => OpCommit
  | _ => ""
  end.

(** An observer that is the caller's. *)
Definition listens (o : Observer) : bool := match o with noopObserver => false | _ => true end.

(** A view sees nothing of what it ignores. *)
Lemma omap_fmap_none {A B C} (f : B -> option C) (g : A -> B) (l : list A) :
  (forall x, f (g x) = None) -> omap f (g <$> l) = [].
Proof. intros H. induction l as [|x l IH]; csimpl; [done|]. by rewrite H. Qed.

Lemma omap_fmap_some {A B} (f : B -> option A) (g : A -> B) (l : list A) :
  (forall x, f (g x) = Some x) -> omap f (g <$> l) = l.
Proof. intros H. induction l as [|x l IH]; csimpl; [done|]. by rewrite H, IH. Qed.

Section views.
Context `{X : X509Lib} `{E : Env} `{U : UnicodeTables} `{G : GrpcStatus} `{P : PeerCodes}.

(** *** Reports *)

Section observed.
Variables (c : Contract) (op fn txID : string) (dur : Z) (err : option error).

Lemma observed_ignored {C} (f : Event -> option C) :
  (forall o i, f (EvObserve o i) = None) -> (forall l, f (EvLog l) = None) ->
  omap f (observed c op fn txID dur err) = [].
Proof.
  intros H1 H2. unfold observed. rewrite omap_app, omap_fmap_none by (intros []; apply H1).
  destruct err; [|done]. by rewrite omap_fmap_none.
Qed.

Lemma rpcs_observed : rpcs (observed c op fn txID dur err) = [].
Proof. by apply observed_ignored. Qed.
Lemma opened_observed : opened (observed c op fn txID dur err) = [].
Proof. by apply observed_ignored. Qed.
Lemma closed_observed : closed (observed c op fn txID dur err) = [].
Proof. by apply observed_ignored. Qed.
Lemma proposals_observed : proposals (observed c op fn txID dur err) = [].
Proof. by apply observed_ignored. Qed.

Lemma observations_observed :
  observations (observed c op fn txID dur err)
  = if listens (fc_Observer (c_fc c)) then [call_info c op fn txID dur err] else [].
Proof.
  unfold observed, observations. rewrite omap_app.
  replace (omap info_of (match err with None => [] | Some _ => _ end)) with (@nil CallInfo)
    by (destruct err; [by rewrite omap_fmap_none|done]).
  rewrite app_nil_r. by destruct (fc_Observer (c_fc c)).
Qed.

Lemma log_lines_observed :
  log_lines (observed c op fn txID dur err)
  = match err with None => [] | Some _ => failure_line c op fn txID err end.
Proof.
  unfold observed, log_lines. rewrite omap_app, omap_fmap_none by (by intros []).
  destruct err; [|done]. by apply omap_fmap_some.
Qed.

End observed.

(** *** Gateways *)

Lemma rpcs_closes rel : rpcs (closes rel) = [].
Proof. by destruct rel. Qed.
Lemma opened_closes rel : opened (closes rel) = [].
Proof. by destruct rel. Qed.
Lemma closed_closes rel : closed (closes rel) = option_list rel.
Proof. by destruct rel. Qed.
Lemma proposals_closes rel : proposals (closes rel) = [].
Proof. by destruct rel. Qed.
Lemma observations_closes rel : observations (closes rel) = [].
Proof. by destruct rel. Qed.
Lemma log_lines_closes rel : log_lines (closes rel) = [].
Proof. by destruct rel. Qed.

Lemma acquires_ignored {C} (f : Event -> option C) c w r a :
  acquires c w r a -> (forall x o g, f (EvConnect x o g) = None) -> omap f a = [].
Proof. intros [] Hf; simpl; by rewrite ?Hf. Qed.

Lemma acquires_closed c w r a : acquires c w r a -> closed a = [].
Proof. intros H. by apply (acquires_ignored _ _ _ _ _ H). Qed.
Lemma acquires_rpcs c w r a : acquires c w r a -> rpcs a = [].
Proof. intros H. by apply (acquires_ignored _ _ _ _ _ H). Qed.
Lemma acquires_proposals c w r a : acquires c w r a -> proposals a = [].
Proof. intros H. by apply (acquires_ignored _ _ _ _ _ H). Qed.
Lemma acquires_observations c w r a : acquires c w r a -> observations a = [].
Proof. intros H. by apply (acquires_ignored _ _ _ _ _ H). Qed.
Lemma acquires_log_lines c w r a : acquires c w r a -> log_lines a = [].
Proof. intros H. by apply (acquires_ignored _ _ _ _ _ H). Qed.

Lemma acquires_asks c w r a : acquires c w r a -> asks a = [].
Proof. intros H. by apply (acquires_ignored _ _ _ _ _ H). Qed.

Lemma acquires_opened_inl c w err a : acquires c w (inl err) a -> opened a = [].
Proof. by inversion 1. Qed.
Lemma acquires_opened_inr c w g rel a : acquires c w (inr (g, rel)) a -> opened a = option_list rel.
Proof. by inversion 1. Qed.

(** Without a Gateway nothing was asked of the network, and the error is a
    configuration error. *)
Lemma acquires_inl c w err a :
  acquires c w (inl err) a -> KindOf (Some err) = KindConfig
  /\ IsOutcomeUnknown (Some err) = false /\ IsRetryable (Some err) = false.
Proof. by inversion 1. Qed.

(** *** Logs of a commit *)

Lemma logs_ignored {C} (f : Event -> option C) (ls : list LogLine) :
  (forall l, f (EvLog l) = None) -> omap f (EvLog <$> ls) = [].
Proof. apply omap_fmap_none. Qed.

Lemma log_lines_logs (ls : list LogLine) : log_lines (EvLog <$> ls) = ls.
Proof. by apply omap_fmap_some. Qed.

(** *** The [once] of a PendingTx *)

Lemma once_closes_ignored {C} (f : Event -> option C) p w :
  (forall g, f (EvGatewayClose g) = None) -> omap f (once_closes p w) = [].
Proof.
  intros Hf. unfold once_closes. case_bool_decide; [done|].
  destruct (p_release p); simpl; by rewrite ?Hf.
Qed.

Lemma closed_once p w :
  closed (once_closes p w) = if decide (p_addr p ∈ w_once w) then [] else option_list (p_release p).
Proof.
  unfold once_closes. case_decide; [by rewrite bool_decide_eq_true_2|].
  rewrite bool_decide_eq_false_2 by done. apply closed_closes.
Qed.

End views.

(** *** The views split over concatenation *)

Lemma rpcs_app a b : rpcs (a ++ b) = rpcs a ++ rpcs b.
Proof. apply omap_app. Qed.
Lemma rpcs_cons ev a : rpcs (ev :: a) = match rpc_of ev with Some x => x :: rpcs a | None => rpcs a end.
Proof. done. Qed.
Lemma rpcs_nil : rpcs [] = [].
Proof. done. Qed.
Lemma opened_app a b : opened (a ++ b) = opened a ++ opened b.
Proof. apply omap_app. Qed.
Lemma opened_cons ev a : opened (ev :: a) = match opened_of ev with Some x => x :: opened a | None => opened a end.
Proof. done. Qed.
Lemma opened_nil : opened [] = [].
Proof. done. Qed.
Lemma closed_app a b : closed (a ++ b) = closed a ++ closed b.
Proof. apply omap_app. Qed.
Lemma closed_cons ev a : closed (ev :: a) = match closed_of ev with Some x => x :: closed a | None => closed a end.
Proof. done. Qed.
Lemma closed_nil : closed [] = [].
Proof. done. Qed.
Lemma observations_app a b : observations (a ++ b) = observations a ++ observations b.
Proof. apply omap_app. Qed.
Lemma observations_cons ev a : observations (ev :: a) = match info_of ev with Some x => x :: observations a | None => observations a end.
Proof. done. Qed.
Lemma observations_nil : observations [] = [].
Proof. done. Qed.
Lemma log_lines_app a b : log_lines (a ++ b) = log_lines a ++ log_lines b.
Proof. apply omap_app. Qed.
Lemma log_lines_cons ev a : log_lines (ev :: a) = match line_of ev with Some x => x :: log_lines a | None => log_lines a end.
Proof. done. Qed.
Lemma log_lines_nil : log_lines [] = [].
Proof. done. Qed.
Lemma proposals_app a b : proposals (a ++ b) = proposals a ++ proposals b.
Proof. apply omap_app. Qed.
Lemma proposals_cons ev a : proposals (ev :: a) = match proposal_of ev with Some x => x :: proposals a | None => proposals a end.
Proof. done. Qed.
Lemma proposals_nil : proposals [] = [].
Proof. done. Qed.

Lemma connects_app a b : connects (a ++ b) = connects a ++ connects b.
Proof. apply omap_app. Qed.
Lemma connects_cons ev a : connects (ev :: a) = match connect_of ev with Some x => x :: connects a | None => connects a end.
Proof. done. Qed.
Lemma connects_nil : connects [] = [].
Proof. done. Qed.
Lemma connects_observed `{X : X509Lib} c op fn txID d err : connects (observed c op fn txID d err) = [].
Proof. by apply observed_ignored. Qed.
Lemma connects_closes rel : connects (closes rel) = [].
Proof. by destruct rel. Qed.
Lemma connects_logs ls : connects (EvLog <$> ls) = [].
Proof. by apply logs_ignored. Qed.
Lemma connects_once p w : connects (once_closes p w) = [].
Proof. by apply once_closes_ignored. Qed.

Lemma asks_app a b : asks (a ++ b) = asks a ++ asks b.
Proof. apply omap_app. Qed.
Lemma asks_cons ev a : asks (ev :: a) = match ask_of ev with Some x => x :: asks a | None => asks a end.
Proof. done. Qed.
Lemma asks_nil : asks [] = [].
Proof. done. Qed.
Lemma asks_observed `{X : X509Lib} c op fn txID d err : asks (observed c op fn txID d err) = [].
Proof. by apply observed_ignored. Qed.
Lemma asks_closes rel : asks (closes rel) = [].
Proof. by destruct rel. Qed.
Lemma asks_logs ls : asks (EvLog <$> ls) = [].
Proof. by apply logs_ignored. Qed.
Lemma asks_once p w : asks (once_closes p w) = [].
Proof. by apply once_closes_ignored. Qed.

Lemma rpcs_once p w : rpcs (once_closes p w) = [].
Proof. by apply once_closes_ignored. Qed.
Lemma opened_once p w : opened (once_closes p w) = [].
Proof. by apply once_closes_ignored. Qed.
Lemma observations_once p w : observations (once_closes p w) = [].
Proof. by apply once_closes_ignored. Qed.
Lemma log_lines_once p w : log_lines (once_closes p w) = [].
Proof. by apply once_closes_ignored. Qed.
Lemma proposals_once p w : proposals (once_closes p w) = [].
Proof. by apply once_closes_ignored. Qed.
Lemma rpcs_logs ls : rpcs (EvLog <$> ls) = [].
Proof. by apply logs_ignored. Qed.
Lemma opened_logs ls : opened (EvLog <$> ls) = [].
Proof. by apply logs_ignored. Qed.
Lemma closed_logs ls : closed (EvLog <$> ls) = [].
Proof. by apply logs_ignored. Qed.
Lemma observations_logs ls : observations (EvLog <$> ls) = [].
Proof. by apply logs_ignored. Qed.
Lemma proposals_logs ls : proposals (EvLog <$> ls) = [].
Proof. by apply logs_ignored. Qed.

Create Rewrite HintDb views.
#[export] Hint Rewrite rpcs_app opened_app closed_app observations_app log_lines_app proposals_app
  rpcs_cons opened_cons closed_cons observations_cons log_lines_cons proposals_cons
  rpcs_nil opened_nil closed_nil observations_nil log_lines_nil proposals_nil : views.
#[export] Hint Rewrite @rpcs_observed @opened_observed @closed_observed @proposals_observed
  @observations_observed @log_lines_observed : views.
#[export] Hint Rewrite rpcs_closes opened_closes closed_closes observations_closes
  log_lines_closes proposals_closes : views.
#[export] Hint Rewrite @rpcs_once @opened_once @observations_once @log_lines_once @proposals_once
  @closed_once : views.
#[export] Hint Rewrite connects_app connects_cons connects_nil connects_closes connects_logs
  connects_once asks_app asks_cons asks_nil asks_closes asks_logs asks_once : views.
#[export] Hint Rewrite @connects_observed @asks_observed : views.
#[export] Hint Rewrite rpcs_logs opened_logs closed_logs observations_logs log_lines_logs
  proposals_logs : views.

(** Computes the views of the goal's traces. *)
Ltac views :=
  repeat (progress (
    autorewrite with views;
    cbn [connect_of ask_of rpc_of opened_of closed_of info_of line_of proposal_of];
    try match goal with H : acquires _ _ (inr _) ?a |- context [opened ?a] =>
      rewrite (acquires_opened_inr _ _ _ _ _ H) end;
    try match goal with H : acquires _ _ (inl _) ?a |- context [opened ?a] =>
      rewrite (acquires_opened_inl _ _ _ _ H) end;
    try match goal with H : acquires _ _ _ ?a |- _ =>
      rewrite ?(acquires_rpcs _ _ _ _ H), ?(acquires_closed _ _ _ _ H),
        ?(acquires_observations _ _ _ _ H), ?(acquires_log_lines _ _ _ _ H),
        ?(acquires_proposals _ _ _ _ H), ?(acquires_asks _ _ _ _ H) end;
    rewrite ?app_nil_l, ?app_nil_r));
  cbn [app].
