(* ===== verification/Lifecycle.v ===== *)
(** * Properties of calls and transactions

    What a caller may rely on: which outcomes are certain, what may be retried,
    what is reported, which Gateways are opened and closed, for whom and where a
    handle calls. *)

From S2P Require Import Prelude GoStrings GoRunes Errors Classify Observe World Identity Config Client Contract Transactions Views.
Local Open Scope Z_scope.

(** ** Whole submissions *)

Section submitted.
Context `{X : X509Lib} `{E : Env} `{U : UnicodeTables} `{G : GrpcStatus} `{P : PeerCodes}
  `{L : LedgerProto}.

(** [SubmitWith] is a [SubmitAsync] and, if that was ordered, a [Wait]. *)
Inductive submitted (c : Contract) (ctx : option Context) (fn : string) (opts : list CallOption)
    (w : World) : error + TxResult -> trace -> Prop :=
| sub_failed err a :
    submit_path c ctx fn opts w (inl err) a -> submitted c ctx fn opts w (inl err) a
| sub_waited p a1 w1 r a2 :
    submit_path c ctx fn opts w (inr p) a1 -> w1 = snd (alloc (push a1 w)) ->
    wait_path p ctx w1 r a2 -> submitted c ctx fn opts w r (a1 ++ a2).

Lemma SubmitWith_run c ctx fn opts w : exists r a w',
  Contract_SubmitWith c ctx fn opts w = (r, w') /\ w_trace w' = w_trace w ++ a
  /\ submitted c ctx fn opts w r a.
Proof.
  destruct (SubmitAsync_run c ctx fn opts w) as (r & a & Hr & Hp). unfold Contract_SubmitWith.
  rewrite (bind_run _ _ _ _ _ Hr). destruct r as [err|p].
  { do 3 eexists. split_and!; [done|apply push_trace|by constructor]. }
  destruct (Wait_run p ctx (snd (alloc (push a w)))) as (r2 & a2 & w2 & Hw & Ht & Hp2 & _).
  exists r2, (a ++ a2), w2. split_and!; [done|by rewrite Ht, app_assoc|by econstructor].
Qed.

(** What the network calls of a transaction say about its fate: it may be
    ordered although its status is not known. *)
Definition was_sent (ev : Event) : bool :=
  match ev with
  | EvSubmit _ _ (inr _) => true
  | EvSubmit _ _ (inl err) => negb (definite_rejection (st_Code (convert err)))
  | _ => false
  end.
Definition is_status (ev : Event) : bool :=
  match ev with EvCommitStatus _ _ (inr _) => true | _ => false end.
Definition in_doubt (calls : list Event) : bool :=
  existsb was_sent calls && negb (existsb is_status calls).

End submitted.

(** ** The Gateway's errors *)

(** Documented behaviour of fabric-gateway: the errors of an endorse, submit,
    evaluate or commit-status call hold no [Error] of this package and no
    [CommitError]. *)
Class GatewayErrors `{E : Env} : Prop := {
  Evaluate_foreign tr p ctx err : env_Evaluate tr p ctx = inl err -> foreign err;
  Endorse_foreign tr p ctx err : env_Endorse tr p ctx = inl err -> foreign err;
  Submit_foreign tr t ctx err : env_Submit tr t ctx = inl err -> foreign err;
  CommitStatus_foreign tr k ctx err : env_CommitStatus tr k ctx = inl err -> foreign err }.

(** Documented behaviour of [status.Convert]: an error that carries no status is
    [Unknown] with its own text and no details. *)
Class ConvertPlain `{G : GrpcStatus} : Prop :=
  Convert_plain e : Error_Cause e = None ->
    st_Message (status_Convert (sdkError e)) = Error_Error e
    /\ st_Details (status_Convert (sdkError e)) = [].

Section verdicts.
Context `{U : UnicodeTables} `{G : GrpcStatus} `{P : PeerCodes}.

Lemma classified_foreign err txID ph strict : foreign err ->
  classified err txID ph strict = sdkError (classify_status err txID ph strict).
Proof. intros H. unfold classified. by rewrite classify_foreign. Qed.

Lemma classify_status_txID err txID ph strict :
  Error_TxID (classify_status err txID ph strict) = txID.
Proof. unfold classify_status. by destruct (if decide _ then _ else _). Qed.

(** The verdict on each phase. *)
Lemma verdict_endorse err txID strict : foreign err ->
  IsOutcomeUnknown (Some (classified err txID phaseEndorse strict)) = false
  /\ TxIDOf (Some (classified err txID phaseEndorse strict)) = txID.
Proof.
  intros H. rewrite classified_foreign by done. split.
  - by apply (early_not_unknown err txID phaseEndorse strict).
  - apply classify_status_txID.
Qed.

Lemma verdict_submit err txID strict : foreign err ->
  IsOutcomeUnknown (Some (classified err txID phaseSubmit strict))
    = negb (definite_rejection (st_Code (convert err)))
  /\ TxIDOf (Some (classified err txID phaseSubmit strict)) = txID.
Proof.
  intros H. rewrite classified_foreign by done. split; [|apply classify_status_txID].
  unfold IsOutcomeUnknown. rewrite asError_sdk, classify_status_late, phaseError_submit by done.
  by destruct (definite_rejection _).
Qed.

Lemma verdict_commit err txID strict : foreign err ->
  IsOutcomeUnknown (Some (classified err txID phaseCommitStatus strict)) = true
  /\ TxIDOf (Some (classified err txID phaseCommitStatus strict)) = txID.
Proof.
  intros H. rewrite classified_foreign by done. split; [|apply classify_status_txID].
  unfold IsOutcomeUnknown. by rewrite asError_sdk, classify_status_late.
Qed.

Lemma verdict_invalid txID vc :
  IsOutcomeUnknown (Some (sdkError (commitFailure txID vc None))) = false
  /\ TxIDOf (Some (sdkError (commitFailure txID vc None))) = txID.
Proof. unfold commitFailure. by case_decide. Qed.

Lemma unknown_not_retryable err :
  IsOutcomeUnknown err = true -> IsRetryable err = false.
Proof. unfold IsOutcomeUnknown, IsRetryable, Retryable. destruct (asError err); [|done]. by intros ->. Qed.

End verdicts.

(** ** Properties *)

Section lifecycle.
Context `{X : X509Lib} `{E : Env} `{U : UnicodeTables} `{G : GrpcStatus} `{P : PeerCodes}
  `{L : LedgerProto}.

(** *** A submission, by its path *)

Lemma submitted_outcome `{!GatewayErrors} c ctx fn opts w err a :
  submitted c ctx fn opts w (inl err) a ->
  IsOutcomeUnknown (Some err) = in_doubt (rpcs a)
  /\ (forall k sctx st, EvCommitStatus k sctx (inr st) ∈ rpcs a -> Status_Successful st = false).
Proof.
  intros Hp. inversion Hp as [e a' Hs|p a1 w2 r a2 Hs Ew Hw]; subst; inversion Hs; subst.
  - views. split; [|absent]. by eapply acquires_inl.
  - views. split; [done|absent].
  - views. split; [|absent]. eapply verdict_endorse, Endorse_foreign; eassumption.
  - views. split; [|absent]. unfold in_doubt. simpl. rewrite orb_false_r, andb_true_r.
    eapply verdict_submit, Submit_foreign; eassumption.
  - inversion Hw; subst; views; cbn [p_c Pending_TxID].
    + split; [|absent]. eapply verdict_commit, CommitStatus_foreign; eassumption.
    + split; [apply verdict_invalid|]. intros k0 s0 st0 Hin.
      rewrite !elem_of_cons, elem_of_nil in Hin. naive_solver.
Qed.

Lemma submitted_success c ctx fn opts w res a :
  submitted c ctx fn opts w (inr res) a ->
  exists p ectx tx sctx k cctx st, proposals a = [p]
    /\ rpcs a = [EvEndorse p ectx (inr tx); EvSubmit tx sctx (inr k); EvCommitStatus k cctx (inr st)]
    /\ Status_Successful st = true
    /\ res = mkTxResult (Proposal_TransactionID p) (Status_BlockNumber st) (Transaction_Result tx).
Proof.
  intros Hp. inversion Hp as [|p a1 w2 r a2 Hs Ew Hw]; subst. inversion Hs; subst. inversion Hw; subst.
  do 7 eexists. views. done.
Qed.

Lemma submitted_txID `{!GatewayErrors} c ctx fn opts w err a :
  submitted c ctx fn opts w (inl err) a -> rpcs a <> [] ->
  exists p, proposals a = [p] /\ TxIDOf (Some err) = Proposal_TransactionID p.
Proof.
  intros Hp. inversion Hp as [e a' Hs|p a1 w2 r a2 Hs Ew Hw]; subst; inversion Hs; subst; clear Hs Hp.
  - by views.
  - by views.
  - views. intros _. eexists. split; [done|]. eapply verdict_endorse, Endorse_foreign; eassumption.
  - views. intros _. eexists. split; [done|]. eapply verdict_submit, Submit_foreign; eassumption.
  - inversion Hw; subst; views; intros _; eexists; (split; [done|]).
    + eapply verdict_commit, CommitStatus_foreign; eassumption.
    + apply verdict_invalid.
Qed.

(** C2. A transaction is never executed twice by a caller who retries when the SDK
    says so. If [Submit] returns an error, the outcome is reported unknown
    exactly when the transaction may have been ordered and its status was not
    learned; an error that [IsRetryable] accepts is one where the transaction
    was not sent, was definitely rejected by the Gateway, or is known to be
    committed as invalid; and it is never one where the commit status said
    valid. *)
Theorem SubmitWith_outcome `{!GatewayErrors} (c : Contract) (ctx : option Context) (fn : string)
    (opts : list CallOption) (w w' : World) (err : error) :
  Contract_SubmitWith c ctx fn opts w = (inl err, w') ->
  exists new, w_trace w' = w_trace w ++ new
    /\ IsOutcomeUnknown (Some err) = in_doubt (rpcs new)
    /\ (IsRetryable (Some err) = true -> in_doubt (rpcs new) = false)
    /\ (forall k sctx st, EvCommitStatus k sctx (inr st) ∈ rpcs new -> Status_Successful st = false).
Proof.
  intros Hrun. destruct (SubmitWith_run c ctx fn opts w) as (r & a & w1 & Hr & Ht & Hp).
  rewrite Hr in Hrun. simplify_eq. exists a. split; [done|].
  destruct (submitted_outcome _ _ _ _ _ _ _ Hp) as [Hd Hs]. split_and!; [done| |done].
  rewrite <- Hd. intros Hret. destruct (IsOutcomeUnknown (Some err)) eqn:Ho; [|done].
  by rewrite (unknown_not_retryable _ Ho) in Hret.
Qed.

(** C8. What success means: the endorsed transaction was accepted by the orderer
    and its status is valid; the result has the proposal's transaction ID, the
    block number of the status and the endorsed payload, and there was exactly
    one endorse, one submit and one status call, in this order. *)
Theorem SubmitWith_success (c : Contract) (ctx : option Context) (fn : string)
    (opts : list CallOption) (w w' : World) (res : TxResult) :
  Contract_SubmitWith c ctx fn opts w = (inr res, w') ->
  exists new p ectx tx sctx k cctx st, w_trace w' = w_trace w ++ new
    /\ proposals new = [p]
    /\ rpcs new = [EvEndorse p ectx (inr tx); EvSubmit tx sctx (inr k); EvCommitStatus k cctx (inr st)]
    /\ Status_Successful st = true
    /\ res = mkTxResult (Proposal_TransactionID p) (Status_BlockNumber st) (Transaction_Result tx).
Proof.
  intros Hrun. destruct (SubmitWith_run c ctx fn opts w) as (r & a & w1 & Hr & Ht & Hp).
  rewrite Hr in Hrun. simplify_eq.
  destruct (submitted_success _ _ _ _ _ _ _ Hp) as (p & ectx & tx & sctx & k & cctx & st & H).
  by exists a, p, ectx, tx, sctx, k, cctx, st.
Qed.

(** C18. No failure loses the transaction ID: once a call of [Submit] reached the
    network, its error carries the ID of the one proposal made, so an unknown
    outcome can be resolved with [TxStatus]. *)
Theorem SubmitWith_txID `{!GatewayErrors} (c : Contract) (ctx : option Context) (fn : string)
    (opts : list CallOption) (w w' : World) (err : error) :
  Contract_SubmitWith c ctx fn opts w = (inl err, w') ->
  exists new, w_trace w' = w_trace w ++ new
    /\ (rpcs new <> [] ->
        exists p, proposals new = [p] /\ TxIDOf (Some err) = Proposal_TransactionID p).
Proof.
  intros Hrun. destruct (SubmitWith_run c ctx fn opts w) as (r & a & w1 & Hr & Ht & Hp).
  rewrite Hr in Hrun. simplify_eq. exists a. split; [done|]. by eapply submitted_txID.
Qed.

(** What a report says of its call: the channel, the chaincode and the contract of
    the handle, the function called, the MSP of the signing identity, and the ID
    of the transaction. *)
Definition reports (c : Contract) (fn : string) (p : Proposal) (i : CallInfo) : Prop :=
  Info_Channel i = c_channel c /\ Info_Chaincode i = c_chaincode c /\ Info_Contract i = c_contract c
  /\ Info_Function i = fn
  /\ Info_MSPID i = match c_id c with Some id => X509_MspID (id_x509 id) | None => "" end
  /\ Info_TxID i = Proposal_TransactionID p.

(** C19. Every phase that ran is reported once, in order, and truthfully: the
    observer of a client sees exactly one call per network call, with its
    operation; each names the handle's channel, chaincode and contract, the
    function, the MSP of the handle's identity and the ID of the one proposal;
    all but the last succeeded and the last carries the error that is returned,
    or none on success. *)
Theorem SubmitWith_observed (c : Contract) (ctx : option Context) (fn : string)
    (opts : list CallOption) (w : World) :
  listens (fc_Observer (c_fc c)) = true ->
  let '(r, w') := Contract_SubmitWith c ctx fn opts w in
  exists new, w_trace w' = w_trace w ++ new
    /\ (Info_Operation <$> observations new) = (rpc_op <$> rpcs new)
    /\ (Info_Err <$> observations new) =
       (match rpcs new with
        | [] => [] | _ :: rest => ((fun _ => None) <$> rest) ++ [error_of r] end)
    /\ Forall (fun i => exists p, proposals new = [p] /\ reports c fn p i) (observations new).
Proof.
  intros Hl. destruct (SubmitWith_run c ctx fn opts w) as (r & a & w1 & Hr & Ht & Hp).
  rewrite Hr. exists a. split; [done|]. clear Ht Hr.
  assert (Hinfo : forall op p d err, exists p',
    [p] = [p'] /\ reports c fn p' (call_info c op fn (Proposal_TransactionID p) d err)) by by eexists.
  inversion Hp as [e a' Hs|p a1 w2 r2 a2 Hs Ew Hw]; subst; inversion Hs; subst; clear Hs Hp.
  - by views.
  - by views.
  - views. rewrite Hl. repeat constructor. apply Hinfo.
  - views. rewrite Hl. repeat constructor; apply Hinfo.
  - inversion Hw; subst; views; cbn [p_c p_fn Pending_TxID]; rewrite Hl;
      repeat constructor; apply Hinfo.
Qed.

(** C20. Gateways: a handle that signs with its own identity opens one Gateway and
    [Submit] closes it again, never the client's own, in every case but one: when
    the commit status could not be learned the Gateway stays open, because the
    transaction that would be waited for again is dropped with the error. *)
Theorem SubmitWith_gateways (c : Contract) (ctx : option Context) (fn : string)
    (opts : list CallOption) (w : World) :
  wf_world w ->
  let '(r, w') := Contract_SubmitWith c ctx fn opts w in
  exists new, w_trace w' = w_trace w ++ new
    /\ (length (opened new) <= 1)%nat
    /\ ((forall k cctx err, EvCommitStatus k cctx (inl err) ∉ rpcs new) ->
        closed new = opened new)
    /\ (forall k cctx err, EvCommitStatus k cctx (inl err) ∈ rpcs new -> closed new = []).
Proof.
  intros Hwf. destruct (SubmitWith_run c ctx fn opts w) as (r & a & w1 & Hr & Ht & Hp).
  rewrite Hr. exists a. split; [done|]. clear Ht Hr.
  assert (Hlen : forall rel : option Gateway, (length (option_list rel) <= 1)%nat) by (intros []; simpl; lia).
  inversion Hp as [e a' Hs|p a1 w2 r2 a2 Hs Ew Hw]; subst; inversion Hs; subst; clear Hs Hp.
  - views. split_and!; [simpl; lia|done|absent].
  - views. split_and!; [done|done|absent].
  - views. split_and!; [done|done|absent].
  - views. split_and!; [done|done|absent].
  - assert (Hf : forall v, w_next w ∉ w_once (snd (alloc (push v w)))) by (intros v; exact (proj2 (proj2 (wf_world_fresh w Hwf)))).
    inversion Hw; subst; views; cbn [p_addr p_release]; rewrite ?decide_False by done.
    + split_and!; [done| |done]. intros Hno. edestruct Hno. rewrite !elem_of_cons. eauto.
    + split_and!; [done|done|absent].
    + split_and!; [done|done|absent].
Qed.

(** A PendingTx owns its Gateway: [SubmitAsync] closes the Gateway it opened
    unless it returns a PendingTx, which then holds it. *)
Theorem SubmitAsync_gateways (c : Contract) (ctx : option Context) (fn : string)
    (opts : list CallOption) (w : World) :
  let '(r, w') := Contract_SubmitAsync c ctx fn opts w in
  exists new, w_trace w' = w_trace w ++ new
    /\ match r with
       | inl _ => closed new = opened new
       | inr p => closed new = [] /\ opened new = option_list (p_release p)
           /\ proposals new <> [] /\ p_c p = c /\ p_fn p = fn
           /\ exists pr, proposals new = [pr] /\ Pending_TxID p = Proposal_TransactionID pr
       end.
Proof.
  destruct (SubmitAsync_run c ctx fn opts w) as (r & a & Hr & Hs). rewrite Hr. exists a.
  split; [by destruct r|]. clear Hr.
  inversion Hs; subst; views; [done..|]. split_and!; try done. by eexists.
Qed.

(** A caller's uses of a PendingTx. *)
Inductive pending_use := use_Wait (ctx : option Context) | use_Release.

Fixpoint use_pending (p : PendingTx) (uses : list pending_use) : M unit :=
  match uses with
  | [] => mret tt
  | use_Wait ctx :: uses => _ ← PendingTx_Wait p ctx; use_pending p uses
  | use_Release :: uses => _ ← PendingTx_Release p; use_pending p uses
  end.

Lemma use_pending_again p uses w : p_addr p ∈ w_once w ->
  exists new, w_trace (snd (use_pending p uses w)) = w_trace w ++ new /\ closed new = [].
Proof.
  revert w. induction uses as [|u uses IH]; intros w Hin; simpl.
  { exists []. by rewrite app_nil_r. }
  unfold mbind, M_bind. destruct u as [ctx|].
  - destruct (Wait_run p ctx w) as (r & a & w1 & Hr & Ht & Hp & Ho). rewrite Hr.
    destruct (IH w1) as (new & En & Hc); [rewrite Ho; repeat case_match; set_solver|].
    exists (a ++ new). rewrite En, Ht, app_assoc. split; [done|].
    inversion Hp; subst; views; by rewrite ?decide_True.
  - destruct (PendingTx_Release_run p w) as (o & -> & ->).
    destruct (IH (mkWorld (w_trace w ++ once_closes p w) (w_close w) (w_closed w) (w_closeOnce w)
      ({[p_addr p]} ∪ w_once w) (w_next w))) as (new & En & Hc); [simpl; set_solver|].
    exists (once_closes p w ++ new). simpl in En. rewrite En, <- app_assoc. split; [done|].
    views. by rewrite decide_True.
Qed.

(** Whatever a caller does with a fresh PendingTx, in any order and any number
    of times, its Gateway is closed at most once, and exactly once as soon as it
    was released or one Wait learned the status. *)
Theorem PendingTx_closes_once (p : PendingTx) (uses : list pending_use) (w : World) :
  (p_addr p ∉ w_once w) ->
  exists new, w_trace (snd (use_pending p uses w)) = w_trace w ++ new
    /\ (closed new = [] \/ closed new = option_list (p_release p))
    /\ (use_Release ∈ uses \/ existsb is_status (rpcs new) = true ->
        closed new = option_list (p_release p)).
Proof.
  revert w. induction uses as [|u uses IH]; intros w Hf; simpl.
  { exists []. rewrite app_nil_r. split_and!; [done|by left|]. intros [H|H]; [|done].
    by apply elem_of_nil in H. }
  unfold mbind, M_bind. destruct u as [ctx|].
  - destruct (Wait_run p ctx w) as (r & a & w1 & Hr & Ht & Hp & Ho). rewrite Hr.
    assert (Hlearned : forall new, closed a = option_list (p_release p) -> closed new = [] ->
      closed (a ++ new) = option_list (p_release p)) by (intros new Ha Hn; views; by rewrite Ha, Hn, app_nil_r).
    destruct (decide (p_addr p ∈ w_once w1)) as [Hin|Hnin].
    + destruct (use_pending_again p uses w1 Hin) as (new & En & Hc). exists (a ++ new).
      rewrite En, Ht, app_assoc. split; [done|].
      enough (closed (a ++ new) = option_list (p_release p)) by auto.
      apply Hlearned; [|done]. inversion Hp; subst; views; rewrite ?decide_False by done; try done.
      by rewrite Ho in Hin.
    + destruct (IH w1 Hnin) as (new & En & Hc & Hu). exists (a ++ new).
      rewrite En, Ht, app_assoc. split; [done|].
      inversion Hp; subst; [|by set_solver..]. views. split; [done|].
      rewrite elem_of_cons. naive_solver.
  - destruct (PendingTx_Release_run p w) as (o & -> & ->).
    set (w1 := mkWorld _ _ _ _ _ _).
    destruct (use_pending_again p uses w1) as (new & En & Hc); [simpl; set_solver|].
    exists (once_closes p w ++ new). simpl in En. rewrite En, <- app_assoc. split; [done|].
    enough (closed (once_closes p w ++ new) = option_list (p_release p)) by auto.
    views. by rewrite decide_False, Hc, app_nil_r.
Qed.

(** What one query does to the network and to the Gateways. *)
Lemma query_views c ctx k fn popts w q a : query_path c ctx k fn popts w q a ->
  closed a = opened a /\ observations a = [] /\ log_lines a = []
  /\ (match q with
      | not_sent err => proposals a = [] /\ rpcs a = [] /\ KindOf (Some err) = KindConfig
          /\ IsOutcomeUnknown (Some err) = false
      | answered p r => proposals a = [p] /\ exists ectx, rpcs a = [EvEvaluate p ectx r]
          /\ phase_ctx ctx (EvaluateTimeout (fc_cfg (c_fc c))) ectx
          /\ exists tr, env_Evaluate tr p ectx = r
      end).
Proof.
  inversion 1; subst; views; split_and!; try done; [by eapply acquires_inl|by eapply acquires_inl|].
  eexists. split_and!; [done|done|by eexists].
Qed.

(** C25. Queries write nothing and leak nothing: [Evaluate], [TxStatus] and [Height]
    make at most one network call, which is an evaluate call, never an endorse,
    submit or status call, and close every Gateway they open. *)
Theorem queries_read_only (c : Contract) (ctx : option Context) (fn txID : string)
    (opts : list CallOption) (w : World) :
  let reads (w' : World) := exists new, w_trace w' = w_trace w ++ new /\ closed new = opened new
    /\ (rpcs new = [] \/ exists p ectx r, rpcs new = [EvEvaluate p ectx r]) in
  reads (snd (Contract_EvaluateWith c ctx fn opts w))
  /\ reads (snd (Contract_TxStatus c ctx txID w))
  /\ reads (snd (Contract_Height c ctx w)).
Proof.
  intros reads.
  assert (Hq : forall k f popts q a b, query_path c ctx k f popts w q a ->
    rpcs b = [] -> closed b = [] -> opened b = [] -> reads (push (a ++ b) w)).
  { intros k f popts q a b (Hc & _ & _ & Hr)%query_views Hb1 Hb2 Hb3. exists (a ++ b).
    split; [done|]. views. rewrite Hb1, Hb2, Hb3, Hc, !app_nil_r. split; [done|].
    destruct q; [by left; destruct Hr as (_ & ? & _)|right]. destruct Hr as (_ & ectx & -> & _). eauto. }
  destruct (EvaluateWith_run c ctx fn opts w) as (q1 & a1 & d1 & -> & H1).
  destruct (TxStatus_run c ctx txID w) as (q2 & a2 & d2 & -> & H2).
  destruct (Height_run c ctx w) as (q3 & a3 & r3 & -> & H3 & _).
  split_and!; simpl snd; [eapply Hq; [exact H1|..]; by views|eapply Hq; [exact H2|..]; by views|].
  rewrite <- (app_nil_r a3). by eapply Hq.
Qed.

(** C26. Evaluation: the result is the Gateway's answer; a failure before the call
    is a configuration error, a failure of the call is classified in the evaluate
    phase with the proposal's transaction ID, so its outcome is never unknown;
    and the query is reported once, with that error. *)
Theorem EvaluateWith_spec `{!GatewayErrors} (c : Contract) (ctx : option Context) (fn : string)
    (opts : list CallOption) (w : World) :
  let '(r, w') := Contract_EvaluateWith c ctx fn opts w in
  exists new, w_trace w' = w_trace w ++ new
    /\ match rpcs new with
       | [] => exists err, r = inl err /\ KindOf (Some err) = KindConfig
       | [EvEvaluate p _ (inr b)] => proposals new = [p] /\ r = inr b
       | [EvEvaluate p _ (inl e)] => proposals new = [p]
           /\ r = inl (sdkError (classify_status e (Proposal_TransactionID p) phaseEvaluate
                                   (StrictErrorCodes (fc_cfg (c_fc c)))))
       | _ => False
       end
    /\ IsOutcomeUnknown (error_of r) = false
    /\ (listens (fc_Observer (c_fc c)) = true -> exists d,
        observations new = [call_info c OpEvaluate fn (default "" (Proposal_TransactionID <$> head (proposals new))) d (error_of r)]).
Proof.
  destruct (EvaluateWith_run c ctx fn opts w) as (q & a & d & -> & Hq).
  apply query_views in Hq as (_ & Ho & _ & Hr). eexists. split; [done|]. views. rewrite Ho.
  destruct q as [err|p [e|b]]; cbn [evaluate_result query_txID error_of].
  - destruct Hr as (-> & -> & Hk & Hu). split_and!; [by eexists|done|intros ->; by eexists].
  - destruct Hr as (-> & ectx & -> & _ & tr & He%Evaluate_foreign).
    rewrite classified_foreign by done. split_and!; [done|done| |intros ->; by eexists].
    by apply (early_not_unknown e (Proposal_TransactionID p) phaseEvaluate).
  - destruct Hr as (-> & ectx & -> & _). split_and!; [done|done|done|intros ->; by eexists].
Qed.

(** The proposals of a query. *)
Lemma query_proposes c ctx g0 fn popts0 w q a k f popts p :
  query_path c ctx g0 fn popts0 w q a -> EvNewProposal k f popts p ∈ a ->
  exists g, k = g0 g /\ f = fn /\ popts = popts0.
Proof.
  assert (Ha : forall r a', acquires c w r a' -> EvNewProposal k f popts p ∉ a')
    by (intros ? ? []; absent).
  assert (Hc : forall rel, EvNewProposal k f popts p ∉ closes rel) by (intros []; unfold closes; absent).
  destruct 1 as [? ? H|g ? ? ? ? H|g ? ? ? ? ? ? H]; rewrite ?elem_of_app, ?elem_of_cons, ?elem_of_nil;
    apply Ha in H; naive_solver.
Qed.

Lemma observed_only c op fn txID d err ev : ev ∈ observed c op fn txID d err ->
  (exists o i, ev = EvObserve o i) \/ (exists l, ev = EvLog l).
Proof.
  intros [([o i] & -> & _)%list_elem_of_fmap|Hin]%elem_of_app; [by left; eauto|right].
  destruct err; [by apply elem_of_logs in Hin|by apply elem_of_nil in Hin].
Qed.

(** Classifying a configuration error leaves it as it is. *)
Lemma classified_config err txID ph strict : KindOf (Some err) = KindConfig ->
  IsOutcomeUnknown (Some (classified err txID ph strict)) = IsOutcomeUnknown (Some err)
  /\ KindOf (Some (classified err txID ph strict)) = KindConfig.
Proof.
  unfold classified, classify, KindOf. intros Hk. unfold IsOutcomeUnknown.
  by destruct (asError (Some err)).
Qed.

(** C30. Resolving an unknown outcome: [TxStatus] asks qscc on the handle's channel
    for exactly that transaction; it reports not found exactly when the failure
    mentions the ledger's "no such transaction ID", found with the decoded
    validation code on an answer, valid exactly for the code VALID, and an error
    otherwise; it never reports an unknown outcome. *)
Theorem TxStatus_spec `{!GatewayErrors} (c : Contract) (ctx : option Context) (txID : string)
    (w : World) :
  let '(r, w') := Contract_TxStatus c ctx txID w in
  exists new, w_trace w' = w_trace w ++ new
    /\ (forall k f popts p, EvNewProposal k f popts p ∈ new ->
        exists g, k = GetContract (GetNetwork g (c_channel c)) "qscc"
          /\ f = "GetTransactionByID" /\ popts = [WithArguments [c_channel c; txID]])
    /\ match rpcs new with
       | [EvEvaluate p _ (inr raw)] =>
           match Unmarshal_ProcessedTransaction raw, r with
           | inr vc, inr ts => ts = mkTxStatus txID true vc (bool_decide (vc = TxValidationCode_VALID))
           | inl _, inl err => KindOf (Some err) = KindInternal
           | _, _ => False
           end
       | [EvEvaluate p _ (inl e)] =>
           if mentions e noSuchTx then r = inr (mkTxStatus txID false 0 false)
           else r = inl (sdkError (classify_status e "" phaseEvaluate true))
       | [] => forall ts, r = inr ts -> ts = mkTxStatus txID false 0 false
       | _ => False
       end
    /\ IsOutcomeUnknown (error_of r) = false.
Proof.
  destruct (TxStatus_run c ctx txID w) as (q & a & d & -> & Hq).
  assert (Hnp : forall k f popts p, EvNewProposal k f popts p ∈ a ++ observed c OpTxStatus
     "GetTransactionByID" txID d (error_of (status_result txID (raw_result q))) ->
     exists g, k = GetContract (GetNetwork g (c_channel c)) "qscc"
       /\ f = "GetTransactionByID" /\ popts = [WithArguments [c_channel c; txID]]).
  { intros k f popts p [Hin|Hin]%elem_of_app; [exact (query_proposes _ _ _ _ _ _ _ _ _ _ _ _ Hq Hin)|].
    by apply observed_only in Hin as [(? & ? & ?)|[? ?]]. }
  apply query_views in Hq as (_ & _ & _ & Hr). eexists. split; [done|]. split; [exact Hnp|]. views.
  destruct q as [err|p [e|raw]]; cbn [raw_result status_result error_of].
  - destruct Hr as (_ & -> & Hk & Hu). destruct (mentions err noSuchTx).
    + split; [|done]. by intros ts [= <-].
    + split; [done|]. rewrite <- Hu. by apply (classified_config err "" phaseEvaluate true).
  - destruct Hr as (_ & ectx & -> & _ & tr & He%Evaluate_foreign).
    destruct (mentions e noSuchTx); [done|]. rewrite classified_foreign by done. split; [done|].
    by apply (early_not_unknown e "" phaseEvaluate).
  - destruct Hr as (_ & ectx & -> & _). by destruct (Unmarshal_ProcessedTransaction raw).
Qed.

(** An event that stays inside the caller's process. *)
Definition is_report (ev : Event) : Prop := (exists o i, ev = EvObserve o i) \/ (exists l, ev = EvLog l).

Definition client_closed : error := sdkError (newError KindConfig SourceSDK "client is closed").

Lemma acquires_when_closed c w r a :
  fc_addr (c_fc c) ∈ w_closed w -> acquires c w r a -> r = inl client_closed /\ a = [].
Proof. by intros Hc; destruct 1. Qed.

Lemma query_when_closed c ctx k fn popts w q a :
  fc_addr (c_fc c) ∈ w_closed w -> query_path c ctx k fn popts w q a ->
  q = not_sent client_closed /\ a = [].
Proof.
  intros Hc. destruct 1 as [? ? H|g ? ? ? ? H|g ? ? ? ? ? ? H];
    apply acquires_when_closed in H as [H ->]; by simplify_eq.
Qed.

(** After [Close] nothing leaves the process: every call that starts on a
    closed client fails with a configuration error, without a connection, a
    signature or a network call; at most the failure is reported and logged. *)
Theorem closed_client_refuses `{!ConvertPlain} (c : Contract) (ctx : option Context)
    (fn txID : string) (opts : list CallOption) (w : World) :
  fc_addr (c_fc c) ∈ w_closed w ->
  let refused {A} (run : M (error + A)) := exists err new, fst (run w) = inl err
    /\ KindOf (Some err) = KindConfig
    /\ w_trace (snd (run w)) = w_trace w ++ new /\ Forall is_report new in
  refused (Contract_EvaluateWith c ctx fn opts) /\ refused (Contract_SubmitAsync c ctx fn opts)
  /\ refused (Contract_SubmitWith c ctx fn opts) /\ refused (Contract_TxStatus c ctx txID)
  /\ refused (Contract_Height c ctx).
Proof.
  intros Hc refused.
  assert (Hobs : forall op f t d err, Forall is_report (observed c op f t d err)).
  { intros. apply list.Forall_forall. intros ev Hin. by apply observed_only in Hin. }
  destruct (EvaluateWith_run c ctx fn opts w) as (q1 & a1 & d1 & E1 & H1).
  destruct (SubmitAsync_run c ctx fn opts w) as (r2 & a2 & E2 & H2).
  destruct (TxStatus_run c ctx txID w) as (q4 & a4 & d4 & E4 & H4).
  destruct (Height_run c ctx w) as (q5 & a5 & r5 & E5 & H5 & ->).
  apply query_when_closed in H1 as [-> ->], H4 as [-> ->], H5 as [-> ->]; [|done..].
  assert (r2 = inl client_closed /\ a2 = []) as [-> ->].
  { destruct H2; match goal with Ha : acquires _ _ _ _ |- _ =>
      apply (acquires_when_closed _ _ _ _ Hc) in Ha as [Ha ->]; by simplify_eq end. }
  assert (E3 : Contract_SubmitWith c ctx fn opts w = (inl client_closed, w)).
  { unfold Contract_SubmitWith. rewrite (bind_run _ _ _ _ _ E2). by rewrite push_nil. }
  assert (Hm : mentions client_closed noSuchTx = false).
  { unfold mentions. unfold gatewayDetails.
    destruct (Convert_plain (newError KindConfig SourceSDK "client is closed") eq_refl) as [Em Ed].
    fold client_closed in Em, Ed. by rewrite Em, Ed. }
  unfold refused. rewrite E1, E2, E3, E4, E5. cbn [raw_result status_result]. rewrite Hm.
  split_and!.
  - do 2 eexists. split_and!; [done|done|done|by apply Hobs].
  - exists client_closed, []. by rewrite push_nil, app_nil_r.
  - exists client_closed, []. by rewrite app_nil_r.
  - do 2 eexists. split_and!; [done|by apply classified_config|done|by apply Hobs].
  - do 2 eexists. split_and!; [done|by apply classified_config|by rewrite push_nil, app_nil_r|done].
Qed.

(** A network call that cannot run for ever. *)
Definition bounded (ev : Event) : Prop := exists ctx, rpc_ctx ev = Some ctx /\ is_Some (Deadline ctx).

Lemma query_bounded c ctx k fn popts w q a :
  wf_client (c_fc c) -> query_path c ctx k fn popts w q a -> Forall bounded (rpcs a).
Proof.
  intros [_ _ (He & _) _] (_ & _ & _ & Hr)%query_views. destruct q as [err|p r].
  - destruct Hr as (_ & -> & _). constructor.
  - destruct Hr as (_ & ectx & -> & Hd & _). repeat constructor. exists ectx. split; [done|].
    by eapply phase_ctx_deadline.
Qed.

Lemma submit_bounded c ctx fn opts w r a :
  wf_client (c_fc c) -> submit_path c ctx fn opts w r a -> Forall bounded (rpcs a).
Proof.
  intros [_ _ (_ & He & Hs & _) _] Hp.
  assert (Hb : forall d ev cx, 0 < d -> rpc_ctx ev = Some cx -> phase_ctx ctx d cx -> bounded ev).
  { intros d ev cx Hd Hev Hcx. exists cx. split; [done|]. by eapply phase_ctx_deadline. }
  inversion Hp; subst; views; all_forall by (eapply Hb; [|reflexivity|eassumption]; done).
Qed.

Lemma wait_bounded c ctx p w r a :
  wf_client (c_fc c) -> p_c p = c -> wait_path p ctx w r a -> Forall bounded (rpcs a).
Proof.
  intros [_ _ (_ & _ & _ & Hc) _] <- Hp.
  assert (Hb : forall ev cx, rpc_ctx ev = Some cx ->
    phase_ctx ctx (CommitStatusTimeout (fc_cfg (c_fc (p_c p)))) cx -> bounded ev).
  { intros ev cx Hev Hcx. exists cx. split; [done|]. by eapply phase_ctx_deadline. }
  inversion Hp; subst; views; all_forall by (eapply Hb; [reflexivity|eassumption]).
Qed.

(** C31. The calls of transactions and queries have deadlines: on a client the
    constructors made, the contexts of all evaluate, endorse, submit and status
    calls made by [EvaluateWith], [SubmitWith], [SubmitAsync], [Wait], [TxStatus]
    and [Height] carry the caller's deadline or the phase's own, so none of these
    calls waits for ever. (Event and block subscriptions are not among them: they
    are opened with the context of their caller and stay open as long.) *)
Theorem calls_bounded (c : Contract) (ctx : option Context) (fn txID : string)
    (opts : list CallOption) (w : World) :
  wf_client (c_fc c) ->
  let bounds (w' : World) := exists new, w_trace w' = w_trace w ++ new /\ Forall bounded (rpcs new) in
  bounds (snd (Contract_EvaluateWith c ctx fn opts w))
  /\ bounds (snd (Contract_SubmitWith c ctx fn opts w))
  /\ bounds (snd (Contract_SubmitAsync c ctx fn opts w))
  /\ (forall p, p_c p = c -> bounds (snd (PendingTx_Wait p ctx w)))
  /\ bounds (snd (Contract_TxStatus c ctx txID w)) /\ bounds (snd (Contract_Height c ctx w)).
Proof.
  intros Hwf bounds.
  destruct (EvaluateWith_run c ctx fn opts w) as (q1 & a1 & d1 & -> & H1%query_bounded); [|done].
  destruct (SubmitWith_run c ctx fn opts w) as (r2 & a2 & w2 & -> & Ht & H2).
  destruct (SubmitAsync_run c ctx fn opts w) as (r3 & a3 & -> & H3%(submit_bounded c ctx)); [|done].
  destruct (TxStatus_run c ctx txID w) as (q4 & a4 & d4 & -> & H4%query_bounded); [|done].
  destruct (Height_run c ctx w) as (q5 & a5 & r5 & -> & H5%query_bounded & _); [|done].
  split_and!; [eexists; split; [done|]; by views| | | |eexists; split; [done|]; by views|by eexists].
  - exists a2. split; [done|]. clear Ht.
    inversion H2 as [e a' Hp|p a1' w3 r a6 Hp Ew Hw]; subst; [by eapply submit_bounded|].
    assert (Hpc : p_c p = c) by by inversion Hp.
    rewrite rpcs_app. apply Forall_app. split; [by eapply submit_bounded|by eapply wait_bounded].
  - exists a3. split; [|done]. by destruct r3.
  - intros p Hpc. destruct (Wait_run p ctx w) as (r & a & w' & -> & Hw & Hp & _). exists a.
    split; [done|]. subst c. by eapply wait_bounded.
Qed.

(** *** Who signs, and where calls go *)

(** The identity is the object that the client was made with. *)
Definition is_clients (c : Contract) (i : Identity) : Prop :=
  exists d, fc_id (c_fc c) = Some d /\ id_addr i = id_addr d.

Definition sign_of (o : ConnectOption) : option Sign := match o with WithSign s => Some s | _ => None end.
Definition conn_of (o : ConnectOption) : option Conn :=
  match o with WithClientConnection k => Some k | _ => None end.

(** A connection made for [i]: its certificate, its signer and no other, and the
    connection of the client and no other. *)
Definition connected_as (c : Contract) (i : Identity)
    (k : X509Identity * list ConnectOption * option Gateway) : Prop :=
  let '(x, copts, _) := k in
  x = id_x509 i /\ omap sign_of copts = [id_sign i] /\ omap conn_of copts = [fc_conn (c_fc c)].

(** Where a contract object of fabric-gateway sends its proposals: Gateway,
    channel, chaincode and contract name, which is empty for the default. *)
Definition aim (x : ClientContract) : option Gateway * string * string * string :=
  match x with
  | GetContract (GetNetwork g channel) chaincode => (g, channel, chaincode, "")
  | GetContractWithName (GetNetwork g channel) chaincode name => (g, channel, chaincode, name)
  end.

Lemma is_default_identity_spec c i : is_default_identity c i = true <-> is_clients c i.
Proof.
  unfold is_default_identity, is_clients. destruct (fc_id (c_fc c)) as [d|]; [|by split; [|intros (? & ? & _)]].
  rewrite bool_decide_eq_true. split; [by eauto|]. by intros (d' & [= <-] & He).
Qed.

Lemma connect_as c i g : connected_as c i (id_x509 i, connectOptions (c_fc c) i, g).
Proof. unfold connected_as, connectOptions. cbv zeta. by case_decide. Qed.

Lemma target_aim c g : aim (target c g) = (g, c_channel c, c_chaincode c, c_contract c).
Proof. unfold target. cbv zeta. by case_bool_decide as En; simpl; rewrite ?En. Qed.

(** The connections that a call opens: none, or one for the handle's identity if it
    is not the client's. *)
Definition connects_for (c : Contract) (ks : list (X509Identity * list ConnectOption * option Gateway)) : Prop :=
  ks = [] \/ exists i k, c_id c = Some i /\ ~ is_clients c i /\ ks = [k] /\ connected_as c i k.

(** The proposals that a call makes: none, or one for the handle's target, on the
    client's Gateway or on the one connected for the handle's identity. *)
Definition asks_for (c : Contract) (fn : string) (popts : list ProposalOption)
    (ks : list (X509Identity * list ConnectOption * option Gateway))
    (qs : list (ClientContract * string * list ProposalOption * option Proposal)) : Prop :=
  qs = [] \/ exists i x g p, c_id c = Some i /\ qs = [(x, fn, popts, p)]
    /\ aim x = (g, c_channel c, c_chaincode c, c_contract c)
    /\ (is_clients c i /\ g = fc_gw (c_fc c) /\ ks = []
        \/ ~ is_clients c i /\ is_Some g /\ exists x509 copts,
             ks = [(x509, copts, g)] /\ connected_as c i (x509, copts, g)).

Lemma acquires_connects c w r a : acquires c w r a -> connects_for c (connects a).
Proof.
  unfold connects_for. destruct 1 as [| | |i err tr _ Hi Hd Hf|i g _ Hi Hd]; first [by left|right].
  all: exists i; eexists; rewrite <- is_default_identity_spec, Hd; split_and!; try done; apply connect_as.
Qed.

Lemma target_asks c w g rel a fn popts p : acquires c w (inr (g, rel)) a ->
  asks_for c fn popts (connects a) [(target c g, fn, popts, p)].
Proof.
  inversion 1 as [| |i ? Hi Hd| |i g0 ? Hi Hd]; subst; right; exists i; do 3 eexists;
    (split; [done|split; [done|split; [apply target_aim|]]]).
  - left. by rewrite <- is_default_identity_spec, Hd.
  - right. rewrite <- is_default_identity_spec, Hd. split_and!; [done|by eexists|].
    do 2 eexists. split; [done|apply connect_as].
Qed.

(** C32. A handle acts for its identity and only at its target. [EvaluateWith] and
    [SubmitWith] open at most one Gateway, and only if the handle's identity is
    not the client's own object; it is connected with the certificate of the
    handle's identity, with its signer and no other, over the client's
    connection and no other. The proposal they make, if any, goes to the
    handle's channel, chaincode and contract, on the client's Gateway for the
    client's identity and on the Gateway just connected for another one, with
    the function given, all arguments in the order written, the last transient
    data and all endorsing organizations. *)
Theorem handle_identity_target (c : Contract) (ctx : option Context) (fn : string)
    (calls : list optionCall) (w : World) :
  let opts := option_of <$> calls in
  let popts := WithBytesArguments (calls ≫= args_of)
    :: (match default None (list.last (calls ≫= transient_of)) with
        | Some data => [WithTransient data] | None => [] end)
    ++ (match calls ≫= orgs_of with [] => [] | orgs => [WithEndorsingOrganizations orgs] end) in
  let faithful (w' : World) := exists new, w_trace w' = w_trace w ++ new
    /\ connects_for c (connects new)
    /\ asks_for c fn popts (connects new) (asks new) in
  faithful (snd (Contract_EvaluateWith c ctx fn opts w))
  /\ faithful (snd (Contract_SubmitWith c ctx fn opts w)).
Proof.
  intros opts popts faithful.
  assert (Hpopts : popts = proposalOptions opts).
  { unfold opts. rewrite proposalOptions_spec. unfold popts. by destruct (calls ≫= orgs_of). }
  clearbody popts. subst popts.
  destruct (EvaluateWith_run c ctx fn opts w) as (q1 & a1 & d1 & -> & H1).
  destruct (SubmitWith_run c ctx fn opts w) as (r2 & a2 & w2 & -> & Ht & H2).
  split; (eexists; split; [done|]).
  - destruct H1; views; (split; [by eapply acquires_connects|]);
      first [by left|by eapply target_asks].
  - clear Ht. inversion H2 as [e a' Hp|p a1' w3 r a3 Hp Ew Hw]; subst; inversion Hp; subst; clear Hp H2;
      try (inversion Hw; subst; clear Hw); views;
      (split; [by eapply acquires_connects|]); first [by left|by eapply target_asks].
Qed.

End lifecycle.
