(* ===== verification/Resubmit.v ===== *)
(** * Submitting again: the caller's protocol of the README

    The README tells a caller what to do with an error of [Submit]: treat
    [IsAlreadyExists] as success, resolve an unknown outcome with [TxStatus] and
    the error's transaction ID, submit again when [IsRetryable] says so, give up
    otherwise. [resubmit] is that caller. Against a ledger that behaves as
    documented, it never makes the ledger hold two of its transactions, and what
    it answers about them is true. *)

From S2P Require Import Prelude GoStrings GoRunes Errors Classify Observe World Identity Config Client Contract Transactions Views Lifecycle.

(** ** The caller *)

(** What the caller learns: the ID of its committed transaction; an error after
    which none of its transactions is on the ledger as valid; or an error whose
    transaction could not be resolved. *)
Inductive resolution :=
| committed (txID : string)
| already (err : error)
| gave_up (err : error)
| unresolved (err : error).

Section caller.
Context `{X : X509Lib} `{E : Env} `{U : UnicodeTables} `{G : GrpcStatus} `{P : PeerCodes}
  `{L : LedgerProto}.
Variables (c : Contract) (ctx : option Context) (fn : string) (opts : list CallOption).

(** "Never resubmit blindly. Resolve with the transaction ID." *)
Definition resolve (err : error) : M resolution :=
  st ← Contract_TxStatus c ctx (TxIDOf (Some err));
  match st with
  | inr st => mret (if Found st then if Valid st then committed (TxIDOf (Some err)) else gave_up err
                    else unresolved err)
  | inl _ => mret (unresolved err)
  end.

(** The switch, with at most [n] retries. *)
Fixpoint resubmit (n : nat) : M resolution :=
  r ← Contract_SubmitWith c ctx fn opts;
  match r with
  | inr res => mret (committed (Result_TxID res))
  | inl err =>
      if IsAlreadyExists (Some err) then mret (already err)
      else if IsOutcomeUnknown (Some err) then resolve err
      else if IsRetryable (Some err) then
        match n with S n => resubmit n | O => mret (gave_up err) end
      else mret (gave_up err)
  end.

End caller.

(** ** Traces that an environment answered *)

Section honest.
Context `{E : Env}.

(** A call of the trace has the answer that the environment gives after the calls
    before it. *)
Definition answered_by (pre : trace) (ev : Event) : Prop :=
  match ev with
  | EvNewProposal k fn opts r => result_opt (env_NewProposal pre k fn opts) = r
  | EvEvaluate p ctx r => env_Evaluate pre p ctx = r
  | EvEndorse p ctx r => env_Endorse pre p ctx = r
  | EvSubmit t ctx r => env_Submit pre t ctx = r
  | EvCommitStatus k ctx r => env_CommitStatus pre k ctx = r
  | _ => True
  end.

Fixpoint honest (pre evs : trace) : Prop :=
  match evs with
  | [] => True
  | ev :: evs => answered_by pre ev /\ honest (pre ++ [ev]) evs
  end.

Lemma honest_app pre a b : honest pre (a ++ b) <-> honest pre a /\ honest (pre ++ a) b.
Proof.
  revert pre. induction a as [|ev a IH]; intros pre; simpl; [rewrite app_nil_r; tauto|].
  rewrite IH, <- app_assoc. simpl. tauto.
Qed.

Lemma honest_elem pre a ev : honest pre a -> ev ∈ a -> exists pre', answered_by pre' ev.
Proof.
  revert pre. induction a as [|x a IH]; intros pre; simpl; [by intros _ ?%elem_of_nil|].
  intros [Hx Ha] [->|Hin]%elem_of_cons; [by exists pre|by eapply IH].
Qed.

(** Programs leave honest traces. *)
Definition truthful {A} (m : M A) : Prop :=
  forall w, exists new, w_trace (snd (m w)) = w_trace w ++ new /\ honest (w_trace w) new.

Definition silent (ev : Event) : Prop :=
  match rpc_of ev, ev with None, EvNewProposal _ _ _ _ => False | None, _ => True | _, _ => False end.

Lemma honest_silent pre evs : Forall silent evs -> honest pre evs.
Proof.
  revert pre. induction evs as [|ev evs IH]; intros pre; [done|].
  intros [Hs H]%list.Forall_cons. split; [by destruct ev|by apply IH].
Qed.

Lemma truthful_silent {A} (m : M A) : emits silent m -> truthful m.
Proof. intros H w. destruct (H w) as (new & Ht & Hn). exists new. split; [done|by apply honest_silent]. Qed.

Lemma truthful_ret {A} (x : A) : truthful (mret x).
Proof. apply truthful_silent, emits_ret. Qed.

Lemma truthful_bind {A B} (m : M A) (f : A -> M B) :
  truthful m -> (forall x, truthful (f x)) -> truthful (m ≫= f).
Proof.
  intros Hm Hf w. destruct (Hm w) as (n1 & E1 & H1). unfold mbind, M_bind.
  destruct (m w) as [x w1]. simpl in E1. destruct (Hf x w1) as (n2 & E2 & H2).
  exists (n1 ++ n2). rewrite E2, E1, app_assoc. split; [done|]. apply honest_app. by rewrite <- E1.
Qed.

Lemma truthful_outside {A} (answer : trace -> A) (ev : A -> Event) :
  (forall tr, answered_by tr (ev (answer tr))) -> truthful (outside answer ev).
Proof. intros H w. exists [ev (answer (w_trace w))]. by split; [|split]. Qed.

End honest.

Lemma silent_emit ev : silent ev -> emits silent (emit [ev]).
Proof. intros H. by apply emits_emit, list.Forall_singleton. Qed.

Ltac solve_silent := solve_emits_with ltac:(exact I); try (apply silent_emit; exact I).

(** Silent pieces, calls, binds and branches. *)
Ltac solve_truthful :=
  repeat first
    [ apply truthful_ret
    | match goal with |- truthful (outside _ _) => apply truthful_outside; done end
    | apply truthful_bind; [|intros ?]
    | match goal with |- truthful (match ?x with _ => _ end) => destruct x end
    | apply truthful_silent; solve [solve_silent] ].

Section truthful.
Context `{X : X509Lib} `{E : Env} `{U : UnicodeTables} `{G : GrpcStatus} `{P : PeerCodes}
  `{L : LedgerProto}.

Lemma truthful_gateway c : truthful (Contract_gateway c).
Proof. apply truthful_silent. unfold Contract_gateway, connect, client_Connect. solve_silent. Qed.

Lemma truthful_release rel : truthful (release rel).
Proof. apply truthful_silent. unfold release, Gateway_Close. solve_silent. Qed.

Lemma truthful_observe c op fn id t err : truthful (observe c op fn id t err).
Proof. apply truthful_silent. unfold observe. solve_silent. Qed.

Lemma truthful_withDefaultTimeout ctx d : truthful (withDefaultTimeout ctx d).
Proof. apply truthful_silent. unfold withDefaultTimeout. solve_silent. Qed.

Lemma truthful_SubmitWith c ctx fn opts : truthful (Contract_SubmitWith c ctx fn opts).
Proof.
  unfold Contract_SubmitWith, Contract_SubmitAsync, PendingTx_Wait, PendingTx_Release, NewProposal,
    EndorseWithContext, SubmitWithContext, StatusWithContext. cbv zeta.
  repeat first [apply truthful_gateway | apply truthful_release | apply truthful_observe
    | apply truthful_withDefaultTimeout | progress solve_truthful].
Qed.

Lemma truthful_TxStatus c ctx txID : truthful (Contract_TxStatus c ctx txID).
Proof.
  unfold Contract_TxStatus, qscc, NewProposal, EvaluateWithContext. cbv zeta.
  repeat first [apply truthful_gateway | apply truthful_release | apply truthful_observe
    | apply truthful_withDefaultTimeout | progress solve_truthful].
Qed.

End truthful.

(** ** The ledger *)

(** The calls of one attempt, for a proposal. *)
Inductive shape (p : Proposal) : trace -> Prop :=
| sh_refused ectx err : shape p [EvEndorse p ectx (inl err)]
| sh_not_sent ectx tx sctx err : shape p [EvEndorse p ectx (inr tx); EvSubmit tx sctx (inl err)]
| sh_sent ectx tx sctx k cctx r :
    shape p [EvEndorse p ectx (inr tx); EvSubmit tx sctx (inr k); EvCommitStatus k cctx r].

Section ledger.
Context `{X : X509Lib} `{E : Env} `{U : UnicodeTables} `{G : GrpcStatus} `{P : PeerCodes}
  `{L : LedgerProto}.
Variables (tx_id : Transaction -> string) (commit_id : Commit -> string) (valid : string -> Prop).

Definition ids (tr : trace) : list string := Proposal_TransactionID <$> proposals tr.

Lemma ids_app a b : ids (a ++ b) = ids a ++ ids b.
Proof. unfold ids. by rewrite proposals_app, fmap_app. Qed.

(** Documented behaviour of fabric-gateway: every proposal has an ID of its own,
    which its transaction and its commit keep. *)
Class TransactionIDs : Prop := {
  fresh_id tr k f o p : env_NewProposal tr k f o = inr p -> Proposal_TransactionID p ∉ ids tr;
  endorsed_id tr p x t : env_Endorse tr p x = inr t -> tx_id t = Proposal_TransactionID p;
  commit_tx_id tr t x k : env_Submit tr t x = inr k -> commit_id k = tx_id t }.

(** What the calls of a trace tell of the ledger, in the end: a transaction
    proposed there is valid on it only if it was sent and not definitely
    rejected, a commit status is true, and so is an answer of qscc. *)
Record true_ledger (T : trace) : Prop := {
  valid_sent id : id ∈ ids T -> valid id ->
    exists t x r, EvSubmit t x r ∈ T /\ tx_id t = id /\ was_sent (EvSubmit t x r) = true;
  status_true k x st : EvCommitStatus k x (inr st) ∈ T -> (Status_Successful st = true <-> valid (commit_id k));
  query_true k ch id p x raw vc :
    EvNewProposal k "GetTransactionByID" [WithArguments [ch; id]] (Some p) ∈ T ->
    EvEvaluate p x (inr raw) ∈ T -> Unmarshal_ProcessedTransaction raw = inr vc ->
    (vc = TxValidationCode_VALID <-> valid id) }.

(** What was sent was proposed. *)
Definition owned (a : trace) : Prop := forall t x r, EvSubmit t x r ∈ a -> tx_id t ∈ ids a.

Lemma owned_app a b : owned a -> owned b -> owned (a ++ b).
Proof. intros Ha Hb t x r. rewrite ids_app, !elem_of_app. intros [H|H]; [left; by eapply Ha|right; by eapply Hb]. Qed.

Lemma true_ledger_app a b : owned a -> owned b -> NoDup (ids (a ++ b)) ->
  true_ledger (a ++ b) -> true_ledger a /\ true_ledger b.
Proof.
  intros Ha Hb Hd [H1 H2 H3]. rewrite ids_app in Hd. apply list.NoDup_app in Hd as (_ & Hd & _).
  split; split; try (intros; eapply H2; rewrite elem_of_app; by eauto);
    try (intros; eapply H3; rewrite ?elem_of_app; by eauto).
  - intros id Hid Hv. destruct (H1 id) as (t & x & r & [Hin|Hin]%elem_of_app & <- & Hs);
      [rewrite ids_app, elem_of_app; by left|done|by exists t, x, r|]. by apply Hb in Hin as ?%Hd.
  - intros id Hid Hv. destruct (H1 id) as (t & x & r & [Hin|Hin]%elem_of_app & <- & Hs);
      [rewrite ids_app, elem_of_app; by right|done| |by exists t, x, r]. by apply Ha, Hd in Hin.
Qed.

Context `{!TransactionIDs}.

Lemma honest_ids pre a : honest pre a -> NoDup (ids a) /\ forall id, id ∈ ids a -> id ∉ ids pre.
Proof.
  revert pre. induction a as [|ev a IH]; intros pre; simpl; [intros _; split; [constructor|by intros ? ?%elem_of_nil]|].
  intros [Hev [Hd Hn]%IH].
  assert (Hone : forall id, id ∈ ids [ev] -> id ∉ ids pre).
  { intros id. destruct ev as [| | | |k f o [p|]| | | | | | | | | | | | | | | | | |]; try by intros ?%elem_of_nil.
    intros ->%elem_of_lit. simpl in Hev. destruct (env_NewProposal pre k f o) eqn:Ep; [done|].
    simplify_eq/=. by eapply fresh_id. }
  change (ev :: a) with ([ev] ++ a). rewrite ids_app. setoid_rewrite ids_app in Hn.
  setoid_rewrite elem_of_app in Hn. split.
  - apply list.NoDup_app. split; [|split; [|done]].
    + unfold ids. destruct ev as [| | | |k f o [p|]| | | | | | | | | | | | | | | | | |]; simpl;
        try apply NoDup_nil_2; apply NoDup_singleton.
    + intros id Hid Ha. apply Hn in Ha. tauto.
  - intros id [Hid|Ha]%elem_of_app; [by apply Hone|]. apply Hn in Ha. tauto.
Qed.

(** *** One attempt *)

Lemma rpcs_elem ev a : rpc_of ev = Some ev -> (ev ∈ a <-> ev ∈ rpcs a).
Proof.
  intros Hev. unfold rpcs. rewrite list_elem_of_omap. split; [by eauto|].
  intros (x & Hx & Hr). by destruct x; simplify_eq/=.
Qed.

Lemma rpcs_answered pre a ev : honest pre a -> ev ∈ rpcs a -> exists pre', answered_by pre' ev.
Proof.
  intros Ha Hin. apply (honest_elem pre a); [done|]. apply rpcs_elem; [|done].
  apply list_elem_of_omap in Hin as (x & _ & Hr). by destruct x; simplify_eq/=.
Qed.

Lemma submitted_shape c ctx fn opts w r a : submitted c ctx fn opts w r a ->
  (rpcs a = [] /\ proposals a = []) \/ exists p, proposals a = [p] /\ shape p (rpcs a).
Proof.
  intros Hp. inversion Hp as [e a' Hs|p a1 w2 r2 a2 Hs Ew Hw]; subst; inversion Hs; subst; clear Hs Hp.
  - left. by views.
  - left. by views.
  - right. eexists. views. split; [done|constructor].
  - right. eexists. views. split; [done|constructor].
  - right. inversion Hw; subst; eexists; views; (split; [done|constructor]).
Qed.

Lemma shape_ids pre p a : shape p (rpcs a) -> honest pre a ->
  (forall t x r, EvSubmit t x r ∈ a -> tx_id t = Proposal_TransactionID p)
  /\ (forall k x r, EvCommitStatus k x r ∈ a -> commit_id k = Proposal_TransactionID p).
Proof.
  intros Hs Ha. pose proof (rpcs_answered pre a) as Hans.
  assert (Hin : forall ev, rpc_of ev = Some ev -> ev ∈ a -> ev ∈ rpcs a) by (intros ev Hev; apply (rpcs_elem ev a Hev)).
  inversion Hs as [y err Hr|y tx sctx err Hr|y tx sctx k cctx res Hr]; rewrite <- Hr in Hin, Hans; clear Hs Hr.
  - split; intros ? ? ? Hev%Hin; try done; absent_in Hev.
  - split; intros ? ? ? Hev%Hin; try done; [|absent_in Hev].
    destruct (Hans (EvEndorse p y (inr tx)) Ha) as [pre1 He]; [by left|].
    apply elem_of_cons in Hev as [Hev|Hev%elem_of_lit]; [done|].
    simplify_eq. by eapply endorsed_id.
  - destruct (Hans (EvEndorse p y (inr tx)) Ha) as [pre1 He%endorsed_id]; [by left|].
    destruct (Hans (EvSubmit tx sctx (inr k)) Ha) as [pre2 Hk%commit_tx_id]; [by right; left|].
    split; intros ? ? ? Hev%Hin; try done; rewrite !elem_of_cons, elem_of_nil in Hev;
      destruct_or! Hev; simplify_eq; congruence.
Qed.

Lemma submitted_owned c ctx fn opts w r a pre : submitted c ctx fn opts w r a -> honest pre a -> owned a.
Proof.
  intros Hp Ha t x res Hin. destruct (submitted_shape _ _ _ _ _ _ _ Hp) as [[Hr _]|(p & Hps & Hs)].
  - apply (rpcs_elem (EvSubmit t x res)) in Hin; [|done]. rewrite Hr in Hin. by apply elem_of_nil in Hin.
  - rewrite (proj1 (shape_ids pre p a Hs Ha) _ _ _ Hin). unfold ids. rewrite Hps. by left.
Qed.

Lemma submitted_unknown `{!GatewayErrors} c ctx fn opts w err a :
  submitted c ctx fn opts w (inl err) a ->
  IsOutcomeUnknown (Some err) = true -> IsAlreadyExists (Some err) = false.
Proof.
  assert (Hw : forall e, wf_error e -> IsOutcomeUnknown (Some (sdkError e)) = true ->
    IsAlreadyExists (Some (sdkError e)) = false).
  { intros e [_ Hu _ _ _]. unfold IsOutcomeUnknown, IsAlreadyExists, isKind, KindOf. rewrite asError_sdk, Hu.
    intros Hk%bool_decide_eq_true. by rewrite Hk. }
  assert (Hf : forall e id ph strict, foreign e -> IsOutcomeUnknown (Some (classified e id ph strict)) = true ->
    IsAlreadyExists (Some (classified e id ph strict)) = false).
  { intros e id ph strict He. rewrite classified_foreign by done. apply Hw, classify_status_wf. }
  intros Hp. inversion Hp as [e a' Hs|p a1 w2 r a2 Hs Ew Hw2]; subst; inversion Hs; subst; clear Hs Hp.
  - match goal with H : acquires _ _ _ _ |- _ => apply acquires_inl in H as (_ & Hu & _) end. by rewrite Hu.
  - done.
  - by eapply Hf, Endorse_foreign.
  - by eapply Hf, Submit_foreign.
  - inversion Hw2; subst; [by eapply Hf, CommitStatus_foreign|].
    by rewrite (proj1 (verdict_invalid _ _)).
Qed.

(** What an attempt says of its transaction is true. *)
Lemma attempt_tells `{!GatewayErrors} c ctx fn opts w r a pre :
  submitted c ctx fn opts w r a -> honest pre a -> true_ledger a ->
  match r with
  | inr res => ids a = [Result_TxID res] /\ valid (Result_TxID res)
  | inl err => if IsOutcomeUnknown (Some err) then ids a = [TxIDOf (Some err)]
               else forall id, id ∈ ids a -> ~ valid id
  end.
Proof.
  intros Hp Ha [Hsent Hstatus _]. destruct r as [err|res].
  - destruct (submitted_outcome _ _ _ _ _ _ _ Hp) as [Hd Hst].
    destruct (IsOutcomeUnknown (Some err)).
    { destruct (submitted_txID _ _ _ _ _ _ _ Hp) as (p & Hps & Hid); [by intros Hn; rewrite Hn in Hd|].
      unfold ids. by rewrite Hps, Hid. }
    intros id Hid Hv. destruct (submitted_shape _ _ _ _ _ _ _ Hp) as [[_ Hps]|(p & Hps & Hs)];
      unfold ids in Hid; rewrite Hps in Hid; [by apply elem_of_nil in Hid|].
    apply elem_of_lit in Hid as ->. destruct (shape_ids pre p a Hs Ha) as [_ Hk].
    destruct (Hsent (Proposal_TransactionID p)) as (t & x & r & Hin & _ & Hws);
      [unfold ids; rewrite Hps; by left|done|].
    apply (rpcs_elem (EvSubmit t x r)) in Hin; [|done].
    assert (He : existsb was_sent (rpcs a) = true) by (apply existsb_exists; exists (EvSubmit t x r); split; [by apply list_elem_of_In|done]).
    unfold in_doubt in Hd. rewrite He in Hd. symmetry in Hd. apply negb_false_iff, existsb_exists in Hd as (ev & Hev & Hi).
    apply list_elem_of_In in Hev. destruct ev as [| | | | | | | |k y [|st]| | | | | | | | | | | | | |]; try done.
    pose proof (Hst k y st Hev) as Hbad. apply rpcs_elem in Hev; [|done].
    specialize (Hstatus k y st Hev). rewrite (Hk _ _ _ Hev) in Hstatus. apply Hstatus in Hv. congruence.
  - destruct (submitted_success _ _ _ _ _ _ _ Hp) as (p & ectx & tx & sctx & k & cctx & st & Hps & Hr & Hok & ->).
    simpl. unfold ids. rewrite Hps. split; [done|].
    assert (Hin : EvCommitStatus k cctx (inr st) ∈ a) by (apply rpcs_elem; [done|]; rewrite Hr; do 2 right; by left).
    assert (Hs : shape p (rpcs a)) by (rewrite Hr; constructor).
    rewrite <- (proj2 (shape_ids pre p a Hs Ha) _ _ _ Hin). by apply (Hstatus k cctx st Hin).
Qed.

(** *** The query that resolves an unknown outcome *)

Lemma query_sends_nothing c ctx k fn popts w q a : query_path c ctx k fn popts w q a ->
  forall t x r, EvSubmit t x r ∉ a.
Proof.
  intros Hq t x r Hin. apply rpcs_elem in Hin; [|done].
  apply query_views in Hq as (_ & _ & _ & Hr). destruct q as [err|p res].
  - destruct Hr as (_ & Hr & _). rewrite Hr in Hin. by apply elem_of_nil in Hin.
  - destruct Hr as (_ & ectx & Hr & _). rewrite Hr in Hin. by apply elem_of_lit in Hin.
Qed.

(** What a qscc answer says is true. *)
Lemma query_tells c ctx txID w q a ts : query_path c ctx (qscc_contract c) "GetTransactionByID"
    [WithArguments [c_channel c; txID]] w q a -> true_ledger a ->
  status_result txID (raw_result q) = inr ts -> Found ts = true -> (Valid ts = true <-> valid txID).
Proof.
  intros Hq [_ _ Hqs] Hts Hf. inversion Hq as [err b Hb|g rel b err tr Hb Hn|g rel b p ectx r tr Hb Hc Hr]; subst;
    cbn [raw_result status_result] in Hts; [by destruct (mentions _ _); simplify_eq/=..|].
  destruct (env_Evaluate tr p ectx) as [err|raw] eqn:Er; cbn [status_result] in Hts.
  { by destruct (mentions _ _); simplify_eq/=. }
  destruct (Unmarshal_ProcessedTransaction raw) as [err|vc] eqn:Eu; simplify_eq/=.
  rewrite bool_decide_eq_true. eapply (Hqs _ _ _ p ectx raw vc); [| |done];
    rewrite elem_of_app; right; simpl; [by left|right; by left].
Qed.

(** ** The protocol *)

(** What an answer of [resubmit] says of the transactions proposed in a trace. *)
Definition tells (r : resolution) (a : trace) : Prop :=
  match r with
  | committed txID => txID ∈ ids a /\ forall id, id ∈ ids a -> (valid id <-> id = txID)
  | already _ | gave_up _ => forall id, id ∈ ids a -> ~ valid id
  | unresolved err => TxIDOf (Some err) ∈ ids a
      /\ forall id, id ∈ ids a -> valid id -> id = TxIDOf (Some err)
  end.

Lemma tells_after r a b : (forall id, id ∈ ids a -> ~ valid id) -> tells r b -> tells r (a ++ b).
Proof.
  intros Ha. destruct r as [txID|err|err|err]; simpl; setoid_rewrite ids_app; setoid_rewrite elem_of_app.
  - intros [Hin Hb]. split; [by right|]. intros id [Hid|Hid]; [|by apply Hb].
    split; [intros Hv; by apply Ha in Hid|]. intros ->. by apply Hb.
  - intros Hb id [Hid|Hid]; [by apply Ha|by apply Hb].
  - intros Hb id [Hid|Hid]; [by apply Ha|by apply Hb].
  - intros [Hin Hb]. split; [by right|]. intros id [Hid|Hid] Hv; [by apply Ha in Hid|by apply Hb].
Qed.

Lemma tells_before r a b : (forall id, id ∈ ids b -> ~ valid id) ->
  (forall id, id ∈ ids b -> id ∉ ids a) -> tells r a -> tells r (a ++ b).
Proof.
  intros Hb Hd. destruct r as [txID|err|err|err]; simpl; setoid_rewrite ids_app; setoid_rewrite elem_of_app.
  - intros [Hin Ha]. split; [by left|]. intros id [Hid|Hid]; [by apply Ha|].
    split; [intros Hv; by apply Hb in Hid|]. intros ->. by apply Hd in Hid.
  - intros Ha id [Hid|Hid]; [by apply Ha|by apply Hb].
  - intros Ha id [Hid|Hid]; [by apply Ha|by apply Hb].
  - intros [Hin Ha]. split; [by left|]. intros id [Hid|Hid] Hv; [by apply Ha|by apply Hb in Hid].
Qed.

(** A program's answer about the transactions it proposed is true, if the ledger is. *)
Definition honestly {A} (says : A -> trace -> Prop) (m : M A) : Prop := forall w, exists new,
  w_trace (snd (m w)) = w_trace w ++ new /\ honest (w_trace w) new /\ owned new
  /\ (true_ledger new -> says (fst (m w)) new).

Lemma attempt_runs `{!GatewayErrors} c ctx fn opts w : exists r a w',
  Contract_SubmitWith c ctx fn opts w = (r, w') /\ w_trace w' = w_trace w ++ a
  /\ submitted c ctx fn opts w r a /\ honest (w_trace w) a /\ owned a.
Proof.
  destruct (SubmitWith_run c ctx fn opts w) as (r & a & w' & Hr & Ht & Hp).
  destruct (truthful_SubmitWith c ctx fn opts w) as (a' & Ht' & Ha). rewrite Hr in Ht'. simpl in Ht'.
  rewrite Ht in Ht'. apply app_inv_head in Ht' as <-. exists r, a, w'. split_and!; try done.
  by eapply submitted_owned.
Qed.

(** A status query proposes an ID of its own, sends nothing, and what it finds is
    true. *)
Lemma TxStatus_tells c ctx txID w : exists r w' new,
  Contract_TxStatus c ctx txID w = (r, w') /\ w_trace w' = w_trace w ++ new /\ honest (w_trace w) new
  /\ (forall t x res, EvSubmit t x res ∉ new)
  /\ (true_ledger new -> forall ts, r = inr ts -> Found ts = true -> (Valid ts = true <-> valid txID)).
Proof.
  destruct (TxStatus_run c ctx txID w) as (q & b & d & Hrun & Hq).
  destruct (truthful_TxStatus c ctx txID w) as (b' & Ht' & Hb'). rewrite Hrun in Ht'. simpl in Ht'.
  apply app_inv_head in Ht' as <-. set (obs := observed _ _ _ _ _ _) in *.
  assert (Hno : forall t x r, EvSubmit t x r ∉ b ++ obs).
  { intros t x r [Hin|Hin]%elem_of_app; [by apply (query_sends_nothing _ _ _ _ _ _ _ _ Hq) in Hin|].
    apply rpcs_elem in Hin; [|done]. unfold obs in Hin. rewrite rpcs_observed in Hin. by apply elem_of_nil in Hin. }
  do 3 eexists. split_and!; [done|done|done|done|]. intros Htl ts Hts Hf.
  assert (Hown : owned b /\ owned obs).
  { split; intros t x r Hin; destruct (Hno t x r); rewrite elem_of_app; tauto. }
  apply true_ledger_app in Htl as [Htl _]; [|tauto..|by eapply honest_ids].
  by apply (query_tells c ctx txID w q b ts).
Qed.

(** Resolving. *)
Lemma resolve_tells c ctx err w : exists new,
  w_trace (snd (resolve c ctx err w)) = w_trace w ++ new /\ honest (w_trace w) new /\ owned new
  /\ forall a, ids a = [TxIDOf (Some err)] -> NoDup (ids (a ++ new)) -> true_ledger new ->
     tells (fst (resolve c ctx err w)) (a ++ new).
Proof.
  set (txID := TxIDOf (Some err)).
  destruct (TxStatus_tells c ctx txID w) as (r & w' & new & Hrun & Ht & Hh & Hno & Htrue).
  unfold resolve. fold txID. rewrite (bind_run _ _ _ _ _ Hrun). exists new.
  split; [by destruct r|]. split; [done|]. split; [by intros t x res Hin%Hno|]. intros a Hida Hnd Htl.
  assert (Hdead : forall id, id ∈ ids new -> ~ valid id).
  { intros id Hid Hv. destruct (valid_sent _ Htl id Hid Hv) as (t & x & res & Hin & _). by apply Hno in Hin. }
  assert (Hdis : forall id, id ∈ ids new -> id ∉ ids a).
  { intros id Hb Ha. rewrite ids_app in Hnd. apply list.NoDup_app in Hnd as (_ & Hnd & _). by apply Hnd in Ha. }
  apply tells_before; [done..|].
  assert (Hunres : tells (unresolved err) a).
  { simpl. rewrite Hida. split; [by left|]. by intros id ->%elem_of_lit. }
  destruct r as [e|ts]; [exact Hunres|]. simpl. destruct (Found ts) eqn:Ef; [|exact Hunres].
  pose proof (Htrue Htl ts eq_refl Ef) as Hv. destruct (Valid ts); simpl; rewrite Hida.
  - split; [by left|]. intros id ->%elem_of_lit. by rewrite <- Hv.
  - intros id ->%elem_of_lit. by rewrite <- Hv.
Qed.

(** The caller's switch, whatever it does to retry. *)
Lemma attempt_then `{!GatewayErrors} c ctx fn opts (next : error -> M resolution) :
  (forall err, honestly tells (next err)) ->
  honestly tells (r ← Contract_SubmitWith c ctx fn opts;
    match r with
    | inr res => mret (committed (Result_TxID res))
    | inl err =>
        if IsAlreadyExists (Some err) then mret (already err)
        else if IsOutcomeUnknown (Some err) then resolve c ctx err
        else if IsRetryable (Some err) then next err
        else mret (gave_up err)
    end).
Proof.
  intros Hnext w. destruct (attempt_runs c ctx fn opts w) as (r & a & w1 & Hr & Ht & Hp & Ha & Hown).
  rewrite (bind_run _ _ _ _ _ Hr). pose proof (fun Htl => attempt_tells c ctx fn opts w r a _ Hp Ha Htl) as Hsays.
  destruct r as [err|res].
  2:{ exists a. split_and!; [done..|]. intros [Hid Hv]%Hsays. simpl. rewrite Hid.
      split; [by left|]. intros id ->%elem_of_lit. done. }
  assert (Hmore : forall (m : M resolution) new, w_trace (snd (m w1)) = w_trace w1 ++ new ->
    honest (w_trace w1) new -> owned new ->
    (true_ledger a -> true_ledger new -> NoDup (ids (a ++ new)) -> tells (fst (m w1)) (a ++ new)) ->
    exists new', w_trace (snd (m w1)) = w_trace w ++ new' /\ honest (w_trace w) new' /\ owned new'
      /\ (true_ledger new' -> tells (fst (m w1)) new')).
  { intros m new Hm Hn Ho Htells. exists (a ++ new).
    assert (Hh : honest (w_trace w) (a ++ new)) by (apply honest_app; by rewrite <- Ht).
    split; [by rewrite Hm, Ht, app_assoc|]. split; [done|]. split; [by apply owned_app|].
    intros Htl. destruct (honest_ids _ _ Hh) as [Hd _]. apply true_ledger_app in Htl as [H1 H2]; auto. }
  assert (Hstop : forall r, (true_ledger a -> tells r a) -> exists new', w_trace w1 = w_trace w ++ new'
    /\ honest (w_trace w) new' /\ owned new' /\ (true_ledger new' -> tells r new')) by (intros; by exists a).
  destruct (IsAlreadyExists (Some err)) eqn:Ee.
  { apply Hstop. destruct (IsOutcomeUnknown (Some err)) eqn:Eu; [|exact Hsays].
    by rewrite (submitted_unknown _ _ _ _ _ _ _ Hp Eu) in Ee. }
  destruct (IsOutcomeUnknown (Some err)) eqn:Eu.
  { destruct (resolve_tells c ctx err w1) as (new & Hn & Hh & Ho & Htells). by apply (Hmore _ new); auto. }
  destruct (IsRetryable (Some err)).
  - destruct (Hnext err w1) as (new & Hn & Hh & Ho & Htells). apply (Hmore _ new); [done..|].
    intros Ha1 Hn1 _. apply tells_after; auto.
  - apply Hstop. exact Hsays.
Qed.

Lemma resubmit_tells `{!GatewayErrors} c ctx fn opts n : honestly tells (resubmit c ctx fn opts n).
Proof.
  induction n as [|n IH]; apply attempt_then; intros err; [|exact IH].
  intros w. exists []. rewrite app_nil_r. split_and!; try done; [by intros ??? ?%elem_of_nil|by intros _ ? ?%elem_of_nil].
Qed.

(** C1. "Never resubmit blindly." A caller that follows the README (retry exactly
    when [IsRetryable] says so, resolve an unknown outcome with [TxStatus] and the
    error's transaction ID) never puts two of its transactions on the ledger,
    however often it submits, and what it learns is true: the transaction that it
    reports committed is the only valid one; after [IsAlreadyExists] or any error
    it gives up on, none is valid; and if it cannot resolve an unknown outcome,
    at most the transaction named by the error is. *)
Theorem resubmit_at_most_once `{!GatewayErrors} (c : Contract) (ctx : option Context) (fn : string)
    (opts : list CallOption) (n : nat) (w : World) :
  let '(r, w') := resubmit c ctx fn opts n w in
  exists new, w_trace w' = w_trace w ++ new
    /\ (true_ledger new ->
        tells r new
        /\ forall id1 id2, id1 ∈ ids new -> id2 ∈ ids new -> valid id1 -> valid id2 -> id1 = id2).
Proof.
  destruct (resubmit_tells c ctx fn opts n w) as (new & Ht & _ & _ & Htells).
  destruct (resubmit c ctx fn opts n w) as [r w']. simpl in *. exists new. split; [done|].
  intros Htl. specialize (Htells Htl). split; [done|]. intros id1 id2 H1 H2 Hv1 Hv2.
  destruct r as [txID|err|err|err]; simpl in Htells.
  - destruct Htells as [_ Hi]. apply Hi in Hv1 as ->; [|done]. by apply Hi in Hv2 as ->.
  - by apply Htells in H1.
  - by apply Htells in H1.
  - destruct Htells as [_ Hi]. by rewrite (Hi id1), (Hi id2).
Qed.

End ledger.
