(* ===== verification/Outbox.v ===== *)
(** * Submitting with an outbox: the protocol of [SubmitAsync]

    The comment on [PendingTx] (contract.go) and the README tell a service that
    must survive a crash to call [SubmitAsync], to store the transaction ID durably
    and only then to wait; after a restart it asks [TxStatus] about every row. Here
    a process of that service may be killed at any point. What the outbox, or the
    error that [SubmitAsync] returned, knows of the ledger is complete but for one
    window: between the orderer's acceptance and the row. *)

From S2P Require Import Prelude GoStrings GoRunes Errors Classify Observe World Identity Config Client Contract Transactions Views Lifecycle Resubmit.

(** Where a process stood when it ended: killed inside [SubmitAsync]; returned with
    its error; or with the row of its transaction stored. *)
Inductive left_behind :=
| submitting
| refused (err : error)
| stored_row (txID : string).

Section outbox.
Context `{X : X509Lib} `{E : Env} `{U : UnicodeTables} `{G : GrpcStatus} `{P : PeerCodes}
  `{L : LedgerProto}.

Section process.
Variables (c : Contract) (ctx : option Context) (fn : string) (opts : list CallOption).

(** The calls of a process that starts in a world, and what it leaves behind. A
    killed process leaves a prefix of its calls. *)
Inductive outbox_life (w : World) : trace -> left_behind -> Prop :=
| life_submitting r w1 a b :
    Contract_SubmitAsync c ctx fn opts w = (r, w1) -> w_trace w1 = w_trace w ++ a ++ b ->
    outbox_life w a submitting
| life_refused err w1 a :
    Contract_SubmitAsync c ctx fn opts w = (inl err, w1) -> w_trace w1 = w_trace w ++ a ->
    outbox_life w a (refused err)
| life_stored p w1 r w2 a b d :
    Contract_SubmitAsync c ctx fn opts w = (inr p, w1) -> w_trace w1 = w_trace w ++ a ->
    PendingTx_Wait p ctx w1 = (r, w2) -> w_trace w2 = w_trace w1 ++ b ++ d ->
    outbox_life w (a ++ b) (stored_row (Pending_TxID p)).

End process.

(** ** Lemmas *)

Variables (tx_id : Transaction -> string) (commit_id : Commit -> string) (valid : string -> Prop).
Context `{!TransactionIDs tx_id commit_id} `{!GatewayErrors}.

Lemma truthful_SubmitAsync c ctx fn opts : truthful (Contract_SubmitAsync c ctx fn opts).
Proof.
  unfold Contract_SubmitAsync, NewProposal, EndorseWithContext, SubmitWithContext. cbv zeta.
  repeat first [apply truthful_gateway | apply truthful_release | apply truthful_observe
    | apply truthful_withDefaultTimeout | progress solve_truthful].
Qed.

Lemma truthful_Wait p ctx : truthful (PendingTx_Wait p ctx).
Proof.
  unfold PendingTx_Wait, PendingTx_Release, StatusWithContext. cbv zeta.
  repeat first [apply truthful_release | apply truthful_observe
    | apply truthful_withDefaultTimeout | progress solve_truthful].
Qed.

(** A pending transaction: its ID is the one proposed, and the orderer accepted it. *)
Lemma pending_ids c ctx fn opts w p a : submit_path c ctx fn opts w (inr p) a ->
  ids a = [Pending_TxID p] /\ exists t x k, EvSubmit t x (inr k) ∈ a.
Proof.
  inversion 1; subst. unfold ids. views. split; [done|].
  do 3 eexists. apply rpcs_elem; [done|]. views. right. by left.
Qed.

Lemma wait_ids p ctx w r a : wait_path p ctx w r a -> ids a = [] /\ forall t x res, EvSubmit t x res ∉ a.
Proof.
  intros Hw. split; [inversion Hw; subst; unfold ids; by views|].
  intros t x res Hin%rpcs_elem; [|done]. revert Hin. inversion Hw; subst; views; by intros ?%elem_of_lit.
Qed.

Lemma submit_ids c ctx fn opts w r a : submit_path c ctx fn opts w r a -> (length (ids a) <= 1)%nat.
Proof. inversion 1; subst; unfold ids; views; simpl; lia. Qed.

(** What is sent was proposed before, so that a killed process sent nothing whose
    ID its calls do not show. *)
Lemma submit_sent c ctx fn opts w r a t x res : submit_path c ctx fn opts w r a ->
  EvSubmit t x res ∈ a -> honest (w_trace w) a ->
  exists before after, a = before ++ after /\ ids before = [tx_id t]
    /\ forall t' x' res', EvSubmit t' x' res' ∉ before.
Proof.
  intros Hp Hin Ha. apply rpcs_elem in Hin; [|done].
  assert (Hans : forall p y tx, EvEndorse p y (inr tx) ∈ a -> tx_id tx = Proposal_TransactionID p).
  { intros p y tx He. destruct (honest_elem _ _ _ Ha He) as [pre Hpre]. by eapply endorsed_id. }
  inversion Hp; subst; revert Hin; views; intros Hin; rewrite ?elem_of_cons, ?elem_of_nil in Hin;
    try (by destruct_or! Hin); destruct_or! Hin; simplify_eq.
  all: match type of Ha with honest _ (?a ++ ?l ++ ?o ++ ?rest) => exists (a ++ l ++ o), rest end.
  all: rewrite (Hans p ectx tx) by (rewrite !elem_of_app, !elem_of_cons; tauto).
  all: split; [by rewrite <- !app_assoc|]; unfold ids; views; split; [done|].
  all: intros t' x' res' Hin%rpcs_elem; [|done]; revert Hin; views; by intros ?%elem_of_lit.
Qed.

Lemma SubmitAsync_traced c ctx fn opts w r w1 a : Contract_SubmitAsync c ctx fn opts w = (r, w1) ->
  w_trace w1 = w_trace w ++ a -> submit_path c ctx fn opts w r a /\ honest (w_trace w) a.
Proof.
  intros Hs Ht. destruct (SubmitAsync_run c ctx fn opts w) as (r' & new & Hr & Hp).
  destruct (truthful_SubmitAsync c ctx fn opts w) as (new' & Ht' & Hh).
  rewrite Hs in *. simpl in Ht'. rewrite Ht in Ht'. apply app_inv_head in Ht' as <-.
  injection Hr as <- ->. by destruct r; apply app_inv_head in Ht as ->.
Qed.

Lemma submit_prefix_owned c ctx fn opts w r a b : submit_path c ctx fn opts w r (a ++ b) ->
  honest (w_trace w) (a ++ b) -> owned tx_id a.
Proof.
  intros Hp Hh t x res Hin. assert (Hab : EvSubmit t x res ∈ a ++ b) by (apply elem_of_app; by left).
  destruct (submit_sent _ _ _ _ _ _ _ _ _ _ Hp Hab Hh) as (l1 & l2 & Heq & Hid & Hno).
  apply app_eq_inv in Heq as [(k & -> & _)|(k & -> & _)].
  - rewrite ids_app, Hid. by left.
  - destruct (Hno t x res). apply elem_of_app. by left.
Qed.

(** The calls of a process, and what they tell when they are all that there is. *)
Lemma outbox_life_run c ctx fn opts w a s : outbox_life c ctx fn opts w a s ->
  honest (w_trace w) a /\ owned tx_id a /\ (length (ids a) <= 1)%nat /\
  match s with
  | submitting => True
  | refused err => submitted c ctx fn opts w (inl err) a
  | stored_row txID => ids a = [txID] /\ exists t x k, EvSubmit t x (inr k) ∈ a /\ tx_id t = txID
  end.
Proof.
  destruct 1 as [r w1 a b Hs Ht|err w1 a Hs Ht|p w1 r w2 a b d Hs Ht Hw Ht2];
    destruct (SubmitAsync_traced _ _ _ _ _ _ _ _ Hs Ht) as [Hp Hh]; pose proof (submit_ids _ _ _ _ _ _ _ Hp) as Hl.
  - pose proof (submit_prefix_owned _ _ _ _ _ _ _ _ Hp Hh). rewrite ids_app, length_app in Hl.
    apply honest_app in Hh as [Hh _]. split_and!; [done|done|lia|done].
  - split_and!; [done| |done|by constructor].
    apply (submit_prefix_owned c ctx fn opts w (inl err) a []); by rewrite app_nil_r.
  - destruct (pending_ids _ _ _ _ _ _ _ Hp) as [Hid (t & x & k & Hk)].
    assert (Ho : owned tx_id a) by (apply (submit_prefix_owned c ctx fn opts w (inr p) a []); by rewrite app_nil_r).
    destruct (Wait_run p ctx w1) as (r' & a2 & w3 & Hr3 & Ht3 & Hp3 & _). rewrite Hw in Hr3. simplify_eq.
    rewrite Ht2 in Ht3. apply app_inv_head in Ht3 as <-. apply wait_ids in Hp3 as [Hb Hno].
    rewrite ids_app in Hb. apply app_eq_nil in Hb as [Hb _].
    destruct (truthful_Wait p ctx w1) as (new & Ht4 & Hh4). rewrite Hw in Ht4. simpl in Ht4.
    rewrite Ht2 in Ht4. apply app_inv_head in Ht4 as <-. apply honest_app in Hh4 as [Hh4 _].
    rewrite ids_app, Hid, Hb. split_and!; [|  |done|done|].
    + apply honest_app. by rewrite <- Ht.
    + apply owned_app; [done|]. intros t' x' res Hin. destruct (Hno t' x' res). apply elem_of_app. by left.
    + exists t, x, k. split; [apply elem_of_app; by left|].
      specialize (Ho _ _ _ Hk). rewrite Hid in Ho. by apply elem_of_lit in Ho.
Qed.

(** What a process that ended in [s] with the calls [a] knows of a transaction that
    is valid on the ledger. *)
Definition accounts_for (a : trace) (s : left_behind) (id : string) : Prop :=
  match s with
  | submitting => exists t x r, EvSubmit t x r ∈ a /\ tx_id t = id
  | refused err => IsOutcomeUnknown (Some err) = true /\ TxIDOf (Some err) = id
  | stored_row txID => txID = id
  end.

Lemma outbox_life_tells c ctx fn opts w a s id : outbox_life c ctx fn opts w a s ->
  true_ledger tx_id commit_id valid a -> id ∈ ids a -> valid id -> accounts_for a s id.
Proof.
  intros (Hh & _ & _ & Hs)%outbox_life_run Htl Hid Hv. destruct s as [|err|txID].
  - destruct (valid_sent _ _ _ _ Htl id Hid Hv) as (t & x & r & Hin & Ht & _). by exists t, x, r.
  - pose proof (attempt_tells tx_id commit_id valid _ _ _ _ _ _ _ _ Hs Hh Htl) as Hsays. simpl in Hsays.
    simpl. destruct (IsOutcomeUnknown (Some err)); [|by apply Hsays in Hid].
    rewrite Hsays in Hid. by apply elem_of_lit in Hid.
  - destruct Hs as [Hs _]. rewrite Hs in Hid. by apply elem_of_lit in Hid.
Qed.

(** ** A service *)

(** The history of a service, from the trace [tr] on, with the calls and the end of
    each process that submitted. Between and beside the submissions it calls what
    it likes (it asks [TxStatus], evaluates, ...), but sends no transaction. Each
    process has a handle and a heap of its own. *)
Inductive service : trace -> trace -> list (trace * left_behind) -> Prop :=
| srv_start tr : service tr [] []
| srv_other tr q T ls :
    honest tr q -> (forall t x r, EvSubmit t x r ∉ q) -> service (tr ++ q) T ls ->
    service tr (q ++ T) ls
| srv_submit c ctx fn opts w a s T ls :
    outbox_life c ctx fn opts w a s -> service (w_trace w ++ a) T ls ->
    service (w_trace w) (a ++ T) ((a, s) :: ls).

(** Asking about a row is such a call. *)
Lemma srv_asks c ctx txID w : exists q, w_trace (snd (Contract_TxStatus c ctx txID w)) = w_trace w ++ q
  /\ forall T ls, service (w_trace w ++ q) T ls -> service (w_trace w) (q ++ T) ls.
Proof.
  destruct (TxStatus_tells tx_id commit_id valid c ctx txID w) as (r & w' & q & -> & Ht & Hh & Hno & _).
  exists q. split; [done|]. intros T ls. by apply srv_other.
Qed.

(** The outbox. *)
Definition rows (ls : list (trace * left_behind)) : list string :=
  omap (fun l => match snd l with stored_row txID => Some txID | _ => None end) ls.

Lemma service_run tr T ls : service tr T ls -> honest tr T /\ owned tx_id T.
Proof.
  induction 1 as [tr|tr q T ls Hq Hno _ [IHh IHo]|c ctx fn opts w a s T ls Ha _ [IHh IHo]].
  - split; [done|]. by intros t x r ?%elem_of_nil.
  - split; [by apply honest_app|]. apply owned_app; [|done]. by intros t x r Hin%Hno.
  - apply outbox_life_run in Ha as (Hh & Ho & _). split; [by apply honest_app|by apply owned_app].
Qed.

(** The ledger's promise about a history holds for its parts. *)
Lemma service_split tr a T ls : honest tr a -> owned tx_id a -> service (tr ++ a) T ls ->
  true_ledger tx_id commit_id valid (a ++ T) ->
  true_ledger tx_id commit_id valid a /\ true_ledger tx_id commit_id valid T.
Proof.
  intros Ha Ho [Hh HoT]%service_run Htl. apply (true_ledger_app tx_id commit_id valid); [done..| |done].
  apply (honest_ids tx_id commit_id valid tr). by apply honest_app.
Qed.

Lemma service_accounts tr T ls : service tr T ls -> true_ledger tx_id commit_id valid T ->
  forall id, id ∈ ids T -> valid id -> exists a s, (a, s) ∈ ls /\ id ∈ ids a /\ accounts_for a s id.
Proof.
  induction 1 as [tr|tr q T ls Hq Hno Hs IH|c ctx fn opts w a s T ls Ha Hs IH]; intros Htl id.
  - by intros ?%elem_of_nil.
  - assert (Hown : owned tx_id q) by by intros t x r Hin%Hno.
    destruct (service_split _ _ _ _ Hq Hown Hs Htl) as [Hql HTl]. rewrite ids_app, elem_of_app.
    intros [Hid|Hid] Hv; [|by apply IH].
    destruct (valid_sent _ _ _ _ Hql id Hid Hv) as (t & x & r & Hin & _). by apply Hno in Hin.
  - pose proof (outbox_life_run _ _ _ _ _ _ _ Ha) as (Hh & Ho & _).
    destruct (service_split _ _ _ _ Hh Ho Hs Htl) as [Hal HTl]. rewrite ids_app, elem_of_app.
    intros [Hid|Hid] Hv.
    + exists a, s. split; [by left|]. split; [done|]. by eapply outbox_life_tells.
    + destruct (IH HTl id Hid Hv) as (a' & s' & Hin & Hacc). exists a', s'. split; [by right|done].
Qed.

(** The rows are of transactions of the history, which the orderer accepted. *)
Lemma service_rows tr T ls : service tr T ls -> NoDup (rows ls)
  /\ forall txID, txID ∈ rows ls -> txID ∈ ids T /\ exists t x k, EvSubmit t x (inr k) ∈ T /\ tx_id t = txID.
Proof.
  induction 1 as [tr|tr q T ls Hq Hno Hs [IHd IH]|c ctx fn opts w a s T ls Ha Hs [IHd IH]].
  - split; [constructor|]. by intros ? ?%elem_of_nil.
  - split; [done|]. intros txID (Hid & t & x & k & Hk & Ht)%IH.
    rewrite ids_app, elem_of_app. split; [by right|]. exists t, x, k. rewrite elem_of_app. auto.
  - apply outbox_life_run in Ha as (Hh & Ho & _ & Hrow).
    assert (Hrest : forall txID, txID ∈ rows ls -> txID ∈ ids (a ++ T)
      /\ exists t x k, EvSubmit t x (inr k) ∈ a ++ T /\ tx_id t = txID).
    { intros txID (Hid & t & x & k & Hk & Ht)%IH. rewrite ids_app, elem_of_app. split; [by right|].
      exists t, x, k. rewrite elem_of_app. auto. }
    unfold rows. simpl. destruct s as [|err|txID]; [by split|by split|]. destruct Hrow as [Hid (t & x & k & Hk & Ht)].
    assert (Hin : txID ∈ ids a) by (rewrite Hid; by left). split.
    + constructor; [|exact IHd]. intros [HT _]%IH.
      apply service_run in Hs as [HhT _]. apply (honest_ids tx_id commit_id valid) in HhT as [_ Hfresh].
      apply Hfresh in HT. apply HT. rewrite ids_app, elem_of_app. by right.
    + intros txID' [->|Hrow]%elem_of_cons; [|by apply Hrest]. rewrite ids_app, elem_of_app. split; [by left|].
      exists t, x, k. rewrite elem_of_app. auto.
Qed.

(** ** The property *)

(** C3. "Store TxID durably before calling Wait, so a crash cannot lose track of it."
    A service of any number of processes, one after the other, each killed at any
    point, submits with an outbox. Every transaction of it that is valid on the
    ledger is accounted for by the process that made it: its ID is in the row
    stored; or it is the ID that the error of [SubmitAsync] carries, which then
    reports an unknown outcome; or the process was killed inside [SubmitAsync],
    after the transaction had been sent. No two rows are of the same transaction,
    each is of one that the orderer accepted, and when a later process asks
    [TxStatus] about it, what is found is the truth. *)
Theorem outbox_tracks (tr T : trace) (ls : list (trace * left_behind)) :
  service tr T ls ->
  NoDup (rows ls)
  /\ (true_ledger tx_id commit_id valid T -> forall id, id ∈ ids T -> valid id ->
      exists a s, (a, s) ∈ ls /\ id ∈ ids a /\
      match s with
      | submitting => exists t x r, EvSubmit t x r ∈ a /\ tx_id t = id
      | refused err => IsOutcomeUnknown (Some err) = true /\ TxIDOf (Some err) = id
      | stored_row txID => txID = id
      end)
  /\ (forall txID, txID ∈ rows ls ->
      txID ∈ ids T /\ (exists t x k, EvSubmit t x (inr k) ∈ T /\ tx_id t = txID)
      /\ forall (c : Contract) (ctx : option Context) (w : World),
        w_trace w = tr ++ T ->
        let '(r, w') := Contract_TxStatus c ctx txID w in
        exists new, w_trace w' = w_trace w ++ new
          /\ (true_ledger tx_id commit_id valid (T ++ new) -> forall ts, r = inr ts -> Found ts = true ->
              (Valid ts = true <-> valid txID))).
Proof.
  intros Hs. destruct (service_rows _ _ _ Hs) as [Hnd Hrows]. split; [done|].
  split; [exact (service_accounts _ _ _ Hs)|]. intros txID [Hid Hsent]%Hrows. split; [done|]. split; [done|].
  intros c ctx w Hw.
  destruct (TxStatus_tells tx_id commit_id valid c ctx txID w) as (r & w2 & new & -> & Ht & Hh & Hno & Htrue).
  exists new. split; [done|]. intros Htl. apply Htrue. destruct (service_run _ _ _ Hs) as [HhT HoT].
  apply (true_ledger_app tx_id commit_id valid T); [done|by intros t x res Hin%Hno| |done].
  apply (honest_ids tx_id commit_id valid tr). apply honest_app. by rewrite <- Hw.
Qed.

End outbox.
