(* ===== verification/Events.v ===== *)
(** * Event options, checkpoints, subscriptions and listeners (events.go)

    The listeners run for as long as their context lives, so they are programs
    with fuel: [None] means that the fuel ran out and the listener is still
    running; what a run has done so far is in its trace. A subscription's
    goroutine is modelled in Streams.v; here it is the channel that the listener
    reads. *)

From S2P Require Import Prelude GoStrings GoRunes Errors Classify Observe World Identity Config Client Contract.
Local Open Scope Z_scope.

(** ** Checkpointers *)

(** The interface. A checkpointer is an object with state; its answers are
    functions of what happened so far, its number tells objects apart. *)
Class Checkpointer := mkCheckpointer {
  cp_id : N;
  cp_BlockNumber : trace -> N;
  cp_TransactionID : trace -> string;
  cp_CheckpointBlock : trace -> N -> option error;
  cp_CheckpointTransaction : trace -> N -> string -> option error }.

(** The position it holds. *)
Definition position (cp : Checkpointer) (tr : trace) : N * string :=
  (cp_BlockNumber tr, cp_TransactionID tr).

(** What the interface's comments promise: a successful checkpoint sets the
    position, nothing else does. *)
Class CheckpointerOk (cp : Checkpointer) : Prop := {
  position_tx tr n tx :
    position cp (tr ++ [EvCheckpointTransaction cp_id n tx None]) = (n, tx);
  position_block tr n :
    position cp (tr ++ [EvCheckpointBlock cp_id n None]) = (n + 1, "")%N;
  position_other tr ev :
    (forall n tx, ev <> EvCheckpointTransaction cp_id n tx None) ->
    (forall n, ev <> EvCheckpointBlock cp_id n None) ->
    position cp (tr ++ [ev]) = position cp tr }.

(** fabric-gateway's [InMemoryCheckpointer] and [FileCheckpointer]. *)
Class InMemoryCheckpointer := {
  im_state : Type;
  im_zero : im_state;
  im_BlockNumber : im_state -> N;
  im_TransactionID : im_state -> string;
  im_CheckpointBlock : N -> im_state -> im_state;
  im_CheckpointTransaction : N -> string -> im_state -> im_state }.

Class InMemoryCheckpointerOk `{InMemoryCheckpointer} : Prop := {
  im_block n s : im_BlockNumber (im_CheckpointBlock n s) = (n + 1)%N
    /\ im_TransactionID (im_CheckpointBlock n s) = "";
  im_tx n tx s : im_BlockNumber (im_CheckpointTransaction n tx s) = n
    /\ im_TransactionID (im_CheckpointTransaction n tx s) = tx }.

Section memory.
Context `{IM : InMemoryCheckpointer}.

(** The state of [memoryCheckpointer] number [id] after a trace: its methods
    never fail, and each call reaches the wrapped object. *)
Definition memory_step (id : N) (s : im_state) (ev : Event) : im_state :=
  match ev with
  | EvCheckpointTransaction id' n tx None =>
      if bool_decide (id' = id) then im_CheckpointTransaction n tx s else s
  | EvCheckpointBlock id' n None => if bool_decide (id' = id) then im_CheckpointBlock n s else s
  | _ => s
  end.

Definition memory_state (id : N) (tr : trace) : im_state := foldl (memory_step id) im_zero tr.

Definition NewMemoryCheckpointer (id : N) : Checkpointer := {|
  cp_id := id;
  cp_BlockNumber tr := im_BlockNumber (memory_state id tr);
  cp_TransactionID tr := im_TransactionID (memory_state id tr);
  cp_CheckpointBlock _ _ := None;
  cp_CheckpointTransaction _ _ _ := None |}.

End memory.

(** [client.NewFileCheckpointer]; a [FileCheckpointer] has the methods of the
    object it embeds. *)
Definition NewFileCheckpointer (client_NewFileCheckpointer : string -> error + Checkpointer)
    (path : string) : error + Checkpointer :=
  match client_NewFileCheckpointer path with
  | inl err => inl (configError err)
  | inr cp => inr cp
  end.

(** ** Options *)

Record eventOptions := mkEventOptions {
  startBlock : option N;
  checkpoint : option Checkpointer;
  chaincode : string;
  minBackoff : Duration;
  maxBackoff : Duration }.

Definition EventOption := eventOptions -> eventOptions.

Definition FromBlock (blockNumber : N) : EventOption := fun o =>
  mkEventOptions (Some blockNumber) (checkpoint o) (chaincode o) (minBackoff o) (maxBackoff o).
Definition WithCheckpointer (cp : option Checkpointer) : EventOption := fun o =>
  mkEventOptions (startBlock o) cp (chaincode o) (minBackoff o) (maxBackoff o).
Definition ForChaincode (name : string) : EventOption := fun o =>
  mkEventOptions (startBlock o) (checkpoint o) name (minBackoff o) (maxBackoff o).
Definition RetryBackoff (min max : Duration) : EventOption := fun o =>
  mkEventOptions (startBlock o) (checkpoint o) (chaincode o) min max.

Definition Contract_eventOptions (c : Contract) (opts : list EventOption) : eventOptions :=
  let o := foldl (fun o opt => opt o)
             (mkEventOptions None None (c_chaincode c) Second (30 * Second)) opts in
  let min := if minBackoff o <=? 0 then Second else minBackoff o in
  let max := if maxBackoff o <? min then min else maxBackoff o in
  mkEventOptions (startBlock o) (checkpoint o) (chaincode o) min max.

(** ** Reconnecting *)

Definition reconnectable (err : error) : bool :=
  bool_decide (KindOf (Some err) ∉ [KindConfig; KindUnauthorized; KindInvalidArgument; KindNotFound]).

(** Arithmetic on [time.Duration], an int64. *)
Definition wrap64 (z : Z) : Z := (z + 2 ^ 63) mod 2 ^ 64 - 2 ^ 63.

Definition next_backoff (backoff max : Duration) : Duration := Z.min (wrap64 (backoff * 2)) max.

(** The error of a stream that the Gateway ended. *)
Definition streamClosed : error :=
  sdkError (mkError KindUnavailable SourceNetwork 503 (sentinel_text ErrStreamClosed) "" 0
    codes.OK [] false (Some (sentinelError ErrStreamClosed))).

(** ** The environment of subscriptions *)

(** Network, clock and caller code behind the listeners. [env_recv] is what a
    receive from a stream's channel gives: an event, or the end of the channel
    and whether both contexts were still active when it was closed (which is all
    the goroutine of Streams.v tells). *)
Class EventEnv := {
  env_ChaincodeEvents : trace -> Network -> Context -> string -> list EventsOption -> error + Upstream;
  env_BlockEvents : trace -> Network -> Context -> list EventsOption -> error + Upstream;
  env_recv : trace -> Upstream -> bool + GatewayEvent;
  env_recv_block : trace -> Upstream -> option Block;
  Block_Number : Block -> N;
  env_ctx_Err : trace -> Context -> option error;
  env_sleep : trace -> Context -> Duration -> bool }.

(** Handlers of the caller: what a call prints, and what it returns. *)
Definition EventHandler := trace -> ChaincodeEvent -> list Action * option error.
Definition BlockHandler := trace -> Block -> list Action * option error.

(** [EventStream], as its creator sees it. *)
Record EventStream := mkEventStream {
  s_upstream : Upstream; s_ctx : Context; s_release : option Gateway }.

(** The conversion of the goroutine. *)
Definition out_event (ev : GatewayEvent) : ChaincodeEvent :=
  mkChaincodeEvent (ge_BlockNumber ev) (ge_TransactionID ev) (ge_ChaincodeName ev)
    (ge_EventName ev) (ge_Payload ev).

Section events.
Context `{X : X509Lib} `{E : Env} `{U : UnicodeTables} `{G : GrpcStatus} `{P : PeerCodes}
  `{EE : EventEnv}.

Definition call_ChaincodeEvents (n : Network) (ctx : Context) (chaincode : string)
    (opts : list EventsOption) : M (error + Upstream) :=
  outside (fun tr => env_ChaincodeEvents tr n ctx chaincode opts)
    (fun r => EvChaincodeEvents n ctx chaincode opts (result_opt r)).
Definition call_BlockEvents (n : Network) (ctx : Context) (opts : list EventsOption)
    : M (error + Upstream) :=
  outside (fun tr => env_BlockEvents tr n ctx opts) (fun r => EvBlockEvents n ctx opts (result_opt r)).
Definition recv (u : Upstream) : M (bool + GatewayEvent) :=
  outside (fun tr => env_recv tr u) (fun r => EvRecv u (result_opt r)).
Definition recv_block (u : Upstream) : M (option Block) :=
  outside (fun tr => env_recv_block tr u) (fun r => EvRecvBlock u r).
Definition call_handle (handle : EventHandler) (ev : ChaincodeEvent) : M (option error) :=
  r ← outside (fun tr => handle tr ev) (fun r => EvHandle ev (fst r) (snd r));
  mret (snd r).
Definition call_handle_block (handle : BlockHandler) (b : Block) : M (option error) :=
  r ← outside (fun tr => handle tr b) (fun r => EvHandleBlock b (fst r) (snd r));
  mret (snd r).
Definition CheckpointTransaction (cp : Checkpointer) (n : N) (tx : string) : M (option error) :=
  outside (fun tr => cp_CheckpointTransaction tr n tx) (fun r => EvCheckpointTransaction cp_id n tx r).
Definition CheckpointBlock (cp : Checkpointer) (n : N) : M (option error) :=
  outside (fun tr => cp_CheckpointBlock tr n) (fun r => EvCheckpointBlock cp_id n r).
Definition ctx_Err (ctx : Context) : M (option error) := tr ← get_trace; mret (env_ctx_Err tr ctx).
Definition sleepCtx (ctx : Context) (d : Duration) : M bool :=
  outside (fun tr => env_sleep tr ctx d) (fun r => EvSleep ctx d r).

(** The options passed to fabric-gateway, read in this trace. *)
Definition start_options (start : option N) (cp : option Checkpointer) (tr : trace)
    : list EventsOption :=
  (match start with Some n => [WithStartBlock n] | None => [] end)
  ++ (match cp with
      | Some cp => [WithCheckpoint (fst (position cp tr)) (snd (position cp tr))]
      | None => []
      end).

(** ** One subscription *)

Definition Contract_ChaincodeEvents (c : Contract) (ctx : Context) (opts : list EventOption)
    : M (error + EventStream) :=
  let o := Contract_eventOptions c opts in
  g ← Contract_gateway c;
  match g with
  | inl err => mret (inl err)
  | inr (gw, rel) =>
    let sctx := WithCancel ctx in
    tr ← get_trace;
    let gopts := start_options (startBlock o) (checkpoint o) tr in
    upstream ← call_ChaincodeEvents (GetNetwork gw (c_channel c)) sctx (chaincode o) gopts;
    match upstream with
    | inl err =>
        _ ← cancel sctx;
        _ ← release rel;
        mret (inl (classified err "" phaseEvaluate true))
    | inr u => mret (inr (mkEventStream u sctx rel))
    end
  end.

Definition FabricClient_Events (fc : FabricClient) := Contract_ChaincodeEvents (FabricClient_Contract fc).

(** [Close] of a stream. *)
Definition EventStream_Close (s : EventStream) : M unit := cancel (s_ctx s).

(** ** The chaincode event listener *)

(** How the loop over a stream ends: the listener returns an error, the stream
    ended (with its error and the backoff to use next), or the fuel ran out. *)
Inductive consumed :=
| stopped (err : error)
| ended (err : option error) (backoff : Duration)
| out_of_fuel.

Section listener.
Variables (c : Contract) (ctx : Context).

(** [for ev := range stream.Events()]. *)
Fixpoint consume (n : nat) (cp : Checkpointer) (handle : EventHandler) (o : eventOptions)
    (s : EventStream) (backoff : Duration) : M consumed :=
  match n with
  | O => mret out_of_fuel
  | S n =>
    r ← recv (s_upstream s);
    match r with
    | inl active => mret (ended (if (active : bool) then Some streamClosed else None) backoff)
    | inr ge =>
      let ev := out_event ge in
      herr ← call_handle handle ev;
      match herr with
      | Some herr => _ ← EventStream_Close s; mret (stopped herr)
      | None =>
        cerr ← CheckpointTransaction cp (Event_BlockNumber ev) (Event_TxID ev);
        match cerr with
        | Some cerr => _ ← EventStream_Close s; mret (stopped cerr)
        | None => consume n cp handle o s (minBackoff o)
        end
      end
    end
  end.

(** What follows a session, shared by the two listeners: stop, or sleep and go on
    with the next backoff ([inr]). *)
Definition after_session (msg : string) (kv : list logValue) (cp : Checkpointer) (o : eventOptions)
    (err : option error) (backoff : Duration) : M (option error + Duration) :=
  if match err with Some e => negb (reconnectable e) | None => false end then mret (inl err)
  else
    tr ← get_trace;
    _ ← log_error (fc_Logger (c_fc c)) msg
          (kv ++ [logString "block"; logUint (fst (position cp tr));
                  logString "retryIn"; logDuration backoff]);
    elapsed ← sleepCtx ctx backoff;
    if elapsed : bool then mret (inr (next_backoff backoff (maxBackoff o)))
    else mret (inl None).

Fixpoint listen (n : nat) (cp : Checkpointer) (handle : EventHandler) (opts : list EventOption)
    (o : eventOptions) (backoff : Duration) : M (option (option error)) :=
  match n with
  | O => mret None
  | S n =>
    s ← Contract_ChaincodeEvents c ctx opts;
    r ← match s with
        | inl err => mret (ended (Some err) backoff)
        | inr stream => consume n cp handle o stream backoff
        end;
    match r with
    | out_of_fuel => mret None
    | stopped err => mret (Some (Some err))
    | ended err backoff =>
      done ← ctx_Err ctx;
      match done with
      | Some _ => mret (Some None)
      | None =>
        next ← after_session "fabricsdk: chaincode event stream ended; reconnecting"
                 [logString "chaincode"; logString (chaincode o)] cp o err backoff;
        match next with
        | inl r => mret (Some r)
        | inr backoff => listen n cp handle opts o backoff
        end
      end
    end
  end.

(** A nil checkpointer or handler is [None]. *)
Definition Contract_ListenChaincodeEvents (n : nat) (cp : option Checkpointer)
    (handle : option EventHandler) (opts : list EventOption) : M (option (option error)) :=
  match cp, handle with
  | Some cp, Some handle =>
      let o := Contract_eventOptions c opts in
      listen n cp handle (opts ++ [WithCheckpointer (Some cp)]) o (minBackoff o)
  | _, _ =>
      mret (Some (Some (configError
        (errorString "ListenChaincodeEvents needs a checkpointer and a handler"))))
  end.

(** ** The block listener *)

(** How a block session ends: with an error (or none) and the backoff, or the
    fuel ran out. *)
Fixpoint consume_blocks (n : nat) (cp : Checkpointer) (handle : BlockHandler) (o : eventOptions)
    (u : Upstream) (backoff : Duration) : M (option (option error * Duration)) :=
  match n with
  | O => mret None
  | S n =>
    r ← recv_block u;
    match r with
    | None => mret (Some (None, backoff))
    | Some block =>
      herr ← call_handle_block handle block;
      match herr with
      | Some herr => mret (Some (Some (handlerError herr), backoff))
      | None =>
        cerr ← CheckpointBlock cp (Block_Number block);
        match cerr with
        | Some cerr => mret (Some (Some (handlerError cerr), backoff))
        | None => consume_blocks n cp handle o u (minBackoff o)
        end
      end
    end
  end.

Definition blockSession (n : nat) (cp : Checkpointer) (handle : BlockHandler) (o : eventOptions)
    (backoff : Duration) : M (option (option error * Duration)) :=
  g ← Contract_gateway c;
  match g with
  | inl err => mret (Some (Some err, backoff))
  | inr (gw, rel) =>
    let sctx := WithCancel ctx in
    tr ← get_trace;
    let gopts := start_options (startBlock o) (Some cp) tr in
    blocks ← call_BlockEvents (GetNetwork gw (c_channel c)) sctx gopts;
    r ← match blocks with
        | inl err => mret (Some (Some (classified err "" phaseEvaluate true), backoff))
        | inr u => consume_blocks n cp handle o u backoff
        end;
    match r with
    | None => mret None
    | Some r => _ ← cancel sctx; _ ← release rel; mret (Some r)
    end
  end.

Fixpoint listen_blocks (n : nat) (cp : Checkpointer) (handle : BlockHandler) (o : eventOptions)
    (backoff : Duration) : M (option (option error)) :=
  match n with
  | O => mret None
  | S n =>
    r ← blockSession n cp handle o backoff;
    match r with
    | None => mret None
    | Some (err, backoff) =>
      done ← ctx_Err ctx;
      match done with
      | Some _ => mret (Some None)
      | None =>
        match errors_As is_handler err with
        | Some herr => mret (Some (Some herr))
        | None =>
          next ← after_session "fabricsdk: block stream ended; reconnecting" [] cp o err backoff;
          match next with
          | inl r => mret (Some r)
          | inr backoff => listen_blocks n cp handle o backoff
          end
        end
      end
    end
  end.

Definition Contract_ListenBlocks (n : nat) (cp : option Checkpointer)
    (handle : option BlockHandler) (opts : list EventOption) : M (option (option error)) :=
  match cp, handle with
  | Some cp, Some handle =>
      let o := Contract_eventOptions c opts in
      listen_blocks n cp handle o (minBackoff o)
  | _, _ =>
      mret (Some (Some (configError (errorString "ListenBlocks needs a checkpointer and a handler"))))
  end.

End listener.

Definition FabricClient_ListenChaincodeEvents (fc : FabricClient) :=
  Contract_ListenChaincodeEvents (FabricClient_Contract fc).
Definition FabricClient_ListenBlocks (fc : FabricClient) :=
  Contract_ListenBlocks (FabricClient_Contract fc).

End events.
