(* ===== verification/Positions.v ===== *)
(** * Positions of a listener

    What a trace shows of a listener (what reached its handler, what it recorded,
    how long it slept), where the ledger's events are, and what fabric-gateway
    delivers at a position. Listeners.v, Blocks.v and the files after them share
    these views. *)

From S2P Require Import Prelude GoStrings GoRunes Errors Classify Observe World Identity Config Client Contract Transactions Views Events.
Local Open Scope Z_scope.

(** ** Views of a listener's trace *)

Definition handled_of (ev : Event) : option ChaincodeEvent :=
  match ev with EvHandle e _ _ => Some e | _ => None end.
Definition handled_block_of (ev : Event) : option Block :=
  match ev with EvHandleBlock b _ _ => Some b | _ => None end.
(** The calls of handlers and checkpointers, with their results, in the order in
    which they were made. *)
Definition listener_call_of (ev : Event) : option Event :=
  match ev with
  | EvHandle _ _ _ | EvHandleBlock _ _ _ | EvCheckpointTransaction _ _ _ _ | EvCheckpointBlock _ _ _ => Some ev
  | _ => None
  end.

(** The calls of a listener, by kind and by how they ended. *)
Ltac event_cases ev :=
  destruct ev as [| | | | | | | | | | | | | |????[]|???[]|?[]|?[]|??[]|??[]|???[]|??[]|].

Definition handled : trace -> list ChaincodeEvent := omap handled_of.
Definition handled_blocks : trace -> list Block := omap handled_block_of.
Definition listener_calls : trace -> trace := omap listener_call_of.

Definition sleep_of (ev : Event) : option Duration :=
  match ev with EvSleep _ d _ => Some d | _ => None end.
Definition sleeps : trace -> list Duration := omap sleep_of.

Lemma sleeps_app a b : sleeps (a ++ b) = sleeps a ++ sleeps b.
Proof. apply omap_app. Qed.

Definition event_pos (ev : ChaincodeEvent) : N * string := (Event_BlockNumber ev, Event_TxID ev).

(** Calls that neither reach the handler nor move the position nor a stream. *)
Definition neutral (ev : Event) : bool :=
  match ev with
  | EvHandle _ _ _ | EvHandleBlock _ _ _ | EvCheckpointTransaction _ _ _ _ | EvCheckpointBlock _ _ _
  | EvRecv _ (Some _) | EvRecvBlock _ (Some _) | EvChaincodeEvents _ _ _ _ (Some _)
  | EvBlockEvents _ _ _ (Some _) => false
  | _ => true
  end.

(** ** What the Gateway delivers *)

(** The subscription open at the end of a trace: its options and how many events
    it has delivered. *)
Definition cursor_step (c : option (list EventsOption * nat)) (ev : Event)
    : option (list EventsOption * nat) :=
  match ev with
  | EvChaincodeEvents _ _ _ opts (Some _) | EvBlockEvents _ _ opts (Some _) => Some (opts, O)
  | EvRecv _ (Some _) | EvRecvBlock _ (Some _) => (fun '(o, k) => (o, S k)) <$> c
  | _ => c
  end.
Definition cursor (tr : trace) : option (list EventsOption * nat) := foldl cursor_step None tr.

(** The position options ask for: a checkpoint that is set, else a start block. *)
Definition wanted (opts : list EventsOption) : option (N * string) :=
  match first_some (fun o => match o with
                             | WithCheckpoint b t => if decide ((b, t) = (0%N, "")) then None else Some (b, t)
                             | _ => None end) opts with
  | Some p => Some p
  | None => first_some (fun o => match o with WithStartBlock n => Some (n, "") | _ => None end) opts
  end.

Section ledger.
Variable ledger : list GatewayEvent.

Definition event_id (e : GatewayEvent) : N * string := (ge_BlockNumber e, ge_TransactionID e).

(** The index in the ledger at which a position starts: after the transaction, or
    at the first event of the block or a later one. *)
Fixpoint before_block (b : N) (l : list GatewayEvent) : nat :=
  match l with
  | e :: l' => if (b <=? ge_BlockNumber e)%N then O else S (before_block b l')
  | [] => O
  end.
Definition index_of (p : N * string) : nat :=
  if decide (snd p = "") then before_block (fst p) ledger
  else match list_find (fun e => event_id e = p) ledger with
       | Some (i, _) => S i
       | None => before_block (fst p) ledger
       end.

(** Documented behaviour of fabric-gateway: a subscription with a position
    delivers the ledger's events from there, in order. *)
Class Delivers `{EE : EventEnv} : Prop :=
  delivered tr u ge : env_recv tr u = inr ge ->
    exists opts k, cursor tr = Some (opts, k)
      /\ forall p, wanted opts = Some p -> ledger !! (index_of p + k)%nat = Some ge.

(** A transaction has an ID and at most one chaincode event. *)
Record wf_ledger : Prop := {
  wf_ids : NoDup (event_id <$> ledger);
  wf_tx : Forall (fun e => ge_TransactionID e <> "") ledger }.

Lemma index_of_event j e : wf_ledger -> ledger !! j = Some e -> index_of (event_id e) = S j.
Proof.
  intros [Hid Htx] Hj. unfold index_of.
  assert (snd (event_id e) <> "") by (apply (proj1 (list.Forall_forall _ _) Htx e); by eapply list_elem_of_lookup_2).
  rewrite decide_False by done.
  destruct (list_find _ ledger) as [[i e']|] eqn:Ef.
  - apply list_find_Some in Ef as (Hi & He & _). f_equal.
    apply (NoDup_lookup (event_id <$> ledger) i j (event_id e)); [done|..].
    + by rewrite list_lookup_fmap, Hi, <- He.
    + by rewrite list_lookup_fmap, Hj.
  - apply list_find_None in Ef. exfalso.
    apply (proj1 (list.Forall_forall _ _) Ef e); [by eapply list_elem_of_lookup_2|done].
Qed.

End ledger.

(** ** The views and the position over pieces of a trace *)

Section pieces.
Context (cp : Checkpointer) `{!CheckpointerOk cp}.

Lemma handled_app a b : handled (a ++ b) = handled a ++ handled b.
Proof. apply omap_app. Qed.
Lemma handled_blocks_app a b : handled_blocks (a ++ b) = handled_blocks a ++ handled_blocks b.
Proof. apply omap_app. Qed.
Lemma listener_calls_app a b : listener_calls (a ++ b) = listener_calls a ++ listener_calls b.
Proof. apply omap_app. Qed.

Lemma neutral_views evs : forallb neutral evs = true ->
  handled evs = [] /\ handled_blocks evs = [] /\ listener_calls evs = [].
Proof.
  induction evs as [|ev evs IH]; simpl; [done|]. intros [Hn H]%andb_true_iff.
  destruct (IH H) as (H1 & H2 & H3). destruct ev; done.
Qed.

Lemma position_neutral tr evs : forallb neutral evs = true ->
  position cp (tr ++ evs) = position cp tr.
Proof.
  revert tr. induction evs as [|ev evs IH]; intros tr; simpl; [by rewrite app_nil_r|].
  intros [Hn H]%andb_true_iff. rewrite cons_middle, app_assoc, IH by done.
  apply position_other; intros; by intros ->.
Qed.

Lemma cursor_app tr evs : cursor (tr ++ evs) = foldl cursor_step (cursor tr) evs.
Proof. apply foldl_app. Qed.

Lemma cursor_neutral tr evs : forallb neutral evs = true -> cursor (tr ++ evs) = cursor tr.
Proof.
  rewrite cursor_app. generalize (cursor tr) as c. induction evs as [|ev evs IH]; intros c; [done|].
  simpl. intros [Hn H]%andb_true_iff. rewrite IH by done. by event_cases ev.
Qed.

Lemma neutral_acquires `{Env} c w r a : acquires c w r a -> forallb neutral a = true.
Proof. by destruct 1. Qed.

Lemma neutral_closes rel : forallb neutral (closes rel) = true.
Proof. by destruct rel. Qed.

Lemma neutral_logs ls : forallb neutral (EvLog <$> ls) = true.
Proof. by induction ls. Qed.

Lemma neutral_app a b : forallb neutral (a ++ b) = forallb neutral a && forallb neutral b.
Proof. apply forallb_app. Qed.

End pieces.

(** ** Calls of a handler *)

Section handlers.
Context `{EE : EventEnv}.

(** A call of a handler, as one event of the trace. *)
Lemma call_handle_run handle ev w : call_handle handle ev w =
  (snd (handle (w_trace w) ev),
   push [EvHandle ev (fst (handle (w_trace w) ev)) (snd (handle (w_trace w) ev))] w).
Proof. done. Qed.
Lemma call_handle_block_run handle b w : call_handle_block handle b w =
  (snd (handle (w_trace w) b),
   push [EvHandleBlock b (fst (handle (w_trace w) b)) (snd (handle (w_trace w) b))] w).
Proof. done. Qed.

End handlers.

Ltac run_handle :=
  first [erewrite bind_run by apply call_handle_run | erewrite bind_run by apply call_handle_block_run];
  rewrite ?push_push, <- ?app_assoc; cbv beta.

(** ** Opening and reading *)

Section runs.
Context `{X : X509Lib} `{E : Env} `{U : UnicodeTables} `{G : GrpcStatus} `{P : PeerCodes}
  `{EE : EventEnv}.

(** Opening a subscription: it fails without a trace on position or streams, or
    the stream is open at the options read now. *)
Lemma ChaincodeEvents_run c ctx opts w :
  let o := Contract_eventOptions c opts in
  exists r a, Contract_ChaincodeEvents c ctx opts w = (r, push a w)
    /\ match r with
       | inl err => forallb neutral a = true
       | inr s => exists a1 n, a = a1 ++ [EvChaincodeEvents n (WithCancel ctx) (chaincode o)
             (start_options (startBlock o) (checkpoint o) (w_trace w ++ a1)) (Some (s_upstream s))]
           /\ forallb neutral a1 = true /\ s_ctx s = WithCancel ctx
           /\ opened a1 = option_list (s_release s)
       end
    /\ closed a = match r with inl _ => opened a | inr _ => [] end
    /\ sleeps a = [].
Proof.
  intros o. destruct (gateway_run c w) as (r & a & Hg & Ha). unfold Contract_ChaincodeEvents.
  rewrite (bind_run _ _ _ _ _ Hg).
  pose proof (neutral_acquires _ _ _ _ Ha) as Hn. pose proof (acquires_closed _ _ _ _ Ha) as Hc.
  assert (Hsl : sleeps a = []) by by apply (acquires_ignored _ _ _ _ _ Ha).
  destruct r as [err|[gw rel]].
  { exists (inl err), a. split_and!; [done|done|by rewrite Hc, (acquires_opened_inl _ _ _ _ Ha)|done]. }
  pose proof (acquires_opened_inr _ _ _ _ _ Ha) as Ho.
  rewrite (bind_run get_trace _ _ _ _ eq_refl). unfold call_ChaincodeEvents. run_step.
  fold o. destruct (env_ChaincodeEvents _ _ _ _ _) as [err|u].
  - repeat run_step. eexists (inl _), _. split_and!; [done| | |].
    + by rewrite !neutral_app, Hn, neutral_closes.
    + by views.
    + rewrite !sleeps_app, Hsl. by destruct rel.
  - eexists (inr _), _. split_and!; [done| |by views|by rewrite sleeps_app, Hsl].
    exists a. eexists. split_and!; [done|done|done|done].
Qed.

(** Between two sessions: nothing reaches the handler or the position. *)
Lemma after_session_run c ctx msg kv cp o err backoff w : exists r a,
  after_session c ctx msg kv cp o err backoff w = (r, push a w) /\ forallb neutral a = true.
Proof.
  unfold after_session. destruct (match err with Some _ => _ | None => _ end).
  { exists (inl err), []. by rewrite push_nil. }
  unfold sleepCtx. do 3 run_step.
  destruct (env_sleep _ _ _); do 2 eexists; (split; [done|]); by rewrite neutral_app, neutral_logs.
Qed.

(** Appending the listener's checkpointer changes nothing else. *)
Lemma eventOptions_checkpoint c opts cp :
  let o := Contract_eventOptions c opts in
  Contract_eventOptions c (opts ++ [WithCheckpointer cp])
  = mkEventOptions (startBlock o) cp (chaincode o) (minBackoff o) (maxBackoff o).
Proof. intros o. unfold o, Contract_eventOptions. by rewrite foldl_app. Qed.

End runs.
