(* ===== verification/Protocol.v ===== *)
(** * The protocol of a listener, and what it means over crashes and restarts

    Both listeners of events.go do the same thing on different data: open a
    subscription at the recorded position, receive an item, hand it to the
    handler, record it, and so on. Here that is an abstract machine ([step])
    over an interface: a [Feed] says which calls are which actions and what is
    stored where, a [Keeper] what a checkpointer promises about positions.
    Listeners.v and Blocks.v show that the programs implement the machine. The
    machine's consequences are proved once, for every feed: what is handled, and
    what a process that is killed at any point and started again handles. *)

From S2P Require Import Prelude GoStrings GoRunes Errors Classify Observe World Identity Config Client Contract Transactions Views Events Positions.

(** ** The interface of a feed *)

(** What a call is to a listener. [Foreign]: a call of the other listener. *)
Inductive action (item : Type) :=
| Quiet
| Open (opts : list EventsOption)
| Receive (i : item)
| Hand (i : item) (r : option error)
| Record (p : N * string) (r : option error)
| Foreign.
Arguments Quiet {item}.
Arguments Open {item}.
Arguments Receive {item}.
Arguments Hand {item}.
Arguments Record {item}.
Arguments Foreign {item}.

(** Items, the calls of a trace as actions on them, the item stored at an index
    of the feed, what a checkpoint of an item names, and the index at which a
    position starts. *)
Class Feed := mkFeed {
  item : Type;
  item_eq :: EqDecision item;
  action_of : Event -> action item;
  stored : nat -> option item;
  item_pos : item -> N * string;
  index : N * string -> nat;
  action_neutral ev : neutral ev = true -> action_of ev = Quiet }.

(** No item is stored twice. *)
Class Distinct (F : Feed) : Prop :=
  stored_inj i j x : stored i = Some x -> stored j = Some x -> i = j.

(** ** The machine *)

Section machine.
Context {F : Feed}.

(** Where a listener is: nothing in hand and item [j] next, item [j] received,
    accepted by the handler, refused by it, or accepted but not recorded; the
    last two are ends. *)
Inductive pstate :=
| At (j : nat)
| Got (j : nat) (i : item)
| Applied (j : nat) (i : item)
| Refused (j : nat)
| Unrecorded (j : nat).

Inductive step : pstate -> action item -> pstate -> Prop :=
| st_quiet s : step s Quiet s
| st_open j opts p : wanted opts = Some p -> index p = j -> step (At j) (Open opts) (At j)
| st_receive j i : stored j = Some i -> step (At j) (Receive i) (Got j i)
| st_apply j i : step (Got j i) (Hand i None) (Applied j i)
| st_refuse j i e : step (Got j i) (Hand i (Some e)) (Refused j)
| st_record j i : step (Applied j i) (Record (item_pos i) None) (At (S j))
| st_unrecorded j i e : step (Applied j i) (Record (item_pos i) (Some e)) (Unrecorded j).

(** From [At j], a trace leads to a state. *)
Inductive run (j : nat) : trace -> pstate -> Prop :=
| run_nil : run j [] (At j)
| run_snoc tr s ev s' : run j tr s -> step s (action_of ev) s' -> run j (tr ++ [ev]) s'.

Lemma run_app j k a b s : run j a (At k) -> run k b s -> run j (a ++ b) s.
Proof.
  intros Ha Hb. induction Hb as [|b s ev s' _ IH Hs]; [by rewrite app_nil_r|].
  rewrite app_assoc. by econstructor.
Qed.

Lemma run_one j ev s : step (At j) (action_of ev) s -> run j [ev] s.
Proof. intros Hs. apply (run_snoc j [] (At j)); [constructor|done]. Qed.

Lemma run_quiet j tr s q : run j tr s -> forallb neutral q = true -> run j (tr ++ q) s.
Proof.
  intros Hr. induction q as [|ev q IH] using rev_ind; [by rewrite app_nil_r|].
  rewrite neutral_app, app_assoc. simpl. intros [H1 [H2 _]%andb_true_iff]%andb_true_iff.
  econstructor; [by apply IH|]. rewrite action_neutral by done. constructor.
Qed.

Lemma run_neutral j q : forallb neutral q = true -> run j q (At j).
Proof. apply (run_quiet j [] (At j) q (run_nil j)). Qed.

(** The ways of one item, with calls that follow. *)
Section item.
Variables (j : nat) (i : item) (e1 e2 e3 : Event) (q : trace).
Hypotheses (Hi : stored j = Some i) (H1 : action_of e1 = Receive i) (Hq : forallb neutral q = true).

Lemma run_received : run j [e1] (Got j i).
Proof. apply run_one. rewrite H1. by constructor. Qed.

Lemma run_refused err : action_of e2 = Hand i (Some err) -> run j (e1 :: e2 :: q) (Refused j).
Proof.
  intros H2. apply (run_quiet j [e1; e2]); [|done].
  apply (run_snoc _ [e1] _ _ _ run_received). rewrite H2. constructor.
Qed.

Lemma run_applied : action_of e2 = Hand i None -> run j [e1; e2] (Applied j i).
Proof. intros H2. apply (run_snoc _ [e1] _ _ _ run_received). rewrite H2. constructor. Qed.

Lemma run_unrecorded err : action_of e2 = Hand i None -> action_of e3 = Record (item_pos i) (Some err) ->
  run j (e1 :: e2 :: e3 :: q) (Unrecorded j).
Proof.
  intros H2 H3. apply (run_quiet j [e1; e2; e3]); [|done].
  apply (run_snoc _ [e1; e2] _ _ _ (run_applied H2)). rewrite H3. constructor.
Qed.

Lemma run_recorded tr s : action_of e2 = Hand i None -> action_of e3 = Record (item_pos i) None ->
  run (S j) tr s -> run j (e1 :: e2 :: e3 :: tr) s.
Proof.
  intros H2 H3 Hr. apply (run_app j (S j) [e1; e2; e3]); [|done].
  apply (run_snoc _ [e1; e2] _ _ _ (run_applied H2)). rewrite H3. constructor.
Qed.

End item.

Lemma run_opened j ev opts p : action_of ev = Open opts -> wanted opts = Some p -> index p = j ->
  run j [ev] (At j).
Proof. intros Ha Hp Hj. apply run_one. rewrite Ha. by eapply st_open. Qed.

(** A killed process leaves a prefix. *)
Lemma run_prefix j a b s : run j (a ++ b) s -> exists s', run j a s'.
Proof.
  revert s. induction b as [|ev b IH] using rev_ind; intros s Hr.
  { rewrite app_nil_r in Hr. by exists s. }
  rewrite app_assoc in Hr. inversion Hr as [Hnil|tr s0 ev' s' H0 _ Htr]; [by destruct (a ++ b)|].
  apply app_inj_tail in Htr as [-> _]. eauto.
Qed.

(** The item in hand is the one stored at the state's index. *)
Lemma run_in_hand j tr s : run j tr s ->
  match s with Got k i | Applied k i => stored k = Some i | _ => True end.
Proof. induction 1 as [|tr s ev s' _ IH Hs]; [done|]. by inversion Hs; subst. Qed.

(** What the handler was given, and what it accepted. *)
Definition handed_item (a : action item) : option item :=
  match a with Hand i _ => Some i | _ => None end.
Definition applied_item (a : action item) : option item :=
  match a with Hand i None => Some i | _ => None end.
Definition handed (tr : trace) : list item := omap (fun ev => handed_item (action_of ev)) tr.
Definition applied (tr : trace) : list item := omap (fun ev => applied_item (action_of ev)) tr.

Lemma handed_app a b : handed (a ++ b) = handed a ++ handed b.
Proof. apply omap_app. Qed.
Lemma applied_app a b : applied (a ++ b) = applied a ++ applied b.
Proof. apply omap_app. Qed.

(** [l] is what the feed holds from index [j] on. *)
Definition located (j : nat) (l : list item) : Prop :=
  forall k x, l !! k = Some x -> stored (j + k) = Some x.

Lemma located_nil j : located j [].
Proof. intros k x H. by rewrite lookup_nil in H. Qed.

Lemma located_app j a b : located j (a ++ b) <-> located j a /\ located (j + length a) b.
Proof.
  split.
  - intros H. split; intros k x Hx.
    + apply H. by apply lookup_app_l_Some.
    + rewrite <- Nat.add_assoc. apply H. rewrite lookup_app_r by lia. by rewrite Nat.add_comm, Nat.add_sub.
  - intros [Ha Hb] k x [Hx|[Hl Hx]]%lookup_app_Some; [by apply Ha|].
    apply Hb in Hx. by replace (j + k) with (j + length a + (k - length a)) by lia.
Qed.

Lemma located_one j x : located j [x] <-> stored j = Some x.
Proof.
  split; [intros H; specialize (H O x eq_refl); by rewrite Nat.add_0_r in H|].
  intros H [|k] y; simpl; [|done]. intros [= <-]. by rewrite Nat.add_0_r.
Qed.

(** The index behind the items accepted, and behind the items handed over. *)
Definition frontier (s : pstate) : nat :=
  match s with At j | Got j _ | Refused j => j | Applied j _ | Unrecorded j => S j end.
Definition reached (s : pstate) : nat :=
  match s with At j | Got j _ => j | Refused j | Applied j _ | Unrecorded j => S j end.

(** What the handler accepted is a piece of the feed from where the run began,
    in order and without a gap; so is what it was given. *)
Lemma run_located j tr s : run j tr s ->
  (located j (applied tr) /\ frontier s = j + length (applied tr))
  /\ located j (handed tr) /\ reached s = j + length (handed tr).
Proof.
  induction 1 as [|tr s ev s' Hr ((IH1 & IH2) & IH3 & IH4) Hs].
  { repeat split; try apply located_nil; simpl; lia. }
  apply run_in_hand in Hr. unfold handed, applied in *. rewrite !omap_app.
  simpl. remember (action_of ev) as a. clear Heqa.
  destruct Hs; simpl in *; rewrite ?app_nil_r, ?length_app, ?located_app, ?located_one; simpl;
    rewrite <- ?IH2, <- ?IH4; repeat split; (done || lia).
Qed.

End machine.

#[export] Hint Constructors step run : go.

(** ** Positions *)

Section positions.
Context (F : Feed) (cp : Checkpointer).

(** The next subscription starts at index [j]. *)
Definition ready (start : option N) (tr : trace) (j : nat) : Prop :=
  exists p, wanted (start_options start (Some cp) tr) = Some p /\ index p = j.

(** An open stream is at index [j]. *)
Definition streaming (tr : trace) (j : nat) : Prop :=
  exists opts k p, cursor tr = Some (opts, k) /\ wanted opts = Some p /\ index p + k = j.

Lemma ready_keep start tr evs j :
  position cp (tr ++ evs) = position cp tr -> ready start tr j -> ready start (tr ++ evs) j.
Proof. intros Hp (p & Hw & Hj). exists p. split; [|done]. rewrite <- Hw. unfold start_options. by rewrite Hp. Qed.

Lemma ready_neutral `{!CheckpointerOk cp} start tr evs j :
  forallb neutral evs = true -> ready start tr j -> ready start (tr ++ evs) j.
Proof. intros Hn. by apply ready_keep, position_neutral. Qed.

(** A position that is set decides, whatever the start block. *)
Lemma ready_set start tr j : position cp tr <> (0%N, "") -> index (position cp tr) = j -> ready start tr j.
Proof.
  intros Hne Hj. exists (position cp tr). split; [|done]. unfold start_options, wanted.
  destruct (position cp tr) as [b t]. destruct start; simpl; by rewrite decide_False.
Qed.

Lemma streaming_keep tr evs j :
  foldl cursor_step (cursor tr) evs = cursor tr -> streaming tr j -> streaming (tr ++ evs) j.
Proof.
  intros H (opts & k & p & Hc & Hp & Hj). exists opts, k, p. by rewrite cursor_app, H.
Qed.

(** A stream opened where the checkpointer points. *)
Lemma streaming_opened start tr ev j : ready start tr j ->
  (forall c, cursor_step c ev = Some (start_options start (Some cp) tr, O)) -> streaming (tr ++ [ev]) j.
Proof.
  intros (p & Hp & Hj) Hev. exists (start_options start (Some cp) tr), O, p.
  rewrite cursor_app. split_and!; [apply Hev|done|lia].
Qed.

Lemma streaming_advance tr ev j : streaming tr j ->
  (forall o k, cursor_step (Some (o, k)) ev = Some (o, S k)) -> streaming (tr ++ [ev]) (S j).
Proof.
  intros (opts & k & p & Hc & Hp & Hj) Hev. exists opts, (S k), p.
  rewrite cursor_app, Hc. split_and!; [apply Hev|done|lia].
Qed.

(** What fabric-gateway promises, over a feed: [R tr i] says that [i] is received
    after [tr]. *)
Class Supplies (R : trace -> item -> Prop) : Prop :=
  supplied tr i : R tr i -> exists opts k, cursor tr = Some (opts, k)
    /\ forall p, wanted opts = Some p -> stored (index p + k) = Some i.

Lemma streaming_stored R `{!Supplies R} tr i j : streaming tr j -> R tr i -> stored j = Some i.
Proof.
  intros (opts & k & p & Hc & Hp & <-) HR. destruct (supplied tr i HR) as (o & k' & Hc' & Hs).
  rewrite Hc in Hc'. injection Hc' as <- <-. by apply Hs.
Qed.

(** The position that an action saves: a successful checkpoint does; when the
    checkpointer commits with the handler's data ([early]), the handler's success
    already does. *)
Definition saves (early : bool) (a : action item) : option (N * string) :=
  match a with
  | Hand i None => if early then Some (item_pos i) else None
  | Record p None => Some p
  | _ => None
  end.

Class Keeper (early : bool) : Prop := {
  keeps tr ev : saves early (action_of ev) = None -> action_of ev <> Foreign ->
    position cp (tr ++ [ev]) = position cp tr;
  moves tr ev i j : saves early (action_of ev) = Some (item_pos i) -> stored j = Some i ->
    position cp (tr ++ [ev]) <> (0%N, "") /\ index (position cp (tr ++ [ev])) = S j }.

(** Where a listener killed in a state resumes. *)
Definition resume (early : bool) (s : pstate) : nat :=
  match s with
  | At j | Got j _ | Refused j => j
  | Applied j _ | Unrecorded j => if early then S j else j
  end.

Lemma run_ready early `{!Keeper early} start tr0 j tr s :
  ready start tr0 j -> run j tr s -> ready start (tr0 ++ tr) (resume early s).
Proof.
  intros H0. induction 1 as [|tr s ev s' Hr IH Hs]; [by rewrite app_nil_r|].
  pose proof (run_in_hand _ _ _ Hr) as Hi. rewrite app_assoc.
  assert (Hkeep : saves early (action_of ev) = None -> action_of ev <> Foreign ->
    ready start ((tr0 ++ tr) ++ [ev]) (resume early s)).
  { intros. apply ready_keep; [by apply keeps|done]. }
  assert (Hmove : forall k i, stored k = Some i -> saves early (action_of ev) = Some (item_pos i) ->
    ready start ((tr0 ++ tr) ++ [ev]) (S k)).
  { intros k i Hk Hsv. destruct (moves (tr0 ++ tr) ev i k Hsv Hk). by apply ready_set. }
  remember (action_of ev) as a. clear Heqa.
  destruct Hs; simpl in *; try (by apply Hkeep); try (by eapply Hmove).
  destruct early; [by eapply Hmove|by apply Hkeep].
Qed.

Lemma ready_quiet early `{!Keeper early} start tr evs j :
  forallb neutral evs = true -> ready start tr j -> ready start (tr ++ evs) j.
Proof. intros Hn Hr. apply (run_ready early start tr j evs (At j) Hr). by apply run_neutral. Qed.

End positions.

Arguments resume {F} early s.
Arguments saves {F} early a.

(** ** Crashes and restarts *)

(** The lives of a service: each begins where the trace of the last one stopped
    ([life] says what one life may leave there), after calls that concern no feed. *)
Inductive lives (life : trace -> trace -> Prop) : trace -> list trace -> Prop :=
| no_life tr : lives life tr []
| one_more tr a q ls : life tr a -> forallb neutral q = true -> lives life (tr ++ a ++ q) ls ->
    lives life tr (a :: ls).

(** A list without the elements that repeat their predecessor. *)
Fixpoint squeeze {A} `{EqDecision A} (l : list A) : list A :=
  match l with
  | x :: l' => match l' with
               | y :: _ => if decide (x = y) then squeeze l' else x :: squeeze l'
               | [] => [x]
               end
  | [] => []
  end.

Lemma squeeze_head {A} `{EqDecision A} (x : A) l : exists r, squeeze (x :: l) = x :: r.
Proof.
  revert x. induction l as [|y l IH]; intros x; simpl; [by exists []|].
  destruct (decide (x = y)) as [->|]; [apply IH|by eexists].
Qed.

Section service.
Context {F : Feed} `{!Distinct F} (cp : Checkpointer).

Lemma resume_bounds j tr s : run j tr s ->
  j <= resume false s /\ resume false s <= frontier s <= S (resume false s) /\ resume true s = frontier s.
Proof.
  intros Hr. assert (Hj : j <= resume false s).
  { induction Hr as [|tr s ev s' _ IH Hs]; [simpl; lia|]. destruct Hs; simpl in *; lia. }
  split; [done|]. destruct s; simpl; lia.
Qed.

(** What the lives of a service handle, life by life: each handles a piece of
    the feed from where it resumes, which is behind the last accepted item, or at
    it if that was not recorded. *)
Fixpoint covers (early : bool) (j : nat) (ls : list (list item)) : Prop :=
  match ls with
  | [] => True
  | l :: ls => located j l /\ exists k,
      j <= k <= j + length l /\ j + length l <= (if early then k else S k) /\ covers early k ls
  end.

Lemma lives_cover early `{!Keeper F cp early} start life tr ls j :
  (forall tr a j, life tr a -> ready F cp start tr j -> exists s, run j a s) ->
  lives life tr ls -> ready F cp start tr j -> covers early j (applied <$> ls).
Proof.
  intros Hlife Hl. revert j. induction Hl as [|tr a q ls Ha Hq _ IH]; intros j Hj; simpl; [done|].
  destruct (Hlife tr a j Ha Hj) as [s Hs]. destruct (run_located _ _ _ Hs) as [[Hloc Hf] _].
  destruct (resume_bounds _ _ _ Hs) as (Hb1 & Hb2 & Hb3).
  split; [done|]. exists (resume early s). split; [destruct early; lia|]. split; [destruct early; lia|].
  apply IH. rewrite app_assoc. change (resume early s) with (resume early (At (resume early s))).
  eapply run_ready; [done| |by apply run_neutral]. by eapply run_ready.
Qed.

(** Positions that move with the data: nothing is handled twice. *)
Lemma covers_exactly j ls : covers true j ls -> located j (concat ls).
Proof.
  revert j. induction ls as [|l ls IH]; intros j; simpl; [intros; apply located_nil|].
  intros (Hl & k & Hk & Hk' & Hc). apply located_app. split; [done|].
  replace (j + length l) with k by lia. by apply IH.
Qed.

Lemma squeeze_located j l r : located j l ->
  (forall y, head r = Some y -> stored (j + length l) = Some y) -> squeeze (l ++ r) = l ++ squeeze r.
Proof.
  revert j. induction l as [|x l IH]; intros j Hl Hr; [done|].
  apply (located_app j [x]) in Hl as [Hx%located_one Hl]. simpl in *.
  assert (Hnext : squeeze (l ++ r) = l ++ squeeze r).
  { apply (IH (j + 1)); [done|]. intros y Hy. rewrite <- Nat.add_assoc. by apply Hr. }
  destruct (l ++ r) as [|y z] eqn:Elr.
  { by apply app_eq_nil in Elr as [-> ->]. }
  rewrite decide_False, Hnext; [done|]. intros <-.
  assert (Hy : stored (j + 1) = Some x).
  { destruct l as [|y l]; simplify_eq/=; [by apply Hr|].
    by apply (located_app (j + 1) [_]) in Hl as [?%located_one _]. }
  pose proof (stored_inj _ _ _ Hx Hy). lia.
Qed.

(** Positions that move behind the data: nothing is left out, and a restart
    repeats one item at most. *)
Lemma covers_squeeze j ls : covers false j ls ->
  located j (squeeze (concat ls)) /\ length (concat ls) <= length (squeeze (concat ls)) + pred (length ls).
Proof.
  revert j. induction ls as [|l ls IH]; intros j; simpl; [intros; split; [apply located_nil|lia]|].
  intros (Hl & k & Hk & Hk' & Hc). destruct (IH k Hc) as [Hloc Hlen].
  assert (Hhead : forall y, head (concat ls) = Some y -> stored k = Some y).
  { destruct (concat ls) as [|y r]; [done|]. destruct (squeeze_head y r) as [r' Er]. rewrite Er in Hloc.
    apply (located_app k [y]) in Hloc as [Hy%located_one _]. by intros ? [= <-]. }
  destruct (decide (k = j + length l \/ concat ls = [])) as [Hsame|Hback].
  - rewrite (squeeze_located j) by (try done; destruct Hsame as [<-| ->]; done).
    rewrite !length_app. split; [|lia]. apply located_app. split; [done|].
    destruct Hsame as [<-|E0]; [done|]. rewrite E0. apply located_nil.
  - destruct (concat ls) as [|y r] eqn:Er; [tauto|]. specialize (Hhead y eq_refl).
    destruct l as [|x l _] using rev_ind; [simpl in *; lia|]. rewrite length_app in *. simpl in *.
    apply located_app in Hl as [Hl Hx%located_one].
    assert (k = j + length l) by lia. subst k. assert (x = y) as -> by congruence.
    rewrite <- app_assoc. simpl.
    rewrite (squeeze_located j l (y :: y :: r)) by (try done; by intros ? [= <-]).
    rewrite !length_app. simpl squeeze at 1 2. rewrite decide_True by done. fold (squeeze (y :: r)).
    destruct ls as [|l' ls]; [done|]. simpl in *. split; [by apply located_app|lia].
Qed.

End service.
