(* ===== verification/Streams.v ===== *)
(** * The goroutine of an event stream (events.go, ChaincodeEvents)

    One subscription is three parties: fabric-gateway, which sends events on the
    upstream channel and closes it; the goroutine, which converts and forwards
    them; the caller, who receives, cancels the context or closes the stream. Any
    interleaving may happen: a state, and one atomic step per label. *)

From S2P Require Import Prelude GoStrings Errors World Events.

(** Where the goroutine is. *)
Inductive pc :=
| Receiving                      (* for ev := range upstream *)
| Sending (ev : ChaincodeEvent)  (* select { s.ch <- out, <-sctx.Done() } *)
| CheckingCtx                    (* ctx.Err() == nil *)
| CheckingSctx                   (* && sctx.Err() == nil *)
| SettingErr                     (* s.err = ... *)
| Stopping                       (* stop() *)
| ClosingCh                      (* deferred close(s.ch) *)
| Releasing                      (* deferred release() *)
| Finished.

Record stream := mkStream {
  st_pc : pc;
  st_queue : list GatewayEvent;      (* sent by the Gateway, not yet received *)
  st_up_closed : bool;               (* the upstream channel is closed *)
  st_ctx_done : bool;
  st_sctx_done : bool;
  st_err : option error;             (* s.err *)
  st_closes : nat;                   (* how often s.ch was closed *)
  st_releases : nat;                 (* how often release was called *)
  (* what the proofs speak of *)
  st_produced : list GatewayEvent;   (* all the Gateway sent *)
  st_delivered : list ChaincodeEvent; (* all the caller received *)
  st_user_ended : bool }.            (* the caller cancelled or closed *)

Definition stream_init : stream :=
  mkStream Receiving [] false false false None 0 0 [] [] false.

Inductive label :=
| gw_send (ev : GatewayEvent) | gw_close            (* fabric-gateway *)
| user_recv | user_cancel | user_close              (* the caller *)
| go_recv | go_end | go_drop | go_check | go_err | go_stop | go_close | go_release.

Definition set_pc (p : pc) (s : stream) : stream :=
  mkStream p (st_queue s) (st_up_closed s) (st_ctx_done s) (st_sctx_done s) (st_err s)
    (st_closes s) (st_releases s) (st_produced s) (st_delivered s) (st_user_ended s).

Definition stream_step (l : label) (s : stream) : option stream :=
  match l, st_pc s with
  | gw_send ev, _ =>
      if st_up_closed s then None
      else Some (mkStream (st_pc s) (st_queue s ++ [ev]) false (st_ctx_done s) (st_sctx_done s)
             (st_err s) (st_closes s) (st_releases s) (st_produced s ++ [ev]) (st_delivered s)
             (st_user_ended s))
  | gw_close, _ =>
      Some (mkStream (st_pc s) (st_queue s) true (st_ctx_done s) (st_sctx_done s) (st_err s)
              (st_closes s) (st_releases s) (st_produced s) (st_delivered s) (st_user_ended s))
  | user_cancel, _ =>
      Some (mkStream (st_pc s) (st_queue s) (st_up_closed s) true true (st_err s)
              (st_closes s) (st_releases s) (st_produced s) (st_delivered s) true)
  | user_close, _ =>
      Some (mkStream (st_pc s) (st_queue s) (st_up_closed s) (st_ctx_done s) true (st_err s)
              (st_closes s) (st_releases s) (st_produced s) (st_delivered s) true)
  | user_recv, Sending ev =>
      Some (mkStream Receiving (st_queue s) (st_up_closed s) (st_ctx_done s) (st_sctx_done s)
              (st_err s) (st_closes s) (st_releases s) (st_produced s) (st_delivered s ++ [ev])
              (st_user_ended s))
  | go_recv, Receiving =>
      match st_queue s with
      | ev :: q =>
          Some (mkStream (Sending (out_event ev)) q (st_up_closed s) (st_ctx_done s)
                  (st_sctx_done s) (st_err s) (st_closes s) (st_releases s) (st_produced s)
                  (st_delivered s) (st_user_ended s))
      | [] => None
      end
  | go_end, Receiving =>
      match st_queue s with
      | [] => if st_up_closed s then Some (set_pc CheckingCtx s) else None
      | _ => None
      end
  | go_drop, Sending _ => if st_sctx_done s then Some (set_pc ClosingCh s) else None
  | go_check, CheckingCtx =>
      Some (set_pc (if st_ctx_done s then Stopping else CheckingSctx) s)
  | go_check, CheckingSctx =>
      Some (set_pc (if st_sctx_done s then Stopping else SettingErr) s)
  | go_err, SettingErr =>
      Some (mkStream Stopping (st_queue s) (st_up_closed s) (st_ctx_done s) (st_sctx_done s)
              (Some streamClosed) (st_closes s) (st_releases s) (st_produced s) (st_delivered s)
              (st_user_ended s))
  | go_stop, Stopping =>
      Some (mkStream ClosingCh (st_queue s) (st_up_closed s) (st_ctx_done s) true (st_err s)
              (st_closes s) (st_releases s) (st_produced s) (st_delivered s) (st_user_ended s))
  | go_close, ClosingCh =>
      Some (mkStream Releasing (st_queue s) (st_up_closed s) (st_ctx_done s) (st_sctx_done s)
              (st_err s) (S (st_closes s)) (st_releases s) (st_produced s) (st_delivered s)
              (st_user_ended s))
  | go_release, Releasing =>
      Some (mkStream Finished (st_queue s) (st_up_closed s) (st_ctx_done s) (st_sctx_done s)
              (st_err s) (st_closes s) (S (st_releases s)) (st_produced s) (st_delivered s)
              (st_user_ended s))
  | _, _ => None
  end.

(** The method [Err]. *)
Definition EventStream_Err (s : stream) : option error := st_err s.

Fixpoint stream_run (ls : list label) (s : stream) : option stream :=
  match ls with
  | [] => Some s
  | l :: ls => stream_step l s ≫= stream_run ls
  end.

Inductive reachable : stream -> Prop :=
| reach_init : reachable stream_init
| reach_step l s s' : reachable s -> stream_step l s = Some s' -> reachable s'.

(** ** The invariant *)

(** What the goroutine holds. *)
Definition in_flight (s : stream) : list ChaincodeEvent :=
  match st_pc s with Sending ev => [ev] | _ => [] end.

(** Past the loop: it received the upstream's end, or dropped an event. *)
Definition past_loop (p : pc) : bool :=
  match p with Receiving | Sending _ => false | _ => true end.

Record stream_inv (s : stream) : Prop := {
  inv_prefix : st_delivered s `prefix_of` (out_event <$> st_produced s);
  inv_queue : past_loop (st_pc s) = false ->
    out_event <$> st_produced s = st_delivered s ++ in_flight s ++ (out_event <$> st_queue s);
  inv_err : st_err s = None
    \/ st_err s = Some streamClosed /\ out_event <$> st_produced s = st_delivered s;
  inv_all : match st_pc s with
            | CheckingCtx | CheckingSctx | SettingErr => st_err s = None
                /\ st_up_closed s = true /\ out_event <$> st_produced s = st_delivered s
            | _ => True
            end;
  inv_up : st_err s <> None -> st_up_closed s = true;
  inv_loop : past_loop (st_pc s) = false -> st_err s = None;
  inv_user : match st_pc s with
             | Stopping | ClosingCh | Releasing | Finished => st_err s = None -> st_user_ended s = true
             | _ => st_sctx_done s = true -> st_user_ended s = true
             end;
  inv_ctx : st_ctx_done s = true -> st_user_ended s = true;
  inv_closes : st_closes s = match st_pc s with Releasing | Finished => 1 | _ => 0 end;
  inv_releases : st_releases s = match st_pc s with Finished => 1 | _ => 0 end }.

Lemma stream_inv_init : stream_inv stream_init.
Proof. split; try done. by left. Qed.

Lemma stream_inv_step l s s' : stream_inv s -> stream_step l s = Some s' -> stream_inv s'.
Proof.
  intros [Hp Hq He Ha Hu Hl Hus Hc H1 H2] Hs.
  destruct s as [p q up cd sd err cl rl pr dl ue]. simpl in *.
  unfold stream_step, set_pc in Hs. simpl in Hs.
  destruct l; simpl in Hs; repeat case_match; simplify_eq; split; simpl in *;
    rewrite ?fmap_app; try done; try tauto; try by apply prefix_app_r.
  (* the Gateway sends only while its channel is open *)
  all: try (by destruct Ha as (_ & ? & _)).
  all: try (destruct err; [by discriminate Hu|by left]).
  (* the loop's bookkeeping *)
  all: try (intros _; rewrite (Hq eq_refl), <- ?app_assoc; done).
  - rewrite (Hq eq_refl). exists (out_event <$> q). by rewrite <- app_assoc.
  - rewrite (Hq eq_refl), app_nil_r. split; [by apply Hl|done].
Qed.

Lemma reachable_inv s : reachable s -> stream_inv s.
Proof. induction 1; [apply stream_inv_init|by eapply stream_inv_step]. Qed.

(** ** Termination *)

(** Which labels the goroutine takes by itself. *)
Definition is_go (l : label) : bool :=
  match l with
  | go_recv | go_end | go_drop | go_check | go_err | go_stop | go_close | go_release => true
  | _ => false
  end.

Definition pc_weight (p : pc) : nat :=
  match p with
  | Receiving => 7 | Sending _ => 8 | CheckingCtx => 6 | CheckingSctx => 5 | SettingErr => 4
  | Stopping => 3 | ClosingCh => 2 | Releasing => 1 | Finished => 0
  end.
Definition stream_measure (s : stream) : nat := 2 * length (st_queue s) + pc_weight (st_pc s).

Lemma stream_step_decreases l s s' :
  is_go l = true \/ l = user_recv -> stream_step l s = Some s' ->
  (stream_measure s' < stream_measure s)%nat.
Proof.
  intros Hl Hs. unfold stream_measure. destruct s as [p q up cd sd err cl rl pr dl ue].
  unfold stream_step, set_pc in Hs. simpl in *.
  destruct l; try (by destruct Hl); repeat case_match; simplify_eq; simpl; lia.
Qed.

Lemma stream_step_keeps l s s' : is_go l = true -> stream_step l s = Some s' ->
  st_up_closed s' = st_up_closed s /\ (st_sctx_done s = true -> st_sctx_done s' = true)
  /\ st_delivered s' = st_delivered s.
Proof.
  intros Hl Hs. destruct s as [p q up cd sd err cl rl pr dl ue].
  unfold stream_step, set_pc in Hs. simpl in *.
  destruct l; try done; repeat case_match; simplify_eq; done.
Qed.

(** A goroutine that was told to stop is never stuck. *)
Lemma stream_progress s : st_up_closed s = true -> st_sctx_done s = true ->
  st_pc s <> Finished -> exists l s', is_go l = true /\ stream_step l s = Some s'.
Proof.
  intros Hu Hd Hf. destruct s as [p q up cd sd err cl rl pr dl ue]. simpl in *. subst.
  destruct p; try done; [destruct q| | | | | | |];
    [exists go_end|exists go_recv|exists go_drop|exists go_check|exists go_check|exists go_err
    |exists go_stop|exists go_close|exists go_release]; by eexists.
Qed.

(** ** Properties *)

(** C13. A stream delivers faithfully under every interleaving of the Gateway, the
    goroutine and the caller: what the caller received is always a prefix, in
    order and without duplicates, of what the Gateway sent; the channel is closed
    and the Gateway handle released at most once, and both have happened when
    the goroutine is finished; [Err] is nil or the retryable "stream closed"
    error; it is that error only when the Gateway ended the stream and the caller
    has received everything, and nil after the end only when the caller ended
    it. *)
Theorem stream_faithful (s : stream) :
  reachable s ->
  st_delivered s `prefix_of` (out_event <$> st_produced s)
  /\ (st_closes s <= 1)%nat /\ (st_releases s <= 1)%nat
  /\ (st_pc s = Finished -> st_closes s = 1 /\ st_releases s = 1)
  /\ (EventStream_Err s = None \/
      EventStream_Err s = Some streamClosed /\ IsRetryable (EventStream_Err s) = true
      /\ st_up_closed s = true /\ st_delivered s = out_event <$> st_produced s)
  /\ (st_closes s = 1 -> EventStream_Err s = None -> st_user_ended s = true).
Proof.
  intros [Hp _ He _ Hu _ Hus _ H1 H2]%reachable_inv. unfold EventStream_Err. split_and!.
  - done.
  - rewrite H1. destruct (st_pc s); lia.
  - rewrite H2. destruct (st_pc s); lia.
  - intros E. by rewrite H1, H2, E.
  - destruct He as [->|[E Hd]]; [by left|right]. rewrite E in *. split_and!; auto.
  - rewrite H1. intros H1' He0. destruct (st_pc s); try done; auto.
Qed.

(** C14. No goroutine leaks: once the caller cancelled or closed the stream and
    fabric-gateway closed its channel (which it does when its context ends), the
    goroutine finishes by itself, without any receiver, in a bounded number of
    its own steps whichever it takes; it then has closed the event channel and
    released the Gateway, and delivered nothing more. *)
Theorem stream_terminates (s : stream) :
  reachable s -> st_up_closed s = true -> st_sctx_done s = true ->
  (forall ls s', forallb is_go ls = true -> stream_run ls s = Some s' ->
     (length ls <= stream_measure s)%nat)
  /\ exists ls s', forallb is_go ls = true /\ stream_run ls s = Some s'
     /\ st_pc s' = Finished /\ st_closes s' = 1 /\ st_releases s' = 1
     /\ st_delivered s' = st_delivered s.
Proof.
  intros Hr Hu Hd. split.
  - clear. intros ls. revert s. induction ls as [|l ls IH]; intros s s' Hg Hs; simpl in *; [lia|].
    apply andb_true_iff in Hg as [Hl Hg]. destruct (stream_step l s) as [s1|] eqn:E; [|done].
    pose proof (stream_step_decreases l s s1 (or_introl Hl) E). specialize (IH s1 s' Hg Hs). lia.
  - remember (stream_measure s) as m eqn:Em. revert s Hr Hu Hd Em.
    induction (lt_wf m) as [m _ IH]. intros s Hr Hu Hd ->.
    destruct (decide (past_loop (st_pc s) = true /\ pc_weight (st_pc s) = 0)) as [[_ Hw]|Hw].
    + assert (Hf : st_pc s = Finished) by (by destruct (st_pc s)).
      exists [], s. pose proof (reachable_inv s Hr) as [_ _ _ _ _ _ _ _ H1 H2].
      rewrite Hf in H1, H2. by repeat split.
    + destruct (stream_progress s Hu Hd) as (l & s1 & Hl & Hs); [intros E; by rewrite E in Hw; apply Hw|].
      destruct (stream_step_keeps l s s1 Hl Hs) as (Hu1 & Hd1 & Hdel).
      destruct (IH _ (stream_step_decreases l s s1 (or_introl Hl) Hs) s1) as (ls & s' & Hls & Hrun & Hfin);
        [by eapply reach_step|congruence|auto|done|].
      exists (l :: ls), s'. simpl. rewrite Hl, Hs. rewrite <- Hdel. by repeat split; try apply Hfin.
Qed.

(** Labels of the goroutine and of a caller who receives. *)
Definition is_serving (l : label) : bool :=
  match l with user_recv => true | _ => is_go l end.

Lemma stream_step_serving l s s' : is_serving l = true -> stream_step l s = Some s' ->
  reachable s -> reachable s' /\ st_produced s' = st_produced s /\ st_up_closed s' = st_up_closed s
  /\ st_user_ended s' = st_user_ended s /\ (stream_measure s' < stream_measure s)%nat.
Proof.
  intros Hl Hs Hr. split; [by eapply reach_step|].
  assert (Hm : (stream_measure s' < stream_measure s)%nat).
  { eapply stream_step_decreases; [|done]. destruct l; auto. }
  split_and!; try done; destruct s as [p q up cd sd err cl rl pr dl ue];
    unfold stream_step, set_pc in Hs; simpl in Hs;
    destruct l; try discriminate Hl; repeat case_match; simplify_eq; done.
Qed.

Lemma stream_run_serving ls : forall s s', forallb is_serving ls = true -> stream_run ls s = Some s' ->
  reachable s -> reachable s' /\ st_produced s' = st_produced s /\ st_up_closed s' = st_up_closed s
  /\ st_user_ended s' = st_user_ended s /\ (length ls <= stream_measure s)%nat.
Proof.
  induction ls as [|l ls IH]; simpl; intros s s' Hg Hs Hr; [simplify_eq; by split_and!; try lia|].
  apply andb_true_iff in Hg as [Hl Hg]. destruct (stream_step l s) as [s1|] eqn:E1; [|done].
  destruct (stream_step_serving l s s1 Hl E1 Hr) as (Hr1 & Ep & Eu & Ee & Hm).
  destruct (IH s1 s' Hg Hs Hr1) as (Hr' & Ep' & Eu' & Ee' & Hm').
  split_and!; [done|congruence..|lia].
Qed.

(** What it means that goroutine and caller have nothing left to do. *)
Lemma stream_idle s : reachable s -> st_user_ended s = false ->
  (forall l, is_serving l = true -> stream_step l s = None) ->
  st_delivered s = out_event <$> st_produced s
  /\ (st_up_closed s = true -> st_pc s = Finished /\ EventStream_Err s = Some streamClosed).
Proof.
  intros [_ Hq He _ _ _ Hus _ _ _]%reachable_inv Hue Hidle. unfold EventStream_Err.
  destruct s as [p q up cd sd err cl rl pr dl ue]. simpl in *. subst ue.
  destruct p; simpl in *;
    try (specialize (Hidle user_recv eq_refl); discriminate Hidle);
    try (specialize (Hidle go_check eq_refl); discriminate Hidle);
    try (specialize (Hidle go_err eq_refl); discriminate Hidle);
    try (specialize (Hidle go_stop eq_refl); discriminate Hidle);
    try (specialize (Hidle go_close eq_refl); discriminate Hidle);
    try (specialize (Hidle go_release eq_refl); discriminate Hidle).
  - destruct q; [|by specialize (Hidle go_recv eq_refl)].
    pose proof (Hidle go_end eq_refl) as Hend. simpl in Hend. rewrite (Hq eq_refl), app_nil_r.
    split; [done|]. intros ->. discriminate Hend.
  - destruct He as [->|[-> ->]]; [by specialize (Hus eq_refl)|done].
Qed.

(** C15. Nothing sent is lost: while the caller keeps receiving and does not end the
    stream, the goroutine and the caller can only take a bounded number of steps,
    and when they have nothing left to do, everything the Gateway sent has been
    delivered; if the Gateway ended the stream, it is then finished and says so. *)
Theorem stream_delivers_all (s : stream) (ls : list label) (s' : stream) :
  reachable s -> st_user_ended s = false ->
  forallb is_serving ls = true -> stream_run ls s = Some s' ->
  (length ls <= stream_measure s)%nat
  /\ ((forall l, is_serving l = true -> stream_step l s' = None) ->
      st_delivered s' = out_event <$> st_produced s
      /\ (st_up_closed s = true -> st_pc s' = Finished /\ EventStream_Err s' = Some streamClosed)).
Proof.
  intros Hr Hue Hls Hrun.
  destruct (stream_run_serving ls s s' Hls Hrun Hr) as (Hr' & Ep & Eu & Ee & Hm).
  split; [done|]. intros Hidle. rewrite <- Ep, <- Eu. apply stream_idle; [done|congruence|done].
Qed.

(** A stream over which [evs] were sent and received. *)
Definition one_event (ev : GatewayEvent) : list label := [gw_send ev; go_recv; user_recv].

Lemma stream_run_app a b s : stream_run (a ++ b) s = stream_run a s ≫= stream_run b.
Proof. revert s. induction a as [|l a IH]; intros s; [done|]. simpl. by destruct (stream_step l s); simpl. Qed.

Lemma stream_run_reachable ls : forall s s', reachable s -> stream_run ls s = Some s' -> reachable s'.
Proof.
  induction ls as [|l ls IH]; simpl; intros s s' Hs; [by intros [= <-]|].
  destruct (stream_step l s) as [s1|] eqn:E1; [|done]. intros Hrun. exact (IH _ _ (reach_step _ _ _ Hs E1) Hrun).
Qed.

Lemma stream_run_events evs pr dl :
  stream_run (evs ≫= one_event) (mkStream Receiving [] false false false None 0 0 pr dl false)
  = Some (mkStream Receiving [] false false false None 0 0 (pr ++ evs) (dl ++ (out_event <$> evs)) false).
Proof.
  revert pr dl. induction evs as [|ev evs IH]; intros pr dl; simpl; [by rewrite !app_nil_r|].
  rewrite IH, <- !app_assoc. done.
Qed.
