(* ===== verification/Listeners.v ===== *)
(** * Properties of the listeners

    What a long-running consumer may rely on: the listener implements the
    protocol of Protocol.v, so it skips and repeats nothing; each accepted event
    is recorded before the next is handed over; how it ends, how it waits. *)

From S2P Require Import Prelude GoStrings GoRunes Errors Classify Observe World Identity Config Client Contract Transactions Views Events Positions Protocol.
Local Open Scope Z_scope.

(** ** The feed of chaincode events *)

#[export] Instance Byte_eq_dec : EqDecision Byte.byte := Byte.byte_eq_dec.
#[export] Instance ChaincodeEvent_eq_dec : EqDecision ChaincodeEvent.
Proof. solve_decision. Defined.

Section feed.
Variables (cp : Checkpointer) (ledger : list GatewayEvent).

Definition event_action (ev : Event) : action ChaincodeEvent :=
  match ev with
  | EvChaincodeEvents _ _ _ opts (Some _) => Open opts
  | EvRecv _ (Some ge) => Receive (out_event ge)
  | EvHandle e _ r => Hand e r
  | EvCheckpointTransaction id n tx r => if decide (id = cp_id) then Record (n, tx) r else Foreign
  | EvBlockEvents _ _ _ (Some _) | EvRecvBlock _ (Some _) | EvHandleBlock _ _ _
  | EvCheckpointBlock _ _ _ => Foreign
  | _ => Quiet
  end.

Lemma event_action_neutral ev : neutral ev = true -> event_action ev = Quiet.
Proof. intros Hn. by event_cases ev. Qed.

(** The ledger's events, as the handler sees them. *)
Definition event_feed : Feed := mkFeed ChaincodeEvent _ event_action
  (fun j => out_event <$> ledger !! j) event_pos (index_of ledger) event_action_neutral.

Lemma stored_event j e : @stored event_feed j = Some e ->
  exists ge, ledger !! j = Some ge /\ e = out_event ge.
Proof. simpl. destruct (ledger !! j) as [ge|]; [|done]. intros [= <-]. by exists ge. Qed.

Lemma handled_handed tr : @handed event_feed tr = handled tr.
Proof.
  apply omap_ext. intros ev. event_cases ev; try done; simpl; by case_decide.
Qed.

Lemma run_count j tr s : @run event_feed j tr s -> @reached event_feed s = (j + length (handled tr))%nat.
Proof. intros Hr. rewrite <- handled_handed. exact (proj2 (proj2 (run_located _ _ _ Hr))). Qed.

(** A piece of the feed is a piece of the ledger. *)
Lemma located_take j l : @located event_feed j l ->
  l = out_event <$> take (length l) (drop j ledger).
Proof.
  intros H. apply list_eq. intros i. rewrite list_lookup_fmap.
  destruct (decide (i < length l)%nat) as [Hi|Hi].
  - destruct (lookup_lt_is_Some_2 l i Hi) as [x Hx].
    rewrite lookup_take_lt, lookup_drop by done. by rewrite Hx, <- (H i x Hx).
  - rewrite lookup_take_ge by lia. apply lookup_ge_None. lia.
Qed.

Hypothesis Hledger : wf_ledger ledger.

Lemma ledger_tx j ge : ledger !! j = Some ge -> ge_TransactionID ge <> "".
Proof. intros H. apply (proj1 (list.Forall_forall _ _) (wf_tx _ Hledger) ge). by eapply list_elem_of_lookup_2. Qed.

#[local] Instance event_feed_distinct : Distinct event_feed.
Proof.
  intros i j x (gi & Hi & ->)%stored_event (gj & Hj & Hx)%stored_event.
  apply (NoDup_lookup (event_id <$> ledger) i j (event_id gi)); [by apply wf_ids|by rewrite list_lookup_fmap, Hi|].
  rewrite list_lookup_fmap, Hj. simpl. unfold event_id. injection Hx as -> -> _ _ _. done.
Qed.

(** Checkpointers that keep the promise of the interface are behind the data. *)
#[local] Instance event_keeper `{!CheckpointerOk cp} : Keeper event_feed cp false.
Proof.
  split.
  - intros tr ev Hsv Hf. simpl in *. apply position_other; intros; intros ->; simpl in *.
    + by rewrite decide_True in Hsv.
    + done.
  - intros tr ev i j Hsv (ge & Hj & ->)%stored_event. simpl in Hsv.
    assert (Hev : ev = EvCheckpointTransaction cp_id (ge_BlockNumber ge) (ge_TransactionID ge) None).
    { event_cases ev; try done; simpl in Hsv; case_decide; try done. subst. by injection Hsv as -> ->. }
    rewrite Hev, position_tx. simpl. split.
    + intros [= _ Ht]. by apply ledger_tx in Hj.
    + by apply (index_of_event ledger j ge).
Qed.

End feed.

(** ** The listener implements the protocol *)

Section no_gap.
Context `{X : X509Lib} `{E : Env} `{U : UnicodeTables} `{G : GrpcStatus} `{P : PeerCodes}
  `{EE : EventEnv}.
Variables (c : Contract) (ctx : Context) (cp : Checkpointer) (handle : EventHandler)
  (ledger : list GatewayEvent).
Context `{!Delivers ledger}.

#[local] Instance events_feed : Feed := event_feed cp ledger.

#[export] Instance events_supplied : Supplies (event_feed cp ledger)
  (fun tr e => exists u ge, env_recv tr u = inr ge /\ e = out_event ge).
Proof.
  intros tr e (u & ge & Hr & ->). destruct (delivered _ tr u ge Hr) as (opts & k & Hc & Hl).
  exists opts, k. split; [done|]. intros p Hp. simpl. by rewrite (Hl p Hp).
Qed.

Lemma streaming_recv tr u ge j : streaming events_feed tr j -> env_recv tr u = inr ge ->
  stored j = Some (out_event ge) /\ streaming events_feed (tr ++ [EvRecv u (Some ge)]) (S j).
Proof.
  intros Hs Hr. split; [|by apply streaming_advance].
  eapply (streaming_stored _ _ _ _ _ Hs). by exists u, ge.
Qed.

(** The loop over a stream. *)
Lemma consume_run n o s : forall backoff w j,
  streaming events_feed (w_trace w) j ->
  let '(r, w') := consume n cp handle o s backoff w in
  exists new st, w_trace w' = w_trace w ++ new /\ run j new st
    /\ (forall err b, r = ended err b -> exists k, st = At k).
Proof.
  induction n as [|n IH]; intros backoff w j Hs; simpl.
  { exists [], (At j). rewrite app_nil_r. split_and!; [done|apply run_nil|done]. }
  unfold recv. run_step. destruct (env_recv (w_trace w) (s_upstream s)) as [active|ge] eqn:Er.
  { eexists _, (At j). split_and!; [done|apply run_one; constructor|by eexists]. }
  destruct (streaming_recv _ _ _ _ Hs Er) as [Hj Hs1].
  assert (Hrec : @action_of events_feed (EvRecv (s_upstream s) (Some ge)) = Receive (out_event ge)) by done.
  run_handle. destruct (snd (handle _ _)) as [herr|].
  { unfold EventStream_Close. run_step. eexists _, (Refused j). split_and!; [done| |done].
    by eapply run_refused. }
  unfold CheckpointTransaction. run_step. destruct (cp_CheckpointTransaction _ _ _) as [cerr|].
  { unfold EventStream_Close. run_step. eexists _, (Unrecorded j). split_and!; [done| |done].
    eapply run_unrecorded; try done. simpl. by rewrite decide_True. }
  match goal with |- context [consume n cp handle o s ?b ?W] =>
    specialize (IH b W (S j)); destruct (consume n cp handle o s b W) as [r w'] end.
  destruct IH as (new & st & Ht & Hr & Hend).
  { rewrite push_trace. simpl result_opt. rewrite app_assoc. by apply streaming_keep. }
  eexists _, st. rewrite Ht, push_trace, <- app_assoc. split_and!; [done| |done].
  eapply run_recorded; try done. simpl. by rewrite decide_True.
Qed.

Context (early : bool) `{!Keeper events_feed cp early}.

(** One session: a subscription that fails to open, or one opened where the
    checkpointer points, and the loop. *)
Lemma session_run n opts backoff w j rs a : let o := Contract_eventOptions c opts in
  ready events_feed cp (startBlock o) (w_trace w) j ->
  Contract_ChaincodeEvents c ctx (opts ++ [WithCheckpointer (Some cp)]) w = (rs, push a w) ->
  let '(r, w') := (match rs with inl err => mret (ended (Some err) backoff)
    | inr stream => consume n cp handle o stream backoff end) (push a w) in
  exists new st, w_trace w' = w_trace w ++ new /\ run j new st
    /\ (forall err b, r = ended err b -> exists k, st = At k).
Proof.
  intros o Hr Hs.
  destruct (ChaincodeEvents_run c ctx (opts ++ [WithCheckpointer (Some cp)]) w) as (rs' & a' & Hs' & Hcase & _).
  rewrite Hs in Hs'. injection Hs' as <- Ha. apply app_inv_head in Ha as <-.
  rewrite eventOptions_checkpoint in Hcase. fold o in Hcase. cbn [startBlock checkpoint chaincode] in Hcase.
  destruct rs as [err|stream].
  { exists a, (At j). split_and!; [done|by apply run_neutral|by eexists]. }
  destruct Hcase as (a1 & net & -> & Hn & _). set (w1 := push _ w).
  assert (Hr1 : ready events_feed cp (startBlock o) (w_trace w ++ a1) j) by by eapply ready_quiet.
  pose proof (consume_run n o stream backoff w1 j) as Hc.
  destruct (consume n cp handle o stream backoff w1) as [r w2]. destruct Hc as (new & st & Ht & Hrun & Hend).
  { unfold w1. rewrite push_trace, app_assoc. by eapply streaming_opened. }
  unfold w1 in Ht. rewrite push_trace, <- app_assoc in Ht. eexists _, st. split_and!; [exact Ht| |done].
  apply (run_app j j); [|done]. apply (run_app j j); [by apply run_neutral|].
  destruct Hr1 as (p & Hp & Hj). by eapply run_opened.
Qed.

(** A whole run: opening, consuming, logging, sleeping, opening again. A run that
    returned nil has recorded all it handled. *)
Lemma listen_run n opts : let o := Contract_eventOptions c opts in
  forall backoff w j,
  ready events_feed cp (startBlock o) (w_trace w) j ->
  let '(r, w') := listen c ctx n cp handle (opts ++ [WithCheckpointer (Some cp)]) o backoff w in
  exists new st, w_trace w' = w_trace w ++ new /\ run j new st
    /\ (r = Some None -> exists k, st = At k).
Proof.
  intros o. induction n as [|n IH]; intros backoff w j Hr; simpl.
  { exists [], (At j). rewrite app_nil_r. split_and!; [done|apply run_nil|done]. }
  destruct (ChaincodeEvents_run c ctx (opts ++ [WithCheckpointer (Some cp)]) w) as (rs & a & Hs & _).
  pose proof (session_run n opts backoff w j rs a Hr Hs) as Hsession. fold o in Hsession.
  rewrite (bind_run _ _ _ _ _ Hs). clear Hs.
  match type of Hsession with let '(_, _) := ?x in _ => destruct x as [r w1] eqn:Hrun end.
  destruct Hsession as (new & st & Ht & Hst & Hend).
  rewrite (bind_run _ _ _ _ _ Hrun). clear Hrun.
  destruct r as [err|err b|]; [by exists new, st| |by exists new, st].
  destruct (Hend err b eq_refl) as [k ->]. unfold ctx_Err. run_M.
  destruct (env_ctx_Err _ _); [exists new, (At k); split_and!; try done; by eexists|].
  match goal with |- context [after_session ?c ?x ?m ?k ?p ?o ?e ?b w1] =>
    destruct (after_session_run c x m k p o e b w1) as (r & a2 & -> & Hn) end.
  destruct r as [r|b']; simpl.
  { exists (new ++ a2), (At k). rewrite Ht, app_assoc. split_and!; [done|by apply run_quiet|by eexists]. }
  assert (Hk : ready events_feed cp (startBlock o) (w_trace (push a2 w1)) k).
  { rewrite push_trace. eapply ready_quiet; [done..|]. rewrite Ht. by apply (run_ready _ _ early _ _ j _ (At k)). }
  specialize (IH b' (push a2 w1) k Hk).
  destruct (listen _ _ _ _ _ _ _ _ _) as [r w2]. destruct IH as (new' & st' & Ht' & Hst' & Hend').
  exists ((new ++ a2) ++ new'), st'. rewrite Ht', push_trace, Ht, !app_assoc. split_and!; [done| |done].
  by eapply run_app; [apply run_quiet|].
Qed.

End no_gap.

(** What that says of the handler, for the checkpointers of the interface. *)
Section handled.
Context `{X : X509Lib} `{E : Env} `{U : UnicodeTables} `{G : GrpcStatus} `{P : PeerCodes}
  `{EE : EventEnv}.
Variables (c : Contract) (ctx : Context) (cp : Checkpointer) (handle : EventHandler)
  (ledger : list GatewayEvent).
Context `{!CheckpointerOk cp} `{!Delivers ledger}.
Hypothesis Hledger : wf_ledger ledger.

#[local] Instance handled_keeper : Keeper (event_feed cp ledger) cp false := event_keeper cp ledger Hledger.

Lemma run_handled j tr s : @run (event_feed cp ledger) j tr s -> exists m,
  handled tr = out_event <$> take m (drop j ledger) /\ reached s = (j + m)%nat.
Proof.
  intros Hr. exists (length (handled tr)). split; [|by apply (run_count cp ledger)].
  apply (located_take cp). rewrite <- (handled_handed cp ledger). by eapply run_located.
Qed.

Lemma listen_no_gap n opts : let o := Contract_eventOptions c opts in
  forall backoff w j, ready (event_feed cp ledger) cp (startBlock o) (w_trace w) j ->
  exists new m, w_trace (snd (listen c ctx n cp handle (opts ++ [WithCheckpointer (Some cp)]) o backoff w))
      = w_trace w ++ new
    /\ handled new = out_event <$> take m (drop j ledger).
Proof.
  intros o backoff w j Hj. pose proof (listen_run c ctx cp handle ledger false n opts backoff w j Hj) as Hr.
  cbn zeta in Hr. fold o in Hr. destruct (listen _ _ _ _ _ _ _ _ _) as [r w'].
  destruct Hr as (new & s & Ht & Hr & _). destruct (run_handled _ _ _ Hr) as (m & Hh & _). by exists new, m.
Qed.

End handled.

(** Without a start block, a listener that has not recorded anything yet asks for
    no position, at its first subscription as after a broken stream: what was
    committed in between is not delivered. *)
Lemma reopened_without_position (cp : Checkpointer) (tr : trace) :
  position cp tr = (0%N, "") -> wanted (start_options None (Some cp) tr) = None.
Proof. intros Hp. unfold start_options, wanted. by rewrite Hp. Qed.

(** ** How a listener ends, and how it waits *)

Section verdicts.
Context `{X : X509Lib} `{E : Env} `{U : UnicodeTables} `{G : GrpcStatus} `{P : PeerCodes}
  `{EE : EventEnv}.
Variables (c : Contract) (ctx : Context) (cp : Checkpointer) (opts : list EventOption).

(** Each event was accepted by the handler and then, before anything else was
    asked of handler or checkpointer, recorded with success. *)
Inductive recorded_in_turn : trace -> Prop :=
| rit_none : recorded_in_turn []
| rit_event ev out calls : recorded_in_turn calls -> recorded_in_turn
    (EvHandle ev out None
     :: EvCheckpointTransaction cp_id (Event_BlockNumber ev) (Event_TxID ev) None :: calls).

Definition all_recorded (new : trace) : Prop := recorded_in_turn (listener_calls new).

(** How a run that added [new] to [base] ends. It runs on; [ctx.Err()] says at
    its end that the context ended, or a sleep was cut short; the handler
    refused the last event, or accepted it and the checkpointer failed on it,
    and the stream was closed at once; or the last attempt to subscribe failed
    for good, in a context that lives on. *)
Inductive verdict (base new : trace) : option (option error) -> Prop :=
| v_running : all_recorded new -> verdict base new None
| v_ctx e : all_recorded new -> env_ctx_Err (base ++ new) ctx = Some e -> verdict base new (Some None)
| v_sleep pre d : all_recorded pre -> new = pre ++ [EvSleep ctx d false] -> verdict base new (Some None)
| v_handler pre ev out err : all_recorded pre ->
    new = pre ++ [EvHandle ev out (Some err); EvCancel (WithCancel ctx)] ->
    verdict base new (Some (Some err))
| v_checkpoint pre ev out err : all_recorded pre ->
    new = pre ++ [EvHandle ev out None;
      EvCheckpointTransaction cp_id (Event_BlockNumber ev) (Event_TxID ev) (Some err);
      EvCancel (WithCancel ctx)] ->
    verdict base new (Some (Some err))
| v_final w w' err : all_recorded new ->
    Contract_ChaincodeEvents c ctx (opts ++ [WithCheckpointer (Some cp)]) w = (inl err, w') ->
    w_trace w' = base ++ new -> env_ctx_Err (base ++ new) ctx = None -> reconnectable err = false ->
    verdict base new (Some (Some err)).

Lemma all_recorded_app a b : all_recorded a -> all_recorded b -> all_recorded (a ++ b).
Proof.
  unfold all_recorded. rewrite listener_calls_app. intros Ha Hb.
  induction Ha as [|ev out calls _ IH]; [done|]. by apply rit_event.
Qed.

Lemma all_recorded_neutral a : forallb neutral a = true -> all_recorded a.
Proof. intros (_ & _ & H)%neutral_views. unfold all_recorded. rewrite H. constructor. Qed.

Lemma verdict_app base a b r : all_recorded a -> verdict (base ++ a) b r -> verdict base (a ++ b) r.
Proof.
  intros Ha Hv. destruct Hv as [Hb|e Hb Hc|pre d Hb ->|pre ev out err Hb ->|pre ev out err Hb ->
    |w w' err Hb Hr Ht Hc Hre]; rewrite <- ?app_assoc in *; rewrite ?(app_assoc a).
  - by apply v_running, all_recorded_app.
  - by eapply v_ctx; [apply all_recorded_app|].
  - by apply (v_sleep _ _ (a ++ pre) d); [apply all_recorded_app|].
  - by apply (v_handler _ _ (a ++ pre) ev out); [apply all_recorded_app|].
  - by apply (v_checkpoint _ _ (a ++ pre) ev out); [apply all_recorded_app|].
  - by eapply v_final; [apply all_recorded_app|..].
Qed.

End verdicts.

Lemma streamClosed_reconnectable : reconnectable streamClosed = true.
Proof. by vm_compute. Qed.

Section listener_end.
Context `{X : X509Lib} `{E : Env} `{U : UnicodeTables} `{G : GrpcStatus} `{P : PeerCodes}
  `{EE : EventEnv}.
Variables (c : Contract) (ctx : Context) (cp : Checkpointer) (handle : EventHandler).

(** The outcome of a session as the outcome of the run, when it ends the run. *)
Definition session_verdict opts (base new : trace) (r : consumed) : Prop :=
  match r with
  | out_of_fuel => verdict c ctx cp opts base new None
  | stopped err => verdict c ctx cp opts base new (Some (Some err))
  | ended _ _ => all_recorded cp new
  end.

Lemma session_verdict_app opts base a b r : all_recorded cp a ->
  session_verdict opts (base ++ a) b r -> session_verdict opts base (a ++ b) r.
Proof.
  intros Ha. destruct r; cbn [session_verdict];
    [by apply verdict_app|by apply all_recorded_app|by apply verdict_app].
Qed.

Lemma consume_spec opts n o s : s_ctx s = WithCancel ctx -> forall backoff w,
  let '(r, w') := consume n cp handle o s backoff w in
  exists new, w_trace w' = w_trace w ++ new /\ sleeps new = [] /\ session_verdict opts (w_trace w) new r
    /\ (forall err b, r = ended err b -> (b = backoff \/ b = minBackoff o)
         /\ (err = None \/ err = Some streamClosed)).
Proof.
  intros Hctx. induction n as [|n IH]; intros backoff w; simpl.
  { exists []. rewrite app_nil_r. split_and!; [done|done|by repeat constructor|done]. }
  unfold recv. run_step. set (got := EvRecv _ _).
  destruct (env_recv (w_trace w) (s_upstream s)) as [active|ge] eqn:Er.
  { eexists. split_and!; [done|done|constructor|]. intros ?? [= <- <-].
    split; [by left|]. destruct active; by auto. }
  assert (Hgot : all_recorded cp [got]) by constructor.
  run_handle. set (out := fst (handle _ _)). destruct (snd (handle _ _)) as [herr|].
  { unfold EventStream_Close. run_step. eexists. split_and!; [done|done| |done].
    rewrite Hctx. by apply (v_handler _ _ _ _ _ _ [got] (out_event ge) out). }
  unfold CheckpointTransaction. run_step. destruct (cp_CheckpointTransaction _ _ _) as [cerr|].
  { unfold EventStream_Close. run_step. eexists. split_and!; [done|done| |done].
    rewrite Hctx. by apply (v_checkpoint _ _ _ _ _ _ [got] (out_event ge) out). }
  set (step := [got] ++ _). assert (Hstep : all_recorded cp step) by (by repeat constructor).
  specialize (IH (minBackoff o) (push step w)). destruct (consume _ _ _ _ _ _ _) as [r w'].
  destruct IH as (new & Ht & Hs & Hv & Hb). exists (step ++ new).
  rewrite Ht, push_trace, <- app_assoc. rewrite push_trace in Hv.
  split_and!; [done|by rewrite sleeps_app, Hs|by apply session_verdict_app|].
  intros err b Hr. destruct (Hb err b Hr) as [[-> | ->] He]; by auto.
Qed.

(** A step of the backoff stays in the range, as long as doubling the maximum
    does not overflow an int64. *)
Lemma next_backoff_bounds o b :
  0 < minBackoff o -> maxBackoff o < 2 ^ 62 -> minBackoff o <= b <= maxBackoff o ->
  minBackoff o <= next_backoff b (maxBackoff o) <= maxBackoff o.
Proof.
  intros Hmin Hmax Hb. unfold next_backoff, wrap64.
  rewrite Z.mod_small by lia. lia.
Qed.

Lemma eventOptions_backoff opts : let o := Contract_eventOptions c opts in
  0 < minBackoff o <= maxBackoff o.
Proof.
  intros o. unfold o, Contract_eventOptions. simpl.
  destruct (Z.leb_spec (minBackoff (foldl (fun o opt => opt o)
    (mkEventOptions None None (c_chaincode c) Second (30 * Second)) opts)) 0); simpl;
    match goal with |- context [?a <? ?b] => destruct (Z.ltb_spec a b) end; unfold Second in *; lia.
Qed.

(** The end of a session, or the next one. *)
Lemma after_session_spec msg kv o err backoff w :
  let '(r, w') := after_session c ctx msg kv cp o err backoff w in
  exists a, w' = push a w /\ forallb neutral a = true /\ Forall (eq backoff) (sleeps a)
    /\ opened a = [] /\ closed a = []
    /\ match r with
       | inl (Some e) => err = Some e /\ reconnectable e = false /\ a = []
       | inl None => exists pre, a = pre ++ [EvSleep ctx backoff false] /\ forallb neutral pre = true
       | inr b => b = next_backoff backoff (maxBackoff o)
       end.
Proof.
  unfold after_session. destruct (match err with Some _ => _ | None => _ end) eqn:Er.
  { exists []. rewrite push_nil. split_and!; [done|done|constructor|done|done|].
    destruct err; [|done]. by apply negb_true_iff in Er. }
  unfold sleepCtx. do 3 run_step.
  assert (Hs : forall ls b, sleeps ((EvLog <$> ls) ++ [EvSleep ctx backoff b]) = [backoff]).
  { intros ls b. rewrite sleeps_app. unfold sleeps at 1. by rewrite logs_ignored. }
  destruct (env_sleep _ _ _); (eexists; split; [done|]); (split; [by rewrite neutral_app, neutral_logs|]);
    rewrite Hs; (split; [by repeat constructor|]); views; (split; [done|split; [done|]]); [done|].
  eexists. split; [done|apply neutral_logs].
Qed.

(** One session of the listener, the opening included: an error that ends the
    stream without ending the run is that of the opening, or says that the
    Gateway closed the stream. *)
Lemma session_spec opts n o backoff w rs a :
  let opts' := opts ++ [WithCheckpointer (Some cp)] in
  Contract_ChaincodeEvents c ctx opts' w = (rs, push a w) ->
  let '(r, w') := (match rs with inl err => mret (ended (Some err) backoff)
    | inr stream => consume n cp handle o stream backoff end) (push a w) in
  exists new, w_trace w' = w_trace w ++ new /\ sleeps new = [] /\ session_verdict opts (w_trace w) new r
    /\ (forall err b, r = ended err b -> (b = backoff \/ b = minBackoff o)
         /\ (err = None \/ err = Some streamClosed
             \/ exists e, err = Some e /\ Contract_ChaincodeEvents c ctx opts' w = (inl e, w'))).
Proof.
  intros opts' Hs. destruct (ChaincodeEvents_run c ctx opts' w) as (rs' & a' & Hs' & Hcase & _ & Has).
  rewrite Hs in Hs'. injection Hs' as <- Ha. apply app_inv_head in Ha as <-.
  assert (Har : all_recorded cp a).
  { destruct rs as [err|s]; [by apply all_recorded_neutral|].
    destruct Hcase as (a1 & net & -> & Hn & _).
    apply all_recorded_app; [by apply all_recorded_neutral|constructor]. }
  destruct rs as [err|s].
  { exists a. split_and!; try done. intros ?? [= <- <-]. split; [by left|]. right. right. by exists err. }
  assert (Hctx : s_ctx s = WithCancel ctx) by by destruct Hcase as (a1 & net & _ & _ & ? & _).
  pose proof (consume_spec opts n o s Hctx backoff (push a w)) as Hc.
  destruct (consume n cp handle o s backoff (push a w)) as [r w2].
  destruct Hc as (new & Ht & Hsl & Hv & Hbk). exists (a ++ new).
  rewrite Ht, push_trace, <- app_assoc.
  split_and!; [done|by rewrite sleeps_app, Has, Hsl|by apply session_verdict_app|].
  intros err b Hr. destruct (Hbk err b Hr) as [Hb [He|He]]; by auto.
Qed.

Lemma listen_spec n opts : let o := Contract_eventOptions c opts in
  forall backoff w,
  let '(r, w') := listen c ctx n cp handle (opts ++ [WithCheckpointer (Some cp)]) o backoff w in
  exists new, w_trace w' = w_trace w ++ new /\ verdict c ctx cp opts (w_trace w) new r
    /\ (maxBackoff o < 2 ^ 62 -> minBackoff o <= backoff <= maxBackoff o ->
        Forall (fun d => minBackoff o <= d <= maxBackoff o) (sleeps new)).
Proof.
  intros o. pose proof (eventOptions_backoff opts) as Hpos. fold o in Hpos. cbn zeta in Hpos.
  clearbody o. induction n as [|n IH]; intros backoff w; simpl.
  { exists []. rewrite app_nil_r. split_and!; [done|by repeat constructor|by constructor]. }
  destruct (ChaincodeEvents_run c ctx (opts ++ [WithCheckpointer (Some cp)]) w) as (rs & a & Hs & _).
  pose proof (session_spec opts n o backoff w rs a Hs) as Hsession.
  rewrite (bind_run _ _ _ _ _ Hs). clear Hs.
  match type of Hsession with let '(_, _) := ?x in _ => destruct x as [r w1] eqn:Hrun end.
  destruct Hsession as (new & Ht & Hsl & Hv & Hbk).
  rewrite (bind_run _ _ _ _ _ Hrun). clear Hrun.
  destruct r as [err|err b|]; cbn [session_verdict] in Hv.
  1,3: exists new; rewrite Hsl; by repeat split.
  destruct (Hbk err b eq_refl) as [Hb Herr]. unfold ctx_Err. run_M.
  destruct (env_ctx_Err _ _) as [e|] eqn:Ee; rewrite Ht in Ee.
  { exists new. rewrite Hsl. split_and!; [done|by eapply v_ctx|by constructor]. }
  match goal with |- context [after_session ?c ?x ?m ?k ?p ?o ?e ?b w1] =>
    pose proof (after_session_spec m k o e b w1) as Ha; destruct (after_session c x m k p o e b w1) as [r w2] end.
  destruct Ha as (a2 & -> & Hn & Hs2 & _ & _ & Hr).
  assert (Hbb : minBackoff o <= backoff <= maxBackoff o -> minBackoff o <= b <= maxBackoff o)
    by (intros; destruct Hb as [-> | ->]; lia).
  assert (Hf : minBackoff o <= backoff <= maxBackoff o ->
    Forall (fun d => minBackoff o <= d <= maxBackoff o) (sleeps (new ++ a2))).
  { intros ?%Hbb. rewrite sleeps_app, Hsl. simpl. eapply Forall_impl; [|exact Hs2]. by intros ? <-. }
  pose proof (all_recorded_neutral cp _ Hn) as Ha2.
  destruct r as [[e|]|b']; simpl.
  { destruct Hr as (-> & Hre & ->). exists new. simpl. rewrite Ht, Hsl, app_nil_r. split_and!; [done| |by constructor].
    destruct Herr as [?|[[= ->]|(e' & [= <-] & Ho)]]; [done|by rewrite streamClosed_reconnectable in Hre|].
    by eapply v_final. }
  { destruct Hr as (pre & -> & Hpre). exists (new ++ pre ++ [EvSleep ctx b false]). simpl. rewrite Ht, <- app_assoc.
    split_and!; [done| |auto]. apply verdict_app; [done|]. eapply v_sleep; [|done]. by apply all_recorded_neutral. }
  specialize (IH b' (push a2 w1)). destruct (listen _ _ _ _ _ _ _ _ _) as [r w2].
  destruct IH as (new' & Ht' & Hv' & Hf').
  exists ((new ++ a2) ++ new'). rewrite Ht', push_trace, Ht, !app_assoc. split_and!; [done| |].
  - apply verdict_app; [by apply all_recorded_app|]. by rewrite push_trace, Ht, <- app_assoc in Hv'.
  - intros Hmax Hm. rewrite sleeps_app. apply Forall_app. split; [auto|]. apply Hf'; [done|].
    rewrite Hr. apply next_backoff_bounds; [apply Hpos|done|auto].
Qed.

End listener_end.

(** ** Properties *)

Section listener_properties.
Context `{X : X509Lib} `{E : Env} `{U : UnicodeTables} `{G : GrpcStatus} `{P : PeerCodes}
  `{EE : EventEnv}.

(** No event is skipped or delivered twice by a listener that has a position:
    with a checkpoint that is set, or a start block, and as long as the
    checkpointer keeps its promise and the Gateway delivers the ledger from the
    position it is given, the events handed to the handler, over any number of
    broken and reopened streams, are exactly a piece of the ledger that begins
    at that position, in order. *)
Theorem ListenChaincodeEvents_no_gap (c : Contract) (ctx : Context) (n : nat) (cp : Checkpointer)
    (handle : EventHandler) (opts : list EventOption) (w : World) (ledger : list GatewayEvent)
    (p : N * string) `{!CheckpointerOk cp} `{!Delivers ledger} :
  wf_ledger ledger ->
  wanted (start_options (startBlock (Contract_eventOptions c opts)) (Some cp) (w_trace w)) = Some p ->
  exists new m,
    w_trace (snd (Contract_ListenChaincodeEvents c ctx n (Some cp) (Some handle) opts w))
      = w_trace w ++ new
    /\ handled new = out_event <$> take m (drop (index_of ledger p) ledger).
Proof.
  intros Hl Hp.
  apply (listen_no_gap c ctx cp handle ledger Hl n opts). by exists p.
Qed.

(** C27. How a listener ends, and what it has recorded then. Handler and
    checkpointer are called in turn, for the same event each time, and an event
    that the handler accepted is recorded with success before the next one is
    handed over. The run returns nil only if [ctx.Err()] says at its end that the
    context ended, or if a sleep was cut short; the handler's error if the
    handler refused the last event, which is not checkpointed; the
    checkpointer's if it failed on the last event, which the handler had
    accepted, and in both cases the stream is closed at once and nothing is
    called afterwards; any other error is the one of the last attempt to
    subscribe, and final. *)
Theorem ListenChaincodeEvents_outcome (c : Contract) (ctx : Context) (n : nat) (cp : Checkpointer)
    (handle : EventHandler) (opts : list EventOption) (w : World) :
  let '(r, w') := Contract_ListenChaincodeEvents c ctx n (Some cp) (Some handle) opts w in
  exists new, w_trace w' = w_trace w ++ new /\ verdict c ctx cp opts (w_trace w) new r.
Proof.
  unfold Contract_ListenChaincodeEvents.
  pose proof (listen_spec c ctx cp handle n opts (minBackoff (Contract_eventOptions c opts)) w) as H.
  destruct (listen _ _ _ _ _ _ _ _ _) as [r w']. destruct H as (new & Ht & Hv & _). by exists new.
Qed.

(** Reconnects are paced: every delay between two streams lies between the
    minimum and the maximum of the options, which are positive and ordered
    whatever the caller asked for, provided that doubling the maximum does not
    overflow a time.Duration. *)
Theorem ListenChaincodeEvents_backoff (c : Contract) (ctx : Context) (n : nat) (cp : Checkpointer)
    (handle : EventHandler) (opts : list EventOption) (w : World) :
  let o := Contract_eventOptions c opts in
  0 < minBackoff o <= maxBackoff o
  /\ (maxBackoff o < 2 ^ 62 ->
      exists new, w_trace (snd (Contract_ListenChaincodeEvents c ctx n (Some cp) (Some handle) opts w))
          = w_trace w ++ new
        /\ Forall (fun d => minBackoff o <= d <= maxBackoff o) (sleeps new)).
Proof.
  intros o. pose proof (eventOptions_backoff c opts) as Hpos. fold o in Hpos. cbn zeta in Hpos.
  split; [done|]. intros Hmax. unfold Contract_ListenChaincodeEvents. fold o.
  pose proof (listen_spec c ctx cp handle n opts (minBackoff o) w) as H. fold o in H. cbn zeta in H.
  destruct (listen _ _ _ _ _ _ _ _ _) as [r w']. destruct H as (new & Ht & _ & Hs).
  exists new. split; [done|]. apply Hs; [done|lia].
Qed.

(** A subscription that fails to open leaves nothing behind: [ChaincodeEvents]
    closes the Gateway it opened unless it returns a stream, which then releases
    it when it ends. *)
Theorem ChaincodeEvents_gateways (c : Contract) (ctx : Context) (opts : list EventOption) (w : World) :
  let '(r, w') := Contract_ChaincodeEvents c ctx opts w in
  exists new, w_trace w' = w_trace w ++ new
    /\ match r with
       | inl _ => closed new = opened new
       | inr s => closed new = [] /\ opened new = option_list (s_release s)
           /\ s_ctx s = WithCancel ctx
       end.
Proof.
  destruct (ChaincodeEvents_run c ctx opts w) as (r & a & -> & Hcase & Hc & _). exists a.
  split; [done|]. destruct r as [err|s]; [done|]. destruct Hcase as (a1 & net & -> & _ & Hs & Ho).
  split_and!; [done| |done]. rewrite opened_app, Ho. by rewrite app_nil_r.
Qed.

End listener_properties.

Section memory_properties.
Context `{IM : InMemoryCheckpointer} `{!InMemoryCheckpointerOk}.

(** The memory checkpointer keeps the promise of the [Checkpointer] interface:
    a checkpoint moves its position, nothing else does. *)
Theorem NewMemoryCheckpointer_ok (id : N) : CheckpointerOk (NewMemoryCheckpointer id).
Proof.
  split; unfold position, cp_BlockNumber, cp_TransactionID, NewMemoryCheckpointer, memory_state; simpl;
    intros; rewrite foldl_app; simpl.
  - rewrite bool_decide_eq_true_2 by done. by destruct (im_tx n tx (foldl (memory_step id) im_zero tr)) as [-> ->].
  - rewrite bool_decide_eq_true_2 by done. by destruct (im_block n (foldl (memory_step id) im_zero tr)) as [-> ->].
  - f_equal; f_equal; destruct ev as [| | | | | | | | | | | | | | | | | | | |id' n tx [e|]|id' n [e|]|]; simpl; try done;
      case_bool_decide; subst; naive_solver.
Qed.

End memory_properties.
