(* ===== verification/Blocks.v ===== *)
(** * Properties of the block listener

    The feed of blocks, and that [ListenBlocks] implements the protocol of
    Protocol.v over it. *)

From S2P Require Import Prelude GoStrings GoRunes Errors Classify Observe World Identity Config Client Contract Transactions Views Events Positions Protocol Listeners.
Local Open Scope Z_scope.

(** Documented behaviour of fabric-gateway: a block subscription with a position
    delivers every committed block from there, in order. *)
Class DeliversBlocks `{EE : EventEnv} : Prop :=
  delivered_block tr u b : env_recv_block tr u = Some b ->
    exists opts k, cursor tr = Some (opts, k)
      /\ forall p, wanted opts = Some p -> Block_Number b = (fst p + N.of_nat k)%N.

Section blocks.
Context `{X : X509Lib} `{E : Env} `{U : UnicodeTables} `{G : GrpcStatus} `{P : PeerCodes}
  `{EE : EventEnv}.

(** Consecutive block numbers from [j] on. *)
Fixpoint consecutive (j : N) (l : list Block) : Prop :=
  match l with
  | [] => True
  | b :: l' => Block_Number b = j /\ consecutive (j + 1) l'
  end.

(** ** The feed of blocks *)

Section feed.
Variable cp : Checkpointer.

Definition block_action (ev : Event) : action N :=
  match ev with
  | EvBlockEvents _ _ opts (Some _) => Open opts
  | EvRecvBlock _ (Some b) => Receive (Block_Number b)
  | EvHandleBlock b _ r => Hand (Block_Number b) r
  | EvCheckpointBlock id n r => if decide (id = cp_id) then Record (n, "") r else Foreign
  | EvChaincodeEvents _ _ _ _ (Some _) | EvRecv _ (Some _) | EvHandle _ _ _
  | EvCheckpointTransaction _ _ _ _ => Foreign
  | _ => Quiet
  end.

Lemma block_action_neutral ev : neutral ev = true -> block_action ev = Quiet.
Proof. intros Hn. by event_cases ev. Qed.

(** Block [j] is stored at index [j]; a position starts at its block. *)
Definition block_feed : Feed := mkFeed N _ block_action (fun j => Some (N.of_nat j))
  (fun n => (n, "")) (fun p => N.to_nat (fst p)) block_action_neutral.

#[local] Instance block_feed_distinct : Distinct block_feed.
Proof. intros i j x. simpl. intros [= <-] [= Hj]. lia. Qed.

Lemma handed_blocks tr : @handed block_feed tr = Block_Number <$> handled_blocks tr.
Proof.
  apply omap_fmap_ext. intros ev. event_cases ev; try done; simpl; by case_decide.
Qed.

Lemma located_consecutive j l : @located block_feed (N.to_nat j) (Block_Number <$> l) -> consecutive j l.
Proof.
  revert j. induction l as [|b l IH]; intros j; simpl; [done|].
  intros [Hb%located_one Hl]%(located_app _ [_]). simpl in Hb. split; [injection Hb; lia|].
  apply IH. by replace (N.to_nat (j + 1)) with (N.to_nat j + length [Block_Number b])%nat by (simpl; lia).
Qed.

#[local] Instance block_keeper `{!CheckpointerOk cp} : Keeper block_feed cp false.
Proof.
  split.
  - intros tr ev Hsv Hf. simpl in *. apply position_other; intros; intros ->; simpl in *; [done|].
    by rewrite decide_True in Hsv.
  - intros tr ev i j Hsv [= <-]. simpl in Hsv.
    assert (Hev : ev = EvCheckpointBlock cp_id (N.of_nat j) None).
    { event_cases ev; try done; simpl in Hsv; case_decide; try done. subst. by injection Hsv as ->. }
    rewrite Hev, position_block. simpl. split; [intros [=]; lia|lia].
Qed.

End feed.

(** ** The block listener implements the protocol *)

Section listener.
Variables (c : Contract) (ctx : Context) (cp : Checkpointer) (handle : BlockHandler).
Context `{!DeliversBlocks}.

#[local] Instance blocks_feed : Feed := block_feed cp.

#[export] Instance blocks_supplied : Supplies (block_feed cp)
  (fun tr n => exists u b, env_recv_block tr u = Some b /\ n = Block_Number b).
Proof.
  intros tr n (u & b & Hr & ->). destruct (delivered_block tr u b Hr) as (opts & k & Hc & Hl).
  exists opts, k. split; [done|]. intros p Hp. rewrite (Hl p Hp). simpl. f_equal. lia.
Qed.

Lemma streaming_block_recv tr u b j : streaming blocks_feed tr j -> env_recv_block tr u = Some b ->
  stored j = Some (Block_Number b) /\ streaming blocks_feed (tr ++ [EvRecvBlock u (Some b)]) (S j).
Proof.
  intros Hs Hr. split; [|by apply streaming_advance].
  eapply (streaming_stored _ _ _ _ _ Hs). by exists u, b.
Qed.

(** A session's result: the handler's or checkpointer's error, or the listener
    may go on, with nothing in hand. *)
Definition goes_on (s : pstate) (r : option (option error * Duration)) : Prop :=
  forall err b, r = Some (err, b) ->
    (exists e, err = Some (handlerError e)) \/ exists k, s = At k.

Lemma consume_blocks_run n o u : forall backoff w j,
  streaming blocks_feed (w_trace w) j ->
  let '(r, w') := consume_blocks n cp handle o u backoff w in
  exists new st, w_trace w' = w_trace w ++ new /\ run j new st /\ goes_on st r.
Proof.
  induction n as [|n IH]; intros backoff w j Hs; simpl.
  { exists [], (At j). rewrite app_nil_r. split_and!; [done|apply run_nil|done]. }
  unfold recv_block. run_step. destruct (env_recv_block (w_trace w) u) as [b|] eqn:Er.
  2:{ eexists _, (At j). split_and!; [done|apply run_one; constructor|]. intros ?? _. right. by eexists. }
  destruct (streaming_block_recv _ _ _ _ Hs Er) as [Hj Hs1].
  assert (Hrec : @action_of blocks_feed (EvRecvBlock u (Some b)) = Receive (Block_Number b)) by done.
  run_handle. destruct (snd (handle _ _)) as [herr|].
  { eexists _, (Refused j). split_and!; [done|by eapply run_refused|]. intros ?? [= <- _]. left. by eexists. }
  unfold CheckpointBlock. run_step. destruct (cp_CheckpointBlock _ _) as [cerr|].
  { eexists _, (Unrecorded j). split_and!; [done| |intros ?? [= <- _]; left; by eexists].
    eapply run_unrecorded; try done. simpl. by rewrite decide_True. }
  match goal with |- context [consume_blocks n cp handle o u ?b ?W] =>
    specialize (IH b W (S j)); destruct (consume_blocks n cp handle o u b W) as [r w'] end.
  destruct IH as (new & st & Ht & Hr & Hend).
  { rewrite push_trace, app_assoc. by apply streaming_keep. }
  eexists _, st. rewrite Ht, push_trace, <- app_assoc. split_and!; [done| |done].
  eapply run_recorded; try done. simpl. by rewrite decide_True.
Qed.

Context (early : bool) `{!Keeper blocks_feed cp early}.

(** A session: the Gateway, the subscription, the loop, and the deferred stop and
    release. *)
Lemma blockSession_run n o backoff w j :
  ready blocks_feed cp (startBlock o) (w_trace w) j ->
  let '(r, w') := blockSession c ctx n cp handle o backoff w in
  exists new st, w_trace w' = w_trace w ++ new /\ run j new st /\ goes_on st r.
Proof.
  intros Hr. unfold blockSession. destruct (gateway_run c w) as (g & a & Hg & Ha).
  rewrite (bind_run _ _ _ _ _ Hg). pose proof (neutral_acquires _ _ _ _ Ha) as Hn.
  assert (Hat : forall err b, goes_on (At j) (Some (err, b))) by (intros ????; right; by eexists).
  destruct g as [err|[gw rel]].
  { exists a, (At j). split_and!; [done|by apply run_neutral|apply Hat]. }
  run_step. unfold call_BlockEvents. run_step.
  assert (Hra : ready blocks_feed cp (startBlock o) (w_trace w ++ a) j) by by eapply ready_quiet.
  destruct (env_BlockEvents _ _ _ _) as [err|u]; cbv iota.
  - rewrite (bind_run (mret _) _ _ _ _ eq_refl). cbv iota. do 2 run_step. eexists _, (At j).
    split_and!; [done| |apply Hat]. apply run_neutral. by rewrite !neutral_app, Hn, neutral_closes.
  - set (w1 := push _ w). pose proof (consume_blocks_run n o u backoff w1 j) as Hc.
    destruct (consume_blocks n cp handle o u backoff w1) as [r w2] eqn:Er.
    destruct Hc as (new & st & Ht & Hst & Hend).
    { unfold w1. rewrite push_trace, app_assoc. by eapply streaming_opened. }
    rewrite (bind_run _ _ _ _ _ Er). unfold w1 in Ht. rewrite push_trace, <- !app_assoc in Ht.
    assert (Hrun : forall n' x gopts, gopts = start_options (startBlock o) (Some cp) (w_trace w ++ a) ->
      run j (a ++ [EvBlockEvents n' x gopts (Some u)] ++ new) st).
    { intros n' x gopts ->. apply (run_app j j); [by apply run_neutral|]. apply (run_app j j); [|done].
      destruct Hra as (p & Hp & Hj). by eapply run_opened. }
    destruct r as [r|]; cbv iota beta.
    2:{ eexists _, st. split_and!; [exact Ht| |done]. simpl. by apply Hrun. }
    do 2 run_step. set (fin := [EvCancel _] ++ closes rel).
    assert (Hf : forallb neutral fin = true) by apply neutral_closes.
    eexists _, st. split_and!; [by rewrite push_trace, Ht, <- app_assoc| |done].
    apply run_quiet; [by apply Hrun|done].
Qed.

(** A run: sessions, and pauses between them. *)
Lemma listen_blocks_run n o : forall backoff w j,
  ready blocks_feed cp (startBlock o) (w_trace w) j ->
  exists new st, w_trace (snd (listen_blocks c ctx n cp handle o backoff w)) = w_trace w ++ new
    /\ run j new st.
Proof.
  induction n as [|n IH]; intros backoff w j Hr; simpl.
  { exists [], (At j). rewrite app_nil_r. split; [done|apply run_nil]. }
  pose proof (blockSession_run n o backoff w j Hr) as Hs.
  destruct (blockSession c ctx n cp handle o backoff w) as [r w1] eqn:Er.
  destruct Hs as (new & st & Ht & Hst & Hend). rewrite (bind_run _ _ _ _ _ Er).
  destruct r as [[err b]|]; [|by exists new, st].
  unfold ctx_Err. run_M. destruct (env_ctx_Err _ _); [by exists new, st|].
  destruct (errors_As is_handler err) as [herr|] eqn:Eh; [by exists new, st|].
  destruct (Hend err b eq_refl) as [[e ->]|[k ->]]; [done|].
  match goal with |- context [after_session ?c ?x ?m ?k ?p ?o ?e ?b w1] =>
    destruct (after_session_run c x m k p o e b w1) as (r & a & -> & Hn) end.
  assert (Hna : run j (new ++ a) (At k)) by by apply run_quiet.
  destruct r as [r|b']; simpl.
  { exists (new ++ a), (At k). by rewrite Ht, app_assoc. }
  destruct (IH b' (push a w1) k) as (new' & st' & Ht' & Hst').
  { rewrite push_trace, Ht, <- app_assoc. by apply (run_ready _ _ early _ _ j _ (At k)). }
  exists ((new ++ a) ++ new'), st'. rewrite Ht', push_trace, Ht, !app_assoc. split; [done|].
  by eapply run_app.
Qed.

End listener.

(** No block is skipped or delivered twice by a block listener that has a
    position: with a checkpoint that is set, or a start block, the blocks handed
    to the handler over any number of sessions are numbered consecutively from
    there, as long as the checkpointer keeps its promise and the Gateway delivers
    blocks from the position it is given. *)
Theorem ListenBlocks_no_gap (c : Contract) (ctx : Context) (n : nat) (cp : Checkpointer)
    (handle : BlockHandler) (opts : list EventOption) (w : World) (p : N * string)
    `{!CheckpointerOk cp} `{!DeliversBlocks} :
  wanted (start_options (startBlock (Contract_eventOptions c opts)) (Some cp) (w_trace w)) = Some p ->
  exists new,
    w_trace (snd (Contract_ListenBlocks c ctx n (Some cp) (Some handle) opts w)) = w_trace w ++ new
    /\ consecutive (fst p) (handled_blocks new).
Proof.
  intros Hp. destruct (listen_blocks_run c ctx cp handle false (Keeper0 := block_keeper cp) n
    (Contract_eventOptions c opts) (minBackoff (Contract_eventOptions c opts)) w (N.to_nat (fst p)))
    as (new & st & Ht & Hr); [by exists p|].
  exists new. split; [exact Ht|]. apply located_consecutive with cp. rewrite <- (handed_blocks cp).
  by eapply run_located.
Qed.

End blocks.
