(* ===== verification/Restarts.v ===== *)
(** * Killed and started again

    A service that listens is a sequence of processes: each opens its client anew,
    listens from the position its checkpointer holds, and may be killed at any
    point, between any two calls. These theorems say what its handler accepts over
    all of them. They are the consequences of Protocol.v at the two feeds. *)

From S2P Require Import Prelude GoStrings GoRunes Errors Classify Observe World Identity Config Client Contract Transactions Views Events Positions Protocol Listeners Blocks.

(** What the handler accepted. *)
Definition accepted_of (ev : Event) : option ChaincodeEvent :=
  match ev with EvHandle e _ None => Some e | _ => None end.
Definition accepted_block_of (ev : Event) : option Block :=
  match ev with EvHandleBlock b _ None => Some b | _ => None end.
Definition accepted : trace -> list ChaincodeEvent := omap accepted_of.
Definition accepted_blocks : trace -> list Block := omap accepted_block_of.

(** "Implement [Checkpointer] on your database and save the position in the same
    transaction as your data": the position moves when the handler returns nil,
    not later, and the listener's own checkpoint saves the same position again. *)
Class TransactionalCheckpointer `{EE : EventEnv} (cp : Checkpointer) : Prop := {
  tc_event tr e out : position cp (tr ++ [EvHandle e out None]) = event_pos e;
  tc_block tr b out : position cp (tr ++ [EvHandleBlock b out None]) = (Block_Number b + 1, "")%N;
  tc_checkpoint_tx tr n tx :
    position cp (tr ++ [EvCheckpointTransaction cp_id n tx None]) = (n, tx);
  tc_checkpoint_block tr n :
    position cp (tr ++ [EvCheckpointBlock cp_id n None]) = (n + 1, "")%N;
  tc_other tr ev : accepted_of ev = None -> accepted_block_of ev = None ->
    (forall n tx, ev <> EvCheckpointTransaction cp_id n tx None) ->
    (forall n, ev <> EvCheckpointBlock cp_id n None) ->
    position cp (tr ++ [ev]) = position cp tr }.

(** ** Both feeds, with a transactional checkpointer *)

Section transactional.
Context `{EE : EventEnv} (cp : Checkpointer) `{!TransactionalCheckpointer cp}.

Lemma event_keeper_early ledger : wf_ledger ledger -> Keeper (event_feed cp ledger) cp true.
Proof.
  intros Hl. split.
  - intros tr ev Hsv Hf. apply tc_other; [| |intros; intros ->..]; simpl in *.
    + by event_cases ev.
    + by destruct ev.
    + by rewrite decide_True in Hsv.
    + done.
  - intros tr ev i j Hsv (ge & Hj & ->)%stored_event. simpl in Hsv.
    assert (Hp : position cp (tr ++ [ev]) = event_pos (out_event ge)).
    { event_cases ev; try done; simpl in Hsv; try case_decide; try done.
      - injection Hsv as H1 H2. rewrite tc_event. unfold event_pos. by rewrite H1, H2.
      - subst. injection Hsv as -> ->. apply tc_checkpoint_tx. }
    rewrite Hp. simpl. split.
    + intros [= _ Ht]. by eapply ledger_tx.
    + by apply (index_of_event ledger j ge).
Qed.

Lemma block_keeper_early : Keeper (block_feed cp) cp true.
Proof.
  split.
  - intros tr ev Hsv Hf. apply tc_other; [| |intros; intros ->..]; simpl in *.
    + by destruct ev.
    + by event_cases ev.
    + done.
    + by rewrite decide_True in Hsv.
  - intros tr ev i j Hsv [= <-]. simpl in Hsv.
    assert (Hp : position cp (tr ++ [ev]) = (N.of_nat j + 1, "")%N).
    { event_cases ev; try done; simpl in Hsv; try case_decide; try done.
      - injection Hsv as Hb. by rewrite tc_block, Hb.
      - subst. injection Hsv as ->. apply tc_checkpoint_block. }
    rewrite Hp. simpl. split; [intros [=]; lia|lia].
Qed.

End transactional.

Section views.
Context `{EE : EventEnv} (cp : Checkpointer) (ledger : list GatewayEvent).

Lemma applied_accepted tr : @applied (event_feed cp ledger) tr = accepted tr.
Proof.
  apply omap_ext. intros ev. event_cases ev; try done; simpl; by case_decide.
Qed.

Lemma applied_blocks tr : @applied (block_feed cp) tr = Block_Number <$> accepted_blocks tr.
Proof.
  apply omap_fmap_ext. intros ev. event_cases ev; try done; simpl; by case_decide.
Qed.

Lemma applied_blocks_lives ls :
  concat (@applied (block_feed cp) <$> ls) = Block_Number <$> concat (accepted_blocks <$> ls).
Proof.
  induction ls as [|a ls IH]; [done|]. rewrite !fmap_cons, !concat_cons.
  by rewrite IH, applied_blocks, fmap_app.
Qed.

Lemma located_numbers j l : @located (block_feed cp) j l -> l = N.of_nat <$> seq j (length l).
Proof.
  intros H. apply list_eq. intros i. rewrite list_lookup_fmap. destruct (l !! i) as [x|] eqn:Hx.
  - rewrite lookup_seq_lt by by eapply lookup_lt_Some. apply H in Hx. simpl in Hx. by injection Hx as <-.
  - by rewrite lookup_seq_ge by by apply lookup_ge_None.
Qed.

(** What processes that follow the protocol accept, whatever else they do. *)
Lemma accepted_at_least_once `{!CheckpointerOk cp} start life tr ls p : wf_ledger ledger ->
  (forall tr a j, life tr a -> ready (event_feed cp ledger) cp start tr j ->
    exists s, @run (event_feed cp ledger) j a s) ->
  wanted (start_options start (Some cp) tr) = Some p -> lives life tr ls ->
  let seen := concat (accepted <$> ls) in
  exists m, squeeze seen = out_event <$> take m (drop (index_of ledger p) ledger)
    /\ length seen <= length (squeeze seen) + pred (length ls).
Proof.
  intros Hl Hlife Hp Hls. pose proof (event_keeper cp ledger Hl). pose proof (event_feed_distinct cp ledger Hl).
  assert (Hr : ready (event_feed cp ledger) cp start tr (index_of ledger p)) by by exists p.
  pose proof (lives_cover cp false _ _ _ _ _ Hlife Hls Hr) as Hc.
  apply covers_squeeze in Hc as [Hloc Hlen]. rewrite length_fmap in Hlen.
  rewrite (list_fmap_ext _ accepted) in * by (intros; apply applied_accepted).
  exists (length (squeeze (concat (accepted <$> ls)))). split; [by apply (located_take cp)|done].
Qed.

End views.

(** ** A life *)

Section restarts.
Context `{X : X509Lib} `{E : Env} `{U : UnicodeTables} `{G : GrpcStatus} `{P : PeerCodes}
  `{EE : EventEnv}.
Variables (channel cc : string) (cp : Checkpointer) (opts : list EventOption).

(** A handle on the service's channel and chaincode, of whatever client and
    identity. *)
Definition service_handle (c : Contract) : Prop := c_channel c = channel /\ c_chaincode c = cc.

(** The start block that the options ask for, whatever the handle. *)
Definition service_start : option N :=
  startBlock (foldl (fun o opt => opt o) (mkEventOptions None None cc Second (30 * Second)%Z) opts).

Lemma service_start_handle c : service_handle c -> startBlock (Contract_eventOptions c opts) = service_start.
Proof. intros [_ Hc]. unfold Contract_eventOptions, service_start. by rewrite Hc. Qed.

(** A process that calls the listener after [tr] and is killed when [a] has been
    done (or the listener returned). *)
Definition event_life (tr a : trace) : Prop := exists c ctx n handle w later,
  service_handle c /\ w_trace w = tr
  /\ w_trace (snd (Contract_ListenChaincodeEvents c ctx n (Some cp) (Some handle) opts w)) = tr ++ a ++ later.
Definition block_life (tr a : trace) : Prop := exists c ctx n handle w later,
  service_handle c /\ w_trace w = tr
  /\ w_trace (snd (Contract_ListenBlocks c ctx n (Some cp) (Some handle) opts w)) = tr ++ a ++ later.

(** A life is a run of the protocol. *)
Lemma event_life_run ledger early `{!Delivers ledger} `{!Keeper (event_feed cp ledger) cp early} tr a j :
  event_life tr a -> ready (event_feed cp ledger) cp service_start tr j ->
  exists s, @run (event_feed cp ledger) j a s.
Proof.
  intros (c & ctx & n & handle & w & later & Hc & <- & Ht) Hj.
  rewrite <- (service_start_handle c Hc) in Hj.
  pose proof (listen_run c ctx cp handle ledger early n opts (minBackoff (Contract_eventOptions c opts)) w j Hj) as Hr.
  cbn zeta in Hr. unfold Contract_ListenChaincodeEvents in Ht. cbn zeta in Ht.
  destruct (listen _ _ _ _ _ _ _ _ _) as [r w']. destruct Hr as (new & s & Ht' & Hr & _). simpl in Ht.
  rewrite Ht' in Ht. apply app_inv_head in Ht as ->. by apply run_prefix in Hr.
Qed.

Lemma block_life_run early `{!DeliversBlocks} `{!Keeper (block_feed cp) cp early} tr a j :
  block_life tr a -> ready (block_feed cp) cp service_start tr j -> exists s, @run (block_feed cp) j a s.
Proof.
  intros (c & ctx & n & handle & w & later & Hc & <- & Ht) Hj.
  rewrite <- (service_start_handle c Hc) in Hj.
  destruct (listen_blocks_run c ctx cp handle early n (Contract_eventOptions c opts)
    (minBackoff (Contract_eventOptions c opts)) w j Hj) as (new & s & Ht' & Hr).
  unfold Contract_ListenBlocks in Ht. cbn zeta in Ht.
  rewrite Ht' in Ht. apply app_inv_head in Ht as ->. by apply run_prefix in Hr.
Qed.

(** ** Properties *)

(** C4. At least once. "A crash between your handler and the checkpoint can deliver an
    event again": over any number of processes, each killed at any point, the
    handler accepts the ledger's events from the service's position on, in order
    and without a gap, and the only repeats are immediate: at most one per
    restart, of the event accepted last. A handler that drops an event equal to
    the last one it accepted sees each exactly once. *)
Theorem ListenChaincodeEvents_at_least_once (ledger : list GatewayEvent) (tr : trace) (ls : list trace)
    (p : N * string) `{!CheckpointerOk cp} `{!Delivers ledger} :
  wf_ledger ledger ->
  wanted (start_options service_start (Some cp) tr) = Some p ->
  lives event_life tr ls ->
  let seen := concat (accepted <$> ls) in
  exists m, squeeze seen = out_event <$> take m (drop (index_of ledger p) ledger)
    /\ length seen <= length (squeeze seen) + pred (length ls).
Proof.
  intros Hl Hp Hls. pose proof (event_keeper cp ledger Hl).
  apply (accepted_at_least_once cp ledger service_start event_life tr ls p); [done| |done|done].
  intros tr' a j. apply (event_life_run ledger false).
Qed.

(** C5. Exactly once. With a checkpointer that commits with the handler's data, the
    handler accepts each event of the ledger from the service's position on once,
    in order and without a gap, over any number of processes killed at any
    point. *)
Theorem ListenChaincodeEvents_exactly_once (ledger : list GatewayEvent) (tr : trace) (ls : list trace)
    (p : N * string) `{!TransactionalCheckpointer cp} `{!Delivers ledger} :
  wf_ledger ledger ->
  wanted (start_options service_start (Some cp) tr) = Some p ->
  lives event_life tr ls ->
  exists m, concat (accepted <$> ls) = out_event <$> take m (drop (index_of ledger p) ledger).
Proof.
  intros Hl Hp Hls. pose proof (event_keeper_early cp ledger Hl).
  assert (Hr : ready (event_feed cp ledger) cp service_start tr (index_of ledger p)) by by exists p.
  pose proof (lives_cover cp true _ _ _ _ _ (fun tr a j => event_life_run ledger true tr a j) Hls Hr) as Hc.
  apply covers_exactly in Hc. rewrite (list_fmap_ext _ accepted) in Hc by (intros; apply applied_accepted).
  exists (length (concat (accepted <$> ls))). by apply (located_take cp).
Qed.

(** C11. The same of [ListenBlocks]: the numbers of the blocks that the handler accepts
    are consecutive from the service's position on, but for at most one immediate
    repeat per restart. *)
Theorem ListenBlocks_at_least_once (tr : trace) (ls : list trace) (p : N * string)
    `{!CheckpointerOk cp} `{!DeliversBlocks} :
  wanted (start_options service_start (Some cp) tr) = Some p ->
  lives block_life tr ls ->
  let seen := Block_Number <$> concat (accepted_blocks <$> ls) in
  exists m, squeeze seen = N.of_nat <$> seq (N.to_nat (fst p)) m
    /\ length seen <= m + pred (length ls).
Proof.
  intros Hp Hls. pose proof (block_keeper cp). pose proof (block_feed_distinct cp).
  assert (Hr : ready (block_feed cp) cp service_start tr (N.to_nat (fst p))) by by exists p.
  pose proof (lives_cover cp false _ _ _ _ _ (fun tr a j => block_life_run false tr a j) Hls Hr) as Hc.
  apply covers_squeeze in Hc as [Hloc Hlen]. rewrite length_fmap in Hlen. rewrite applied_blocks_lives in *.
  eexists. split; [by apply (located_numbers cp)|done].
Qed.

(** and with a transactional checkpointer they are consecutive. *)
Theorem ListenBlocks_exactly_once (tr : trace) (ls : list trace) (p : N * string)
    `{!TransactionalCheckpointer cp} `{!DeliversBlocks} :
  wanted (start_options service_start (Some cp) tr) = Some p ->
  lives block_life tr ls ->
  exists m, Block_Number <$> concat (accepted_blocks <$> ls) = N.of_nat <$> seq (N.to_nat (fst p)) m.
Proof.
  intros Hp Hls. pose proof (block_keeper_early cp).
  assert (Hr : ready (block_feed cp) cp service_start tr (N.to_nat (fst p))) by by exists p.
  pose proof (lives_cover cp true _ _ _ _ _ (fun tr a j => block_life_run true tr a j) Hls Hr) as Hc.
  apply covers_exactly in Hc. rewrite applied_blocks_lives in Hc. eexists. by apply (located_numbers cp).
Qed.

End restarts.
