(* ===== verification/Commands.v ===== *)
(** * The example commands (examples/basic/main.go, examples/events/main.go)

    Programs on top of the SDK's API. [log.Fatalf] ends the process at once, so a
    command may end without its deferred calls; what a command prints, and what
    the handler prints that it passes to a listener, is the call that prints it,
    with its arguments. *)

From S2P Require Import Prelude GoStrings GoRunes Errors Classify Observe World Identity Config Client Contract Transactions Views Lifecycle Events Positions Protocol Listeners Blocks Restarts.
Local Open Scope Z_scope.

(** ** Commands *)

(** A command returned, its process ended in [log.Fatalf], or it is still running
    (a listener out of fuel). *)
Inductive status (A : Type) := finished (x : A) | exited | running.
#[global] Arguments finished {A}.
#[global] Arguments exited {A}.
#[global] Arguments running {A}.

(** The actions are kept apart from the SDK's trace. *)
Definition Cmd (A : Type) : Type := World -> status A * list Action * World.

#[export] Instance Cmd_ret : MRet Cmd := fun A x w => (finished x, [], w).
#[export] Instance Cmd_bind : MBind Cmd := fun A B f m w =>
  let '(r, out, w1) := m w in
  match r with
  | finished x => let '(r, out', w2) := f x w1 in (r, out ++ out', w2)
  | exited => (exited, out, w1)
  | running => (running, out, w1)
  end.

(** What the caller's handlers printed in a piece of a run. *)
Definition handler_output_of (ev : Event) : option (list Action) :=
  match ev with EvHandle _ out _ | EvHandleBlock _ out _ => Some out | _ => None end.
Definition handler_output (tr : trace) : list Action := concat (omap handler_output_of tr).

(** A call of the SDK: the handlers that it called print on the output of the
    command. *)
Definition call {A} (m : M A) : Cmd A := fun w =>
  let '(x, w') := m w in
  (finished x, handler_output (drop (length (w_trace w)) (w_trace w')), w').
Definition act (a : Action) : Cmd unit := fun w => (finished tt, [a], w).
Definition Fatalf {A} (format : string) (args : list fmtArg) : Cmd A :=
  fun w => (exited, [actFatalf format args], w).

(** [defer d; m]: [d] runs when [m] returns, not when the process exits. *)
Definition deferring {A} (d : Cmd unit) (m : Cmd A) : Cmd A := x ← m; _ ← d; mret x.

Definition Minute : Duration := 60 * Second.

Section commands.
Context `{X : X509Lib} `{F : FileSystem} `{T : TLSLib} `{E : Env} `{U : UnicodeTables}
  `{G : GrpcStatus} `{P : PeerCodes} `{L : LedgerProto} `{EE : EventEnv}.
(** [os.Getenv] *)
Variable getenv : string -> string.

(** ** examples/basic *)

Definition basic_mustEnv (key : string) : Cmd string :=
  let v := getenv key in
  if bool_decide (v = "") then Fatalf "required env var %s is not set" [argString key] else mret v.

Definition basic_config : Cmd Config :=
  peerEndpoint ← basic_mustEnv "PEER_ENDPOINT";
  let hostOverride := getenv "PEER_HOST_OVERRIDE" in
  tlsCertPath ← basic_mustEnv "TLS_CERT_PATH";
  certPath ← basic_mustEnv "CERT_PATH";
  keyPath ← basic_mustEnv "KEY_PATH";
  mspID ← basic_mustEnv "MSP_ID";
  channel ← basic_mustEnv "CHANNEL";
  chaincode ← basic_mustEnv "CHAINCODE";
  mret (mkConfig peerEndpoint hostOverride tlsCertPath "" "" None [] None mspID certPath keyPath
    channel chaincode "" 0 0 0 0 false None None).

(** The reads after the write. *)
Definition basic_reads (fc : FabricClient) (ctx : Context) (assetID : string) : Cmd unit :=
  raw ← call (FabricClient_Evaluate fc (Some ctx) "ReadAsset" [assetID]);
  match raw with
  | inl err => Fatalf "ReadAsset: %v" [argError (Some err)]
  | inr raw =>
    _ ← act (actPrintf "asset: %s" [argBytes raw]);
    r ← call (FabricClient_Evaluate fc (Some ctx) "ReadAsset" ["does-not-exist"]);
    let err := error_of r in
    _ ← (if IsNotFound err then act (actPrintln "missing asset reported as NotFound")
         else match err with
              | Some _ => act (actPrintf "unexpected error kind %s: %v" [argString (KindOf err); argError err])
              | None => mret tt
              end);
    height ← call (FabricClient_Height fc (Some ctx));
    match height with
    | inr height => act (actPrintf "channel height: %d" [argUint height])
    | inl _ => mret tt
    end
  end.

(** From the write to the end of [main]. *)
Definition basic_session (fc : FabricClient) (ctx : Context) : Cmd unit :=
  t ← call now;
  let assetID := "asset-" +:+ pretty t in
  res ← call (FabricClient_Submit fc (Some ctx) "CreateAsset" [assetID; "blue"; "5"; "Tomoko"; "300"]);
  match res with
  | inl err =>
      let plain := Fatalf "CreateAsset: %v" [argError (Some err)] in
      match asError (Some err) with
      | Some fe =>
          if Error_OutcomeUnknown fe then
            st ← call (FabricClient_TxStatus fc (Some ctx) (Error_TxID fe));
            let '(st, serr) := match st with inl e => (None, Some e) | inr st => (Some st, None) end in
            Fatalf "outcome unknown for %s: status=%+v err=%v"
              [argString (Error_TxID fe); argTxStatus st; argError serr]
          else plain
      | None => plain
      end
  | inr res =>
    _ ← act (actPrintf "committed tx %s in block %d" [argString (Result_TxID res); argUint (Result_BlockNumber res)]);
    basic_reads fc ctx assetID
  end.

Definition basic_main : Cmd unit :=
  cfg ← basic_config;
  fc ← call (New cfg);
  match fc with
  | inl err => Fatalf "connect: %v" [argError (Some err)]
  | inr fc =>
    deferring (_ ← call (FabricClient_Close fc); mret tt) (
      t ← call now;
      let ctx := WithDeadline Background (t + 2 * Minute) in
      deferring (call (cancel ctx)) (basic_session fc ctx))
  end.

(** ** examples/events *)

Definition events_mustEnv (key : string) : Cmd string :=
  let v := getenv key in
  if bool_decide (v = "") then Fatalf "required env var %s is not set" [argString key] else mret v.

Definition events_config : Cmd Config :=
  peerEndpoint ← events_mustEnv "PEER_ENDPOINT";
  let hostOverride := getenv "PEER_HOST_OVERRIDE" in
  tlsCertPath ← events_mustEnv "TLS_CERT_PATH";
  certPath ← events_mustEnv "CERT_PATH";
  keyPath ← events_mustEnv "KEY_PATH";
  mspID ← events_mustEnv "MSP_ID";
  channel ← events_mustEnv "CHANNEL";
  chaincode ← events_mustEnv "CHAINCODE";
  mret (mkConfig peerEndpoint hostOverride tlsCertPath "" "" None [] None mspID certPath keyPath
    channel chaincode "" 0 0 0 0 false None None).

(** fabric-gateway's [NewFileCheckpointer]. *)
Variable client_NewFileCheckpointer : string -> error + Checkpointer.

(** The handler prints one line and accepts the event. *)
Definition event_line (ev : ChaincodeEvent) : Action :=
  actPrintf "block=%d tx=%s event=%s payload=%s"
    [argUint (Event_BlockNumber ev); argString (Event_TxID ev); argString (Event_EventName ev);
     argBytes (Event_Payload ev)].
Definition events_handler : EventHandler := fun _ ev => ([event_line ev], None).

(** From the checkpoint to the end of [main]; [n] bounds the listener. The context
    of [signal.NotifyContext] is a child of the background that a signal
    cancels. *)
Definition events_session (n : nat) (fc : FabricClient) : Cmd unit :=
  match NewFileCheckpointer client_NewFileCheckpointer "checkpoint.json" with
  | inl err => Fatalf "checkpoint: %v" [argError (Some err)]
  | inr cp =>
    deferring (act (actCheckpointerClose (@cp_id cp))) (
      let ctx := WithCancel Background in
      deferring (call (cancel ctx)) (
        tr ← call get_trace;
        _ ← act (actPrintf "listening from block %d (tx %q)"
                   [argUint (@cp_BlockNumber cp tr); argString (@cp_TransactionID cp tr)]);
        r ← call (FabricClient_ListenChaincodeEvents fc ctx n (Some cp) (Some events_handler) [FromBlock 0]);
        match r with
        | None => fun w => (running, [], w)
        | Some (Some err) => Fatalf "listener stopped: %v" [argError (Some err)]
        | Some None => act (actPrintln "stopped")
        end))
  end.

Definition events_main (n : nat) : Cmd unit :=
  cfg ← events_config;
  fc ← call (New cfg);
  match fc with
  | inl err => Fatalf "connect: %v" [argError (Some err)]
  | inr fc => deferring (_ ← call (FabricClient_Close fc); mret tt) (events_session n fc)
  end.

End commands.

(** ** What the commands' calls leave alone *)

(** Calls that write no transaction, and do not concern a listener. *)
Definition calm_event (ev : Event) : bool :=
  match ev with
  | EvEndorse _ _ _ | EvSubmit _ _ _ | EvCommitStatus _ _ _ => false
  | _ => neutral ev
  end.
Definition calm (ev : Event) : Prop := calm_event ev = true.

(** The transactions sent to the orderer. *)
Definition submission_of (ev : Event) : option Transaction :=
  match ev with EvSubmit t _ _ => Some t | _ => None end.
Definition submissions : trace -> list Transaction := omap submission_of.

Lemma submissions_app a b : submissions (a ++ b) = submissions a ++ submissions b.
Proof. apply omap_app. Qed.

Lemma calm_neutral a : Forall calm a -> forallb neutral a = true.
Proof. induction 1 as [|ev a H _ IH]; [done|]. simpl. rewrite IH, andb_true_r. by destruct ev; try discriminate H. Qed.

Section calm.
Context `{X : X509Lib} `{F : FileSystem} `{T : TLSLib} `{E : Env} `{U : UnicodeTables}
  `{G : GrpcStatus} `{P : PeerCodes} `{L : LedgerProto} `{EE : EventEnv}.

Lemma calm_views a : Forall calm a ->
  existsb was_sent (rpcs a) = false /\ existsb is_status (rpcs a) = false /\ submissions a = [].
Proof.
  induction 1 as [|ev a Hev _ (H1 & H2 & H3)]; [done|]. rewrite rpcs_cons.
  by destruct ev; try discriminate Hev; split_and!.
Qed.

(** Around a piece of a run, calm calls change nothing about its transaction. *)
Lemma in_doubt_between a b c : Forall calm a -> Forall calm c ->
  in_doubt (rpcs (a ++ b ++ c)) = in_doubt (rpcs b).
Proof.
  intros (Ha1 & Ha2 & _)%calm_views (Hc1 & Hc2 & _)%calm_views. unfold in_doubt.
  by rewrite !rpcs_app, !existsb_app, Ha1, Ha2, Hc1, Hc2, !orb_false_r.
Qed.

Lemma submissions_between a b c : Forall calm a -> Forall calm c ->
  submissions (a ++ b ++ c) = submissions b.
Proof.
  intros (_ & _ & Ha)%calm_views (_ & _ & Hc)%calm_views.
  by rewrite !submissions_app, Ha, Hc, app_nil_r.
Qed.

Lemma calm_emit ev : calm_event ev = true -> emits calm (emit [ev]).
Proof. intros H. by apply emits_emit, list.Forall_singleton. Qed.

Ltac solve_calm :=
  solve_emits_with ltac:(unfold calm; done); try (apply calm_emit; done).

Lemma cancel_calm ctx : emits calm (cancel ctx).
Proof. solve_calm. Qed.

Lemma release_calm rel : emits calm (release rel).
Proof. unfold release, Gateway_Close. solve_calm. Qed.

Lemma connect_calm fc id : emits calm (connect fc id).
Proof. unfold connect, client_Connect. solve_calm. Qed.

Lemma gateway_calm c : emits calm (Contract_gateway c).
Proof. unfold Contract_gateway. solve_calm. Qed.

Lemma withDefaultTimeout_calm ctx d : emits calm (withDefaultTimeout ctx d).
Proof. unfold withDefaultTimeout. solve_calm. Qed.

Lemma observe_calm c op fn id t err : emits calm (observe c op fn id t err).
Proof. unfold observe. solve_calm. Qed.

#[local] Hint Resolve release_calm withDefaultTimeout_calm observe_calm gateway_calm cancel_calm : go.

Lemma EvaluateWith_calm c ctx fn opts : emits calm (Contract_EvaluateWith c ctx fn opts).
Proof. unfold Contract_EvaluateWith, NewProposal, EvaluateWithContext. cbv zeta. solve_calm; eauto with go. Qed.

Lemma qscc_calm c ctx fn args : emits calm (qscc c ctx fn args).
Proof. unfold qscc, NewProposal, EvaluateWithContext. solve_calm; eauto with go. Qed.
#[local] Hint Resolve qscc_calm : go.

Lemma TxStatus_calm c ctx txID : emits calm (Contract_TxStatus c ctx txID).
Proof. unfold Contract_TxStatus. cbv zeta. solve_calm; eauto with go. Qed.

Lemma Height_calm c ctx : emits calm (Contract_Height c ctx).
Proof. unfold Contract_Height. cbv zeta. solve_calm; eauto with go. Qed.

Lemma Identity_Close_calm i : emits calm (Identity_Close i).
Proof. unfold Identity_Close, call_CloseFn. solve_calm; eauto with go. Qed.

Lemma Close_calm fc : emits calm (FabricClient_Close fc).
Proof.
  unfold FabricClient_Close, Gateway_Close, Conn_Close. solve_calm.
  apply Identity_Close_calm.
Qed.

Lemma LoadIdentity_calm m c k : emits calm (LoadIdentity m c k).
Proof. unfold LoadIdentity, IdentityFromPEM, NewIdentity. solve_calm. Qed.

Lemma New_calm cfg : emits calm (New cfg).
Proof.
  unfold New, build, clientIdentity, grpc_NewClient, Conn_Close. cbv zeta. solve_calm; eauto with go.
  apply LoadIdentity_calm.
Qed.

(** ** Rules for commands *)

(** No handler prints between two worlds of a run. *)
Definition hushed (w w' : World) : Prop :=
  exists a, w_trace w' = w_trace w ++ a /\ handler_output a = [].

Lemma hushed_output w w' : hushed w w' ->
  handler_output (drop (length (w_trace w)) (w_trace w')) = [].
Proof. intros (a & -> & Ha). by rewrite drop_app_length. Qed.

(** Calls of anything but a handler. *)
Definition mute (ev : Event) : Prop := handler_output_of ev = None.

Lemma emits_hushed {A} (m : M A) : emits mute m -> forall w, hushed w (snd (m w)).
Proof.
  intros Hm w. destruct (Hm w) as (a & Ha & Hc). exists a. split; [done|]. clear Ha.
  induction Hc as [|ev a Hev _ IH]; [done|]. unfold handler_output in *. simpl. by rewrite Hev.
Qed.

Lemma calm_mute {A} (m : M A) : emits calm m -> emits mute m.
Proof.
  intros Hm w. destruct (Hm w) as (a & Ha & Hc). exists a. split; [done|].
  eapply Forall_impl; [|exact Hc]. intros ev Hev. by destruct ev; try discriminate Hev.
Qed.

Lemma calm_hushed w w' a : w_trace w' = w_trace w ++ a -> Forall calm a -> hushed w w'.
Proof.
  intros Ha Hc. exists a. split; [done|]. clear Ha.
  induction Hc as [|ev a Hev _ IH]; [done|]. destruct ev; try discriminate Hev; exact IH.
Qed.

Lemma hushed_refl w : hushed w w.
Proof. exists []. by rewrite app_nil_r. Qed.

Lemma SubmitWith_mute c ctx fn opts : emits mute (Contract_SubmitWith c ctx fn opts).
Proof.
  unfold Contract_SubmitWith, Contract_SubmitAsync, PendingTx_Wait, PendingTx_Release, NewProposal,
    EndorseWithContext, SubmitWithContext, StatusWithContext.
  solve_emits_with ltac:(done); try (apply emits_emit; by repeat constructor); eauto using calm_mute with go.
Qed.

(** Whatever its end, [m] makes calm calls and takes actions in [Q]. *)
Definition keeps (Q : Action -> Prop) {A} (m : Cmd A) : Prop := forall w,
  let '(_, out, w') := m w in
  exists new, w_trace w' = w_trace w ++ new /\ Forall calm new /\ Forall Q out.

Section rules.
Variable Q : Action -> Prop.

Lemma keeps_ret {A} (x : A) : keeps Q (mret x).
Proof. intros w. exists []. by rewrite app_nil_r. Qed.

Lemma keeps_bind {A B} (m : Cmd A) (f : A -> Cmd B) :
  keeps Q m -> (forall x, keeps Q (f x)) -> keeps Q (m ≫= f).
Proof.
  intros Hm Hf w. unfold mbind, Cmd_bind. specialize (Hm w). destruct (m w) as [[r out] w1].
  destruct r as [x| |]; [|done..]. destruct Hm as (n1 & E1 & H1 & O1). specialize (Hf x w1).
  destruct (f x w1) as [[r out'] w2]. destruct Hf as (n2 & E2 & H2 & O2). exists (n1 ++ n2).
  rewrite E2, E1, app_assoc. split; [done|]. by rewrite !Forall_app.
Qed.

Lemma keeps_call {A} (m : M A) : emits calm m -> keeps Q (call m).
Proof.
  intros Hm w. unfold call. pose proof (hushed_output _ _ (emits_hushed m (calm_mute m Hm) w)) as Ho.
  destruct (Hm w) as (new & E1 & Hc). destruct (m w) as [x w']. simpl in Ho, E1. rewrite Ho.
  by exists new.
Qed.

Lemma keeps_act a : Q a -> keeps Q (act a).
Proof. intros H w. exists []. rewrite app_nil_r. by repeat constructor. Qed.

Lemma keeps_Fatalf {A} f args : Q (actFatalf f args) -> keeps Q (Fatalf (A := A) f args).
Proof. intros H w. exists []. rewrite app_nil_r. by repeat constructor. Qed.

End rules.

(** A call whose handlers, if any, print nothing. *)
Lemma call_run {A B} (m : M A) (f : A -> Cmd B) w x w' : m w = (x, w') -> hushed w w' ->
  (call m ≫= f) w = f x w'.
Proof.
  intros H Hh. unfold mbind, Cmd_bind, call. rewrite H, (hushed_output _ _ Hh).
  by destruct (f x w') as [[r out] w2].
Qed.

(** The variables the commands need. *)
Definition required : list string :=
  ["PEER_ENDPOINT"; "TLS_CERT_PATH"; "CERT_PATH"; "KEY_PATH"; "MSP_ID"; "CHANNEL"; "CHAINCODE"].

Lemma required_cons (getenv : string -> string) k ks : getenv k <> "" -> Forall (fun k => getenv k <> "") ks ->
  Forall (fun k => getenv k <> "") (k :: ks).
Proof. by constructor. Qed.

(** The configuration is read without any call; a variable that is not set ends
    the process. *)
Definition reads_env (getenv : string -> string) (m : Cmd Config) : Prop := forall w,
  (exists cfg, m w = (finished cfg, [], w) /\ Forall (fun k => getenv k <> "") required)
  \/ exists key, key ∈ required /\ getenv key = ""
     /\ m w = (exited, [actFatalf "required env var %s is not set" [argString key]], w).

Lemma config_reads (getenv : string -> string) : reads_env getenv (basic_config getenv) /\ reads_env getenv (events_config getenv).
Proof.
  split; intros w; unfold basic_config, events_config, basic_mustEnv, events_mustEnv, mbind, Cmd_bind;
    repeat (case_bool_decide; [right; eexists; split_and!; [|eassumption|reflexivity];
      by apply (bool_decide_unpack _)|]);
    left; eexists; (split; [reflexivity|]); by repeat apply required_cons.
Qed.

(** ** The write of examples/basic *)

Definition committed_action (id : string) (block : N) : Action :=
  actPrintf "committed tx %s in block %d" [argString id; argUint block].
Definition not_committed (a : Action) : Prop := forall id block, a <> committed_action id block.

(** A result as the pair of the code. *)
Definition pair_of {A} (r : error + A) : option A * option error :=
  match r with inl e => (None, Some e) | inr x => (Some x, None) end.

(** How the command ends, by what its calls show of the transaction. *)
Inductive write_verdict (new : trace) : status unit -> list Action -> Prop :=
| wv_committed r p k cctx st rest :
    in_doubt (rpcs new) = false -> p ∈ proposals new ->
    EvCommitStatus k cctx (inr st) ∈ rpcs new -> Status_Successful st = true ->
    Forall not_committed rest ->
    write_verdict new r (committed_action (Proposal_TransactionID p) (Status_BlockNumber st) :: rest)
| wv_unknown p c ctx w1 st serr : in_doubt (rpcs new) = true -> p ∈ proposals new ->
    pair_of (fst (Contract_TxStatus c ctx (Proposal_TransactionID p) w1)) = (st, serr) ->
    write_verdict new exited [actFatalf "outcome unknown for %s: status=%+v err=%v"
      [argString (Proposal_TransactionID p); argTxStatus st; argError serr]]
| wv_failed format args : in_doubt (rpcs new) = false ->
    write_verdict new exited [actFatalf format args].

Lemma write_verdict_between a b c r out : Forall calm a -> Forall calm c ->
  write_verdict b r out -> write_verdict (a ++ b ++ c) r out.
Proof.
  intros Ha Hc Hv. pose proof (in_doubt_between a b c Ha Hc) as Hd.
  assert (Hin : forall {B} (f : Event -> option B) (x : B), x ∈ omap f b -> x ∈ omap f (a ++ b ++ c)).
  { intros B f x Hx. rewrite !omap_app, !elem_of_app. auto. }
  destruct Hv as [r p k cctx st rest Hb Hp Hs Hok Hrest|p c0 ctx w1 st serr Hb Hp Hst|f args Hb].
  - eapply wv_committed; [by rewrite Hd|by apply Hin|by apply Hin|done|done].
  - apply (wv_unknown _ p c0 ctx w1); [by rewrite Hd|by apply Hin|done].
  - apply wv_failed. by rewrite Hd.
Qed.

Lemma submissions_rpcs a : submissions a = omap submission_of (rpcs a).
Proof.
  induction a as [|ev a IH]; [done|]. rewrite rpcs_cons. unfold submissions in *.
  destruct ev; first [exact IH|simpl; f_equal; exact IH].
Qed.

Lemma submitted_once c ctx fn opts w r a : submitted c ctx fn opts w r a ->
  (length (submissions a) <= 1)%nat.
Proof.
  intros Hp. rewrite submissions_rpcs.
  inversion Hp as [e a' Hs|p a1 w2 r2 a2 Hs Ew Hw]; subst; inversion Hs; subst; try (inversion Hw; subst);
    views; simpl; lia.
Qed.

Lemma basic_reads_keeps fc ctx id : keeps not_committed (basic_reads fc ctx id).
Proof.
  unfold basic_reads, FabricClient_Evaluate, Contract_Evaluate, FabricClient_Height.
  repeat first
    [ apply keeps_ret | apply keeps_act; by intros ?? | apply keeps_Fatalf; by intros ??
    | apply keeps_call; first [apply EvaluateWith_calm|apply Height_calm]
    | apply keeps_bind; [|intros ?] | case_match ].
Qed.

Variable getenv : string -> string.

Lemma basic_session_run `{!GatewayErrors} fc ctx w :
  let '(r, out, w') := basic_session fc ctx w in
  exists new, w_trace w' = w_trace w ++ new /\ (length (submissions new) <= 1)%nat
    /\ write_verdict new r out.
Proof.
  unfold basic_session. rewrite (call_run _ _ _ _ _ (now_run w) (hushed_refl w)). cbv zeta.
  unfold FabricClient_Submit, Contract_Submit. set (c := FabricClient_Contract fc).
  set (opts := [Args _]). destruct (SubmitWith_run c (Some ctx) "CreateAsset" opts w) as (r & a & w1 & Hr & Ht & Hp).
  pose proof (emits_hushed _ (SubmitWith_mute c (Some ctx) "CreateAsset" opts) w) as Hh. rewrite Hr in Hh.
  rewrite (call_run _ _ _ _ _ Hr Hh). clear Hh. pose proof (submitted_once _ _ _ _ _ _ _ Hp) as H1.
  assert (Hrest : forall (b : trace), Forall calm b ->
    (length (submissions (a ++ b)) <= 1)%nat
    /\ forall r out, write_verdict a r out -> write_verdict (a ++ b) r out).
  { intros b Hb. pose proof (submissions_between [] a b ltac:(constructor) Hb) as Hs. simpl in Hs. rewrite Hs.
    split; [done|]. intros r' out Hv. by apply (write_verdict_between [] a b). }
  destruct r as [err|res].
  - destruct (submitted_outcome _ _ _ _ _ _ _ Hp) as [Hd _].
    assert (Hplain : in_doubt (rpcs a) = false -> exists new, w_trace w1 = w_trace w ++ new
      /\ (length (submissions new) <= 1)%nat
      /\ write_verdict new exited [actFatalf "CreateAsset: %v" [argError (Some err)]]).
    { intros E0. exists a. split_and!; [done|done|by apply wv_failed]. }
    unfold IsOutcomeUnknown in Hd. destruct (asError (Some err)) as [fe|] eqn:Efe; [|by apply Hplain].
    destruct (Error_OutcomeUnknown fe); [|by apply Hplain].
    destruct (submitted_txID _ _ _ _ _ _ _ Hp) as (p & Hps & Hid); [by intros Hn; rewrite Hn in Hd|].
    unfold TxIDOf in Hid. rewrite Efe in Hid. rewrite Hid. unfold FabricClient_TxStatus. fold c.
    destruct (TxStatus_calm c (Some ctx) (Proposal_TransactionID p) w1) as (b & Hb & Hcalm).
    destruct (Contract_TxStatus c (Some ctx) (Proposal_TransactionID p) w1) as [st w2] eqn:Est.
    rewrite (call_run _ _ _ _ _ Est (calm_hushed _ _ _ Hb Hcalm)). destruct (Hrest b Hcalm) as [Hs Hv].
    assert (Hu : forall st' serr, pair_of st = (st', serr) ->
      write_verdict a exited [actFatalf "outcome unknown for %s: status=%+v err=%v"
        [argString (Proposal_TransactionID p); argTxStatus st'; argError serr]]).
    { intros st' serr Hst. apply (wv_unknown a p c (Some ctx) w1); [done| |by rewrite Est].
      rewrite Hps. by apply elem_of_lit. }
    simpl in Hb.
    destruct st as [e|st]; exists (a ++ b); (split_and!; [by rewrite app_assoc, <- Ht|done|by apply Hv, Hu]).
  - destruct (submitted_success _ _ _ _ _ _ _ Hp) as (p & ectx & tx & sctx & k & cctx & st & Hps & Hrp & Hok & ->).
    cbn [Result_TxID Result_BlockNumber].
    pose proof (basic_reads_keeps fc ctx ("asset-" +:+ pretty (env_now (w_trace w))) w1) as Hk.
    unfold mbind, Cmd_bind, act. destruct (basic_reads _ _ _ w1) as [[r out] w2].
    destruct Hk as (b & Hb & Hcalm & Hout). destruct (Hrest b Hcalm) as [Hs Hv].
    exists (a ++ b). split_and!; [by rewrite app_assoc, <- Ht|done|]. apply Hv.
    eapply wv_committed; [|rewrite Hps; by apply elem_of_lit|rewrite Hrp; apply list_elem_of_further, list_elem_of_further, list_elem_of_here|done|done].
    by rewrite Hrp.
Qed.

(** A deferred call of the SDK runs after [m], if [m] returned. *)
Lemma deferring_call {A B} (d : M B) (m : Cmd A) w : emits calm d ->
  deferring (_ ← call d; mret tt) m w
  = (let '(r, out, w1) := m w in
     (r, out, match r with finished _ => snd (d w1) | _ => w1 end)).
Proof.
  intros Hd. unfold deferring, mbind, Cmd_bind, call, mret, Cmd_ret. destruct (m w) as [[r out] w1].
  destruct r; try done. pose proof (hushed_output _ _ (emits_hushed d (calm_mute d Hd) w1)) as Ho.
  destruct (d w1). simpl in *. by rewrite Ho, !app_nil_r.
Qed.

Lemma deferring_cancel {A} ctx (m : Cmd A) w :
  deferring (call (cancel ctx)) m w
  = (let '(r, out, w1) := m w in
     (r, out, match r with finished _ => snd (cancel ctx w1) | _ => w1 end)).
Proof.
  unfold deferring, mbind, Cmd_bind, call, mret, Cmd_ret. destruct (m w) as [[r out] w1].
  destruct r; try done. simpl. by rewrite drop_app_length, app_nil_r.
Qed.

(** C22. The example writes at most one transaction and tells the truth about it:
    "committed" is printed exactly with the ID of the proposal and the block of
    a status that said valid, and only then; when the outcome is in doubt, the
    process asks for the status of that very transaction and exits, without
    another submission; anything else that fails exits too. A variable that is
    not set exits before any call. A [main] that returned has closed its
    client. *)
Theorem basic_main_writes_once `{!GatewayErrors} (w : World) :
  let '(r, out, w') := basic_main getenv w in
  exists new, w_trace w' = w_trace w ++ new
    /\ (length (submissions new) <= 1)%nat /\ write_verdict new r out
    /\ ((exists key, key ∈ required /\ getenv key = "") -> r = exited /\ w' = w)
    /\ (r = finished tt -> exists cfg fc w1, fst (New cfg w1) = inr fc /\ fc_addr fc ∈ w_closeOnce w').
Proof.
  unfold basic_main. destruct (proj1 (config_reads getenv) w) as [(cfg & Hcfg & Hset)|(key & _ & Hk & Hcfg)].
  2:{ unfold mbind at 1, Cmd_bind at 1. rewrite Hcfg. exists []. rewrite app_nil_r.
      split_and!; [done|simpl; lia|by apply wv_failed|done|done]. }
  assert (Hno : forall (r : status unit) (w' : World),
    (exists key, key ∈ required /\ getenv key = "") -> r = exited /\ w' = w).
  { intros ? ? (key & Hin & Hk). by apply (proj1 (list.Forall_forall _ _) Hset key) in Hin. }
  unfold mbind at 1, Cmd_bind at 1. rewrite Hcfg.
  destruct (New_calm cfg w) as (a & Ha & Hca). destruct (New cfg w) as [r w1] eqn:En. simpl in Ha.
  rewrite (call_run _ _ _ _ _ En (calm_hushed _ _ _ Ha Hca)). destruct r as [err|fc].
  { exists a. simpl. destruct (calm_views a Hca) as (H1 & H2 & H3).
    split_and!; [done|rewrite H3; simpl; lia| |by apply Hno|done].
    apply wv_failed. unfold in_doubt. by rewrite H1. }
  rewrite (deferring_call _ _ _ (Close_calm fc)), (call_run _ _ _ _ _ (now_run w1) (hushed_refl w1)), deferring_cancel. cbv zeta.
  set (ctx := WithDeadline _ _). pose proof (basic_session_run fc ctx w1) as Hs.
  destruct (basic_session fc ctx w1) as [[r out] w2]. destruct Hs as (b & Hb & H1 & Hv).
  set (w3 := match r with finished _ => snd (cancel ctx w2) | _ => w2 end).
  set (w4 := match r with finished _ => snd (FabricClient_Close fc w3) | _ => w3 end).
  assert (Hend : exists c, w_trace w4 = w_trace w2 ++ c /\ Forall calm c).
  { unfold w4, w3. destruct r; try (exists []; by rewrite app_nil_r).
    destruct (Close_calm fc (snd (cancel ctx w2))) as (c & Hc & Hcc). exists ([EvCancel ctx] ++ c).
    rewrite Hc. simpl. rewrite <- app_assoc. split; [done|]. by constructor. }
  destruct Hend as (c & Hc & Hcc). exists (a ++ b ++ c).
  split_and!; [by rewrite Hc, Hb, Ha, <- !app_assoc| | |by apply Hno|].
  - by rewrite submissions_between.
  - by apply write_verdict_between.
  - intros ->. exists cfg, fc, w. split; [by rewrite En|]. unfold w4.
    pose proof (FabricClient_Close_once fc w3) as Hcl. by destruct (FabricClient_Close fc w3) as [? ?], Hcl.
Qed.

(** ** The listener of examples/events *)

Section events.
Variables (client_NewFileCheckpointer : string -> error + Checkpointer) (cp : Checkpointer)
  (ledger : list GatewayEvent).
Context `{!CheckpointerOk cp} `{!Delivers ledger}.
Hypothesis Hfile : client_NewFileCheckpointer "checkpoint.json" = inr cp.
Hypothesis Hledger : wf_ledger ledger.

(** With [FromBlock 0] the listener's position is the checkpoint's: the zero
    checkpoint is block 0. *)
Lemma position_wanted tr :
  wanted (start_options (Some 0%N) (Some cp) tr) = Some (position cp tr).
Proof.
  unfold wanted, start_options, position. simpl. generalize (cp_BlockNumber tr) (cp_TransactionID tr).
  intros b t. by destruct (decide ((b, t) = (0%N, ""))) as [[= -> ->]|].
Qed.

(** The lines that tell of events. *)
Definition is_event_line (a : Action) : bool :=
  match a with
  | actPrintf format _ => bool_decide (format = "block=%d tx=%s event=%s payload=%s")
  | _ => false
  end.
Fixpoint printed (out : list Action) : list Action :=
  match out with
  | [] => []
  | a :: out => if is_event_line a then a :: printed out else printed out
  end.

Lemma printed_lines evs post : printed ((event_line <$> evs) ++ post) = (event_line <$> evs) ++ printed post.
Proof. induction evs as [|ev evs IH]; [done|]. simpl. by f_equal. Qed.

(** What a run of the command does from index [j] of the ledger: it follows the
    listener's protocol and prints what it handles. *)
Definition listened (j : nat) (w : World) (c : status unit * list Action * World) : Prop :=
  let '(r, out, w') := c in
  exists new s, w_trace w' = w_trace w ++ new
    /\ @run (event_feed cp ledger) j new s
    /\ printed out = event_line <$> handled new
    /\ (r = finished tt -> exists k, s = At k).

#[local] Instance file_keeper : Keeper (event_feed cp ledger) cp false := event_keeper cp ledger Hledger.

(** What the listener's handler prints: one line per event. *)
Definition told (ev : Event) : Prop :=
  match ev with EvHandle e out _ => out = [event_line e] | EvHandleBlock _ _ _ => False | _ => True end.

Lemma told_output a : Forall told a -> handler_output a = event_line <$> handled a.
Proof.
  unfold handler_output. induction 1 as [|ev a Hev _ IH]; [done|].
  destruct ev; try exact IH; [|done]. simpl in *. rewrite Hev. simpl. f_equal. exact IH.
Qed.

Lemma calm_told {A} (m : M A) : emits calm m -> emits told m.
Proof.
  intros Hm w. destruct (Hm w) as (a & Ha & Hc). exists a. split; [done|].
  eapply Forall_impl; [|exact Hc]. intros ev Hev. by destruct ev; try discriminate Hev.
Qed.

Lemma handle_told ev : emits told (call_handle events_handler ev).
Proof. intros w. rewrite call_handle_run. eexists. split; [done|]. by repeat constructor. Qed.

Ltac solve_told :=
  solve_emits_with ltac:(exact I); try (apply emits_emit; by repeat constructor);
  eauto using calm_told, gateway_calm, release_calm, cancel_calm, handle_told.

Lemma ChaincodeEvents_told c ctx opts : emits told (Contract_ChaincodeEvents c ctx opts).
Proof. unfold Contract_ChaincodeEvents, call_ChaincodeEvents. cbv zeta. solve_told. Qed.

Lemma consume_told n o s : forall backoff, emits told (consume n cp events_handler o s backoff).
Proof.
  induction n as [|n IH]; intros backoff; simpl; [apply emits_ret|].
  unfold recv, CheckpointTransaction, EventStream_Close. solve_told.
Qed.

Lemma listen_told c ctx n opts o : forall backoff, emits told (listen c ctx n cp events_handler opts o backoff).
Proof.
  induction n as [|n IH]; intros backoff; simpl; [apply emits_ret|].
  unfold ctx_Err, after_session, sleepCtx.
  solve_told; eauto using ChaincodeEvents_told, consume_told.
Qed.

Lemma events_session_run n fc w j : ready (event_feed cp ledger) cp (Some 0%N) (w_trace w) j ->
  listened j w (events_session client_NewFileCheckpointer n fc w).
Proof.
  intros Hr. unfold listened, events_session, NewFileCheckpointer. rewrite Hfile.
  unfold FabricClient_ListenChaincodeEvents, Contract_ListenChaincodeEvents. cbv zeta.
  set (c := FabricClient_Contract fc). set (ctx := WithCancel Background).
  pose proof (listen_run c ctx cp events_handler ledger false n [FromBlock 0]
    (minBackoff (Contract_eventOptions c [FromBlock 0])) w j Hr) as Hl. cbn zeta in Hl.
  pose proof (listen_told c ctx n ([FromBlock 0] ++ [WithCheckpointer (Some cp)])
    (Contract_eventOptions c [FromBlock 0]) (minBackoff (Contract_eventOptions c [FromBlock 0])) w) as Hout.
  set (m := listen _ _ _ _ _ _ _ _) in *.
  unfold deferring, act, call, mbind, Cmd_bind, mret, Cmd_ret. rewrite get_trace_run.
  destruct (m w) as [r w1]. destruct Hl as (new & s & Ht & Hs & Hend).
  destruct Hout as (new' & Ht' & Hnew). simpl in Ht'. rewrite Ht in Ht'. apply app_inv_head in Ht' as <-.
  rewrite Ht, drop_app_length, drop_all, (told_output new Hnew). destruct r as [[err|]|]; simpl.
  - exists new, s. rewrite printed_lines. by split_and!; rewrite ?app_nil_r.
  - exists (new ++ [EvCancel ctx]), s. rewrite handled_app, <- !app_assoc, printed_lines.
    rewrite drop_app_length, fmap_app. split_and!; [by rewrite Ht, <- app_assoc|by apply run_quiet|done|by intros; apply Hend].
  - exists new, s. rewrite printed_lines. by split_and!; rewrite ?app_nil_r.
Qed.

Lemma listened_after j w a w1 c : w_trace w1 = w_trace w ++ a -> forallb neutral a = true ->
  listened j w1 c -> listened j w c.
Proof.
  destruct c as [[r out] w']. intros Ha Hn (new & s & Ht & Hs & Hrest). exists (a ++ new), s.
  rewrite Ht, Ha, app_assoc, handled_app, (proj1 (neutral_views _ Hn)). split_and!; [done| |apply Hrest..].
  by apply (run_app j j); [apply run_neutral|].
Qed.

Lemma listened_before j w r out w1 w' a : w_trace w' = w_trace w1 ++ a -> forallb neutral a = true ->
  listened j w (r, out, w1) -> listened j w (r, out, w').
Proof.
  intros Ha Hn (new & s & Ht & Hs & Hp & Hr). exists (new ++ a), s.
  rewrite Ha, handled_app, (proj1 (neutral_views _ Hn)), app_nil_r, Ht, app_assoc.
  split_and!; [done|by apply run_quiet|done|done].
Qed.

Lemma listened_none j w r msg : r <> finished tt -> listened j w (r, [actFatalf (fst msg) (snd msg)], w).
Proof. intros Hr. exists [], (At j). rewrite app_nil_r. split_and!; [done|apply run_nil|done|done]. Qed.

Lemma events_main_run n w j : ready (event_feed cp ledger) cp (Some 0%N) (w_trace w) j ->
  listened j w (events_main getenv client_NewFileCheckpointer n w).
Proof.
  intros Hr. unfold events_main.
  destruct (proj2 (config_reads getenv) w) as [(cfg & Hcfg & _)|(key & _ & Hk & Hcfg)];
    unfold mbind at 1, Cmd_bind at 1; rewrite Hcfg; [|by apply (listened_none _ _ _ (_, _))].
  destruct (New_calm cfg w) as (a & Ha & Hc). pose proof (calm_neutral a Hc) as Hn. destruct (New cfg w) as [r w1] eqn:En.
  simpl in Ha.
  rewrite (call_run _ _ _ _ _ En (calm_hushed _ _ _ Ha Hc)).
  assert (Hr1 : ready (event_feed cp ledger) cp (Some 0%N) (w_trace w1) j) by (rewrite Ha; by apply ready_neutral).
  destruct r as [err|fc].
  { apply (listened_after _ _ _ w1 (exited, _, w1) Ha Hn). by apply (listened_none _ _ _ (_, _)). }
  rewrite (deferring_call _ _ _ (Close_calm fc)). pose proof (events_session_run n fc w1 j Hr1) as Hs.
  destruct (events_session _ n fc w1) as [[r out] w2]. apply (listened_after _ _ _ w1 (_, _, _) Ha Hn).
  destruct r as [[]| |]; [|done..].
  destruct (Close_calm fc w2) as (b & Hb & Hnb%calm_neutral). by apply (listened_before _ _ _ _ w2 _ b).
Qed.

(** A process of the command that is killed when [a] has been done. *)
Definition command_life (tr a : trace) : Prop := exists n w later, w_trace w = tr
  /\ w_trace (snd (events_main getenv client_NewFileCheckpointer n w)) = tr ++ a ++ later.

(** C24. The command killed at any point and started again, any number of times: it
    handles the ledger's events from the checkpoint in its file on, in order and
    without a gap, and repeats at most one event per restart, at once. *)
Theorem events_main_killed (tr : trace) (ls : list trace) :
  lives command_life tr ls ->
  let seen := concat (accepted <$> ls) in
  exists m, squeeze seen = out_event <$> take m (drop (index_of ledger (position cp tr)) ledger)
    /\ (length seen <= length (squeeze seen) + pred (length ls))%nat.
Proof.
  apply (accepted_at_least_once cp ledger (Some 0%N)); [done| |apply position_wanted].
  intros tr' a j (n & w & later & <- & Ht) Hr. pose proof (events_main_run n w j Hr) as Hl.
  destruct (events_main _ _ n w) as [[r out] w']. destruct Hl as (new & s & Ht' & Hs & _). simpl in Ht.
  rewrite Ht' in Ht. apply app_inv_head in Ht as ->. by apply run_prefix in Hs.
Qed.

(** C23. "A restart resumes exactly where it stopped": if a run of the command ended
    in "stopped", the run after it, whatever its end, handles the events of the
    ledger that follow the last one handled, none of them twice and none left
    out; the first run had started behind the checkpoint in the file. Both print
    one line per event that they handle. *)
Theorem events_main_resumes (n n' : nat) (w w1 : World) (out1 : list Action) :
  events_main getenv client_NewFileCheckpointer n w = (finished tt, out1, w1) ->
  let '(_, out2, w2) := events_main getenv client_NewFileCheckpointer n' w1 in
  let from := drop (index_of ledger (position cp (w_trace w))) ledger in
  exists new1 new2 m1 m2, w_trace w1 = w_trace w ++ new1 /\ w_trace w2 = w_trace w1 ++ new2
    /\ handled new1 = out_event <$> take m1 from /\ printed out1 = event_line <$> handled new1
    /\ handled new2 = out_event <$> take m2 (drop m1 from) /\ printed out2 = event_line <$> handled new2.
Proof.
  intros H1. set (j := index_of ledger (position cp (w_trace w))).
  assert (Hr : ready (event_feed cp ledger) cp (Some 0%N) (w_trace w) j) by (eexists; split; [apply position_wanted|done]).
  pose proof (events_main_run n w j Hr) as Hl1. rewrite H1 in Hl1.
  destruct Hl1 as (new1 & s1 & Ht1 & Hs1 & Hp1 & He1). destruct (He1 eq_refl) as [k ->].
  assert (Hr1 : ready (event_feed cp ledger) cp (Some 0%N) (w_trace w1) k)
    by (rewrite Ht1; by apply (run_ready _ _ false _ _ j _ (At k))).
  pose proof (events_main_run n' w1 _ Hr1) as Hl2.
  destruct (events_main _ _ n' w1) as [[r2 out2] w2]. destruct Hl2 as (new2 & s2 & Ht2 & Hs2 & Hp2 & _).
  destruct (run_handled _ _ _ _ _ Hs1) as (m1 & Hh1 & Hk). simpl in Hk. subst k.
  destruct (run_handled _ _ _ _ _ Hs2) as (m2 & Hh2 & _).
  exists new1, new2, m1, m2. by rewrite drop_drop.
Qed.

End events.
End calm.
