(* ===== verification/BlockOutcome.v ===== *)
(** * How a block listener ends, and what it leaves behind

    The counterpart of the verdicts of Listeners.v for [ListenBlocks], with the
    Gateways of its sessions. *)

From S2P Require Import Prelude GoStrings GoRunes Errors Classify Observe World Identity Config Client Contract Transactions Views Events Positions Protocol Listeners.
Local Open Scope Z_scope.

(** [handlerError] is unexported: no error from outside wraps one. *)
Class NoHandlerErrors `{E : Env} `{EE : EventEnv} : Prop := {
  nh_connect tr x o err : env_Connect tr x o = inl err -> errors_As is_handler (Some err) = None;
  nh_blocks tr n ctx o err : env_BlockEvents tr n ctx o = inl err ->
    foreign err /\ errors_As is_handler (Some err) = None }.

Section verdicts.
Context `{X : X509Lib} `{E : Env} `{U : UnicodeTables} `{G : GrpcStatus} `{P : PeerCodes}
  `{EE : EventEnv}.
Variables (c : Contract) (ctx : Context) (cp : Checkpointer) (handle : BlockHandler) (o : eventOptions).

(** Each block was accepted by the handler and then, before anything else was
    asked of handler or checkpointer, recorded with success. *)
Inductive blocks_in_turn : trace -> Prop :=
| bit_none : blocks_in_turn []
| bit_block b out calls : blocks_in_turn calls -> blocks_in_turn
    (EvHandleBlock b out None :: EvCheckpointBlock cp_id (Block_Number b) None :: calls).

Definition blocks_recorded (new : trace) : Prop := blocks_in_turn (listener_calls new).

(** What was asked last of handler and checkpointer failed: the handler refused
    the last block, or the checkpointer failed on it. *)
Definition block_refused (new : trace) (err : error) : Prop := exists calls b out,
  blocks_in_turn calls /\ listener_calls new = calls ++ [EvHandleBlock b out (Some err)].
Definition checkpoint_failed (new : trace) (err : error) : Prop := exists calls b out,
  blocks_in_turn calls
  /\ listener_calls new
     = calls ++ [EvHandleBlock b out None; EvCheckpointBlock cp_id (Block_Number b) (Some err)].
Definition block_failed (new : trace) (err : error) : Prop :=
  block_refused new err \/ checkpoint_failed new err.

(** How a run that added [new] to [base] ends; a failure that the end of the
    context covers up is not reported. *)
Inductive block_verdict (base new : trace) : option (option error) -> Prop :=
| bv_running : blocks_recorded new -> block_verdict base new None
| bv_ctx e : blocks_recorded new \/ (exists err, block_failed new err) ->
    env_ctx_Err (base ++ new) ctx = Some e -> block_verdict base new (Some None)
| bv_sleep pre d : blocks_recorded pre -> new = pre ++ [EvSleep ctx d false] ->
    block_verdict base new (Some None)
| bv_handler err : block_refused new err -> env_ctx_Err (base ++ new) ctx = None ->
    block_verdict base new (Some (Some err))
| bv_checkpoint err : checkpoint_failed new err -> env_ctx_Err (base ++ new) ctx = None ->
    block_verdict base new (Some (Some err))
| bv_final n b b' w w' err : blocks_recorded new ->
    blockSession c ctx n cp handle o b w = (Some (Some err, b'), w') -> w_trace w' = base ++ new ->
    errors_As is_handler (Some err) = None ->
    env_ctx_Err (base ++ new) ctx = None -> reconnectable err = false ->
    block_verdict base new (Some (Some err)).

Lemma in_turn_app a b : blocks_in_turn a -> blocks_in_turn b -> blocks_in_turn (a ++ b).
Proof. intros Ha Hb. induction Ha as [|x out calls _ IH]; [done|]. by apply bit_block. Qed.

Lemma blocks_recorded_app a b : blocks_recorded a -> blocks_recorded b -> blocks_recorded (a ++ b).
Proof. unfold blocks_recorded. rewrite listener_calls_app. apply in_turn_app. Qed.

Lemma recorded_neutral a : forallb neutral a = true -> blocks_recorded a.
Proof. intros (_ & _ & H)%neutral_views. unfold blocks_recorded. rewrite H. constructor. Qed.

Lemma block_refused_app a b err : blocks_recorded a -> block_refused b err -> block_refused (a ++ b) err.
Proof.
  intros Ha (calls & x & out & Hc & Hb). exists (listener_calls a ++ calls), x, out.
  rewrite listener_calls_app, Hb, app_assoc. split; [by apply in_turn_app|done].
Qed.

Lemma checkpoint_failed_app a b err : blocks_recorded a -> checkpoint_failed b err ->
  checkpoint_failed (a ++ b) err.
Proof.
  intros Ha (calls & x & out & Hc & Hb). exists (listener_calls a ++ calls), x, out.
  rewrite listener_calls_app, Hb, app_assoc. split; [by apply in_turn_app|done].
Qed.

Lemma block_failed_app a b err : blocks_recorded a -> block_failed b err -> block_failed (a ++ b) err.
Proof. intros Ha [Hb|Hb]; [left; by apply block_refused_app|right; by apply checkpoint_failed_app]. Qed.

(** Calls that concern neither handler nor checkpointer change nothing. *)
Lemma calls_neutral a b : forallb neutral b = true -> listener_calls (a ++ b) = listener_calls a.
Proof. intros (_ & _ & H)%neutral_views. by rewrite listener_calls_app, H, app_nil_r. Qed.

Lemma block_failed_neutral a b err : forallb neutral b = true -> block_failed a err -> block_failed (a ++ b) err.
Proof. intros Hb. unfold block_failed, block_refused, checkpoint_failed. by rewrite calls_neutral. Qed.

Lemma block_verdict_app base a b r : blocks_recorded a -> block_verdict (base ++ a) b r ->
  block_verdict base (a ++ b) r.
Proof.
  intros Ha Hv. destruct Hv as [Hb|e Hb Hc|pre d Hb ->|err Hb Hc|err Hb Hc|n d d' w w' err Hb Hr Ht Hh Hc Hre];
    rewrite <- ?app_assoc in *.
  - by apply bv_running, blocks_recorded_app.
  - apply (bv_ctx _ _ e); [|done].
    destruct Hb as [Hb|[err Hb]]; [left; by apply blocks_recorded_app|right; exists err; by apply block_failed_app].
  - apply (bv_sleep _ _ (a ++ pre) d); [by apply blocks_recorded_app|by rewrite app_assoc].
  - by apply bv_handler; [apply block_refused_app|].
  - by apply bv_checkpoint; [apply checkpoint_failed_app|].
  - by eapply bv_final; [apply blocks_recorded_app|..].
Qed.

End verdicts.

Section blocks.
Context `{X : X509Lib} `{E : Env} `{U : UnicodeTables} `{G : GrpcStatus} `{P : PeerCodes}
  `{EE : EventEnv} `{!NoHandlerErrors}.
Variables (c : Contract) (ctx : Context) (cp : Checkpointer) (handle : BlockHandler).

(** Traces that neither open nor close a Gateway. *)
Definition no_gateway (a : trace) : Prop := opened a = [] /\ closed a = [].

(** A session's outcome: it still runs, it stopped on the handler or the
    checkpointer, or the stream ended. *)
Definition session_end (new : trace) (r : option (option error * Duration)) : Prop :=
  match r with
  | None => blocks_recorded cp new
  | Some (Some err, _) =>
      (exists e, err = handlerError e /\ block_failed cp new e)
      \/ blocks_recorded cp new /\ errors_As is_handler (Some err) = None
  | Some (None, _) => blocks_recorded cp new
  end.

#[local] Arguments session_end : simpl never.

Lemma session_end_app a b r : blocks_recorded cp a -> session_end b r -> session_end (a ++ b) r.
Proof.
  intros Ha Hb. unfold session_end in *. destruct r as [[[err|] d]|]; try by apply blocks_recorded_app.
  destruct Hb as [(e & -> & Hb)|[Hb Hn]].
  - left. exists e. split; [done|]. by apply block_failed_app.
  - right. split; [by apply blocks_recorded_app|done].
Qed.

Lemma consume_blocks_spec n o u : forall backoff w,
  let '(r, w') := consume_blocks n cp handle o u backoff w in
  exists new, w_trace w' = w_trace w ++ new /\ session_end new r /\ no_gateway new /\ sleeps new = []
    /\ (forall err b, r = Some (err, b) -> b = backoff \/ b = minBackoff o).
Proof.
  induction n as [|n IH]; intros backoff w; simpl.
  { exists []. rewrite app_nil_r. by split_and!; [|constructor|..]. }
  unfold recv_block. run_step. destruct (env_recv_block (w_trace w) u) as [b|] eqn:Er.
  2:{ eexists. split_and!; [done|constructor|done|done|]. intros ?? [= _ <-]. by left. }
  run_handle. set (out := fst (handle _ _)). destruct (snd (handle _ _)) as [herr|].
  { eexists. split_and!; [done| |done|done|intros ?? [= _ <-]; by left]. left. exists herr.
    split; [done|]. left. exists [], b, out. by split; [constructor|]. }
  unfold CheckpointBlock. run_step. destruct (cp_CheckpointBlock _ _) as [cerr|].
  { eexists. split_and!; [done| |done|done|intros ?? [= _ <-]; by left]. left. exists cerr.
    split; [done|]. right. exists [], b, out. by split; [constructor|]. }
  set (step := [_] ++ _). assert (Hstep : blocks_recorded cp step) by (by repeat constructor).
  specialize (IH (minBackoff o) (push step w)). destruct (consume_blocks _ _ _ _ _ _ _) as [r w'].
  destruct IH as (new & Ht & Hend & [Ho Hc] & Hs & Hb). exists (step ++ new). rewrite Ht, push_trace, <- app_assoc.
  split_and!; [done|by apply session_end_app|split; views; by rewrite ?Ho, ?Hc|by rewrite sleeps_app, Hs|].
  intros err d Hr. right. by destruct (Hb err d Hr).
Qed.

Lemma session_end_neutral new fin r : forallb neutral fin = true -> session_end new r ->
  session_end (new ++ fin) r.
Proof.
  intros Hf Hend.
  assert (Hrec : blocks_recorded cp new -> blocks_recorded cp (new ++ fin))
    by (unfold blocks_recorded; by rewrite calls_neutral).
  unfold session_end in *. destruct r as [[[err|] d]|]; auto.
  destruct Hend as [(e & -> & He)|[Hb Hn]]; [left; exists e|by right; auto].
  split; [done|]. by apply block_failed_neutral.
Qed.

(** An error the SDK makes of an error without a [handlerError] has none. *)
Lemma no_handler_cause e cause : Error_Cause e = Some cause -> errors_As is_handler (Some cause) = None ->
  errors_As is_handler (Some (sdkError e)) = None.
Proof. intros Hc Hn. simpl. rewrite Hc. exact Hn. Qed.

Lemma acquires_no_handler w err a : acquires c w (inl err) a -> errors_As is_handler (Some err) = None.
Proof.
  inversion 1 as [| | |i err' tr Hc Hi Hd Hf|]; subst; [done|done|].
  eapply no_handler_cause; [done|]. exact (nh_connect _ _ _ _ Hf).
Qed.

Lemma classified_no_handler err : foreign err -> errors_As is_handler (Some err) = None ->
  errors_As is_handler (Some (classified err "" phaseEvaluate true)) = None.
Proof.
  intros Hf Hn. unfold classified. rewrite classify_foreign by done. eapply no_handler_cause; [|exact Hn].
  unfold classify_status. simpl. by destruct (chaincodeError _ _ _).
Qed.

Lemma blockSession_spec n o backoff w :
  let '(r, w') := blockSession c ctx n cp handle o backoff w in
  exists new, w_trace w' = w_trace w ++ new /\ session_end new r /\ sleeps new = []
    /\ (r <> None -> closed new = opened new)
    /\ (forall err b, r = Some (err, b) -> b = backoff \/ b = minBackoff o).
Proof.
  unfold blockSession. destruct (gateway_run c w) as (g & a & Hg & Ha).
  rewrite (bind_run _ _ _ _ _ Hg). pose proof (neutral_acquires _ _ _ _ Ha) as Hn.
  assert (Hsl : sleeps a = []) by by apply (acquires_ignored _ _ _ _ _ Ha).
  pose proof (acquires_closed _ _ _ _ Ha) as Hca.
  destruct g as [err|[gw rel]].
  { exists a. split_and!; [done| |done| |].
    - right. split; [by apply recorded_neutral|by eapply acquires_no_handler].
    - intros _. by rewrite Hca, (acquires_opened_inl _ _ _ _ Ha).
    - intros ?? [= _ <-]. by left. }
  pose proof (acquires_opened_inr _ _ _ _ _ Ha) as Hoa.
  run_step. unfold call_BlockEvents. run_step.
  destruct (env_BlockEvents _ _ _ _) as [err|u] eqn:Eb; cbv iota.
  - rewrite (bind_run (mret _) _ _ _ _ eq_refl). cbv iota. do 2 run_step. eexists. split; [done|].
    destruct (nh_blocks _ _ _ _ _ Eb) as [Hf Hno]. split_and!.
    + right. split; [|by apply classified_no_handler].
      apply recorded_neutral. by rewrite !neutral_app, Hn, neutral_closes.
    + rewrite !sleeps_app, Hsl. by destruct rel.
    + intros _. by views.
    + intros ?? [= _ <-]. by left.
  - set (w1 := push _ w). pose proof (consume_blocks_spec n o u backoff w1) as Hc.
    destruct (consume_blocks n cp handle o u backoff w1) as [r w2] eqn:Er.
    destruct Hc as (new & Ht & Hend & [Hon Hcn] & Hsn & Hb).
    rewrite (bind_run _ _ _ _ _ Er). unfold w1 in Ht. rewrite push_trace, <- app_assoc in Ht.
    set (ev := EvBlockEvents _ _ _ _) in Ht.
    assert (Hpre : blocks_recorded cp (a ++ [ev])) by (apply blocks_recorded_app; [by apply recorded_neutral|constructor]).
    destruct r as [[err d]|]; cbv iota beta.
    2:{ exists ((a ++ [ev]) ++ new). rewrite Ht. split_and!; [done|by apply session_end_app| |by intros []|done].
        by rewrite !sleeps_app, Hsl, Hsn. }
    do 2 run_step. set (fin := [EvCancel (WithCancel ctx)] ++ closes rel).
    assert (Hf : forallb neutral fin = true) by apply neutral_closes.
    exists ((a ++ [ev]) ++ new ++ fin). simpl. rewrite Ht, <- !app_assoc. split_and!; [done| | | |].
    + rewrite (app_assoc a). apply session_end_app; [done|]. by apply session_end_neutral.
    + rewrite !sleeps_app, Hsl, Hsn. by destruct rel.
    + intros _. unfold fin. views. by rewrite Hon, Hcn, ?app_nil_r.
    + done.
Qed.

Lemma listen_blocks_spec n o : 0 < minBackoff o <= maxBackoff o -> forall backoff w,
  let '(r, w') := listen_blocks c ctx n cp handle o backoff w in
  exists new, w_trace w' = w_trace w ++ new /\ block_verdict c ctx cp handle o (w_trace w) new r
    /\ (r <> None -> closed new = opened new)
    /\ (maxBackoff o < 2 ^ 62 -> minBackoff o <= backoff <= maxBackoff o ->
        Forall (fun d => minBackoff o <= d <= maxBackoff o) (sleeps new)).
Proof.
  intros Hpos. induction n as [|n IH]; intros backoff w; simpl.
  { exists []. rewrite app_nil_r. split_and!; [done|by repeat constructor|done|by constructor]. }
  pose proof (blockSession_spec n o backoff w) as Hs.
  destruct (blockSession c ctx n cp handle o backoff w) as [r w1] eqn:Er.
  destruct Hs as (new & Ht & Hend & Hsl & Hgw & Hbk). rewrite (bind_run _ _ _ _ _ Er).
  destruct r as [[err b]|].
  2:{ exists new. rewrite Hsl. split_and!; [done|by constructor|done|by constructor]. }
  specialize (Hgw ltac:(done)). specialize (Hbk err b eq_refl). unfold session_end in Hend.
  unfold ctx_Err. run_M. destruct (env_ctx_Err _ _) as [e|] eqn:Ee; rewrite Ht in Ee.
  { exists new. rewrite Hsl. split_and!; [done| |done|by constructor].
    apply (bv_ctx _ _ _ _ _ _ _ e); [|done].
    destruct err as [err|]; [|by left]. destruct Hend as [(e' & _ & Hb)|[Hb _]]; [right; by exists e'|by left]. }
  destruct (errors_As is_handler err) as [herr|] eqn:Eh.
  { exists new. rewrite Hsl. split_and!; [done| |done|by constructor].
    destruct err as [err|]; [|done]. destruct Hend as [(e' & -> & Hb)|[_ Hn]]; [|congruence].
    injection Eh as <-. destruct Hb; [by apply bv_handler|by apply bv_checkpoint]. }
  assert (Hrec : blocks_recorded cp new).
  { destruct err as [err|]; [|done]. by destruct Hend as [(e' & -> & _)|[Hb _]]. }
  match goal with |- context [after_session ?c ?x ?m ?k ?p ?o ?e ?b w1] =>
    pose proof (after_session_spec c x p m k o e b w1) as Ha; destruct (after_session c x m k p o e b w1) as [r w2] end.
  destruct Ha as (a & -> & Hn & Hs2 & Hoa & Hca & Hr).
  assert (Hbb : minBackoff o <= backoff <= maxBackoff o -> minBackoff o <= b <= maxBackoff o)
    by (intros; destruct Hbk as [-> | ->]; lia).
  assert (Hf : minBackoff o <= backoff <= maxBackoff o ->
    Forall (fun d => minBackoff o <= d <= maxBackoff o) (sleeps (new ++ a))).
  { intros Hb%Hbb. rewrite sleeps_app, Hsl. simpl. eapply Forall_impl; [|exact Hs2]. by intros ? <-. }
  assert (Hga : closed (new ++ a) = opened (new ++ a)) by (views; by rewrite Hoa, Hca, Hgw).
  destruct r as [r|b']; simpl.
  { exists (new ++ a). simpl. rewrite Ht, <- app_assoc. split_and!; [done| |done|by auto].
    apply block_verdict_app; [done|]. destruct r as [e|].
    - destruct Hr as (-> & Hre & ->).
      eapply bv_final; [constructor|exact Er|by rewrite app_nil_r|done|by rewrite app_nil_r|done].
    - destruct Hr as (pre & -> & Hpre). eapply bv_sleep; [|done]. by apply recorded_neutral. }
  specialize (IH b' (push a w1)). destruct (listen_blocks _ _ _ _ _ _ _ _) as [r w2].
  destruct IH as (new' & Ht' & Hv' & Hg' & Hf').
  exists ((new ++ a) ++ new'). rewrite Ht', push_trace, Ht, !app_assoc. split_and!; [done| | |].
  - apply block_verdict_app; [by apply blocks_recorded_app, recorded_neutral|].
    by rewrite push_trace, Ht, <- app_assoc in Hv'.
  - intros Hne. rewrite closed_app, opened_app, Hga. by rewrite (Hg' Hne).
  - intros Hmax Hb. rewrite sleeps_app. apply Forall_app. split; [by auto|]. apply Hf'; [done|].
    rewrite Hr. apply next_backoff_bounds; [apply Hpos|done|by auto].
Qed.

(** C28. How a block listener ends, and what it has recorded then. Handler and
    checkpointer are called in turn, for the same block each time, and a block
    that the handler accepted is recorded with success before the next one is
    handed over. The run returns nil only if [ctx.Err()] says at its end that the
    context ended, or if a sleep was cut short; otherwise the handler's error if
    it refused the last block, which is not checkpointed, the checkpointer's if
    it failed on the last block, which the handler had accepted, or the final
    error of the last session, all of whose blocks were recorded. A listener
    that returned has closed every Gateway it opened, and it waits between its
    minimum and maximum backoff before each reconnect. *)
Theorem ListenBlocks_outcome (n : nat) (opts : list EventOption) (w : World) :
  let '(r, w') := Contract_ListenBlocks c ctx n (Some cp) (Some handle) opts w in
  let o := Contract_eventOptions c opts in
  exists new, w_trace w' = w_trace w ++ new /\ block_verdict c ctx cp handle o (w_trace w) new r
    /\ (r <> None -> closed new = opened new)
    /\ (maxBackoff o < 2 ^ 62 ->
        Forall (fun d => minBackoff o <= d <= maxBackoff o) (sleeps new)).
Proof.
  unfold Contract_ListenBlocks. cbv zeta. pose proof (eventOptions_backoff c opts) as Hpos.
  cbn zeta in Hpos. set (o := Contract_eventOptions c opts) in *.
  pose proof (listen_blocks_spec n o Hpos (minBackoff o) w) as Hs.
  destruct (listen_blocks _ _ _ _ _ _ _ _) as [r w']. destruct Hs as (new & Ht & Hv & Hg & Hf).
  exists new. split_and!; [done..|]. intros Hmax. apply Hf; [done|lia].
Qed.

End blocks.
