(* ===== verification/Backoff.v ===== *)
(** * The delays of a listener, in closed form

    The code keeps a backoff in a variable that it doubles, caps and resets. The
    reference definition counts: the delay before a reconnect is the minimum
    doubled once per reconnect since the last event that was recorded, up to the
    maximum. *)

From S2P Require Import Prelude GoStrings GoRunes Errors Classify Observe World Identity Config Client Contract Transactions Views Events Positions Protocol Listeners.
Local Open Scope Z_scope.

Definition delay (min max : Duration) (k : nat) : Duration := Z.min max (min * 2 ^ Z.of_nat k).

(** Reconnects since the last recorded event or block, after a trace. *)
Definition count_step (k : nat) (ev : Event) : nat :=
  match ev with
  | EvCheckpointTransaction _ _ _ None | EvCheckpointBlock _ _ None => O
  | EvSleep _ _ _ => S k
  | _ => k
  end.
Definition reconnects (k : nat) (tr : trace) : nat := foldl count_step k tr.

Section delays.
Variables min max : Duration.

(** The delays a trace should show. *)
Fixpoint delays (k : nat) (tr : trace) : list Duration :=
  match tr with
  | [] => []
  | ev :: tr =>
      match ev with EvSleep _ _ _ => [delay min max k] | _ => [] end ++ delays (count_step k ev) tr
  end.

Lemma delays_app k a b : delays k (a ++ b) = delays k a ++ delays (reconnects k a) b.
Proof.
  revert k. induction a as [|ev a IH]; intros k; [done|]. simpl. by rewrite IH, app_assoc.
Qed.

Lemma reconnects_app k a b : reconnects k (a ++ b) = reconnects (reconnects k a) b.
Proof. apply foldl_app. Qed.

(** Doubling and capping is counting, as long as doubling does not overflow. *)
Lemma next_delay k : 0 < min <= max -> max < 2 ^ 62 ->
  next_backoff (delay min max k) max = delay min max (S k).
Proof.
  intros Hmin Hmax. unfold next_backoff, delay.
  assert (Hp : 0 < 2 ^ Z.of_nat k) by (apply Z.pow_pos_nonneg; lia).
  replace (2 ^ Z.of_nat (S k)) with (2 * 2 ^ Z.of_nat k) by (rewrite Nat2Z.inj_succ, Z.pow_succ_r; lia).
  set (x := min * 2 ^ Z.of_nat k). replace (min * (2 * 2 ^ Z.of_nat k)) with (2 * x) by (unfold x; ring).
  assert (0 < x) by (unfold x; nia). unfold wrap64. rewrite Z.mod_small by lia. lia.
Qed.

Lemma delay_0 : 0 < min <= max -> delay min max 0 = min.
Proof. intros H. unfold delay. simpl. lia. Qed.

(** Calls that neither record nor wait. *)
Definition steady (ev : Event) : bool :=
  match ev with
  | EvCheckpointTransaction _ _ _ None | EvCheckpointBlock _ _ None | EvSleep _ _ _ => false
  | _ => true
  end.

Lemma steady_keeps a : forallb steady a = true -> forall k, delays k a = [] /\ reconnects k a = k.
Proof.
  induction a as [|ev a IH]; intros Ha k; [done|]. simpl in Ha. apply andb_true_iff in Ha as [He Ha].
  destruct (IH Ha k) as [H1 H2]. simpl. by destruct ev as [| | | | | | | | | | | | | | | | | | | |??? []|?? []|].
Qed.

Lemma steady_app a b : forallb steady (a ++ b) = forallb steady a && forallb steady b.
Proof. apply forallb_app. Qed.
Lemma steady_logs ls : forallb steady (EvLog <$> ls) = true.
Proof. by induction ls. Qed.
Lemma steady_closes rel : forallb steady (closes rel) = true.
Proof. by destruct rel. Qed.
Lemma steady_acquires `{Env} c w r a : acquires c w r a -> forallb steady a = true.
Proof. by destruct 1. Qed.

End delays.

Section listener.
Context `{X : X509Lib} `{E : Env} `{U : UnicodeTables} `{G : GrpcStatus} `{P : PeerCodes}
  `{EE : EventEnv}.
Variables (c : Contract) (ctx : Context) (cp : Checkpointer) (handle : EventHandler)
  (o : eventOptions).
Abbreviation min := (minBackoff o).
Abbreviation max := (maxBackoff o).
Hypothesis Hpos : 0 < min <= max.
Hypothesis Hmax : max < 2 ^ 62.

(** A piece of a run that waits as the reference says, from [k] reconnects on. *)
Definition paced (k : nat) (new : trace) : Prop := sleeps new = delays min max k new.

Lemma paced_steady k a : forallb steady a = true -> sleeps a = [] -> paced k a.
Proof. intros Ha Hs. unfold paced. by rewrite Hs, (proj1 (steady_keeps min max a Ha k)). Qed.

Lemma paced_app k a b : paced k a -> paced (reconnects k a) b -> paced k (a ++ b).
Proof. unfold paced. intros Ha Hb. by rewrite sleeps_app, delays_app, Ha, Hb. Qed.

Lemma consume_paced n s : forall k w,
  let '(r, w') := consume n cp handle o s (delay min max k) w in
  exists new, w_trace w' = w_trace w ++ new /\ paced k new
    /\ (forall err b, r = ended err b -> b = delay min max (reconnects k new)).
Proof.
  induction n as [|n IH]; intros k w; simpl.
  { exists []. by rewrite app_nil_r. }
  unfold recv. run_step. destruct (env_recv (w_trace w) (s_upstream s)) as [active|ge].
  { eexists. split_and!; [done|done|]. by intros ?? [= _ <-]. }
  run_handle. destruct (snd (handle _ _)) as [herr|].
  { unfold EventStream_Close. run_step. by eexists. }
  unfold CheckpointTransaction. run_step. destruct (cp_CheckpointTransaction _ _ _) as [cerr|].
  { unfold EventStream_Close. run_step. by eexists. }
  match goal with |- context [consume n cp handle o s ?b ?W] =>
    specialize (IH O W); rewrite delay_0 in IH by done; destruct (consume n cp handle o s b W) as [r w'] end.
  destruct IH as (new & Ht & Hp & Hb). eexists. rewrite Ht, push_trace, <- app_assoc.
  split_and!; [done|by apply paced_app|]. intros err b Hr. rewrite reconnects_app. by apply (Hb err b Hr).
Qed.

(** Between two streams: one delay, then the count goes up. *)
Lemma after_session_paced msg kv err k w :
  let '(r, w') := after_session c ctx msg kv cp o err (delay min max k) w in
  exists a, w' = push a w /\ paced k a
    /\ (forall b, r = inr b -> b = delay min max (reconnects k a)).
Proof.
  unfold after_session. destruct (match err with Some _ => _ | None => _ end).
  { exists []. by rewrite push_nil. }
  unfold sleepCtx. do 3 run_step.
  set (logs := Logger_Error _ _ _).
  assert (Hs : forall b, paced k ((EvLog <$> logs) ++ [EvSleep ctx (delay min max k) b])).
  { intros b. apply paced_app; [apply paced_steady; [apply steady_logs|by apply logs_ignored]|].
    by rewrite (proj2 (steady_keeps min max _ (steady_logs logs) k)). }
  destruct (env_sleep _ _ _); (eexists; split; [done|]); (split; [apply Hs|]); [|done].
  intros b [= <-]. rewrite reconnects_app, (proj2 (steady_keeps min max _ (steady_logs logs) k)). simpl.
  by apply next_delay.
Qed.

Lemma steady_neutral a : forallb neutral a = true -> sleeps a = [] -> forallb steady a = true.
Proof.
  induction a as [|ev a IH]; [done|]. simpl. intros [Hn Ha]%andb_true_iff Hs.
  destruct ev; try discriminate Hn; try discriminate Hs; by apply IH.
Qed.

Lemma ChaincodeEvents_paced os w k : exists r a,
  Contract_ChaincodeEvents c ctx os w = (r, push a w) /\ paced k a /\ reconnects k a = k.
Proof.
  destruct (ChaincodeEvents_run c ctx os w) as (r & a & Hr & Hcase & _ & Hs). exists r, a.
  assert (Ha : forallb steady a = true).
  { destruct r as [err|s]; [by apply steady_neutral|]. destruct Hcase as (a1 & net & -> & Hn & _).
    rewrite sleeps_app in Hs. apply app_nil in Hs as [Hs _]. by rewrite steady_app, steady_neutral. }
  split_and!; [done|by apply paced_steady|]. apply (steady_keeps min max a Ha k).
Qed.

Lemma listen_paced os n : forall k w,
  let '(_, w') := listen c ctx n cp handle os o (delay min max k) w in
  exists new, w_trace w' = w_trace w ++ new /\ paced k new.
Proof.
  induction n as [|n IH]; intros k w; simpl.
  { exists []. by rewrite app_nil_r. }
  destruct (ChaincodeEvents_paced os w k) as (rs & a & Hs & Hpa & Hka). rewrite (bind_run _ _ _ _ _ Hs).
  assert (Hsession : exists r w1 new,
    (match rs with inl err => mret (ended (Some err) (delay min max k))
     | inr stream => consume n cp handle o stream (delay min max k) end) (push a w) = (r, w1)
    /\ w_trace w1 = w_trace w ++ new /\ paced k new
    /\ (forall err b, r = ended err b -> b = delay min max (reconnects k new))).
  { destruct rs as [err|s].
    - eexists _, (push a w), a. split_and!; [done..|]. intros ?? [= _ <-]. by rewrite Hka.
    - pose proof (consume_paced n s k (push a w)) as Hc.
      destruct (consume n cp handle o s (delay min max k) (push a w)) as [r w1].
      destruct Hc as (new & Ht & Hp & Hb). exists r, w1, (a ++ new).
      rewrite Ht, push_trace, <- app_assoc. split_and!; [done|done| |].
      + apply paced_app; [done|by rewrite Hka].
      + intros err b Hr. rewrite reconnects_app, Hka. by apply (Hb err b Hr). }
  destruct Hsession as (r & w1 & new & Hrun & Ht & Hp & Hb). rewrite (bind_run _ _ _ _ _ Hrun).
  destruct r as [err|err b|]; [by exists new| |by exists new].
  unfold ctx_Err. run_M. destruct (env_ctx_Err _ _); [by exists new|].
  rewrite (Hb err b eq_refl).
  match goal with |- context [after_session ?c ?x ?m ?kv cp o ?e (delay min max ?j) w1] =>
    pose proof (after_session_paced m kv e j w1) as Ha;
    destruct (after_session c x m kv cp o e (delay min max j) w1) as [r w2] end.
  destruct Ha as (a2 & -> & Hp2 & Hb2). assert (Hpn : paced k (new ++ a2)) by by apply paced_app.
  destruct r as [r|b']; simpl.
  { exists (new ++ a2). simpl. by rewrite Ht, <- app_assoc. }
  rewrite (Hb2 b' eq_refl), <- reconnects_app. specialize (IH (reconnects k (new ++ a2)) (push a2 w1)).
  destruct (listen _ _ _ _ _ _ _ _ _) as [r w2]. destruct IH as (new' & Ht' & Hp').
  exists ((new ++ a2) ++ new'). rewrite Ht', push_trace, Ht, !app_assoc. split; [done|].
  by apply paced_app.
Qed.

End listener.

Section pacing.
Context `{X : X509Lib} `{E : Env} `{U : UnicodeTables} `{G : GrpcStatus} `{P : PeerCodes}
  `{EE : EventEnv}.

(** C29. The delays of a listener are those of the reference definition: the [k]-th
    reconnect in a row without a recorded event waits the minimum times 2^k, or
    the maximum if that is less; a recorded event starts the count again; so
    every delay lies between the two, which are positive and ordered whatever the
    caller asked for. (Doubling the maximum must not overflow an int64.) *)
Theorem ListenChaincodeEvents_delays (c : Contract) (ctx : Context) (n : nat) (cp : Checkpointer)
    (handle : EventHandler) (opts : list EventOption) (w : World) :
  let o := Contract_eventOptions c opts in
  0 < minBackoff o <= maxBackoff o
  /\ (maxBackoff o < 2 ^ 62 ->
      exists new, w_trace (snd (Contract_ListenChaincodeEvents c ctx n (Some cp) (Some handle) opts w))
          = w_trace w ++ new
        /\ sleeps new = delays (minBackoff o) (maxBackoff o) 0 new).
Proof.
  intros o. pose proof (eventOptions_backoff c opts) as Hpos. fold o in Hpos. cbn zeta in Hpos.
  split; [done|]. intros Hmax. unfold Contract_ListenChaincodeEvents. fold o.
  pose proof (listen_paced c ctx cp handle o Hpos Hmax (opts ++ [WithCheckpointer (Some cp)]) n O w) as Hp.
  rewrite delay_0 in Hp by done. destruct (listen _ _ _ _ _ _ _ _ _) as [r w'].
  destruct Hp as (new & Ht & Hp). by exists new.
Qed.

End pacing.
