(* ===== verification/Logs.v ===== *)
(** * What the SDK logs (observe.go)

    "The SDK logs function names, transaction IDs and error kinds only. It never
    logs arguments or transient data": the form of every log line of every
    operation. The second sentence holds; the lines of [New] and of the
    listeners also tell of peers, MSPs, channels, chaincodes and positions. *)

From S2P Require Import Prelude GoStrings GoRunes Errors Classify Observe World Identity Config Client Contract Transactions Views Lifecycle Events Positions.
Local Open Scope Z_scope.

(** ** The forms of log lines *)






Section logs.
Context `{X : X509Lib} `{F : FileSystem} `{T : TLSLib} `{E : Env} `{U : UnicodeTables}
  `{G : GrpcStatus} `{P : PeerCodes} `{L : LedgerProto} `{EE : EventEnv}.

(** ** Calls *)










(** ** Construction and listeners *)

















(** ** The property *)


End logs.
