(* ===== verification/ErrorTyping.v ===== *)
(** * The errors of the exported calls

    "Error is the structured error returned by every SDK call" (errors.go): which
    calls return a well-formed [*Error] when they fail, and what the others
    return: the listeners may pass on the error of the caller's handler or
    checkpointer as it is, and the two [Close] methods the errors of what they
    close. *)

From S2P Require Import Prelude GoStrings GoRunes Errors Classify Observe World Identity Config Client Contract Lifecycle Events Positions Streams Listeners BlockOutcome.
Local Open Scope Z_scope.

Definition typed_error (err : error) : Prop := exists e, err = sdkError e /\ wf_error e.
Definition typed {A} (r : error + A) : Prop :=
  match r with inl err => typed_error err | inr _ => True end.

(** What [classify] is given: an error of another package, or one of the SDK's. *)
Definition classifiable {A} (r : error + A) : Prop :=
  match r with inl err => foreign err \/ typed_error err | inr _ => True end.

(** ** Results of programs *)

(** Whatever the world, the result satisfies [P]. *)
Definition returns {A} (m : M A) (P : A -> Prop) : Prop := forall w, P (fst (m w)).

Lemma returns_ret {A} (x : A) (P : A -> Prop) : P x -> returns (mret x) P.
Proof. by intros H w. Qed.

Lemma returns_bind {A B} (m : M A) (f : A -> M B) (Q : A -> Prop) (P : B -> Prop) :
  returns m Q -> (forall x, Q x -> returns (f x) P) -> returns (m ≫= f) P.
Proof.
  intros Hm Hf w. unfold mbind, M_bind. specialize (Hm w). destruct (m w) as [x w1]. by apply Hf.
Qed.

Lemma returns_then {A B} (m : M A) (f : A -> M B) (P : B -> Prop) :
  (forall x, returns (f x) P) -> returns (m ≫= f) P.
Proof. intros Hf. by apply (returns_bind m f (fun _ => True)). Qed.

Lemma returns_outside {A} (answer : trace -> A) (ev : A -> Event) (P : A -> Prop) :
  (forall tr, P (answer tr)) -> returns (outside answer ev) P.
Proof. intros H w. apply H. Qed.

(** ** Errors that are typed *)

Lemma configError_typed err : typed_error (configError err).
Proof. destruct (configError_wf err) as (e & -> & ?). by exists e. Qed.

Lemma newError_typed k msg : is_Some (kindCode !! k) -> k <> KindOutcomeUnknown ->
  typed_error (sdkError (newError k SourceSDK msg)).
Proof.
  intros Hk Hn. eexists. split; [done|]. apply newError_wf; try done.
  by apply (bool_decide_unpack _).
Qed.

#[export] Hint Resolve configError_typed : go.

(** Walks a program whose branches end in typed results. [t] closes the calls
    that are not primitive. *)
Ltac solve_returns t :=
  repeat first
    [ apply returns_ret; solve [simpl; eauto with go]
    | t
    | progress (cbv beta zeta)
    | match goal with
      | |- returns (match ?x with _ => _ end) _ => destruct x
      | |- returns (if ?x then _ else _) _ => destruct x
      end
    | apply returns_then; intros ? ].

Section identities.
Context `{X : X509Lib} `{F : FileSystem} `{E : Env}.

Lemma NewIdentity_typed mspID cert sign : returns (NewIdentity mspID cert sign) typed.
Proof. unfold NewIdentity. solve_returns fail. Qed.

Lemma IdentityFromPEM_typed mspID certPEM keyPEM : returns (IdentityFromPEM mspID certPEM keyPEM) typed.
Proof. unfold IdentityFromPEM. solve_returns ltac:(apply NewIdentity_typed). Qed.

Lemma LoadIdentity_typed mspID certPath keyPath : returns (LoadIdentity mspID certPath keyPath) typed.
Proof. unfold LoadIdentity. solve_returns ltac:(apply IdentityFromPEM_typed). Qed.

Lemma hsm_identifier_typed cert opts : typed (hsm_identifier cert opts).
Proof. unfold hsm_identifier. repeat case_match; simpl; eauto with go. Qed.

Lemma IdentityFromHSM_typed factory mspID certPEM opts :
  returns (IdentityFromHSM factory mspID certPEM opts) typed.
Proof.
  unfold IdentityFromHSM. destruct factory as [f|]; [|solve_returns fail].
  destruct (CertificateFromPEM certPEM) as [err|cert]; [solve_returns fail|].
  pose proof (hsm_identifier_typed cert opts) as Hid.
  destruct (hsm_identifier cert opts) as [err|id]; [by apply returns_ret|].
  apply returns_then. intros [err|[sign closeFn]]; [solve_returns fail|].
  eapply returns_bind; [apply NewIdentity_typed|]. intros [err|i] Hi; solve_returns fail.
Qed.

End identities.

(** fabric-gateway's call that opens a subscription fails with errors of other
    packages, like the calls of [GatewayErrors]. *)
Class SubscriptionErrors `{EE : EventEnv} : Prop :=
  ChaincodeEvents_foreign tr n ctx cc o err : env_ChaincodeEvents tr n ctx cc o = inl err -> foreign err.

Section clients.
Context `{X : X509Lib} `{F : FileSystem} `{T : TLSLib} `{E : Env}.

Lemma connect_typed fc id : returns (connect fc id) typed.
Proof. unfold connect. solve_returns fail. Qed.

Lemma validate_typed cfg own err : validate cfg own = Some err -> typed_error err.
Proof. unfold validate. case_match; [done|]. intros [= <-]. apply configError_typed. Qed.

Lemma clientIdentity_typed cfg : returns (clientIdentity cfg) typed.
Proof.
  unfold clientIdentity. destruct (cfg_Identity cfg); [solve_returns fail|].
  eapply returns_bind; [apply LoadIdentity_typed|]. intros [err|i] Hi; solve_returns fail.
Qed.

Lemma build_typed cfg conn h : returns (build cfg conn h) typed.
Proof.
  unfold build. apply returns_then. intros a.
  eapply returns_bind; [apply clientIdentity_typed|]. intros [err|[id owns]] Hi; [by apply returns_ret|].
  eapply returns_bind; [apply connect_typed|]. intros [err|gw] Hg; solve_returns fail.
Qed.

Lemma New_typed cfg : returns (New cfg) typed.
Proof.
  unfold New. destruct (validate cfg true) as [err|] eqn:Hv; [by apply returns_ret, (validate_typed cfg true)|].
  assert (Ht : typed (transportCredentials (withDefaults cfg))).
  { unfold transportCredentials. repeat case_match; simpl; eauto with go. }
  cbv zeta. destruct (transportCredentials _) as [err|[creds h]]; [by apply returns_ret|].
  apply returns_then. intros [err|conn]; [solve_returns fail|].
  eapply returns_bind; [apply build_typed|]. intros [err|fc] Hb; solve_returns fail.
Qed.

Lemma NewWithConnection_typed conn cfg : returns (NewWithConnection conn cfg) typed.
Proof.
  unfold NewWithConnection. destruct conn as [conn|]; [|solve_returns fail].
  destruct (validate cfg false) as [err|] eqn:Hv; [by apply returns_ret, (validate_typed cfg false)|].
  apply build_typed.
Qed.

End clients.

Section calls.
Context `{X : X509Lib} `{E : Env} `{U : UnicodeTables} `{G : GrpcStatus} `{P : PeerCodes}
  `{L : LedgerProto} `{EE : EventEnv}.
Context `{!GatewayErrors} `{!PeerCodesOk} `{!SubscriptionErrors}.

(** [classify] makes a typed error of what it is given. *)
Lemma classified_typed err txID ph strict : foreign err \/ typed_error err ->
  typed_error (classified err txID ph strict).
Proof.
  unfold classified. intros [Hf|(e & -> & He)].
  - rewrite classify_foreign by done. eexists. split; [done|apply classify_status_wf].
  - by exists e.
Qed.

Lemma gateway_typed c : returns (Contract_gateway c) typed.
Proof.
  unfold Contract_gateway. apply returns_then. intros [|].
  { apply returns_ret, newError_typed; [by eexists|done]. }
  destruct (c_id c) as [id|]; [|solve_returns fail]. destruct (is_default_identity c id); [solve_returns fail|].
  eapply returns_bind; [apply connect_typed|]. intros [err|gw] Hg; solve_returns fail.
Qed.

Lemma Evaluate_classifiable p ctx : returns (EvaluateWithContext p ctx) classifiable.
Proof.
  apply returns_outside. intros tr. destruct (env_Evaluate tr p ctx) as [err|r] eqn:Er; [|done].
  left. by eapply Evaluate_foreign.
Qed.
Lemma Endorse_classifiable p ctx : returns (EndorseWithContext p ctx) classifiable.
Proof.
  apply returns_outside. intros tr. destruct (env_Endorse tr p ctx) as [err|r] eqn:Er; [|done].
  left. by eapply Endorse_foreign.
Qed.
Lemma Submit_classifiable t ctx : returns (SubmitWithContext t ctx) classifiable.
Proof.
  apply returns_outside. intros tr. destruct (env_Submit tr t ctx) as [err|r] eqn:Er; [|done].
  left. by eapply Submit_foreign.
Qed.
Lemma Status_classifiable k ctx : returns (StatusWithContext k ctx) classifiable.
Proof.
  apply returns_outside. intros tr. destruct (env_CommitStatus tr k ctx) as [err|r] eqn:Er; [|done].
  left. by eapply CommitStatus_foreign.
Qed.

Lemma EvaluateWith_typed c ctx fn opts : returns (Contract_EvaluateWith c ctx fn opts) typed.
Proof.
  unfold Contract_EvaluateWith. cbv zeta. apply returns_then. intros start.
  eapply returns_bind; [apply gateway_typed|]. intros [err|[gw rel]] Hg; [solve_returns fail|].
  apply returns_then. intros [err|p]; [solve_returns fail|].
  apply returns_then. intros ectx. eapply returns_bind; [apply Evaluate_classifiable|].
  intros [err|r] Hr; solve_returns fail. apply returns_ret. by apply classified_typed.
Qed.

Lemma SubmitAsync_typed c ctx fn opts : returns (Contract_SubmitAsync c ctx fn opts) typed.
Proof.
  unfold Contract_SubmitAsync. cbv zeta.
  eapply returns_bind; [apply gateway_typed|]. intros [err|[gw rel]] Hg; [solve_returns fail|].
  apply returns_then. intros [err|p]; [solve_returns fail|].
  do 2 (apply returns_then; intros ?). eapply returns_bind; [apply Endorse_classifiable|].
  intros [err|tx] Hr; [solve_returns fail; by apply returns_ret, classified_typed|].
  do 4 (apply returns_then; intros ?). eapply returns_bind; [apply Submit_classifiable|].
  intros [err|k] Hk; solve_returns fail. by apply returns_ret, classified_typed.
Qed.

Lemma Wait_typed p ctx : returns (PendingTx_Wait p ctx) typed.
Proof.
  unfold PendingTx_Wait. cbv zeta. do 2 (apply returns_then; intros ?).
  eapply returns_bind; [apply Status_classifiable|].
  intros [err|st] Hr; solve_returns fail; apply returns_ret; [by apply classified_typed|].
  eexists. split; [done|apply commitFailure_wf].
Qed.

Lemma SubmitWith_typed c ctx fn opts : returns (Contract_SubmitWith c ctx fn opts) typed.
Proof.
  unfold Contract_SubmitWith. eapply returns_bind; [apply SubmitAsync_typed|].
  intros [err|p] Hp; [by apply returns_ret|apply Wait_typed].
Qed.

Lemma qscc_classifiable c ctx fn args : returns (qscc c ctx fn args) classifiable.
Proof.
  unfold qscc. eapply returns_bind; [apply gateway_typed|].
  intros [err|[gw rel]] Hg; [apply returns_ret; by right|].
  apply returns_then. intros [err|p].
  { apply returns_then. intros ?. apply returns_ret. right. apply configError_typed. }
  apply returns_then. intros ?. eapply returns_bind; [apply Evaluate_classifiable|].
  intros r Hr. do 2 (apply returns_then; intros ?). by apply returns_ret.
Qed.

Lemma decodeError_typed msg err : typed_error (decodeError msg err).
Proof. eexists. split; [done|]. split; try done. by apply (bool_decide_unpack _). Qed.

Lemma TxStatus_typed c ctx txID : returns (Contract_TxStatus c ctx txID) typed.
Proof.
  unfold Contract_TxStatus. apply returns_then. intros start.
  eapply returns_bind; [apply qscc_classifiable|]. intros raw Hraw. cbv zeta. apply returns_then. intros ?.
  apply returns_ret. destruct raw as [err|raw]; simpl in Hraw.
  - destruct (mentions err noSuchTx); [done|by apply classified_typed].
  - destruct (Unmarshal_ProcessedTransaction raw); [apply decodeError_typed|done].
Qed.

Lemma Height_typed c ctx : returns (Contract_Height c ctx) typed.
Proof.
  unfold Contract_Height. eapply returns_bind; [apply qscc_classifiable|].
  intros [err|raw] Hraw; [by apply returns_ret, classified_typed|].
  destruct (Unmarshal_BlockchainInfo raw); apply returns_ret; [apply decodeError_typed|done].
Qed.

Lemma ChaincodeEvents_typed c ctx opts : returns (Contract_ChaincodeEvents c ctx opts) typed.
Proof.
  unfold Contract_ChaincodeEvents. cbv zeta. eapply returns_bind; [apply gateway_typed|].
  intros [err|[gw rel]] Hg; [by apply returns_ret|]. apply returns_then. intros tr.
  eapply (returns_bind _ _ classifiable).
  { apply returns_outside. intros tr'. destruct (env_ChaincodeEvents _ _ _ _ _) as [err|u] eqn:Ee; [|done].
    left. by eapply ChaincodeEvents_foreign. }
  intros [err|u] Hu; [|by apply returns_ret]. do 2 (apply returns_then; intros ?).
  by apply returns_ret, classified_typed.
Qed.

(** A block session fails with a typed error or with the marked error of the
    caller's code. *)
Definition session_typed (r : option (option error * Duration)) : Prop :=
  match r with
  | Some (Some err, _) => typed_error err \/ exists e, err = handlerError e
  | _ => True
  end.

Lemma consume_blocks_typed n cp handle o u : forall backoff,
  returns (consume_blocks n cp handle o u backoff) session_typed.
Proof.
  induction n as [|n IH]; intros backoff; simpl; [by apply returns_ret|].
  apply returns_then. intros [b|]; [|by apply returns_ret].
  apply returns_then. intros [e|]; [apply returns_ret; right; by exists e|].
  apply returns_then. intros [e|]; [apply returns_ret; right; by exists e|apply IH].
Qed.

Lemma blockSession_typed `{!NoHandlerErrors} c ctx n cp handle o backoff :
  returns (blockSession c ctx n cp handle o backoff) session_typed.
Proof.
  unfold blockSession. cbv zeta. eapply returns_bind; [apply gateway_typed|].
  intros [err|[gw rel]] Hg; [apply returns_ret; by left|]. apply returns_then. intros tr.
  eapply (returns_bind _ _ classifiable).
  { apply returns_outside. intros tr'. destruct (env_BlockEvents _ _ _ _) as [err|u] eqn:Ee; [|done].
    left. by apply nh_blocks in Ee as [? _]. }
  intros r Hr. apply (returns_bind _ _ session_typed).
  { destruct r as [err|u]; [|apply consume_blocks_typed].
    apply returns_ret. left. by apply classified_typed. }
  intros [r'|] Hr'; [|by apply returns_ret]. do 2 (apply returns_then; intros ?). by apply returns_ret.
Qed.

End calls.

(** ** The property *)

Section property.
Context `{X : X509Lib} `{F : FileSystem} `{T : TLSLib} `{E : Env} `{U : UnicodeTables}
  `{G : GrpcStatus} `{P : PeerCodes} `{L : LedgerProto} `{EE : EventEnv}.

(** An error that the caller's handler or checkpointer returned to a listener. *)
Definition caller_error (cp : Checkpointer) (new : trace) (err : error) : Prop :=
  (exists ev out, EvHandle ev out (Some err) ∈ new)
  \/ (exists b out, EvHandleBlock b out (Some err) ∈ new)
  \/ (exists n tx, EvCheckpointTransaction cp_id n tx (Some err) ∈ new)
  \/ (exists n, EvCheckpointBlock cp_id n (Some err) ∈ new).

(** The error of a stream. *)
Lemma stream_error_typed s err : reachable s -> EventStream_Err s = Some err -> typed_error err.
Proof.
  intros Hr Herr. destruct (reachable_inv s Hr) as [_ _ [He|[He _]] _ _ _ _ _ _ _]; unfold EventStream_Err in *;
    rewrite He in Herr; [done|]. injection Herr as <-. eexists. split; [done|]. split; try done.
  by apply (bool_decide_unpack _).
Qed.

Lemma NewFileCheckpointer_typed client_NewFileCheckpointer path :
  typed (NewFileCheckpointer client_NewFileCheckpointer path).
Proof. unfold NewFileCheckpointer. case_match; simpl; eauto with go. Qed.

(** What a listener returns: nil, a typed error, or the caller's own. *)
Definition typed_listener (cp : option Checkpointer) (w : World)
    (run : option (option error) * World) : Prop :=
  forall err, fst run = Some (Some err) -> typed_error err
    \/ exists cp' new, cp = Some cp' /\ w_trace (snd run) = w_trace w ++ new /\ caller_error cp' new err.

Lemma called ev new : ev ∈ listener_calls new -> ev ∈ new.
Proof. intros (ev' & Hin & He)%list_elem_of_omap. by destruct ev'; simplify_eq/=. Qed.

Lemma ListenChaincodeEvents_typed `{!GatewayErrors} `{!PeerCodesOk} `{!SubscriptionErrors}
    c ctx n cp handle opts w :
  typed_listener cp w (Contract_ListenChaincodeEvents c ctx n cp handle opts w).
Proof.
  intros err. unfold Contract_ListenChaincodeEvents.
  destruct cp as [cp|], handle as [handle|]; try (intros [= <-]; left; apply configError_typed).
  pose proof (listen_spec c ctx cp handle n opts (minBackoff (Contract_eventOptions c opts)) w) as Hl.
  destruct (listen _ _ _ _ _ _ _ _ _) as [r w']. destruct Hl as (new & Ht & Hv & _). simpl. intros ->.
  inversion Hv as [| | |pre ev out ? Hp ->|pre ev out ? Hp ->|wo w1 ? Hr Hrun ? ? ?]; subst.
  - right. exists cp. eexists. split_and!; [done|done|]. left. exists ev, out.
    rewrite !elem_of_app, !elem_of_cons. auto.
  - right. exists cp. eexists. split_and!; [done|done|]. right. right. left. do 2 eexists.
    rewrite !elem_of_app, !elem_of_cons. auto.
  - left. pose proof (ChaincodeEvents_typed c ctx (opts ++ [WithCheckpointer (Some cp)]) wo) as Hty.
    by rewrite Hrun in Hty.
Qed.

Lemma ListenBlocks_typed `{!GatewayErrors} `{!PeerCodesOk} `{!NoHandlerErrors} c ctx n cp handle opts w :
  typed_listener cp w (Contract_ListenBlocks c ctx n cp handle opts w).
Proof.
  intros err. unfold Contract_ListenBlocks.
  destruct cp as [cp|], handle as [handle|]; try (intros [= <-]; left; apply configError_typed).
  cbv zeta. pose proof (eventOptions_backoff c opts) as Hpos. cbn zeta in Hpos.
  pose proof (listen_blocks_spec c ctx cp handle n _ Hpos (minBackoff (Contract_eventOptions c opts)) w) as Hl.
  destruct (listen_blocks _ _ _ _ _ _ _ _) as [r w']. destruct Hl as (new & Ht & Hv & _). simpl. intros ->.
  inversion Hv as [| | |? (calls & b & out & _ & Hc) ?|? (calls & b & out & _ & Hc) ?
    |m d d' wo w1 ? Hr Hrun ? Hh ? ?]; subst.
  - right. exists cp, new. split_and!; [done|done|]. right. left. exists b, out.
    apply called. rewrite Hc, elem_of_app, elem_of_lit. auto.
  - right. exists cp, new. split_and!; [done|done|]. right. right. right. eexists.
    apply called. rewrite Hc, elem_of_app, !elem_of_cons. eauto.
  - left. pose proof (blockSession_typed c ctx m cp handle (Contract_eventOptions c opts) d wo) as Hty. rewrite Hrun in Hty.
    destruct Hty as [Hty|[e ->]]; [done|discriminate Hh].
Qed.

(** The errors of the [Close] methods are not the SDK's. *)
Lemma Identity_Close_error i w err : fst (Identity_Close i w) = Some err ->
  exists f tr, env_CloseFn tr f = Some err.
Proof.
  unfold Identity_Close. destruct i as [i|]; [|done]. run_M.
  destruct (w_close w !! id_addr i) as [f|]; [|done]. unfold call_CloseFn. run_M. eauto.
Qed.

Lemma FabricClient_Close_error fc w err : fst (FabricClient_Close fc w) = Some err ->
  exists errs, err = joinError errs.
Proof.
  assert (Hj : forall errs, errors_Join errs = Some err -> exists errs', err = joinError errs').
  { intros errs. unfold errors_Join. destruct (omap id errs); [done|]. intros [= <-]. eauto. }
  revert w. change (returns (FabricClient_Close fc) (fun r => r = Some err -> exists errs, err = joinError errs)).
  unfold FabricClient_Close. do 2 (apply returns_then; intros ?). by apply returns_ret, Hj.
Qed.

(** C12. Which calls keep the promise of the type [Error], "returned by every SDK
    call", provided that fabric-gateway's calls fail with errors of their own.
    Making an identity, a client or a file checkpointer, transactions, queries
    and subscriptions return, when they fail, an [*Error] with a known kind, the
    HTTP code of that kind and the flags that go with it; so do the ends of
    streams. A listener returns such an error, or the very error that the
    handler or the checkpointer of its caller returned. The [Close] of an
    identity and of a client are the exceptions: they return what the closed
    signer returned, and the joined errors of what the client closed, which is
    no [*Error]. *)
Theorem calls_return_typed_errors `{!GatewayErrors} `{!PeerCodesOk} `{!SubscriptionErrors} (w : World) :
  (forall m cert sign, typed (fst (NewIdentity m cert sign w)))
  /\ (forall m cert key, typed (fst (IdentityFromPEM m cert key w)))
  /\ (forall m cert key, typed (fst (LoadIdentity m cert key w)))
  /\ (forall f m cert opts, typed (fst (IdentityFromHSM f m cert opts w)))
  /\ (forall cfg, typed (fst (New cfg w)))
  /\ (forall conn cfg, typed (fst (NewWithConnection conn cfg w)))
  /\ (forall c ctx fn opts, typed (fst (Contract_EvaluateWith c ctx fn opts w))
       /\ typed (fst (Contract_SubmitAsync c ctx fn opts w))
       /\ typed (fst (Contract_SubmitWith c ctx fn opts w)))
  /\ (forall p ctx, typed (fst (PendingTx_Wait p ctx w)))
  /\ (forall c ctx txID, typed (fst (Contract_TxStatus c ctx txID w))
       /\ typed (fst (Contract_Height c ctx w)))
  /\ (forall c ctx opts, typed (fst (Contract_ChaincodeEvents c ctx opts w)))
  /\ (forall s err, reachable s -> EventStream_Err s = Some err -> typed_error err)
  /\ (forall client_NewFileCheckpointer path, typed (NewFileCheckpointer client_NewFileCheckpointer path))
  /\ (forall c ctx n cp handle opts,
       typed_listener cp w (Contract_ListenChaincodeEvents c ctx n cp handle opts w))
  /\ (NoHandlerErrors -> forall c ctx n cp handle opts,
       typed_listener cp w (Contract_ListenBlocks c ctx n cp handle opts w))
  /\ (forall i err, fst (Identity_Close i w) = Some err -> exists f tr, env_CloseFn tr f = Some err)
  /\ (forall fc err, fst (FabricClient_Close fc w) = Some err -> ~ typed_error err).
Proof.
  split_and!; intros; split_and?; first
    [apply NewIdentity_typed|apply IdentityFromPEM_typed|apply LoadIdentity_typed|apply IdentityFromHSM_typed|apply New_typed
    |apply NewWithConnection_typed|apply EvaluateWith_typed|apply SubmitAsync_typed|apply SubmitWith_typed
    |apply Wait_typed|apply TxStatus_typed|apply Height_typed|apply ChaincodeEvents_typed
    |by apply ListenChaincodeEvents_typed|by apply ListenBlocks_typed|by eapply Identity_Close_error
    |by eapply stream_error_typed|apply NewFileCheckpointer_typed|idtac].
  match goal with Hc : fst (FabricClient_Close _ _) = _ |- _ => apply FabricClient_Close_error in Hc as [errs ->] end.
  by intros (e & [=] & _).
Qed.

End property.
