(* ===== verification/Channel.v ===== *)
(** * A listener on top of a stream's goroutine

    Listeners.v reads a channel that delivers the ledger ([Delivers]). Here that
    interface is implemented: fabric-gateway sends the ledger on the upstream
    channel, and the goroutine of Streams.v, in any interleaving, forwards it. *)

From S2P Require Import Prelude GoStrings GoRunes Errors Classify Observe World Identity Config Client Contract Events Positions Protocol Streams Listeners.

(** The conversion of an event loses nothing. *)
#[export] Instance out_event_inj : Inj (=) (=) out_event.
Proof. intros [] [] [=]. by subst. Qed.

(** What a caller that received [k] events sees next is an answer of a reachable
    stream, over which fabric-gateway has sent (its documented behaviour) a piece
    of the ledger from the position asked for: an event that the goroutine offers,
    or the end of the channel and whether [Err] reports an error. *)
Definition stream_at (ledger : list GatewayEvent) (opts : list EventsOption) (k : nat) (s : stream) : Prop :=
  reachable s /\ forall p, wanted opts = Some p ->
    st_produced s `prefix_of` drop (index_of ledger p) ledger
    /\ st_delivered s = out_event <$> take k (drop (index_of ledger p) ledger).

Class StreamChannel (ledger : list GatewayEvent) `{EE : EventEnv} : Prop := {
  channel_event tr u ge : env_recv tr u = inr ge ->
    exists opts k s, cursor tr = Some (opts, k) /\ stream_at ledger opts k s
      /\ st_pc s = Sending (out_event ge);
  channel_end tr u active opts k : env_recv tr u = inl active -> cursor tr = Some (opts, k) ->
    exists s, stream_at ledger opts k s /\ st_closes s = 1
      /\ (active = true <-> EventStream_Err s <> None) }.

Section channel.
Context `{EE : EventEnv} (ledger : list GatewayEvent) `{!StreamChannel ledger}.

(** An offered event is the next one of the ledger. *)
Lemma offered_next opts k s ge p : stream_at ledger opts k s -> wanted opts = Some p ->
  st_pc s = Sending (out_event ge) -> ledger !! (index_of ledger p + k)%nat = Some ge.
Proof.
  intros [[_ Hq _ _ _ _ _ _ _ _]%reachable_inv Hs] Hp Hpc. destruct (Hs p Hp) as [Hpre Hdel].
  rewrite Hpc in Hq. specialize (Hq eq_refl). unfold in_flight in Hq. rewrite Hpc, Hdel in Hq.
  set (from := drop (index_of ledger p) ledger) in *.
  assert (Hge : st_produced s !! length (take k from) = Some ge).
  { assert (He : (out_event <$> st_produced s) !! length (take k from) = Some (out_event ge)).
    { by rewrite Hq, lookup_app_r, length_fmap, Nat.sub_diag by (by rewrite length_fmap). }
    rewrite list_lookup_fmap in He. destruct (st_produced s !! _) as [x|]; [|done].
    simpl in He. by apply (inj Some), (inj out_event) in He as ->. }
  assert (Hk : length (take k from) = k).
  { apply lookup_lt_Some in Hge. apply prefix_length in Hpre. rewrite length_take in *. lia. }
  rewrite Hk in Hge. destruct Hpre as [rest Hrest].
  assert (Hf : from !! k = Some ge) by (rewrite Hrest; by apply lookup_app_l_Some).
  unfold from in Hf. by rewrite lookup_drop in Hf.
Qed.

#[export] Instance stream_channel_Delivers : Delivers ledger.
Proof.
  intros tr u ge Hr. destruct (channel_event tr u ge Hr) as (opts & k & s & Hc & Hs & Hpc).
  exists opts, k. split; [done|]. intros p Hp. by eapply offered_next.
Qed.

End channel.

Section composition.
Context `{X : X509Lib} `{E : Env} `{U : UnicodeTables} `{G : GrpcStatus} `{P : PeerCodes}
  `{EE : EventEnv}.

(** The listener and the goroutines below it, together: all that is assumed of
    fabric-gateway is that it sends the ledger in order from the position asked
    for. Under every interleaving of the goroutines, the handler receives exactly
    a piece of the ledger from the position of the listener; and a stream that
    the Gateway ended had handed over everything that was sent on it, so what the
    next one resumes from is complete. *)
Theorem ListenChaincodeEvents_over_streams (c : Contract) (ctx : Context) (n : nat) (cp : Checkpointer)
    (handle : EventHandler) (opts : list EventOption) (w : World) (ledger : list GatewayEvent)
    (p : N * string) `{!CheckpointerOk cp} `{!StreamChannel ledger} :
  wf_ledger ledger ->
  wanted (start_options (startBlock (Contract_eventOptions c opts)) (Some cp) (w_trace w)) = Some p ->
  (exists new m,
     w_trace (snd (Contract_ListenChaincodeEvents c ctx n (Some cp) (Some handle) opts w))
       = w_trace w ++ new
     /\ handled new = out_event <$> take m (drop (index_of ledger p) ledger))
  /\ (forall tr u gopts k q, env_recv tr u = inl true -> cursor tr = Some (gopts, k) ->
       wanted gopts = Some q ->
       exists s, stream_at ledger gopts k s /\ st_up_closed s = true
         /\ out_event <$> st_produced s = out_event <$> take k (drop (index_of ledger q) ledger)).
Proof.
  intros Hl Hp. split.
  - apply (listen_no_gap c ctx cp handle ledger Hl n opts). by exists p.
  - intros tr u gopts k q Hr Hc Hq. destruct (channel_end _ _ _ _ _ Hr Hc) as (s & Hs & _ & Ha).
    exists s. split; [done|]. destruct Hs as [Hre Hs]. destruct (Hs q Hq) as [_ Hdel].
    pose proof (reachable_inv s Hre) as [_ _ He _ Hu _ _ _ _ _].
    pose proof (proj1 Ha eq_refl) as Hne. split; [by apply Hu|].
    destruct He as [He|[_ ->]]; [done|exact Hdel].
Qed.

End composition.
