(* ===== verification/Schedules.v ===== *)
(** * A listener over goroutines under any schedule

    Channel.v states what a stream offers to the listener ([StreamChannel]). Here
    nothing of that is assumed: the channel that the listener receives from is the
    transition system of Streams.v, run by a schedule that chooses freely what
    fabric-gateway, the goroutine and the caller's context do between two
    receives. *)

From S2P Require Import Prelude GoStrings GoRunes Errors Classify Observe World Identity Config Client Contract Events Positions Streams Listeners Channel.

(** ** The channel, from a schedule *)

(** After a trace, the steps taken until the listener's receive returns. *)
Class Schedule := sched : trace -> list label.

(** The event that the goroutine converted. *)
Definition in_event (ev : ChaincodeEvent) : GatewayEvent :=
  mkGatewayEvent (Event_BlockNumber ev) (Event_TxID ev) (Event_ChaincodeName ev)
    (Event_EventName ev) (Event_Payload ev).

Section schedule.
Context `{S : Schedule}.

(** The stream after one more call: a subscription starts one, a receive runs the
    schedule and takes the event offered. *)
Definition stream_after_call (st : trace * option stream) (ev : Event) : trace * option stream :=
  let '(tr, s) := st in
  (tr ++ [ev],
   match ev with
   | EvChaincodeEvents _ _ _ _ (Some _) => Some stream_init
   | EvBlockEvents _ _ _ (Some _) | EvRecvBlock _ (Some _) => None
   | EvRecv _ (Some _) => s ≫= stream_run (sched tr ++ [user_recv])
   | _ => s
   end).
Definition stream_after (tr : trace) : option stream := snd (foldl stream_after_call ([], None) tr).

(** The stream when the listener's next receive returns. *)
Definition waiting (tr : trace) : option stream := stream_after tr ≫= stream_run (sched tr).

(** What that receive returns: the event offered, or the end of the channel and
    whether [Err] has an error. *)
Definition receive (tr : trace) : bool + GatewayEvent :=
  match waiting tr with
  | Some s => match st_pc s with
              | Sending ev => inr (in_event ev)
              | _ => inl (bool_decide (is_Some (EventStream_Err s)))
              end
  | None => inl false
  end.

(** The listener's environment, with that channel. *)
Definition scheduled (EE : EventEnv) : EventEnv := {|
  env_ChaincodeEvents := @env_ChaincodeEvents EE;
  env_BlockEvents := @env_BlockEvents EE;
  env_recv tr _ := receive tr;
  env_recv_block := @env_recv_block EE;
  Block_Number := @Block_Number EE;
  env_ctx_Err := @env_ctx_Err EE;
  env_sleep := @env_sleep EE |}.

(** What a schedule must respect: only the listener receives; its receive returns
    when an event is offered or the channel is closed; and fabric-gateway sends the
    ledger from the position asked for (its documented behaviour). *)
Class FairSchedule (ledger : list GatewayEvent) : Prop := {
  sched_no_recv tr : user_recv ∉ sched tr;
  sched_returns tr s : waiting tr = Some s ->
    (exists ev, st_pc s = Sending ev) \/ st_closes s = 1;
  sched_sends tr s opts k p : waiting tr = Some s -> cursor tr = Some (opts, k) -> wanted opts = Some p ->
    st_produced s `prefix_of` drop (index_of ledger p) ledger }.

(** ** Lemmas *)

Lemma stream_after_snoc tr ev : stream_after (tr ++ [ev]) =
  match ev with
  | EvChaincodeEvents _ _ _ _ (Some _) => Some stream_init
  | EvBlockEvents _ _ _ (Some _) | EvRecvBlock _ (Some _) => None
  | EvRecv _ (Some _) => stream_after tr ≫= stream_run (sched tr ++ [user_recv])
  | _ => stream_after tr
  end.
Proof.
  unfold stream_after. rewrite foldl_app. simpl.
  assert (Ht : forall l st, fst (foldl stream_after_call st l) = fst st ++ l).
  { induction l as [|x l IH]; intros [a s]; simpl; [by rewrite app_nil_r|]. rewrite IH. simpl. by rewrite <- app_assoc. }
  specialize (Ht tr ([], None)). destruct (foldl _ _ tr) as [a s]. simpl in *. by subst.
Qed.

Lemma stream_step_delivered l s s' : l <> user_recv -> stream_step l s = Some s' ->
  st_delivered s' = st_delivered s.
Proof.
  intros Hl Hs. destruct s. unfold stream_step, set_pc in Hs. simpl in *.
  destruct l; try done; repeat case_match; simplify_eq; done.
Qed.

Lemma stream_run_delivered ls : forall s s', user_recv ∉ ls -> stream_run ls s = Some s' ->
  st_delivered s' = st_delivered s.
Proof.
  induction ls as [|l ls IH]; simpl; intros s s' Hn; [by intros [= <-]|].
  destruct (stream_step l s) as [s1|] eqn:E1; [|done]. intros Hs.
  rewrite (IH s1 s'); [|by intros H; apply Hn; right|done].
  apply (stream_step_delivered l); [|done]. intros ->. apply Hn. by left.
Qed.

Context (ledger : list GatewayEvent) `{!FairSchedule ledger}.

(** The stream of a trace is reachable, and the listener has received from it as
    often as the trace says. *)
Lemma stream_after_inv tr s : stream_after tr = Some s ->
  reachable s /\ exists opts, cursor tr = Some (opts, length (st_delivered s)).
Proof.
  revert s. induction tr as [|ev tr IH] using rev_ind; intros s; [done|].
  rewrite stream_after_snoc, cursor_app. simpl.
  assert (Hsame : stream_after tr = Some s -> (forall c, cursor_step c ev = c) ->
    reachable s /\ exists opts, cursor_step (cursor tr) ev = Some (opts, length (st_delivered s))).
  { intros Hs Hc. rewrite Hc. by apply IH. }
  event_cases ev; try (intros Hs; by apply Hsame); try done.
  - intros [= <-]. split; [constructor|]. by eexists.
  - intros (s0 & Hs0 & Hrun)%bind_Some. destruct (IH s0 Hs0) as (Hr & opts & Hc).
    rewrite stream_run_app in Hrun. apply bind_Some in Hrun as (s1 & Hs1 & Hrecv).
    split.
    { eapply (stream_run_reachable [user_recv]); [|exact Hrecv]. by eapply stream_run_reachable. }
    exists opts. rewrite Hc. simpl. do 2 f_equal.
    apply stream_run_delivered in Hs1; [|apply sched_no_recv]. rewrite <- Hs1.
    simpl in Hrecv. unfold stream_step in Hrecv. destruct (st_pc s1); try done. injection Hrecv as <-. simpl.
    rewrite length_app. simpl. lia.
Qed.

Lemma waiting_inv tr s : waiting tr = Some s ->
  reachable s /\ exists opts, cursor tr = Some (opts, length (st_delivered s)).
Proof.
  intros (s0 & Hs0 & Hrun)%bind_Some. destruct (stream_after_inv tr s0 Hs0) as (Hr & opts & Hc).
  split; [by eapply stream_run_reachable|]. exists opts.
  by rewrite (stream_run_delivered _ _ _ (sched_no_recv tr) Hrun).
Qed.

(** What a listener received from a stream is the ledger from its position. *)
Lemma waiting_at tr s opts k : waiting tr = Some s -> cursor tr = Some (opts, k) -> stream_at ledger opts k s.
Proof.
  intros Hw Hc. destruct (waiting_inv tr s Hw) as (Hr & o & Hc'). rewrite Hc in Hc'. injection Hc' as <- Hk.
  split; [done|]. intros p Hp. pose proof (sched_sends tr s opts k p Hw Hc Hp) as Hpre. split; [done|].
  destruct (reachable_inv s Hr) as [[more Hd] _ _ _ _ _ _ _ _ _]. destruct Hpre as [rest Hrest].
  rewrite Hrest, fmap_take, fmap_app, Hd, Hk, <- app_assoc. by rewrite take_app_length.
Qed.

Lemma out_in_event ev : out_event (in_event ev) = ev.
Proof. by destruct ev. Qed.

(** A stream that its caller closed after receiving [evs]. *)
Lemma stream_closed_by_caller evs : exists s, reachable s /\ st_produced s = evs
  /\ st_delivered s = out_event <$> evs /\ st_closes s = 1 /\ EventStream_Err s = None.
Proof.
  exists (mkStream Releasing [] true false true None 1 0 evs (out_event <$> evs) true). split; [|by split_and!].
  apply (stream_run_reachable [user_close; gw_close; go_end; go_check; go_check; go_stop; go_close]
    (mkStream Receiving [] false false false None 0 0 evs (out_event <$> evs) false)); [|reflexivity].
  apply (stream_run_reachable (evs ≫= one_event) stream_init); [constructor|]. apply (stream_run_events evs [] []).
Qed.

#[export] Instance scheduled_channel (EE : EventEnv) : StreamChannel ledger (EE := scheduled EE).
Proof.
  split; simpl; unfold receive.
  - intros tr _ ge. destruct (waiting tr) as [s|] eqn:Hw; [|done].
    destruct (waiting_inv tr s Hw) as (_ & opts & Hc). destruct (st_pc s) as [|ev| | | | | | |] eqn:Hpc; try done.
    intros [= <-]. exists opts, (length (st_delivered s)), s. split; [done|]. split; [by apply waiting_at with tr|].
    by rewrite out_in_event.
  - intros tr _ active opts k. destruct (waiting tr) as [s|] eqn:Hw.
    + intros Hr Hc. exists s. split; [by eapply waiting_at|].
      assert (Hone : st_closes s = 1) by (destruct (sched_returns tr s Hw) as [[ev He]|]; [by rewrite He in Hr|done]).
      split; [done|]. assert (active = bool_decide (is_Some (EventStream_Err s))) as ->.
      { destruct (st_pc s); try done; by injection Hr. }
      rewrite bool_decide_eq_true. split; [by intros [x ->]|].
      destruct (EventStream_Err s); [by eexists|done].
    + intros [= <-] Hc. destruct (stream_closed_by_caller match wanted opts with
        | Some p => take k (drop (index_of ledger p) ledger) | None => [] end) as (s & Hs & Hp & Hd & H1 & He).
      exists s. split; [split; [done|]|by rewrite He]. intros p Hwp. rewrite Hwp in *. rewrite Hp.
      split; [apply prefix_take|done].
Qed.

End schedule.

Section over_schedules.
Context `{X : X509Lib} `{E : Env} `{U : UnicodeTables} `{G : GrpcStatus} `{P : PeerCodes}
  `{S : Schedule} (EE : EventEnv).

(** C6. The listener on top of the goroutines of its streams, under every schedule of
    fabric-gateway, goroutine and context: all that is assumed of fabric-gateway is
    that it sends the ledger in order from the position asked for. The handler
    receives exactly a piece of the ledger from the position of the listener, over
    any number of streams; and a stream that reports an error had handed over
    everything that was sent on it, after the Gateway ended it, so what the next
    one resumes from is complete. *)
Theorem ListenChaincodeEvents_over_schedules (c : Contract) (ctx : Context) (n : nat) (cp : Checkpointer)
    (handle : EventHandler) (opts : list EventOption) (w : World) (ledger : list GatewayEvent)
    (p : N * string) `{!CheckpointerOk cp} `{!FairSchedule ledger} :
  wf_ledger ledger ->
  wanted (start_options (startBlock (Contract_eventOptions c opts)) (Some cp) (w_trace w)) = Some p ->
  (exists new m,
     w_trace (snd (Contract_ListenChaincodeEvents (EE := scheduled EE) c ctx n (Some cp) (Some handle) opts w))
       = w_trace w ++ new
     /\ handled new = out_event <$> take m (drop (index_of ledger p) ledger))
  /\ (forall tr s gopts k q, waiting tr = Some s -> EventStream_Err s <> None ->
       cursor tr = Some (gopts, k) -> wanted gopts = Some q ->
       st_up_closed s = true
       /\ out_event <$> st_produced s = out_event <$> take k (drop (index_of ledger q) ledger)).
Proof.
  intros Hl Hp. pose proof (scheduled_channel ledger EE) as Hch. split.
  - apply (listen_no_gap (EE := scheduled EE) c ctx cp handle ledger Hl n opts). by exists p.
  - intros tr s gopts k q Hw He Hc Hq. destruct (waiting_at ledger tr s gopts k Hw Hc) as [Hr Hs].
    destruct (Hs q Hq) as [_ Hdel]. destruct (reachable_inv s Hr) as [_ _ Herr _ Hu _ _ _ _ _].
    split; [by apply Hu|]. destruct Herr as [Herr|[_ ->]]; [done|exact Hdel].
Qed.

End over_schedules.
