(* ===== verification/Progress.v ===== *)
(** * A listener gets to the end of the ledger

    The theorems of Listeners.v say what a listener never does. This one says that
    it does its work: against an environment that keeps going, enough fuel, which
    is a bound on the streams opened and on the receives per stream, brings every
    event of the ledger to the handler. BlockProgress.v does the same for blocks. *)

From S2P Require Import Prelude GoStrings GoRunes Errors Classify Observe World Identity Config Client Contract Transactions Views Events Positions Protocol Listeners.
Local Open Scope Z_scope.

(** How many subscriptions were asked for since the last event or block was
    received: how many reconnects in a row brought nothing. *)
Definition barren_step (k : nat) (ev : Event) : nat :=
  match ev with
  | EvChaincodeEvents _ _ _ _ _ | EvBlockEvents _ _ _ _ => S k
  | EvRecv _ (Some _) | EvRecvBlock _ (Some _) => O
  | _ => k
  end.
Definition barren (tr : trace) : nat := foldl barren_step O tr.

Lemma barren_app a b : barren (a ++ b) = foldl barren_step (barren a) b.
Proof. apply foldl_app. Qed.

Lemma barren_logs tr ls : barren (tr ++ (EvLog <$> ls)) = barren tr.
Proof. rewrite barren_app. generalize (barren tr). by induction ls. Qed.

Lemma barren_acquires `{Env} tr c w r a : acquires c w r a -> barren (tr ++ a) = barren tr.
Proof. rewrite barren_app. by destruct 1. Qed.

(** How many sessions are left, at most, before an index [L] is reached from index
    [j], after [b] barren sessions of which there are no more than [d] in a row. *)
Definition sessions (L d j b : nat) : nat :=
  if decide (L - j = 0)%nat then O else ((L - j - 1) * (d + 1) + (1 `max` (d + 1 - b)))%nat.

Lemma sessions_brings L d j k b b' : (j < L)%nat -> (j < k)%nat ->
  (sessions L d k b' < sessions L d j b)%nat.
Proof. intros Hj Hk. unfold sessions. repeat case_decide; nia. Qed.

Lemma sessions_barren L d j b : (j < L)%nat -> (b < d)%nat ->
  (sessions L d j (S b) < sessions L d j b)%nat.
Proof. intros Hj Hb. unfold sessions. repeat case_decide; lia. Qed.

(** The fuel per session is enough too. *)
Lemma sessions_length L d j b : (L - j <= sessions L d j b)%nat.
Proof. unfold sessions. case_decide; nia. Qed.

Lemma sessions_bound L d j b : (sessions L d j b <= L * (d + 1))%nat.
Proof. unfold sessions. case_decide; nia. Qed.

(** ** A network that lets a listener go on *)

(** Gateways open and nobody cancels. *)
Class Undisturbed `{E : Env} `{EE : EventEnv} (ctx : Context) : Prop := {
  un_connect tr x o : exists g, env_Connect tr x o = inr g;
  un_ctx tr : env_ctx_Err tr ctx = None;
  un_sleep tr t : env_sleep tr ctx t = true }.

Section undisturbed.
Context `{X : X509Lib} `{E : Env} `{U : UnicodeTables} `{G : GrpcStatus} `{P : PeerCodes}
  `{EE : EventEnv}.
Variables (c : Contract) (ctx : Context).
Context `{!Undisturbed ctx}.

Definition fc_open (w : World) : Prop := fc_addr (c_fc c) ∉ w_closed w.

Lemma gateway_opens w : fc_open w -> is_Some (c_id c) ->
  exists gw rel a, Contract_gateway c w = (inr (gw, rel), push a w) /\ acquires c w (inr (gw, rel)) a
    /\ barren (w_trace w ++ a) = barren (w_trace w).
Proof.
  intros Ho [i0 Hi0]. destruct (gateway_run c w) as (r & a & Hg & Ha).
  pose proof (barren_acquires (w_trace w) _ _ _ _ Ha) as Hb.
  pose proof Ha as Ha'.
  destruct Ha' as [Hc|Hc Hi|i Hc Hi Hd|i err tr Hc Hi Hd Hf|i g Hc Hi Hd]; try done;
    [congruence|by do 3 eexists| |by do 3 eexists].
  destruct (un_connect tr (id_x509 i) (connectOptions (c_fc c) i)) as [g Hg']. congruence.
Qed.

(** After a session that ended without a final error, the listener sleeps and
    opens the next one. *)
Lemma after_session_goes_on msg kv cp o err b w :
  match err with Some e => reconnectable e = true | None => True end ->
  exists b' a, after_session c ctx msg kv cp o err b w = (inr b', push a w) /\ forallb neutral a = true
    /\ barren (w_trace w ++ a) = barren (w_trace w).
Proof.
  intros He. unfold after_session.
  replace (match err with Some e => negb (reconnectable e) | None => false end) with false
    by (by destruct err as [e|]; [rewrite He|]).
  unfold sleepCtx. do 3 run_step. rewrite un_sleep. do 2 eexists. split; [done|].
  rewrite neutral_app, neutral_logs. split; [done|]. by rewrite app_assoc, barren_app, barren_logs.
Qed.

End undisturbed.

(** ** The event listener *)

(** A network in which nobody fails for good: at most [d] reconnects in a row
    bring nothing, be it because the subscription fails with an error that is
    worth a reconnect or because its stream breaks before the first event; the
    next one delivers an event if there is one. Gateways open, handler and
    checkpointer accept, nobody cancels. Streams may still break after each event. *)
Class KeepsGoing `{E : Env} `{U : UnicodeTables} `{G : GrpcStatus} `{P : PeerCodes}
    `{EE : EventEnv}
    (ledger : list GatewayEvent) (ctx : Context) (cp : Checkpointer) (handle : EventHandler)
    (d : nat) : Prop := {
  kg_undisturbed :: Undisturbed ctx;
  kg_open tr n sctx cc o err : env_ChaincodeEvents tr n sctx cc o = inl err ->
    reconnectable (classified err "" phaseEvaluate true) = true /\ (barren tr < d)%nat;
  kg_recv tr u opts p : cursor tr = Some (opts, O) -> wanted opts = Some p ->
    (index_of ledger p < length ledger)%nat -> (d < barren tr)%nat -> exists ge, env_recv tr u = inr ge;
  kg_handle tr ev : snd (handle tr ev) = None;
  kg_checkpoint tr n tx : cp_CheckpointTransaction tr n tx = None }.

Section progress.
Context `{X : X509Lib} `{E : Env} `{U : UnicodeTables} `{G : GrpcStatus} `{P : PeerCodes}
  `{EE : EventEnv}.
Variables (c : Contract) (ctx : Context) (cp : Checkpointer) (handle : EventHandler)
  (ledger : list GatewayEvent) (d : nat).
Context `{!CheckpointerOk cp} `{!Delivers ledger} `{!KeepsGoing ledger ctx cp handle d}.
Hypothesis Hledger : wf_ledger ledger.
Hypothesis Hidentity : is_Some (c_id c).

#[local] Instance progress_feed : Feed := event_feed cp ledger.
#[local] Instance progress_keeper : Keeper (event_feed cp ledger) cp false := event_keeper cp ledger Hledger.

(** A stream ends before the fuel does, and the listener goes on. *)
Lemma consume_ends n o s : forall backoff w j,
  streaming progress_feed (w_trace w) j -> (length ledger - j < n)%nat ->
  exists err b new, consume n cp handle o s backoff w = (ended err b, push new w)
    /\ (err = None \/ err = Some streamClosed)
    /\ (handled new = [] -> barren (w_trace w ++ new) = barren (w_trace w)
        /\ forall ge, env_recv (w_trace w) (s_upstream s) <> inr ge).
Proof.
  induction n as [|n IH]; intros backoff w j Hs Hn; simpl; [lia|].
  unfold recv. run_step. destruct (env_recv (w_trace w) (s_upstream s)) as [active|ge] eqn:Er.
  { do 3 eexists. split; [done|]. split; [by destruct active; [right|left]|]. by rewrite barren_app. }
  destruct (streaming_recv _ _ _ _ _ _ Hs Er) as [(ge' & Hj & _)%stored_event Hs1]. apply lookup_lt_Some in Hj as Hlt.
  run_handle. rewrite kg_handle.
  unfold CheckpointTransaction. run_step. rewrite kg_checkpoint.
  match goal with |- context [consume n cp handle o s ?b ?W] =>
    destruct (IH b W (S j)) as (err & b' & new & Hr & He & _) end.
  - rewrite push_trace. simpl result_opt. rewrite app_assoc. by apply streaming_keep.
  - lia.
  - exists err, b'. eexists. rewrite Hr, push_push. split; [done|]. split; [done|]. by rewrite <- app_assoc.
Qed.

(** An attempt to open: it fails in a way that is worth another, or gives a
    stream. *)
Lemma ChaincodeEvents_attempt opts w : fc_open c w ->
  let '(r, w') := Contract_ChaincodeEvents c ctx opts w in
  barren (w_trace w') = S (barren (w_trace w))
  /\ forall err, r = inl err -> reconnectable err = true /\ (barren (w_trace w) < d)%nat.
Proof.
  intros Ho. unfold Contract_ChaincodeEvents.
  destruct (gateway_opens c ctx w Ho Hidentity) as (gw & rel & a & Hg & _ & Hb).
  rewrite (bind_run _ _ _ _ _ Hg), (bind_run get_trace _ _ _ _ eq_refl).
  unfold call_ChaincodeEvents. run_step. rewrite push_trace.
  destruct (env_ChaincodeEvents _ _ _ _ _) as [err|u] eqn:Eo.
  - apply kg_open in Eo as [Hre Hlt]. rewrite Hb in Hlt. repeat run_step.
    cbv beta iota delta [mret M_ret]. rewrite push_trace, app_assoc, barren_app, Hb.
    split; [by destruct rel|]. by intros ? [= <-].
  - cbv beta iota delta [mret M_ret]. rewrite push_trace, app_assoc, barren_app, Hb. by split.
Qed.

(** One session: it leaves fewer sessions to do, and the listener goes on. *)
Lemma session_progress n opts backoff w j : let o := Contract_eventOptions c opts in
  ready progress_feed cp (startBlock o) (w_trace w) j -> fc_open c w ->
  (length ledger - j < n)%nat -> (j < length ledger)%nat ->
  exists err b new k,
    (s ← Contract_ChaincodeEvents c ctx (opts ++ [WithCheckpointer (Some cp)]);
     match s with
     | inl err => mret (ended (Some err) backoff)
     | inr stream => consume n cp handle o stream backoff
     end) w = (ended err b, push new w)
    /\ match err with Some e => reconnectable e = true | None => True end
    /\ @run progress_feed j new (At k)
    /\ (sessions (length ledger) d k (barren (w_trace w ++ new)) < sessions (length ledger) d j (barren (w_trace w)))%nat.
Proof.
  intros o Hr Ho Hn Hj.
  destruct (ChaincodeEvents_run c ctx (opts ++ [WithCheckpointer (Some cp)]) w) as (rs & a & Hs & Hcase & _).
  pose proof (ChaincodeEvents_attempt (opts ++ [WithCheckpointer (Some cp)]) w Ho) as Hat.
  pose proof (session_run c ctx cp handle ledger false n opts backoff w j rs a Hr Hs) as Hrun.
  fold o in Hrun. rewrite Hs in Hat. destruct Hat as [Hb Hat]. rewrite push_trace in Hb.
  rewrite (bind_run _ _ _ _ _ Hs). destruct rs as [err|s].
  { destruct (Hat err eq_refl) as [He Hlt]. exists (Some err), backoff, a, j.
    split_and!; [done|done|by apply run_neutral|]. rewrite Hb. by apply sessions_barren. }
  rewrite eventOptions_checkpoint in Hcase. fold o in Hcase. cbn [startBlock checkpoint chaincode] in Hcase.
  destruct Hcase as (a1 & net & -> & Ha1 & _). set (w1 := push _ w) in *.
  assert (Hr1 : ready progress_feed cp (startBlock o) (w_trace w ++ a1) j) by by apply ready_neutral.
  assert (Hst : streaming progress_feed (w_trace w1) j).
  { unfold w1. rewrite push_trace, app_assoc. by eapply streaming_opened. }
  destruct (consume_ends n o s backoff w1 j Hst Hn) as (err & b & new & Hc & He & Hfirst).
  rewrite Hc in Hrun |- *. destruct Hrun as (new' & st & Ht & Hrun & Hend).
  destruct (Hend err b eq_refl) as [k ->].
  unfold w1 in Ht. rewrite !push_trace, <- app_assoc in Ht. apply app_inv_head in Ht as <-.
  exists err, b. eexists. exists k. unfold w1. rewrite push_push. split_and!; [done| |done|].
  { destruct He as [->| ->]; [done|apply streamClosed_reconnectable]. }
  pose proof (run_count cp ledger _ _ _ Hrun) as Hk. rewrite !handled_app, !length_app in Hk.
  rewrite (proj1 (neutral_views _ Ha1)) in Hk. simpl in Hk. rewrite app_assoc.
  change (w_trace w ++ ?x) with (w_trace (push x w)). fold w1.
  destruct (handled new) as [|e l] eqn:Eh; simpl in Hk.
  - destruct (Hfirst eq_refl) as [Hsame Hnone].
    assert (Hd : (barren (w_trace w) < d)%nat).
    { destruct (decide (d < barren (w_trace w1))%nat) as [Hlt|]; [exfalso|unfold w1 in *; rewrite push_trace in *; lia].
      destruct Hr1 as (p & Hp & Hi). edestruct (kg_recv (w_trace w1) (s_upstream s)) as [ge Hge];
        [|exact Hp|simpl in Hi; lia|done|by eapply Hnone].
      unfold w1. by rewrite push_trace, app_assoc, cursor_app. }
    rewrite Hsame. unfold w1. rewrite push_trace, Hb. replace k with j by lia. by apply sessions_barren.
  - apply sessions_brings; lia.
Qed.

(** Enough fuel brings the listener to the end of the ledger. *)
Lemma listen_progress n opts : let o := Contract_eventOptions c opts in
  forall backoff w j, ready progress_feed cp (startBlock o) (w_trace w) j -> fc_open c w ->
  (sessions (length ledger) d j (barren (w_trace w)) + 1 < n)%nat ->
  exists new, w_trace (snd (listen c ctx n cp handle (opts ++ [WithCheckpointer (Some cp)]) o backoff w))
      = w_trace w ++ new
    /\ (length ledger - j <= length (handled new))%nat.
Proof.
  intros o. induction n as [|n IH]; intros backoff w j Hr Ho Hn; [lia|].
  destruct (decide (length ledger - j = 0)%nat) as [E0|Hne].
  { destruct (listen_no_gap c ctx cp handle ledger Hledger (S n) opts backoff w j Hr) as (new & m & Ht & _).
    exists new. split; [exact Ht|lia]. }
  destruct (session_progress n opts backoff w j Hr Ho) as (err & b & new & k & Hs & He & Hrun & Hlt); [|lia|].
  { pose proof (sessions_length (length ledger) d j (barren (w_trace w))). lia. }
  pose proof (run_count cp ledger _ _ _ Hrun) as Hk. simpl in Hk.
  fold o in Hs. clearbody o. unfold mbind at 1, M_bind at 1 in Hs. simpl. unfold mbind at 1, M_bind at 1.
  destruct (Contract_ChaincodeEvents _ _ _ w) as [rs w1]. erewrite bind_run by exact Hs.
  unfold ctx_Err. run_M. rewrite un_ctx.
  match goal with |- context [after_session c ctx ?m ?k cp o err b ?W] =>
    destruct (after_session_goes_on c ctx m k cp o err b W He) as (b' & a & Ha & Hna & Hba) end.
  change (snd (emit ?e ?W)) with (push e W) in *. rewrite push_trace, <- app_assoc in Hba.
  rewrite Ha, push_push. destruct (IH b' (push (new ++ a) w) k) as (rest & Hrest & Hlen).
  - rewrite push_trace. apply (run_ready _ _ false _ _ j _ (At k)); [done|by apply run_quiet].
  - exact Ho.
  - rewrite push_trace, Hba. lia.
  - exists ((new ++ a) ++ rest). rewrite Hrest, push_trace, !app_assoc. split; [done|].
    rewrite !handled_app, !length_app, (proj1 (neutral_views _ Hna)). simpl. lia.
Qed.

(** C9. Every event of the ledger from the listener's position on reaches the
    handler, once and in order, although streams break after any event and up to
    [d] reconnects in a row bring nothing (their subscription fails, or their
    stream ends at once): [d] + 1 sessions per event that is left are enough. *)
Theorem ListenChaincodeEvents_handles_all (n : nat) (opts : list EventOption) (w : World)
    (p : N * string) :
  fc_addr (c_fc c) ∉ w_closed w ->
  wanted (start_options (startBlock (Contract_eventOptions c opts)) (Some cp) (w_trace w)) = Some p ->
  (length ledger * (d + 1) + 1 < n)%nat ->
  exists new,
    w_trace (snd (Contract_ListenChaincodeEvents c ctx n (Some cp) (Some handle) opts w)) = w_trace w ++ new
    /\ handled new = out_event <$> drop (index_of ledger p) ledger.
Proof.
  intros Ho Hp Hn. unfold Contract_ListenChaincodeEvents. set (j := index_of ledger p).
  set (b := minBackoff (Contract_eventOptions c opts)).
  assert (Hr : ready progress_feed cp (startBlock (Contract_eventOptions c opts)) (w_trace w) j) by by exists p.
  destruct (listen_no_gap c ctx cp handle ledger Hledger n opts b w j Hr) as (new & m & Ht & Hh).
  destruct (listen_progress n opts b w j Hr Ho) as (new' & Ht' & Hlen).
  { pose proof (sessions_bound (length ledger) d j (barren (w_trace w))). lia. }
  exists new. split; [exact Ht|]. cbn zeta in Ht, Ht'. rewrite Ht in Ht'. apply app_inv_head in Ht' as <-.
  rewrite Hh in Hlen |- *. rewrite length_fmap, length_take, length_drop in Hlen.
  f_equal. apply take_ge. rewrite length_drop. lia.
Qed.

End progress.
