(* ===== verification/BlockProgress.v ===== *)
(** * A block listener gets to the end of the chain

    The counterpart of Progress.v for [ListenBlocks]: against an environment that
    keeps going, enough fuel brings every block of the chain to the handler. *)

From S2P Require Import Prelude GoStrings GoRunes Errors Classify Observe World Identity Config Client Contract Transactions Views Events Positions Protocol Listeners Blocks BlockOutcome Progress.
Local Open Scope Z_scope.

(** The chain has the blocks below [height] (and may grow). As in [KeepsGoing], at
    most [d] reconnects in a row bring nothing, and streams may break after each
    block. *)
Class KeepsGoingBlocks `{E : Env} `{U : UnicodeTables} `{G : GrpcStatus} `{P : PeerCodes}
    `{EE : EventEnv}
    (height : nat) (ctx : Context) (cp : Checkpointer) (handle : BlockHandler) (d : nat) : Prop := {
  kb_undisturbed :: Undisturbed ctx;
  kb_open tr n sctx o err : env_BlockEvents tr n sctx o = inl err ->
    reconnectable (classified err "" phaseEvaluate true) = true /\ (barren tr < d)%nat;
  kb_recv tr u opts p : cursor tr = Some (opts, O) -> wanted opts = Some p ->
    (N.to_nat (fst p) < height)%nat -> (d < barren tr)%nat -> is_Some (env_recv_block tr u);
  kb_handle tr b : snd (handle tr b) = None;
  kb_checkpoint tr n : cp_CheckpointBlock tr n = None }.

Section progress.
Context `{X : X509Lib} `{E : Env} `{U : UnicodeTables} `{G : GrpcStatus} `{P : PeerCodes}
  `{EE : EventEnv}.
Variables (c : Contract) (ctx : Context) (cp : Checkpointer) (handle : BlockHandler)
  (height d : nat).
Context `{!CheckpointerOk cp} `{!DeliversBlocks} `{!NoHandlerErrors} `{!KeepsGoingBlocks height ctx cp handle d}.
Hypothesis Hidentity : is_Some (c_id c).

#[local] Instance progress_feed : Feed := block_feed cp.
#[local] Instance progress_keeper : Keeper (block_feed cp) cp false := block_keeper cp.

Lemma run_block_count j tr s : run j tr s -> reached s = (j + length (handled_blocks tr))%nat.
Proof.
  intros Hr. rewrite <- (length_fmap Block_Number), <- (handed_blocks cp).
  exact (proj2 (proj2 (run_located _ _ _ Hr))).
Qed.

(** A stream ends without an error, unless the fuel does first. *)
Lemma consume_blocks_ends n o u : forall backoff w,
  exists r new, consume_blocks n cp handle o u backoff w = (r, push new w)
    /\ (r = None /\ length (handled_blocks new) = n \/ exists b, r = Some (None, b))
    /\ (handled_blocks new = [] -> n <> O ->
        barren (w_trace w ++ new) = barren (w_trace w) /\ env_recv_block (w_trace w) u = None).
Proof.
  induction n as [|n IH]; intros backoff w; simpl.
  { exists None, []. rewrite push_nil. split_and!; [done|by left|done]. }
  unfold recv_block. run_step. destruct (env_recv_block (w_trace w) u) as [b|] eqn:Er.
  2:{ do 2 eexists. split; [done|]. split; [right; by eexists|]. by rewrite barren_app. }
  run_handle. rewrite kb_handle.
  unfold CheckpointBlock. run_step. rewrite kb_checkpoint.
  match goal with |- context [consume_blocks n cp handle o u ?b ?W] =>
    destruct (IH b W) as (r & new & Hr & He & _) end.
  exists r. eexists. rewrite Hr, push_push. split; [done|]. split; [|done].
  destruct He as [[-> Hl]|He]; [left|by right]. split; [done|]. simpl. by rewrite Hl.
Qed.

(** How a session ends, and whether it was barren. *)
Lemma blockSession_ends n o backoff w j :
  ready progress_feed cp (startBlock o) (w_trace w) j -> fc_open c w -> (j < height)%nat -> n <> O ->
  exists r a, blockSession c ctx n cp handle o backoff w = (r, push a w)
    /\ match r with
       | None => (n <= length (handled_blocks a))%nat
       | Some (err, _) =>
           match err with Some e => reconnectable e = true | None => True end
           /\ errors_As is_handler err = None
           /\ (handled_blocks a = [] ->
               barren (w_trace w ++ a) = S (barren (w_trace w)) /\ (barren (w_trace w) < d)%nat)
       end.
Proof.
  intros Hr Ho Hj Hn. unfold blockSession.
  destruct (gateway_opens c ctx w Ho Hidentity) as (gw & rel & a & Hg & Ha & Hb).
  rewrite (bind_run _ _ _ _ _ Hg). pose proof (neutral_acquires _ _ _ _ Ha) as Hna. run_step.
  assert (Hfin : forall k, foldl barren_step k (closes rel) = k) by by destruct rel.
  unfold call_BlockEvents. run_step. rewrite push_trace.
  destruct (env_BlockEvents _ _ _ _) as [err|u] eqn:Eo; cbv iota.
  - rewrite (bind_run (mret _) _ _ _ _ eq_refl). cbv iota. do 2 run_step. do 2 eexists. split; [done|].
    cbv beta iota. destruct (kb_open _ _ _ _ _ Eo) as [Hre Hlt]. rewrite Hb in Hlt.
    destruct (nh_blocks _ _ _ _ _ Eo) as [Hf Hno]. split_and!; [done|by apply classified_no_handler|].
    intros _. split; [|done]. rewrite app_assoc, barren_app, Hb. apply Hfin.
  - set (w1 := push _ w).
    assert (Hra : ready progress_feed cp (startBlock o) (w_trace w ++ a) j)
      by by apply ready_neutral.
    destruct (consume_blocks_ends n o u backoff w1) as (r & new & Hc & He & Hfirst).
    rewrite (bind_run _ _ _ _ _ Hc).
    destruct He as [[-> Hl]|[b ->]]; cbv beta iota.
    { do 2 eexists. unfold w1. rewrite push_push. split; [done|]. cbv beta iota. 
      rewrite !handled_blocks_app, (proj1 (proj2 (neutral_views _ Hna))). simpl. lia. }
    do 2 run_step. do 2 eexists. unfold w1. rewrite push_push. split; [done|]. split_and!; [done..|].
    rewrite !handled_blocks_app. intros [_ [Hh _]%app_eq_nil]%app_eq_nil.
    destruct (Hfirst Hh Hn) as [Hsame Hnone].
    assert (Hb1 : barren (w_trace w1) = S (barren (w_trace w)))
      by (unfold w1; by rewrite push_trace, app_assoc, barren_app, Hb).
    rewrite app_assoc, <- (push_trace _ w). fold w1. rewrite app_assoc, barren_app, Hsame, Hb1.
    split; [apply Hfin|]. destruct (decide (d < barren (w_trace w1))%nat) as [Hlt|]; [exfalso|lia].
    destruct Hra as (p & Hp & Hi). destruct (kb_recv (w_trace w1) u
      (start_options (startBlock o) (Some cp) (w_trace w ++ a)) p) as [b' Hb']; [|done|simpl in Hi; lia|done|congruence].
    unfold w1. by rewrite push_trace, app_assoc, cursor_app.
Qed.

(** One session: the chain is handled, or the listener goes on and fewer sessions
    are left. *)
Lemma blockSession_progress n o backoff w j :
  ready progress_feed cp (startBlock o) (w_trace w) j -> fc_open c w ->
  (height - j <= n)%nat -> (j < height)%nat ->
  exists r new, blockSession c ctx n cp handle o backoff w = (r, push new w)
    /\ match r with
       | None => (height - j <= length (handled_blocks new))%nat
       | Some (err, _) => exists k,
           match err with Some e => reconnectable e = true | None => True end
           /\ errors_As is_handler err = None /\ run j new (At k)
           /\ (sessions height d k (barren (w_trace w ++ new))
               < sessions height d j (barren (w_trace w)))%nat
       end.
Proof.
  intros Hr Ho Hn Hj. pose proof (blockSession_run c ctx cp handle false n o backoff w j Hr) as Hrun.
  destruct (blockSession_ends n o backoff w j Hr Ho Hj) as (r & a & Hs & Hcase); [lia|].
  rewrite Hs in Hrun. exists r, a. split; [done|].
  destruct Hrun as (new & st & Ht & Hst & Hend). rewrite push_trace in Ht. apply app_inv_head in Ht as <-.
  destruct r as [[err b]|]; [|lia]. destruct Hcase as (He & Hno & Hbar).
  destruct (Hend err b eq_refl) as [[e ->]|[k ->]]; [done|]. exists k. split_and!; [done..|].
  pose proof (run_block_count _ _ _ Hst) as Hk. simpl in Hk.
  destruct (handled_blocks a) as [|x l]; simpl in Hk.
  - destruct (Hbar eq_refl) as [-> Hd]. replace k with j by lia. by apply sessions_barren.
  - apply sessions_brings; lia.
Qed.

(** Enough fuel brings the listener to the end of the chain. *)
Lemma listen_blocks_progress n o : forall backoff w j,
  ready progress_feed cp (startBlock o) (w_trace w) j -> fc_open c w ->
  (sessions height d j (barren (w_trace w)) + 1 < n)%nat ->
  exists new, w_trace (snd (listen_blocks c ctx n cp handle o backoff w)) = w_trace w ++ new
    /\ (height - j <= length (handled_blocks new))%nat.
Proof.
  induction n as [|n IH]; intros backoff w j Hr Ho Hn; [lia|].
  destruct (decide (height - j = 0)%nat) as [E0|Hne].
  { destruct (listen_blocks_run c ctx cp handle false (S n) o backoff w j Hr) as (new & st & Ht & _).
    exists new. split; [exact Ht|lia]. }
  destruct (blockSession_progress n o backoff w j Hr Ho) as (r & new & Hs & Hcase); [|lia|].
  { pose proof (sessions_length height d j (barren (w_trace w))). lia. }
  simpl. rewrite (bind_run _ _ _ _ _ Hs). destruct r as [[err b]|]; [|by exists new].
  destruct Hcase as (k & He & Hno & Hrun & Hlt). pose proof (run_block_count _ _ _ Hrun) as Hk. simpl in Hk.
  unfold ctx_Err. run_M. rewrite un_ctx, Hno.
  match goal with |- context [after_session c ctx ?m ?k cp o err b ?W] =>
    destruct (after_session_goes_on c ctx m k cp o err b W He) as (b' & a & Ha & Hna & Hba) end.
  rewrite Ha, push_push. rewrite push_trace, <- app_assoc in Hba.
  destruct (IH b' (push (new ++ a) w) k) as (rest & Hrest & Hlen).
  - rewrite push_trace. apply (run_ready _ _ false _ _ j _ (At k)); [done|by apply run_quiet].
  - exact Ho.
  - rewrite push_trace, Hba. lia.
  - exists ((new ++ a) ++ rest). rewrite Hrest, push_trace, !app_assoc. split; [done|].
    rewrite !handled_blocks_app, !length_app, (proj1 (proj2 (neutral_views _ Hna))). simpl. lia.
Qed.

(** C10. Every block of the chain from the listener's position on reaches the handler,
    once and in order, although streams break after any block and up to [d]
    reconnects in a row bring nothing: [d] + 1 sessions per block are enough. *)
Theorem ListenBlocks_handles_all (n : nat) (opts : list EventOption) (w : World) (p : N * string) :
  fc_addr (c_fc c) ∉ w_closed w ->
  wanted (start_options (startBlock (Contract_eventOptions c opts)) (Some cp) (w_trace w)) = Some p ->
  (height * (d + 1) + 1 < n)%nat ->
  exists new,
    w_trace (snd (Contract_ListenBlocks c ctx n (Some cp) (Some handle) opts w)) = w_trace w ++ new
    /\ consecutive (fst p) (handled_blocks new)
    /\ (height <= N.to_nat (fst p) + length (handled_blocks new))%nat.
Proof.
  intros Ho Hp Hn. destruct (ListenBlocks_no_gap c ctx n cp handle opts w p Hp) as (new & Ht & Hc).
  exists new. split_and!; [done..|]. unfold Contract_ListenBlocks in Ht.
  set (o := Contract_eventOptions c opts) in *. set (j := N.to_nat (fst p)).
  destruct (listen_blocks_progress n o (minBackoff o) w j) as (new' & Ht' & Hlen); [by exists p|done| |].
  { pose proof (sessions_bound height d j (barren (w_trace w))). lia. }
  cbv zeta in Ht. rewrite Ht' in Ht. apply app_inv_head in Ht as ->. lia.
Qed.

End progress.
