(* ===== verification/Pool.v ===== *)
(** * Threads over shared state

    Concurrent callers of one Go object: a shared state, one local state per
    goroutine, and an atomic step of one goroutine at a time. A step may depend
    on a label (what the network answers); [None] is a goroutine that cannot move
    now. [sync.Once] is a state of three values. *)

From S2P Require Import Prelude.

Section pool.
Context {Shared Local Label : Type}.
Variable step : nat -> Label -> Shared -> Local -> option (Shared * Local).

Definition config : Type := Shared * list Local.

(** Thread [i] takes a step with label [a]. *)
Definition pool_step (l : nat * Label) (c : config) : option config :=
  t ← c.2 !! l.1; r ← step l.1 l.2 c.1 t; Some (r.1, <[l.1 := r.2]> c.2).

Fixpoint pool_run (ls : list (nat * Label)) (c : config) : option config :=
  match ls with
  | [] => Some c
  | l :: ls => pool_step l c ≫= pool_run ls
  end.

Inductive pool_reachable (c0 : config) : config -> Prop :=
| pool_init : pool_reachable c0 c0
| pool_next l c c' : pool_reachable c0 c -> pool_step l c = Some c' -> pool_reachable c0 c'.

Lemma pool_step_inv l c c' : pool_step l c = Some c' ->
  exists t s' t', c.2 !! l.1 = Some t /\ step l.1 l.2 c.1 t = Some (s', t')
    /\ c' = (s', <[l.1 := t']> c.2).
Proof.
  unfold pool_step. destruct (c.2 !! l.1) as [t|] eqn:Et; [|done]. simpl.
  destruct (step l.1 l.2 c.1 t) as [[s' t']|] eqn:Es; [|done]. intros [= <-]. by exists t, s', t'.
Qed.

Lemma pool_step_intro i a c t s' t' :
  c.2 !! i = Some t -> step i a c.1 t = Some (s', t') ->
  pool_step (i, a) c = Some (s', <[i := t']> c.2).
Proof. intros Ht Hs. unfold pool_step. simpl. rewrite Ht. simpl. by rewrite Hs. Qed.

(** The rule of invariants: it holds at the start and every step keeps it. *)
Lemma pool_invariant (I : config -> Prop) c0 c :
  I c0 -> (forall l c c', I c -> pool_step l c = Some c' -> I c') ->
  pool_reachable c0 c -> I c.
Proof. intros H0 Hs. induction 1 as [|l c c' _ IH Hstep]; [done|exact (Hs _ _ _ IH Hstep)]. Qed.

Lemma pool_run_reachable c0 ls : forall c c',
  pool_reachable c0 c -> pool_run ls c = Some c' -> pool_reachable c0 c'.
Proof.
  induction ls as [|l ls IH]; simpl; intros c c' Hc; [by intros [= <-]|].
  destruct (pool_step l c) as [c1|] eqn:E; [|done]. simpl. intros Hr. exact (IH _ _ (pool_next _ _ _ _ Hc E) Hr).
Qed.

Lemma pool_run_app a b c : pool_run (a ++ b) c = pool_run a c ≫= pool_run b.
Proof.
  revert c. induction a as [|l a IH]; intros c; [done|]. simpl.
  by destruct (pool_step l c); simpl.
Qed.

(** ** Termination *)

Section measure.
Variable weight : Local -> nat.
Hypothesis step_decreases : forall i a s t s' t',
  step i a s t = Some (s', t') -> (weight t' < weight t)%nat.

Definition total (c : config) : nat := sum_list_with weight c.2.

Lemma sum_insert i (t t' : Local) : forall ts, ts !! i = Some t ->
  (sum_list_with weight (<[i := t']> ts) + weight t = sum_list_with weight ts + weight t')%nat.
Proof.
  induction i as [|i IH]; intros [|u ts] Hi; simplify_eq/=; [lia|].
  specialize (IH ts Hi). lia.
Qed.

Lemma pool_step_decreases l c c' : pool_step l c = Some c' -> (total c' < total c)%nat.
Proof.
  intros (t & s' & t' & Ht & Hs & ->)%pool_step_inv. unfold total. simpl.
  pose proof (sum_insert _ _ t' _ Ht). apply step_decreases in Hs. lia.
Qed.

(** No schedule is longer than the total weight. *)
Lemma pool_run_bounded ls : forall c c', pool_run ls c = Some c' -> (length ls <= total c)%nat.
Proof.
  induction ls as [|l ls IH]; intros c c'; simpl; [lia|].
  destruct (pool_step l c) as [c1|] eqn:E; [|done]. simpl. intros Hr%IH.
  apply pool_step_decreases in E. lia.
Qed.

End measure.

(** ** Refinement of a specification whose steps are whole operations *)

Section refinement.
Context {Spec Op : Type}.
Variables (spec_step : Op -> Spec -> option Spec) (R : config -> Spec -> Prop) (I : config -> Prop).

Fixpoint spec_run (ops : list Op) (a : Spec) : option Spec :=
  match ops with
  | [] => Some a
  | o :: ops => spec_step o a ≫= spec_run ops
  end.

Lemma spec_run_app a b s : spec_run (a ++ b) s = spec_run a s ≫= spec_run b.
Proof.
  revert s. induction a as [|o a IH]; intros s; [done|]. simpl.
  by destruct (spec_step o s); simpl.
Qed.

(** Every step is invisible or one operation of the specification. *)
Hypothesis simulation : forall l c c' a, I c -> R c a -> pool_step l c = Some c' ->
  R c' a \/ exists o a', spec_step o a = Some a' /\ R c' a'.
Hypothesis preserved : forall l c c', I c -> pool_step l c = Some c' -> I c'.

Lemma pool_refines c0 a0 c : I c0 -> R c0 a0 -> pool_reachable c0 c ->
  exists ops a, spec_run ops a0 = Some a /\ R c a.
Proof.
  intros HI0 HR0 Hc.
  enough (I c /\ exists ops a, spec_run ops a0 = Some a /\ R c a) by naive_solver.
  induction Hc as [|l c c' _ [Hi (ops & a & Hops & Ha)] Hs]; [split; [done|by exists [], a0]|].
  split; [exact (preserved _ _ _ Hi Hs)|].
  destruct (simulation _ _ _ _ Hi Ha Hs) as [Ha'|(o & a' & Ho & Ha')]; [by exists ops, a|].
  exists (ops ++ [o]), a'. by rewrite spec_run_app, Hops; simpl; rewrite Ho.
Qed.

End refinement.

End pool.

#[global] Arguments config : clear implicits.

(** ** sync.Once *)

Inductive once_state := OnceNew | OnceRunning (t : nat) | OnceDone.

(** Entering [Do]: the first caller runs the function ([Some (true, _)]), later
    callers return ([Some (false, _)]), and who comes while it runs waits. *)
Definition once_enter (t : nat) (o : once_state) : option (bool * once_state) :=
  match o with
  | OnceNew => Some (true, OnceRunning t)
  | OnceRunning _ => None
  | OnceDone => Some (false, OnceDone)
  end.

(** ** Exclusion: what a mutex or a running [Do] is worth *)

Section exclusion.
Context {Local : Type}.

(** Exactly the holder is inside. *)
Record held_by (inside : Local -> bool) (holder : option nat) (ts : list Local) : Prop := {
  held_iff i t : ts !! i = Some t -> inside t = true <-> holder = Some i;
  held_thread i : holder = Some i -> is_Some (ts !! i) }.

(** What thread [i] may do to the holder: take it, give it back, or nothing. *)
Inductive held_step (inside : Local -> bool) (i : nat) : option nat -> Local -> option nat -> Local -> Prop :=
| held_take t t' : inside t' = true -> held_step inside i None t (Some i) t'
| held_give h t t' : inside t = true -> inside t' = false -> held_step inside i h t None t'
| held_keep h t t' : inside t' = inside t -> held_step inside i h t h t'.

Lemma insert_Some_cases (ts : list Local) i j t u :
  <[i := t]> ts !! j = Some u -> (j = i /\ u = t) \/ (j <> i /\ ts !! j = Some u).
Proof. intros [(<- & <- & _)|[? ?]]%list_lookup_insert_Some; auto. Qed.

Lemma insert_is_Some (ts : list Local) i j t : is_Some (ts !! j) -> is_Some (<[i := t]> ts !! j).
Proof. rewrite !lookup_lt_is_Some, length_insert. done. Qed.

Lemma held_by_step inside i h t h' t' ts :
  held_by inside h ts -> ts !! i = Some t -> held_step inside i h t h' t' ->
  held_by inside h' (<[i := t']> ts).
Proof.
  intros [Hi Ht] Hl Hs. pose proof (Hi i t Hl) as Hit. split.
  - intros j u [[-> ->]|[Hne Hj]]%insert_Some_cases; destruct Hs as [t t' Hn|h t t' Ho Hn|h t t' Hk];
      rewrite ?Hn, ?Hk; try done.
    + rewrite (Hi j u Hj). split; [done|]. by intros [= ->].
    + rewrite (Hi j u Hj). split; [|done]. apply Hit in Ho. rewrite Ho. by intros [= ->].
    + by apply Hi.
  - intros j Hj. apply insert_is_Some. destruct Hs; simplify_eq; eauto.
Qed.

Lemma held_by_fresh inside ts : Forall (fun t => inside t = false) ts -> held_by inside None ts.
Proof.
  intros Hf. split; [|done]. intros i t Hi. split; [|done].
  rewrite list.Forall_forall in Hf. by rewrite (Hf t) by by eapply list_elem_of_lookup_2.
Qed.

(** ** A function run once *)

(** [inside] is running the function, which has [total] steps, [progress] of them
    done; [past] has seen a [Do] return. [n] counts the steps over all threads. *)
Variables (inside past : Local -> bool) (progress : Local -> nat) (total : nat).

Definition holder (o : once_state) : option nat :=
  match o with OnceRunning i => Some i | _ => None end.

Record once_inv (o : once_state) (n : nat) (ts : list Local) : Prop := {
  once_held : held_by inside (holder o) ts;
  once_count : n = match o with
                   | OnceNew => 0
                   | OnceRunning i => default 0 (progress <$> ts !! i)
                   | OnceDone => total
                   end;
  once_past i t : ts !! i = Some t -> past t = true -> o = OnceDone }.

Inductive once_step (i : nat) : once_state -> nat -> Local -> once_state -> nat -> Local -> Prop :=
| once_enters n t t' : inside t = false -> inside t' = true -> past t' = false -> progress t' = 0 ->
    once_step i OnceNew n t (OnceRunning i) n t'
| once_works o n t t' : inside t = true -> inside t' = true -> past t' = false ->
    progress t' = S (progress t) ->
    once_step i o n t o (S n) t'
| once_leaves o n t t' : inside t = true -> inside t' = false -> progress t = total ->
    once_step i o n t OnceDone n t'
| once_keeps o n t t' : inside t = false -> inside t' = false ->
    (past t' = true -> past t = true \/ o = OnceDone) ->
    once_step i o n t o n t'.

Lemma once_inv_step i o n t o' n' t' ts :
  once_inv o n ts -> ts !! i = Some t -> once_step i o n t o' n' t' ->
  once_inv o' n' (<[i := t']> ts).
Proof.
  intros [Hh Hc Hp] Hl Hs. pose proof (held_iff _ _ _ Hh i t Hl) as Hit.
  assert (Hi : <[i := t']> ts !! i = Some t') by (by apply list_lookup_insert_eq, (lookup_lt_Some _ _ t)).
  destruct Hs as [n t t' Hf Hn Hpt H0|o n t t' Hin Hn Hpt Hpr|o n t t' Hin Hn Hpr|o n t t' Hf Hn Hpt].
  - split; [eapply held_by_step; [done|done|by apply held_take]|by rewrite Hi; simpl; rewrite H0|].
    intros j u [[-> ->]|[_ Hj]]%insert_Some_cases Hu; [congruence|]. by specialize (Hp j u Hj Hu).
  - apply Hit in Hin as Ho. destruct o as [|k|]; simplify_eq/=. split.
    + eapply held_by_step; [done|done|]. apply held_keep. congruence.
    + rewrite Hi, Hl. simpl. congruence.
    + intros j u [[-> ->]|[_ Hj]]%insert_Some_cases Hu; [congruence|]. by specialize (Hp j u Hj Hu).
  - apply Hit in Hin as Ho. destruct o as [|k|]; simplify_eq/=. split.
    + eapply held_by_step; [done|done|by apply held_give].
    + by rewrite Hl.
    + done.
  - split.
    + eapply held_by_step; [done|done|]. apply held_keep. congruence.
    + destruct o as [|k|]; try done. simpl in *.
      destruct (decide (k = i)) as [->|Hne]; [|by rewrite list_lookup_insert_ne].
      rewrite (proj2 Hit eq_refl) in Hf. done.
    + intros j u [[-> ->]|[_ Hj]]%insert_Some_cases Hu; [|by eapply Hp].
      destruct (Hpt Hu) as [Ht|?]; [by eapply Hp|done].
Qed.

Lemma once_inv_fresh ts : Forall (fun t => inside t = false /\ past t = false) ts ->
  once_inv OnceNew 0 ts.
Proof.
  intros Hf. split; [|done|].
  - apply held_by_fresh. eapply Forall_impl; [|exact Hf]. by intros ? [].
  - intros i t Hi Ht. rewrite list.Forall_forall in Hf.
    destruct (Hf t) as [_ Hpast]; [by eapply list_elem_of_lookup_2|]. congruence.
Qed.

(** Who waits for a running [Do] waits for a thread that is inside. *)
Lemma once_running o n ts i : once_inv o n ts -> o = OnceRunning i ->
  exists t, ts !! i = Some t /\ inside t = true /\ n = progress t.
Proof.
  intros [Hh Hc _] ->. destruct (held_thread _ _ _ Hh i eq_refl) as [t Ht]. exists t.
  split_and!; [done|by apply (held_iff _ _ _ Hh i t Ht)|]. by rewrite Hc, Ht.
Qed.

End exclusion.

Lemma once_running_or_not o : (exists k, o = OnceRunning k) \/ (forall k, o <> OnceRunning k).
Proof. destruct o as [|k|]; [by right|left; by exists k|by right]. Qed.
