(* ===== verification/PendingThreads.v ===== *)
(** * Concurrent use of a pending transaction (contract.go)

    Any number of goroutines call [Wait] and [Release] on one [PendingTx]. The
    mutex serializes the Waits; [once] is shared by all; the network answers a
    status call at any time, and each call anew. The specification is the
    sequential program of Contract.v: one whole operation after the other. *)

From S2P Require Import Prelude GoStrings GoRunes Errors Classify Observe World Identity Config Client Contract Transactions Views Lifecycle Pool.

(** What the goroutines share, and how often [release] was called. *)
Record pending_shared := mkPendingShared {
  sh_mu : option nat;
  sh_once : once_state;
  sh_released : nat }.

Section pending.
Context `{X : X509Lib} `{E : Env} `{U : UnicodeTables} `{G : GrpcStatus} `{P : PeerCodes}.
Variable p : PendingTx.

(** Where a goroutine is in [Wait] or [Release]. *)
Inductive pending_local :=
| WaitLock (ctx : option Context)                          (* p.mu.Lock() *)
| WaitStatus (ctx : option Context)                        (* StatusWithContext *)
| WaitOnce (ctx : option Context) (st : CommitInfo)        (* p.once.Do(p.release) *)
| WaitRelease (ctx : option Context) (st : CommitInfo)     (* p.release(), in once *)
| WaitOnceEnd (st : CommitInfo)                            (* once.Do returns *)
| WaitUnlock (r : error + CommitInfo)                      (* the deferred calls *)
| Waited (r : error + CommitInfo)                          (* returned *)
| ReleaseOnce                                              (* p.once.Do(p.release) *)
| ReleaseRelease
| ReleaseOnceEnd
| Released.                                                (* returned *)

(** What [Wait] returns, from the network's answer. *)
Definition wait_result (r : error + CommitInfo) : error + TxResult :=
  match r with
  | inl err => inl (classified err (Pending_TxID p) phaseCommitStatus true)
  | inr st =>
      if negb (Status_Successful st) then
        inl (sdkError (commitFailure (Pending_TxID p) (Status_Code st) None))
      else inr (mkTxResult (Pending_TxID p) (Status_BlockNumber st) (Pending_Payload p))
  end.

(** One step of goroutine [i]; the label is the network's answer, if the step
    takes one. *)
Definition pending_step (i : nat) (a : option (error + CommitInfo)) (s : pending_shared)
    (t : pending_local) : option (pending_shared * pending_local) :=
  let enter run skip :=
    match once_enter i (sh_once s) with
    | None => None
    | Some (first, o) => Some (mkPendingShared (sh_mu s) o (sh_released s), if first : bool then run else skip)
    end in
  let released next := Some (mkPendingShared (sh_mu s) (sh_once s) (S (sh_released s)), next) in
  let leave next := Some (mkPendingShared (sh_mu s) OnceDone (sh_released s), next) in
  match t, a with
  | WaitLock ctx, None =>
      match sh_mu s with
      | None => Some (mkPendingShared (Some i) (sh_once s) (sh_released s), WaitStatus ctx)
      | Some _ => None
      end
  | WaitStatus ctx, Some (inl err) => Some (s, WaitUnlock (inl err))
  | WaitStatus ctx, Some (inr st) => Some (s, WaitOnce ctx st)
  | WaitOnce ctx st, None => enter (WaitRelease ctx st) (WaitUnlock (inr st))
  | WaitRelease _ st, None => released (WaitOnceEnd st)
  | WaitOnceEnd st, None => leave (WaitUnlock (inr st))
  | WaitUnlock r, None =>
      Some (mkPendingShared None (sh_once s) (sh_released s), Waited r)
  | ReleaseOnce, None => enter ReleaseRelease Released
  | ReleaseRelease, None => released ReleaseOnceEnd
  | ReleaseOnceEnd, None => leave Released
  | _, _ => None
  end.

Definition pending_start (u : pending_use) : pending_local :=
  match u with use_Wait ctx => WaitLock ctx | use_Release => ReleaseOnce end.
Definition pending_init (uses : list pending_use) : config pending_shared pending_local :=
  (mkPendingShared None OnceNew 0, pending_start <$> uses).

(** ** The invariant *)

(** Between [Lock] and [Unlock]. *)
Definition in_critical (t : pending_local) : bool :=
  match t with
  | WaitStatus _ | WaitOnce _ _ | WaitRelease _ _ | WaitOnceEnd _ | WaitUnlock _ => true
  | _ => false
  end.
(** Running the function of [once], and whether [release] was called. *)
Definition in_once (t : pending_local) : bool :=
  match t with
  | WaitRelease _ _ | ReleaseRelease | WaitOnceEnd _ | ReleaseOnceEnd => true
  | _ => false
  end.
Definition once_progress (t : pending_local) : nat :=
  match t with WaitOnceEnd _ | ReleaseOnceEnd => 1 | _ => 0 end.
(** A use of [once] has returned to this goroutine. *)
Definition past_once (t : pending_local) : bool :=
  match t with
  | WaitUnlock (inr _) | Waited (inr _) | Released => true
  | _ => false
  end.

Record pending_inv (c : config pending_shared pending_local) : Prop := {
  pi_mu : held_by in_critical (sh_mu c.1) c.2;
  pi_once : once_inv in_once past_once once_progress 1 (sh_once c.1) (sh_released c.1) c.2 }.

Lemma pending_start_flags (uses : list pending_use) t : t ∈ pending_start <$> uses ->
  in_critical t = false /\ in_once t = false /\ past_once t = false.
Proof. intros (u & -> & _)%list_elem_of_fmap. by destruct u. Qed.

Lemma pending_inv_init uses : pending_inv (pending_init uses).
Proof.
  split; simpl; [apply held_by_fresh|apply once_inv_fresh];
    apply list.Forall_forall; intros t Ht; by destruct (pending_start_flags uses t Ht) as (? & ? & ?).
Qed.

(** What a step does to the mutex and to [once]. *)
Lemma pending_step_shape i a s t s' t' : pending_step i a s t = Some (s', t') ->
  (in_critical t = true -> sh_mu s = Some i) ->
  held_step in_critical i (sh_mu s) t (sh_mu s') t'
  /\ once_step in_once past_once once_progress 1 i (sh_once s) (sh_released s) t
       (sh_once s') (sh_released s') t'.
Proof.
  intros Hs Hmu. destruct s as [mu once rel].
  destruct t, a as [[err|ci]|]; simpl in Hs, Hmu; try discriminate Hs;
    repeat case_match; try destruct once; simplify_eq/=;
    (split; [by constructor|]);
    first [by apply once_enters|by apply once_works|by eapply once_leaves|apply once_keeps; auto].
Qed.

Lemma pending_inv_step l c c' :
  pending_inv c -> pool_step pending_step l c = Some c' -> pending_inv c'.
Proof.
  intros [Hmu Hon] (t & s' & t' & Ht & Hs & ->)%pool_step_inv. destruct c as [s ts], l as [i a].
  simpl in *. destruct (pending_step_shape _ _ _ _ _ _ Hs) as [H1 H2].
  { by apply (held_iff _ _ _ Hmu). }
  split; simpl; [by eapply held_by_step|by eapply once_inv_step].
Qed.

(** ** The specification: the sequential programs, one after the other *)

(** The network answers [r] to the status call. *)
Definition answering (r : error + CommitInfo) : Env := {|
  env_now := env_now; env_NewClient := env_NewClient; env_ConnClose := env_ConnClose;
  env_Connect := env_Connect; env_GatewayClose := env_GatewayClose;
  env_NewProposal := env_NewProposal; Proposal_TransactionID := Proposal_TransactionID;
  env_Evaluate := env_Evaluate; env_Endorse := env_Endorse;
  Transaction_Result := Transaction_Result; env_Submit := env_Submit;
  env_CommitStatus _ _ _ := r;
  env_NewHSMSigner := env_NewHSMSigner; env_CloseFn := env_CloseFn |}.

Inductive spec_thread := To_run (u : pending_use) | Returned (res : option (error + TxResult)).

(** Goroutine [i] performs its operation, undisturbed. *)
Definition pending_spec_step (o : nat * option (error + CommitInfo)) (a : World * list spec_thread)
    : option (World * list spec_thread) :=
  match a.2 !! o.1, o.2 with
  | Some (To_run (use_Wait ctx)), Some r =>
      let '(res, w) := PendingTx_Wait (E := answering r) p ctx a.1 in
      Some (w, <[o.1 := Returned (Some res)]> a.2)
  | Some (To_run use_Release), None =>
      let '(_, w) := PendingTx_Release p a.1 in Some (w, <[o.1 := Returned None]> a.2)
  | _, _ => None
  end.

(** ** Refinement *)

(** An operation takes effect when its status call fails, when it calls
    [release], or when it finds that [once] is done. *)
Definition thread_of (t : pending_local) : spec_thread :=
  match t with
  | WaitLock ctx | WaitStatus ctx | WaitOnce ctx _ | WaitRelease ctx _ => To_run (use_Wait ctx)
  | WaitOnceEnd st => Returned (Some (wait_result (inr st)))
  | WaitUnlock r | Waited r => Returned (Some (wait_result r))
  | ReleaseOnce | ReleaseRelease => To_run use_Release
  | ReleaseOnceEnd | Released => Returned None
  end.

(** What [n] calls of [release] close. *)
Definition closings (n : nat) : list Gateway := mjoin (replicate n (option_list (p_release p))).

Record pending_rel (w0 : World) (c : config pending_shared pending_local)
    (a : World * list spec_thread) : Prop := {
  rel_threads : a.2 = thread_of <$> c.2;
  rel_once : p_addr p ∈ w_once a.1 <-> 0 < sh_released c.1;
  rel_closed : exists new, w_trace a.1 = w_trace w0 ++ new /\ closed new = closings (sh_released c.1) }.

Lemma Wait_answered r ctx w : exists w' new,
  PendingTx_Wait (E := answering r) p ctx w = (wait_result r, w')
  /\ w_trace w' = w_trace w ++ new
  /\ match r with
     | inl _ => closed new = [] /\ w_once w' = w_once w
     | inr _ => closed new = (if decide (p_addr p ∈ w_once w) then [] else option_list (p_release p))
         /\ w_once w' = {[p_addr p]} ∪ w_once w
     end.
Proof.
  destruct (Wait_run (E := answering r) p ctx w) as (res & new & w' & Hr & Ht & Hp & Ho).
  exists w', new. rewrite Hr. split; [|split; [done|]].
  - f_equal. inversion Hp; subst; simplify_eq/=; by match goal with H : Status_Successful _ = _ |- _ => rewrite H | _ => idtac end.
  - inversion Hp; subst; simplify_eq/=; views; done.
Qed.

Lemma Release_answered w : exists w' new,
  PendingTx_Release p w = (tt, w') /\ w_trace w' = w_trace w ++ new
  /\ closed new = (if decide (p_addr p ∈ w_once w) then [] else option_list (p_release p))
  /\ w_once w' = {[p_addr p]} ∪ w_once w.
Proof.
  destruct (PendingTx_Release_run p w) as (o & Hr & Ho). do 2 eexists. rewrite Hr.
  split_and!; [done|done|apply closed_once|done].
Qed.

Lemma rel_thread w0 s ts a i t : pending_rel w0 (s, ts) a -> ts !! i = Some t ->
  a.2 !! i = Some (thread_of t).
Proof. intros [Hth _ _] Ht. simpl in Hth. by rewrite Hth, list_lookup_fmap, Ht. Qed.

(** A step that takes no effect. *)
Lemma rel_stutter w0 s ts a i t s' t' : pending_rel w0 (s, ts) a -> ts !! i = Some t ->
  thread_of t' = thread_of t -> sh_released s' = sh_released s ->
  pending_rel w0 (s', <[i := t']> ts) a.
Proof.
  intros [Hth Hon Hcl] Ht He Hr. split; simpl in *; [|by rewrite Hr..].
  rewrite list_fmap_insert, He, Hth. symmetry. apply list_insert_id. by rewrite list_lookup_fmap, Ht.
Qed.

(** A step in which an operation takes effect: the gateways closed so far follow
    the first use of [once]. *)
Lemma rel_effect w0 s ts w sts i t s' t' w' new res :
  pending_rel w0 (s, ts) (w, sts) -> ts !! i = Some t ->
  thread_of t' = Returned res -> w_trace w' = w_trace w ++ new ->
  (sh_released s' = sh_released s /\ closed new = [] /\ w_once w' = w_once w
   \/ (sh_released s = 0 \/ sh_released s = 1) /\ sh_released s' = 1
      /\ closed new = (if decide (p_addr p ∈ w_once w) then [] else option_list (p_release p))
      /\ w_once w' = {[p_addr p]} ∪ w_once w) ->
  pending_rel w0 (s', <[i := t']> ts) (w', <[i := Returned res]> sts).
Proof.
  intros [Hth Hon (old & Ho & Hc)] Ht He Hw Hcase. simpl in *. split; simpl.
  - by rewrite list_fmap_insert, He, Hth.
  - destruct Hcase as [(-> & _ & ->)|(_ & -> & _ & ->)]; [done|]. split; [lia|set_solver].
  - exists (old ++ new). rewrite Hw, Ho, app_assoc. split; [done|]. views. rewrite Hc.
    destruct Hcase as [(-> & -> & _)|(Hn & -> & -> & _)]; [by rewrite app_nil_r|].
    unfold closings. destruct Hn as [E0|E1].
    + rewrite decide_False by (rewrite Hon; lia). rewrite E0. simpl. by rewrite app_nil_r.
    + rewrite decide_True by (rewrite Hon; lia). rewrite E1. by rewrite app_nil_r.
Qed.

Lemma pending_released_bound c : pending_inv c -> sh_released c.1 = 0 \/ sh_released c.1 = 1.
Proof.
  intros [_ [_ Hc _]]. rewrite Hc. destruct (sh_once c.1) as [|i|]; auto.
  destruct (c.2 !! i) as [t|]; simpl; [|auto]. destruct t; simpl; auto.
Qed.

(** How a step looks to the specification. *)
Inductive effect (n n' : nat) (t t' : pending_local) : Prop :=
| no_effect : thread_of t' = thread_of t -> n' = n -> effect n n' t t'
| wait_effect ctx r : thread_of t = To_run (use_Wait ctx) ->
    thread_of t' = Returned (Some (wait_result r)) ->
    n' = (match r with inl _ => n | inr _ => 1 end) -> effect n n' t t'
| release_effect : thread_of t = To_run use_Release -> thread_of t' = Returned None -> n' = 1 ->
    effect n n' t t'.

Lemma pending_step_effect i a s t s' t' : pending_step i a s t = Some (s', t') ->
  (sh_once s = OnceDone -> sh_released s = 1) ->
  (in_once t = true -> sh_released s = once_progress t) ->
  effect (sh_released s) (sh_released s') t t'.
Proof.
  intros Hs Hd Hp. destruct s as [mu once rel].
  destruct t, a as [[err|ci]|]; simpl in Hs, Hd, Hp; try discriminate Hs;
    repeat case_match; try destruct once; simplify_eq/=;
    first [by apply no_effect|by eapply (wait_effect _ _ _ _ _ (inl err))
          |by eapply (wait_effect _ _ _ _ _ (inr _)); auto|apply release_effect; auto].
Qed.

(** The refinement: each step is one operation of the specification, or none. *)
Lemma pending_simulation w0 l c c' a :
  pending_inv c -> pending_rel w0 c a -> pool_step pending_step l c = Some c' ->
  pending_rel w0 c' a \/ exists o a', pending_spec_step o a = Some a' /\ pending_rel w0 c' a'.
Proof.
  intros Hi Hrel (t & s' & t' & Ht & Hs & ->)%pool_step_inv.
  pose proof (pending_released_bound c Hi) as Hb. destruct Hi as [_ Hon].
  destruct c as [s ts], a as [w sts], l as [i ans]. simpl in *.
  pose proof (rel_thread _ _ _ _ _ _ Hrel Ht) as Hth. simpl in Hth.
  pose proof (once_count _ _ _ _ _ _ _ Hon) as Hcount.
  pose proof (held_iff _ _ _ (once_held _ _ _ _ _ _ _ Hon) i t Ht) as Hin.
  destruct (pending_step_effect _ _ _ _ _ _ Hs) as [E1 E2|ctx r E1 E2 E3|E1 E2 E3].
  - intros Ed. by rewrite Ed in Hcount.
  - intros Ei%Hin. unfold holder in Ei. destruct (sh_once s); simplify_eq. by rewrite Hcount, Ht.
  - left. by eapply rel_stutter.
  - right. destruct (Wait_answered r ctx w) as (w' & new & Hr & Htr & Hcl).
    exists (i, Some r), (w', <[i := Returned (Some (wait_result r))]> sts).
    unfold pending_spec_step. simpl. rewrite Hth, E1, Hr. split; [done|].
    eapply rel_effect; [done..|]. destruct r; [left|right]; by destruct Hcl.
  - right. destruct (Release_answered w) as (w' & new & Hr & Htr & Hcl).
    exists (i, None), (w', <[i := Returned None]> sts).
    unfold pending_spec_step. simpl. rewrite Hth, E1, Hr. split; [done|].
    eapply rel_effect; [done..|]. by right.
Qed.

(** ** Progress *)

Definition returned (t : pending_local) : bool :=
  match t with Waited _ | Released => true | _ => false end.
Definition pending_weight (t : pending_local) : nat :=
  match t with
  | WaitLock _ => 6 | WaitStatus _ => 5 | WaitOnce _ _ => 4 | WaitRelease _ _ => 3
  | WaitOnceEnd _ => 2 | WaitUnlock _ => 1 | Waited _ => 0
  | ReleaseOnce => 3 | ReleaseRelease => 2 | ReleaseOnceEnd => 1 | Released => 0
  end.

Lemma pending_step_decreases i a s t s' t' :
  pending_step i a s t = Some (s', t') -> pending_weight t' < pending_weight t.
Proof.
  intros Hs. destruct t, a as [[err|ci]|]; simpl in Hs; try discriminate Hs;
    repeat case_match; simplify_eq/=; lia.
Qed.

(** No deadlock: whatever waits for the mutex or for [once] waits for a goroutine
    that can move, if the network answers. *)
Lemma pending_moves c (answer : error + CommitInfo) :
  pending_inv c -> ~ Forall (fun t => returned t = true) c.2 ->
  exists i a c', (a = None \/ a = Some answer) /\ pool_step pending_step (i, a) c = Some c'.
Proof.
  intros [Hmu Hon] Hnf. destruct c as [s ts]. simpl in *.
  assert (Hgo : forall i t a, ts !! i = Some t -> (a = None \/ a = Some answer) ->
    is_Some (pending_step i a s t) ->
    exists i a c', (a = None \/ a = Some answer) /\ pool_step pending_step (i, a) (s, ts) = Some c').
  { intros i t a Ht Ha [[s' t'] Hs]. do 3 eexists. split; [exact Ha|]. by eapply pool_step_intro. }
  destruct (once_running_or_not (sh_once s)) as [[k Ek]|Hnr].
  { destruct (once_running _ _ _ _ _ _ _ k Hon Ek) as (t & Ht & Hin & _).
    apply (Hgo k t None Ht); [by left|]. destruct t; try discriminate Hin; by eexists. }
  assert (Hcan : forall i t, ts !! i = Some t -> t = ReleaseOnce \/ in_critical t = true \/ in_once t = true ->
    exists i a c', (a = None \/ a = Some answer) /\ pool_step pending_step (i, a) (s, ts) = Some c').
  { intros i t Ht Hc. destruct (once_enter i (sh_once s)) as [[b o]|] eqn:Een.
    2:{ destruct (sh_once s) as [|k|] eqn:Eo; try discriminate Een. by destruct (Hnr k). }
    assert (Hs : is_Some (pending_step i None s t) \/ is_Some (pending_step i (Some answer) s t)).
    { destruct t; try (exfalso; destruct Hc as [Hc|[Hc|Hc]]; discriminate Hc); simpl; rewrite ?Een;
        try (left; by eexists). right. destruct answer; by eexists. }
    destruct Hs; [apply (Hgo i t None Ht); auto|apply (Hgo i t (Some answer) Ht); auto]. }
  destruct (sh_mu s) as [k|] eqn:Em.
  { destruct (held_thread _ _ _ Hmu k eq_refl) as [t Ht].
    apply (Hcan k t Ht). right. left. by apply (held_iff _ _ _ Hmu k t Ht). }
  apply not_Forall_Exists in Hnf; [|intros ?; apply _].
  apply list.Exists_exists in Hnf as (t & [i Ht]%list_elem_of_lookup_1 & Hret).
  destruct t; try (exfalso; by apply Hret); try (apply (Hcan i _ Ht); by auto).
  apply (Hgo i _ None Ht); [by left|]. simpl. rewrite Em. by eexists.
Qed.

(** ** Properties *)

(** C7. Concurrent use is as good as sequential use: under every interleaving of any
    number of Waits and Releases, the results returned so far, and the Gateways
    closed, are those of the programs [PendingTx_Wait] and [PendingTx_Release]
    run one after the other in some order, with the network's answers. *)
Theorem PendingTx_refines (uses : list pending_use) (c : config pending_shared pending_local)
    (w0 : World) :
  (p_addr p ∉ w_once w0) -> pool_reachable pending_step (pending_init uses) c ->
  exists ops w, spec_run pending_spec_step ops (w0, To_run <$> uses) = Some (w, thread_of <$> c.2)
    /\ exists new, w_trace w = w_trace w0 ++ new /\ closed new = closings (sh_released c.1).
Proof.
  intros Hw Hc.
  destruct (pool_refines _ pending_spec_step (pending_rel w0) pending_inv (pending_simulation w0)
    pending_inv_step _ (w0, To_run <$> uses) c (pending_inv_init uses)) as (ops & [w sts] & Hops & Hrel);
    [|done|].
  - split; simpl; [|split; [done|lia]|exists []; by rewrite app_nil_r].
    rewrite <- list_fmap_compose. apply list_fmap_ext. by intros i [] _.
  - destruct Hrel as [Hth _ Hcl]. simpl in *. exists ops, w. by rewrite Hops, Hth.
Qed.

(** C16. The mutex and [once] do their work under every interleaving: at most one
    goroutine asks for the status at a time, [release] is called at most once,
    and when a Release, or a Wait that learned the status, returns, the Gateway
    is closed, whoever closed it. *)
Theorem PendingTx_threads_safe (uses : list pending_use) (c : config pending_shared pending_local) :
  pool_reachable pending_step (pending_init uses) c ->
  (forall i j ctx ctx', c.2 !! i = Some (WaitStatus ctx) -> c.2 !! j = Some (WaitStatus ctx') -> i = j)
  /\ sh_released c.1 <= 1
  /\ (forall i st, c.2 !! i = Some Released \/ c.2 !! i = Some (Waited (inr st)) ->
       sh_released c.1 = 1).
Proof.
  intros Hc. assert (Hi : pending_inv c)
    by exact (pool_invariant _ pending_inv _ _ (pending_inv_init uses) pending_inv_step Hc).
  destruct (pending_released_bound c Hi) as [Hb|Hb]; destruct Hi as [Hmu Hon]; (split_and!; [|lia|]).
  1,3: intros i j ctx ctx' H1 H2; apply (held_iff _ _ _ Hmu) in H1, H2;
    pose proof (proj1 H1 eq_refl) as E1; pose proof (proj1 H2 eq_refl) as E2; congruence.
  all: intros i st Hr; pose proof (once_count _ _ _ _ _ _ _ Hon) as Hcount;
    assert (Hd : sh_once c.1 = OnceDone)
      by (destruct Hr as [Hr|Hr]; by apply (once_past _ _ _ _ _ _ _ Hon i _ Hr));
    by rewrite Hd in Hcount.
Qed.

(** C17. No deadlock and no endless run: every schedule is bounded, and one that cannot
    be continued, whatever the network answers, has brought every Wait and every
    Release to its return. *)
Theorem PendingTx_threads_finish (uses : list pending_use) (ls : list (nat * option (error + CommitInfo)))
    (c : config pending_shared pending_local) :
  pool_run pending_step ls (pending_init uses) = Some c ->
  length ls <= 6 * length uses
  /\ ((forall l, pool_step pending_step l c = None) -> Forall (fun t => returned t = true) c.2).
Proof.
  intros Hr. split.
  - etransitivity; [by eapply (pool_run_bounded _ _ pending_step_decreases)|].
    unfold total, pending_init. cbn [snd]. clear. induction uses as [|u uses IH]; [done|].
    rewrite fmap_cons. cbn [sum_list_with length]. destruct u; cbn [pending_start pending_weight]; lia.
  - intros Hstuck. assert (Hi : pending_inv c).
    { eapply (pool_invariant _ pending_inv); [apply (pending_inv_init uses)|apply pending_inv_step|].
      eapply pool_run_reachable; [apply pool_init|done]. }
    destruct (decide (Forall (fun t => returned t = true) c.2)) as [?|Hnf]; [done|].
    destruct (pending_moves c (inl (errorString "")) Hi Hnf) as (i & a & c' & _ & Hs). congruence.
Qed.

End pending.
