(* ===== verification/ClientThreads.v ===== *)
(** * Concurrent use of a client and of an identity (client.go, contract.go, identity.go)

    Goroutines that call [Close] on one client, and goroutines that start calls on
    its handles: [closed] is an atomic flag, [closeOnce] a [sync.Once]. And
    goroutines that call [Close] on one [Identity], whose field [close] has
    neither lock nor atomic. *)

From S2P Require Import Prelude GoStrings Errors Observe World Identity Config Client Contract Pool.

(** ** The client *)

(** What [Close] releases, in its order. *)
Inductive resource :=
| resGateway (g : Gateway)
| resConn (c : Conn)
| resIdentity (i : option Identity).

Definition client_resources (fc : FabricClient) : list resource :=
  (match fc_gw fc with Some gw => [resGateway gw] | None => [] end)
  ++ (match fc_ownedConn fc with Some c => [resConn c] | None => [] end)
  ++ (if fc_ownsID fc then [resIdentity (fc_id fc)] else []).

Record client_shared := mkClientShared {
  cl_once : once_state;
  cl_closed : bool;
  cl_released : list resource }.

Inductive client_local :=
| CloseOnce                                                       (* fc.closeOnce.Do *)
| CloseStore                                                      (* fc.closed.Store(true) *)
| Closing (rest : list resource) (errs : list (option error))     (* the calls of Close *)
| CloseReturned (errs : list (option error))
| CallLoad                                                        (* c.fc.closed.Load() *)
| CallRefused
| CallAdmitted.

Section client.
Variable fc : FabricClient.

(** The label is what a call of a resource's [Close] returns. *)
Definition client_step (i : nat) (a : option (option error)) (s : client_shared) (t : client_local)
    : option (client_shared * client_local) :=
  match t, a with
  | CloseOnce, None =>
      match once_enter i (cl_once s) with
      | None => None
      | Some (first, o) =>
          Some (mkClientShared o (cl_closed s) (cl_released s),
                if first : bool then CloseStore else CloseReturned [])
      end
  | CloseStore, None =>
      Some (mkClientShared (cl_once s) true (cl_released s), Closing (client_resources fc) [])
  | Closing (r :: rest) errs, Some e =>
      Some (mkClientShared (cl_once s) (cl_closed s) (cl_released s ++ [r]), Closing rest (errs ++ [e]))
  | Closing [] errs, None =>
      Some (mkClientShared OnceDone (cl_closed s) (cl_released s), CloseReturned errs)
  | CallLoad, None => Some (s, if cl_closed s then CallRefused else CallAdmitted)
  | _, _ => None
  end.

(** A goroutine closes the client or starts a call. *)
Inductive client_use := use_Close | use_Call.
Definition client_start (u : client_use) : client_local :=
  match u with use_Close => CloseOnce | use_Call => CallLoad end.
Definition client_init (uses : list client_use) : config client_shared client_local :=
  (mkClientShared OnceNew false [], client_start <$> uses).

Definition in_close (t : client_local) : bool :=
  match t with CloseStore | Closing _ _ => true | _ => false end.
Definition close_returned (t : client_local) : bool :=
  match t with CloseReturned _ => true | _ => false end.
Definition close_steps : nat := S (length (client_resources fc)).
Definition close_progress (t : client_local) : nat :=
  match t with Closing rest _ => close_steps - length rest | _ => 0 end.
Definition close_count (s : client_shared) : nat :=
  (if cl_closed s then 1 else 0) + length (cl_released s).

(** The goroutine that closes has closed what it does not have to close yet. *)
Definition close_local (s : client_shared) (t : client_local) : Prop :=
  match t with
  | CloseStore => cl_closed s = false /\ cl_released s = []
  | Closing rest errs => cl_closed s = true /\ cl_released s ++ rest = client_resources fc
      /\ length errs = length (cl_released s)
  | _ => True
  end.

Record client_inv (c : config client_shared client_local) : Prop := {
  ci_once : once_inv in_close close_returned close_progress close_steps (cl_once c.1) (close_count c.1) c.2;
  ci_local i t : c.2 !! i = Some t -> close_local c.1 t;
  ci_new : cl_once c.1 = OnceNew -> cl_closed c.1 = false /\ cl_released c.1 = [];
  ci_prefix : cl_released c.1 `prefix_of` client_resources fc }.

Lemma client_inv_init uses : client_inv (client_init uses).
Proof.
  assert (Hf : forall t, t ∈ client_start <$> uses -> in_close t = false /\ close_returned t = false
    /\ close_local (mkClientShared OnceNew false []) t).
  { intros t (u & -> & _)%list_elem_of_fmap. by destruct u. }
  split; simpl.
  - apply once_inv_fresh, list.Forall_forall. intros t (? & ? & _)%Hf. done.
  - intros i t Ht. apply Hf. by eapply list_elem_of_lookup_2.
  - done.
  - apply prefix_nil.
Qed.

Lemma client_step_shape i a s t s' t' : client_step i a s t = Some (s', t') ->
  close_local s t -> (in_close t = true -> cl_once s = OnceRunning i) ->
  (cl_once s = OnceNew -> cl_closed s = false /\ cl_released s = []) ->
  once_step in_close close_returned close_progress close_steps i (cl_once s) (close_count s) t
    (cl_once s') (close_count s') t'
  /\ close_local s' t'
  /\ (in_close t = false -> cl_closed s' = cl_closed s /\ cl_released s' = cl_released s).
Proof.
  intros Hs Hl Ho Hnew. destruct s as [once cls rel].
  destruct t as [| |rest errs|errs| | |], a as [e|]; simpl in Hs, Hl, Ho, Hnew; try discriminate Hs.
  - destruct once as [|k|]; simplify_eq/=.
    + destruct (Hnew eq_refl) as [-> ->]. split; [|done]. by apply once_enters.
    + split; [|done]. apply once_keeps; auto.
  - simplify_eq/=. destruct Hl as [-> ->]. split; [|split; [by rewrite ?app_nil_l|done]].
    unfold close_count. simpl. apply once_works; try done. simpl. unfold close_steps. lia.
  - destruct rest as [|r rest]; simplify_eq/=. destruct Hl as (-> & Hr & Hle).
    split; [|split; [|done]].
    + unfold close_count. simpl. rewrite length_app, Nat.add_1_r.
      apply once_works; try done. simpl. unfold close_steps. rewrite <- Hr, length_app. simpl. lia.
    + split_and!; [done|by rewrite <- app_assoc|]. rewrite !length_app, Hle. done.
  - destruct rest as [|r rest]; simplify_eq/=. destruct Hl as (-> & Hr & Hle).
    split; [|done]. by apply once_leaves.
  - simplify_eq/=. split; [|by destruct cls]. by apply once_keeps; destruct cls; auto.
Qed.

Lemma client_inv_step l c c' :
  client_inv c -> pool_step client_step l c = Some c' -> client_inv c'.
Proof.
  intros [Hon Hl Hnew Hp] (t & s' & t' & Ht & Hs & ->)%pool_step_inv.
  destruct c as [s ts], l as [i a]. simpl in *.
  assert (Hin : in_close t = true -> cl_once s = OnceRunning i).
  { intros E%(held_iff _ _ _ (once_held _ _ _ _ _ _ _ Hon) i t Ht). unfold holder in E.
    by destruct (cl_once s); simplify_eq. }
  destruct (client_step_shape _ _ _ _ _ _ Hs (Hl i t Ht) Hin Hnew) as (Hstep & Hl' & Hsame).
  split; simpl.
  - by eapply once_inv_step.
  - intros j u [[-> ->]|[Hne Hj]]%insert_Some_cases; [done|].
    destruct (in_close u) eqn:Eu; [|by destruct u].
    apply (held_iff _ _ _ (once_held _ _ _ _ _ _ _ Hon) j u Hj) in Eu.
    destruct Hsame as [E1 E2].
    { destruct (in_close t) eqn:Et; [|done]. specialize (Hin eq_refl). rewrite Hin in Eu. by simplify_eq/=. }
    specialize (Hl j u Hj). unfold close_local in *. by rewrite E1, E2.
  - intros E. assert (Hn : cl_once s = OnceNew /\ in_close t = false).
    { revert Hs E Hin. destruct s as [once cls rel], t as [| |[|r rest] errs|errs| | |], a as [e|]; simpl;
        try done; try destruct once; naive_solver. }
    destruct Hn as [Hn Ht']. destruct (Hsame Ht') as [-> ->]. by apply Hnew.
  - destruct (in_close t) eqn:Et; [|by destruct (Hsame eq_refl) as [_ ->]].
    destruct t as [| |[|r rest] errs|errs| | |], a as [e|]; simplify_eq/=.
    + done.
    + done.
    + destruct Hl' as (_ & Hr & _). exists rest. by rewrite Hr.
Qed.

Lemma client_reachable_inv uses c :
  pool_reachable client_step (client_init uses) c -> client_inv c.
Proof. exact (pool_invariant _ client_inv _ _ (client_inv_init uses) client_inv_step). Qed.

(** A Close that returned has released everything. *)
Lemma close_returned_released c i errs : client_inv c -> c.2 !! i = Some (CloseReturned errs) ->
  cl_closed c.1 = true /\ cl_released c.1 = client_resources fc.
Proof.
  intros [Hon _ _ Hp] Hi. pose proof (once_count _ _ _ _ _ _ _ Hon) as Hc.
  rewrite (once_past _ _ _ _ _ _ _ Hon i _ Hi eq_refl) in Hc. unfold close_count, close_steps in Hc.
  pose proof (prefix_length _ _ Hp). destruct (cl_closed c.1); [|lia]. split; [done|].
  apply prefix_length_eq; [done|lia].
Qed.

Definition client_weight (t : client_local) : nat :=
  match t with
  | CloseOnce => 3 + length (client_resources fc)
  | CloseStore => 2 + length (client_resources fc)
  | Closing rest _ => 1 + length rest
  | CloseReturned _ => 0
  | CallLoad => 1
  | CallRefused | CallAdmitted => 0
  end.
Definition client_finished (t : client_local) : bool :=
  match t with CloseReturned _ | CallRefused | CallAdmitted => true | _ => false end.

Lemma client_step_decreases i a s t s' t' :
  client_step i a s t = Some (s', t') -> client_weight t' < client_weight t.
Proof.
  intros Hs. destruct t as [| |[|r rest] errs|errs| | |], a as [e|]; simpl in Hs; try discriminate Hs;
    repeat case_match; simplify_eq/=; lia.
Qed.

Lemma client_moves c : client_inv c -> ~ Forall (fun t => client_finished t = true) c.2 ->
  exists l c', pool_step client_step l c = Some c'.
Proof.
  intros [Hon _ _ _] Hnf. destruct c as [s ts]. simpl in *.
  assert (Hgo : forall i t a, ts !! i = Some t -> is_Some (client_step i a s t) ->
    exists l c', pool_step client_step l (s, ts) = Some c').
  { intros i t a Ht [[s' t'] Hs]. do 2 eexists. by eapply pool_step_intro. }
  destruct (once_running_or_not (cl_once s)) as [[k Ek]|Hnr].
  { destruct (once_running _ _ _ _ _ _ _ k Hon Ek) as (t & Ht & Hin & _).
    destruct t as [| |[|r rest] errs|errs| | |]; try discriminate Hin;
      [apply (Hgo k _ None Ht)|apply (Hgo k _ None Ht)|apply (Hgo k _ (Some None) Ht)]; by eexists. }
  apply not_Forall_Exists in Hnf; [|intros ?; apply _].
  apply list.Exists_exists in Hnf as (t & [i Ht]%list_elem_of_lookup_1 & Hret).
  destruct t as [| |[|r rest] errs|errs| | |]; try (exfalso; by apply Hret);
    [|apply (Hgo i _ None Ht); by eexists..|apply (Hgo i _ (Some None) Ht); by eexists
     |apply (Hgo i _ None Ht); by eexists].
  apply (Hgo i _ None Ht). simpl. destruct (cl_once s) as [|k|]; [by eexists|by destruct (Hnr k)|by eexists].
Qed.

(** C21. [Close] from many goroutines, and calls beside it: each resource is released
    at most once and in order under every interleaving; whichever Close returns,
    all of them are released by then, and no call that starts afterwards gets
    past the check; every schedule is bounded and none gets stuck. *)
Theorem FabricClient_threads (uses : list client_use) (c : config client_shared client_local) :
  pool_reachable client_step (client_init uses) c ->
  cl_released c.1 `prefix_of` client_resources fc
  /\ (forall i errs, c.2 !! i = Some (CloseReturned errs) ->
       cl_released c.1 = client_resources fc
       /\ forall j a c', c.2 !! j = Some CallLoad -> pool_step client_step (j, a) c = Some c' ->
            c'.2 !! j = Some CallRefused)
  /\ (forall ls c', pool_run client_step ls c = Some c' -> length ls <= total client_weight c)
  /\ ((forall l, pool_step client_step l c = None) -> Forall (fun t => client_finished t = true) c.2).
Proof.
  intros Hc%client_reachable_inv. split_and!.
  - apply (ci_prefix _ Hc).
  - intros i errs Hi. destruct (close_returned_released c i errs Hc Hi) as [Hcl Hr]. split; [done|].
    intros j a c' Hj (t & s' & t' & Ht & Hs & ->)%pool_step_inv. simpl in *. rewrite Hj in Ht.
    injection Ht as <-. destruct a; [done|]. simpl in Hs. rewrite Hcl in Hs. injection Hs as <- <-.
    apply list_lookup_insert_eq. by eapply lookup_lt_Some.
  - intros ls c'. apply (pool_run_bounded _ _ client_step_decreases).
  - intros Hstuck. destruct (decide (Forall (fun t => client_finished t = true) c.2)) as [?|Hnf]; [done|].
    destruct (client_moves c Hc Hnf) as (l & c' & Hs). congruence.
Qed.

End client.

(** ** The identity *)

Record identity_shared := mkIdentityShared {
  is_close : option CloseFn;    (* i.close *)
  is_calls : list CloseFn }.    (* the calls made of a close function *)

Inductive identity_local :=
| CheckNil                          (* i == nil || i.close == nil *)
| ReadClose                         (* c := i.close *)
| ClearClose (c : option CloseFn)   (* i.close = nil *)
| CallClose (c : option CloseFn)    (* c() *)
| IdentityClosed
| Panicked.

Definition identity_step (_ : nat) (_ : unit) (s : identity_shared) (t : identity_local)
    : option (identity_shared * identity_local) :=
  match t with
  | CheckNil =>
      Some (s, match is_close s with None => IdentityClosed | Some _ => ReadClose end)
  | ReadClose => Some (s, ClearClose (is_close s))
  | ClearClose c => Some (mkIdentityShared None (is_calls s), CallClose c)
  | CallClose (Some f) => Some (mkIdentityShared (is_close s) (is_calls s ++ [f]), IdentityClosed)
  | CallClose None => Some (s, Panicked)
  | IdentityClosed | Panicked => None
  end.

Definition identity_init (f : CloseFn) (n : nat) : config identity_shared identity_local :=
  (mkIdentityShared (Some f) [], replicate n CheckNil).

(** One goroutine alone: its state says what the object holds. *)
Definition identity_alone (f : CloseFn) (c : config identity_shared identity_local) : Prop :=
  exists t, c.2 = [t] /\ match t with
    | CheckNil | ReadClose => c.1 = mkIdentityShared (Some f) []
    | ClearClose g => g = Some f /\ c.1 = mkIdentityShared (Some f) []
    | CallClose g => g = Some f /\ c.1 = mkIdentityShared None []
    | IdentityClosed => c.1 = mkIdentityShared None [f]
    | Panicked => False
    end.

Lemma identity_alone_step f l c c' :
  identity_alone f c -> pool_step identity_step l c = Some c' -> identity_alone f c'.
Proof.
  intros (t & Et & Ht) (u & s' & t' & Hu & Hs & ->)%pool_step_inv. destruct c as [s ts]. simpl in *.
  subst ts. destruct (l.1) as [|k]; [|done]. injection Hu as <-. exists t'. split; [done|].
  destruct t; simpl in *; destruct_and?; simplify_eq/=; done.
Qed.

(** C40. [Close] of an identity is not safe for concurrent use: two goroutines that
    overlap can both call the close function, and one of them can call a nil
    function. One goroutine alone calls it once. *)
Theorem Identity_Close_races (f : CloseFn) :
  (exists ls s, pool_run identity_step ls (identity_init f 2) = Some (s, [IdentityClosed; IdentityClosed])
     /\ is_calls s = [f; f])
  /\ (exists ls s, pool_run identity_step ls (identity_init f 2) = Some (s, [IdentityClosed; Panicked]))
  /\ (forall ls c, pool_run identity_step ls (identity_init f 1) = Some c ->
       (forall l, pool_step identity_step l c = None) ->
       c = (mkIdentityShared None [f], [IdentityClosed])).
Proof.
  split_and!.
  - exists [(0, ()); (1, ()); (0, ()); (1, ()); (0, ()); (1, ()); (0, ()); (1, ())]. by eexists.
  - exists [(0, ()); (1, ()); (0, ()); (0, ()); (0, ()); (1, ()); (1, ()); (1, ())]. by eexists.
  - intros ls c Hr Hstuck.
    assert (Hi : identity_alone f c).
    { eapply (pool_invariant _ (identity_alone f) (identity_init f 1));
        [by exists CheckNil|apply identity_alone_step|].
      eapply pool_run_reachable; [apply pool_init|done]. }
    destruct c as [s ts], Hi as (t & Et & Hs). simpl in *. subst ts.
    specialize (Hstuck (0, ())). unfold pool_step in Hstuck. simpl in Hstuck.
    destruct t as [| |g|g| |]; try done; [by destruct Hs as [-> _]|by subst].
Qed.
