(* ===== verification/Instances.v ===== *)
(** * Concrete instances of the interfaces

    Functions that satisfy the interfaces' laws, so that the theorems can be
    applied to concrete inputs: a status package over a plain record, the
    protobuf enumeration's published values, a case table that changes nothing
    above ASCII. *)

From S2P Require Import Prelude GoStrings GoRunes Errors Classify Observe World Identity Config Client Contract Transactions Views Lifecycle Resubmit Events Positions Protocol Streams Listeners Commands Blocks BlockOutcome ErrorTyping Channel Schedules Progress BlockProgress Restarts.

(** A status as the three things the program reads of it. *)
Record FakeStatus := mkFakeStatus {
  fs_code : codes.Code; fs_message : string; fs_details : list anyDetail }.

(** The status package, given how it reads errors. *)
Definition fake_grpc (conv : error -> FakeStatus) : GrpcStatus := {|
  Status := FakeStatus;
  status_Convert := conv;
  status_New c m := mkFakeStatus c m [];
  st_Code := fs_code;
  st_Message := fs_message;
  st_Details := fs_details |}.

Lemma fake_grpc_ok conv : @GrpcStatusOk (fake_grpc conv).
Proof. by split. Qed.

(** Plain errors are [Unknown] with their text, as [status.Convert] has it; the
    test server's errors are [externalError]s whose tag picks the status. *)
Definition conv_table (table : N -> option FakeStatus) (err : error) : FakeStatus :=
  match err with
  | externalError tag text _ =>
      default (mkFakeStatus codes.Unknown text []) (table tag)
  | _ => mkFakeStatus codes.Unknown (error_text err) []
  end.

(** One status for every external error. *)
Definition one_status (c : codes.Code) (msg : string) (details : list string) : error -> FakeStatus :=
  conv_table (fun _ => Some (mkFakeStatus c msg
    ((fun m => detailGateway (mkGatewayErrorDetail "peer0:7051" "Org1MSP" m)) <$> details))).

(** The error a call returns from the test server. *)
Definition server_error : error := externalError 1 "rpc error" [].

Definition peer_codes : PeerCodes := {|
  TxValidationCode_VALID := 0%Z;
  TxValidationCode_MVCC_READ_CONFLICT := 11%Z;
  TxValidationCode_PHANTOM_READ_CONFLICT := 12%Z;
  TxValidationCode_name n :=
    if (n =? 0)%Z then "VALID" else if (n =? 10)%Z then "ENDORSEMENT_POLICY_FAILURE"
    else if (n =? 11)%Z then "MVCC_READ_CONFLICT"
    else if (n =? 12)%Z then "PHANTOM_READ_CONFLICT" else "" |}.

Lemma peer_codes_ok : @PeerCodesOk peer_codes.
Proof. by split. Qed.

Definition ascii_tables : UnicodeTables := id.

(** [FakeStatus] computes: it has no case split on the interface. *)
Lemma foreign_server_error : foreign server_error.
Proof. by split. Qed.

(** ** A certificate library, a file system, a network *)

(** MSP IDs are the identities; key n belongs to certificate n. *)
Definition fake_x509 : X509Lib := {|
  X509_MspID x := match x with N0 => "" | Npos p => default "" (countable.decode p) end;
  NewX509Identity m c := inr (Npos (countable.encode m));
  CertificateFromPEM b := match b with [] => inl (errorString "no PEM") | _ => inr (N.of_nat (length b)) end;
  PrivateKeyFromPEM b := match b with [] => inl (errorString "no PEM") | _ => inr (N.of_nat (length b)) end;
  NewPrivateKeySign k := inr k;
  cert_PublicKey c := c;
  key_Signer k := Some k;
  key_Equal p := Some (N.eqb p);
  key_ECDSA p := Some p;
  ecdsa_ECDH n := inr n;
  ecdh_Bytes _ := [Byte.x01];
  Sum256 b := b |}.

Lemma fake_x509_ok : @X509LibOk fake_x509.
Proof.
  intros m c x [= <-]. change (default "" (countable.decode (countable.encode m)) = m).
  by rewrite countable.decode_encode.
Qed.

(** A directory with a hidden file and one key, and plain files. *)
Definition fake_fs : FileSystem := {|
  os_Stat p := if bool_decide (p = "keystore") then inr true else inr false;
  os_ReadFile p := if bool_decide (p = "") then inl (errorString "no such file") else inr [Byte.x41];
  os_ReadDir _ := inr [mkDirEntry ".hidden" true; mkDirEntry "priv_sk" true] |}.

Definition fake_tls : TLSLib := {|
  AppendCertsFromPEM _ := true;
  LoadX509KeyPair _ _ := inr 1%N;
  pair_leaf _ := [Byte.x01] |}.

(** A network with fixed answers. *)
Definition fake_env (evaluate : error + bytes) (endorse : error + Transaction)
    (submit : error + Commit) (status : error + CommitInfo) : Env := {|
  env_now _ := 0%Z;
  env_NewClient _ _ _ := inr 10%N;
  env_ConnClose _ _ := None;
  env_Connect _ _ _ := inr 20%N;
  env_GatewayClose _ _ := None;
  env_NewProposal _ _ _ _ := inr 30%N;
  Proposal_TransactionID _ := "tx1";
  env_Evaluate _ _ _ := evaluate;
  env_Endorse _ _ _ := endorse;
  Transaction_Result _ := [Byte.x6f; Byte.x6b];
  env_Submit _ _ _ := submit;
  env_CommitStatus _ _ _ := status;
  env_NewHSMSigner _ _ _ _ _ := inl (errorString "no token");
  env_CloseFn _ _ := None |}.

(** Its errors are the test server's. *)
Definition served {A} (r : error + A) : Prop := r = inl server_error \/ exists a, r = inr a.

Lemma fake_env_errors ev en su st :
  served ev -> served en -> served su -> served st -> @GatewayErrors (fake_env ev en su st).
Proof.
  assert (Hf : forall A (r : error + A) err, served r -> r = inl err -> foreign err).
  { intros A r err [->|[a ->]] [= <-]. apply foreign_server_error. }
  intros H1 H2 H3 H4. split; simpl; intros; (eapply Hf; [|eassumption]; done).
Qed.

(** Answers that succeed. *)
Definition ok_result : error + bytes := inr [Byte.x76].
Definition ok_status : error + CommitInfo := inr (mkCommitInfo true 0%Z 7%N).

(** A network on which every proposal has a new ID: the first transaction is
    rejected at submission, the others are ordered, and the commit status of each
    is lost. *)
Definition next_proposal (tr : trace) : Proposal := (1 + foldr N.max 0 (proposals tr))%N.

Definition busy_env : Env := {|
  env_now _ := 0%Z;
  env_NewClient _ _ _ := inr 10%N;
  env_ConnClose _ _ := None;
  env_Connect _ _ _ := inr 20%N;
  env_GatewayClose _ _ := None;
  env_NewProposal tr _ _ _ := inr (next_proposal tr);
  Proposal_TransactionID p := pretty p;
  env_Evaluate _ _ _ := ok_result;
  env_Endorse _ p _ := inr p;
  Transaction_Result _ := [];
  env_Submit _ t _ := if (t =? 1)%N then inl (externalError 2 "leader changed" []) else inr t;
  env_CommitStatus _ _ _ := inl (externalError 3 "connection lost" []);
  env_NewHSMSigner _ _ _ _ _ := inl (errorString "no token");
  env_CloseFn _ _ := None |}.

(** Their statuses. *)
Definition busy_status : GrpcStatus := fake_grpc (conv_table (fun tag =>
  if (tag =? 2)%N then Some (mkFakeStatus codes.Aborted "leader changed" [])
  else Some (mkFakeStatus codes.Unavailable "connection lost" []))).

Lemma busy_env_errors : @GatewayErrors busy_env.
Proof.
  split; simpl; intros; try done; try (by destruct (t =? 1)%N; simplify_eq); by simplify_eq.
Qed.

Lemma busy_env_ids : @TransactionIDs busy_env pretty pretty.
Proof.
  split; simpl.
  - intros tr k f o p [= <-] (q & Hq%(inj pretty) & Hin)%list_elem_of_fmap. subst.
    assert (Hmax : forall l (x : N), x ∈ l -> (x <= foldr N.max 0 l)%N).
    { induction l as [|y l IH]; intros x; [by intros ?%elem_of_nil|].
      intros [->|Hx%IH]%elem_of_cons; simpl; lia. }
    apply Hmax in Hin. unfold next_proposal in Hin. lia.
  - by intros tr p x t [= <-].
  - intros tr t x k. by destruct (t =? 1)%N; intros; simplify_eq.
Qed.

Definition fake_ledger : LedgerProto := {|
  Unmarshal_ProcessedTransaction b := match b with [] => inl (errorString "empty") | _ => inr 0%Z end;
  Unmarshal_BlockchainInfo b := inr (N.of_nat (length b)) |}.

(** ** A client *)

Definition empty_world : World := mkWorld [] ∅ ∅ ∅ ∅ 10.

Lemma empty_world_wf : wf_world empty_world.
Proof. split_and!; simpl; intros l Hl; set_solver. Qed.

Definition demo_config : Config :=
  mkConfig "peer0.org1:7051" "" "ca.pem" "" "" None [] None "Org1MSP" "cert.pem" "keystore"
    "mychannel" "basic" "" 0%Z 0%Z 0%Z 0%Z false (Some (callerLogger 1)) (Some (callerObserver 1)).

Definition demo_identity : Identity := mkIdentity 1 (Npos (countable.encode "Org1MSP")) 1%N 1%N.
Definition demo_officer : Identity := mkIdentity 2 (Npos (countable.encode "PoliceMSP")) 2%N 2%N.

Definition demo_client : FabricClient :=
  mkFabricClient 3 (withDefaults demo_config) 10%N (Some 10%N) (Some demo_identity) true (Some 15%N) [].

Lemma demo_client_wf : wf_client demo_client.
Proof. split; try (by eexists); try done; split_and!; try done; by eexists. Qed.

(** The client's default handle and one for another identity. *)
Definition demo_contract : Contract := FabricClient_Contract demo_client.
Definition demo_officer_contract : Contract := FabricClient_WithIdentity demo_client (Some demo_officer).

(** ** Checkpoints and subscriptions *)

(** A pair is a memory checkpointer. *)
Definition pair_checkpointer : InMemoryCheckpointer := {|
  im_state := N * string;
  im_zero := (0%N, "");
  im_BlockNumber := fst;
  im_TransactionID := snd;
  im_CheckpointBlock n _ := ((n + 1)%N, "");
  im_CheckpointTransaction n tx _ := (n, tx) |}.

Lemma pair_checkpointer_ok : @InMemoryCheckpointerOk pair_checkpointer.
Proof. by split. Qed.

Definition demo_checkpointer : Checkpointer := @NewMemoryCheckpointer pair_checkpointer 9.

Lemma demo_checkpointer_ok : CheckpointerOk demo_checkpointer.
Proof.
  split; unfold position; simpl; intros.
  - unfold memory_state. by rewrite foldl_app.
  - unfold memory_state. by rewrite foldl_app.
  - unfold memory_state. rewrite foldl_app. simpl.
    destruct ev as [| | | | | | | | | | | | | | | | | | | |id n tx [e|]|id n [e|]|]; simpl; try done;
      case_bool_decide; subst; naive_solver.
Qed.

(** A checkpointer whose disk is full from block 5 on. *)
Definition full_checkpointer : Checkpointer := {|
  cp_id := 9;
  cp_BlockNumber := @cp_BlockNumber demo_checkpointer;
  cp_TransactionID := @cp_TransactionID demo_checkpointer;
  cp_CheckpointBlock _ n := if (5 <=? n)%N then Some (errorString "disk full") else None;
  cp_CheckpointTransaction _ n _ := if (5 <=? n)%N then Some (errorString "disk full") else None |}.

(** A database that stores the position with the handler's writes. *)
Definition database_step `{EventEnv} (id : N) (s : N * string) (ev : Event) : N * string :=
  match ev with
  | EvHandle e _ None => event_pos e
  | EvHandleBlock b _ None => (Block_Number b + 1, "")%N
  | EvCheckpointTransaction id' n tx None => if bool_decide (id' = id) then (n, tx) else s
  | EvCheckpointBlock id' n None => if bool_decide (id' = id) then (n + 1, "")%N else s
  | _ => s
  end.

Definition database_checkpointer `{EventEnv} : Checkpointer := {|
  cp_id := 8;
  cp_BlockNumber tr := fst (foldl (database_step 8) (0%N, "") tr);
  cp_TransactionID tr := snd (foldl (database_step 8) (0%N, "") tr);
  cp_CheckpointBlock _ _ := None;
  cp_CheckpointTransaction _ _ _ := None |}.

Lemma database_checkpointer_ok `{EventEnv} : TransactionalCheckpointer database_checkpointer.
Proof.
  assert (Hp : forall tr, position database_checkpointer tr = foldl (database_step 8) (0%N, "") tr)
    by (intros; symmetry; apply surjective_pairing).
  split; intros; rewrite !Hp, foldl_app; [done..|]. simpl.
  event_cases ev; try done; simpl; case_bool_decide; subst; naive_solver.
Qed.

Definition demo_ledger : list GatewayEvent :=
  [mkGatewayEvent 4 "t1" "basic" "Issued" []; mkGatewayEvent 4 "t2" "basic" "Issued" [];
   mkGatewayEvent 5 "t3" "basic" "Paid" []; mkGatewayEvent 7 "t4" "basic" "Paid" []].

Lemma demo_ledger_wf : wf_ledger demo_ledger.
Proof. split; by apply (bool_decide_unpack _). Qed.

(** A Gateway that ends every stream after two events or blocks. *)
Definition fake_events : EventEnv := {|
  env_ChaincodeEvents _ _ _ _ _ := inr 60%N;
  env_BlockEvents _ _ _ _ := inr 61%N;
  env_recv tr _ :=
    match cursor tr with
    | Some (opts, k) =>
        match wanted opts with
        | Some p => if (k <? 2)%nat
                    then match demo_ledger !! (index_of demo_ledger p + k)%nat with
                         | Some ge => inr ge
                         | None => inl true
                         end
                    else inl true
        | None => inl true
        end
    | None => inl true
    end;
  env_recv_block tr _ :=
    match cursor tr with
    | Some (opts, k) =>
        match wanted opts with
        | Some p => if (k <? 2)%nat then Some (fst p + N.of_nat k)%N else None
        | None => None
        end
    | None => None
    end;
  Block_Number b := b;
  env_ctx_Err _ _ := None;
  env_sleep _ _ _ := true |}.

Lemma fake_events_deliver : @Delivers demo_ledger fake_events.
Proof.
  intros tr u ge. simpl. destruct (cursor tr) as [[opts k]|]; [|done]. intros Hr. exists opts, k.
  split; [done|]. intros p Hp. rewrite Hp in Hr. destruct (k <? 2)%nat; [|done].
  destruct (demo_ledger !! _) eqn:E; by simplify_eq.
Qed.

Lemma fake_events_blocks : @DeliversBlocks fake_events.
Proof.
  intros tr u b. simpl. destruct (cursor tr) as [[opts k]|]; [|done]. intros Hr. exists opts, k.
  split; [done|]. intros p Hp. rewrite Hp in Hr. destruct (k <? 2)%nat; by simplify_eq.
Qed.

(** Its failures are of other packages. *)
Lemma fake_events_errors : @SubscriptionErrors fake_events.
Proof. by intros tr n ctx cc o err. Qed.

Lemma fake_events_no_handler ev en su st :
  @NoHandlerErrors (fake_env ev en su st) fake_events.
Proof. by split. Qed.

(** The same Gateway behind a peer that refuses each first subscription as
    unavailable. *)
Definition flaky_events : EventEnv := {|
  env_ChaincodeEvents tr _ _ _ _ := if (barren tr =? 0)%nat then inl server_error else inr 60%N;
  env_BlockEvents tr _ _ _ := if (barren tr =? 0)%nat then inl server_error else inr 61%N;
  env_recv := @env_recv fake_events;
  env_recv_block := @env_recv_block fake_events;
  Block_Number := @Block_Number fake_events;
  env_ctx_Err := @env_ctx_Err fake_events;
  env_sleep := @env_sleep fake_events |}.

Lemma flaky_events_deliver : @Delivers demo_ledger flaky_events.
Proof. exact fake_events_deliver. Qed.

(** One reconnect in a row brings nothing, everybody accepts. *)
Lemma flaky_events_keep_going ev en su st :
  @KeepsGoing (fake_env ev en su st) ascii_tables (fake_grpc (one_status codes.Unavailable "peer is down" []))
    peer_codes flaky_events demo_ledger Background demo_checkpointer (fun _ _ => ([], None)) 1.
Proof.
  split; simpl; intros; [by split; simpl; eauto|..]; try done.
  - destruct (Nat.eqb_spec (barren tr) 0) as [E0|]; [|done]. simplify_eq.
    split; [by vm_compute|lia].
  - rewrite H, H0. simpl. rewrite Nat.add_0_r.
    destruct (lookup_lt_is_Some_2 demo_ledger _ H1) as [ge ->]. by eexists.
Qed.

Lemma flaky_events_blocks : @DeliversBlocks flaky_events.
Proof. exact fake_events_blocks. Qed.

Lemma flaky_events_no_handler ev en su st :
  @NoHandlerErrors (fake_env ev en su st) flaky_events.
Proof.
  split; [done|]. simpl. intros tr n ctx o err. destruct (barren tr =? 0)%nat; [|done]. by intros [= <-].
Qed.

Lemma flaky_events_keep_going_blocks height ev en su st :
  @KeepsGoingBlocks (fake_env ev en su st) ascii_tables (fake_grpc (one_status codes.Unavailable "peer is down" []))
    peer_codes flaky_events height Background demo_checkpointer (fun _ _ => ([], None)) 1.
Proof.
  split; simpl; intros; [by split; simpl; eauto|..]; try done.
  - destruct (Nat.eqb_spec (barren tr) 0) as [E0|]; [|done]. simplify_eq.
    split; [by vm_compute|lia].
  - rewrite H, H0. by eexists.
Qed.

(** ** The same subscription, as goroutines *)

(** A stream over which [evs] went through. *)
Definition stream_of (evs : list GatewayEvent) : stream :=
  mkStream Receiving [] false false false None 0 0 evs (out_event <$> evs) false.

Lemma stream_of_reachable evs : reachable (stream_of evs).
Proof. eapply stream_run_reachable; [apply reach_init|apply (stream_run_events evs [] [])]. Qed.

Lemma stream_of_then evs ls s : stream_run ls (stream_of evs) = Some s -> reachable s.
Proof. apply stream_run_reachable, stream_of_reachable. Qed.

(** One on which another event is offered, and one that the Gateway ended. *)
Lemma stream_offers evs ge : exists s, reachable s /\ st_produced s = evs ++ [ge]
  /\ st_delivered s = out_event <$> evs /\ st_pc s = Sending (out_event ge).
Proof.
  eexists. split; [apply (stream_of_then evs [gw_send ge; go_recv]); reflexivity|]. by split_and!.
Qed.

Lemma stream_ended evs : exists s, reachable s /\ st_produced s = evs
  /\ st_delivered s = out_event <$> evs /\ st_closes s = 1 /\ EventStream_Err s = Some streamClosed.
Proof.
  exists (mkStream Releasing [] true false true (Some streamClosed) 1 0 evs (out_event <$> evs) false).
  split; [|by split_and!].
  by apply (stream_of_then evs [gw_close; go_end; go_check; go_check; go_err; go_stop; go_close]).
Qed.

(** The Gateway of [fake_events] behind the goroutine: an offered event was sent
    after those received; at the end, the Gateway closes its channel. *)
Lemma fake_events_channel : @StreamChannel demo_ledger fake_events.
Proof.
  split; simpl.
  - intros tr u ge. destruct (cursor tr) as [[opts k]|]; [|done]. intros Hr.
    destruct (wanted opts) as [p|] eqn:Ew; [|done]. destruct (k <? 2)%nat; [|done].
    destruct (demo_ledger !! _) as [x|] eqn:El; simplify_eq.
    destruct (stream_offers (take k (drop (index_of demo_ledger p) demo_ledger)) ge) as (s & Hs & Hp & Hd & Hpc).
    exists opts, k, s. split; [done|]. split; [|done]. split; [done|].
    intros q [= <-]%(eq_trans (eq_sym Ew)). split; [|done].
    rewrite Hp, <- take_S_r by (by rewrite lookup_drop). apply prefix_take.
  - intros tr u active opts k Hr Hc. rewrite Hc in Hr.
    destruct (stream_ended match wanted opts with
      | Some p => take k (drop (index_of demo_ledger p) demo_ledger) | None => [] end)
      as (s & Hs & Hp & Hd & H1 & He).
    exists s. split; [split; [done|]|split; [done|]].
    + intros p Hw. rewrite Hw in Hp, Hd. rewrite Hp. split; [apply prefix_take|done].
    + rewrite He. split; [done|]. intros _. repeat case_match; by simplify_eq.
Qed.

(** A schedule: fabric-gateway sends two events at once, the goroutine takes them
    one by one, then the Gateway ends the stream. *)
Definition gateway_ends : list label := [gw_close; go_end; go_check; go_check; go_err; go_stop; go_close].
Definition batch (opts : list EventsOption) : list GatewayEvent :=
  match wanted opts with
  | Some p => take 2 (drop (index_of demo_ledger p) demo_ledger)
  | None => []
  end.
Definition batch_schedule : Schedule := fun tr =>
  match cursor tr with
  | Some (opts, k) =>
      (if decide (k = O) then gw_send <$> batch opts else [])
      ++ (if decide (k < length (batch opts))%nat then [go_recv] else gateway_ends)
  | None => []
  end.

(** Its streams after [k] receives. *)
Definition batch_stream (evs : list GatewayEvent) (k : nat) : stream :=
  match k with
  | O => stream_init
  | _ => mkStream Receiving (drop k evs) false false false None 0 0 evs (out_event <$> take k evs) false
  end.

Lemma batch_cases opts : batch opts = [] \/ (exists a, batch opts = [a]) \/ exists a b, batch opts = [a; b].
Proof.
  unfold batch. destruct (wanted opts) as [p|]; [|by left].
  destruct (drop _ demo_ledger) as [|a [|b l]]; simpl; eauto.
Qed.

Lemma batch_runs opts k s :
  stream_run ((if decide (k = O) then gw_send <$> batch opts else [])
    ++ (if decide (k < length (batch opts))%nat then [go_recv] else gateway_ends)) (batch_stream (batch opts) k) = Some s ->
  st_produced s = batch opts
  /\ ((exists ev, st_pc s = Sending ev /\ stream_step user_recv s = Some (batch_stream (batch opts) (S k)))
      \/ st_closes s = 1 /\ stream_step user_recv s = None).
Proof.
  destruct (batch_cases opts) as [->|[(a & ->)|(a & b & ->)]]; destruct k as [|[|[|k]]]; simpl;
    intros [= <-]; (split; [done|]); first [by right | left; eexists; by split].
Qed.

Lemma batch_stream_after tr s : stream_after (S := batch_schedule) tr = Some s ->
  exists opts k, cursor tr = Some (opts, k) /\ s = batch_stream (batch opts) k.
Proof.
  revert s. induction tr as [|ev tr IH] using rev_ind; intros s; [done|].
  rewrite stream_after_snoc, cursor_app. simpl.
  event_cases ev; try (intros (o1 & k1 & Hc & Hs)%IH; exists o1, k1; by rewrite Hc); try done.
  - intros [= <-]. by eexists _, O.
  - intros (s0 & (opts & k & Hc & ->)%IH & Hrun)%bind_Some. rewrite Hc. exists opts, (S k). split; [done|].
    rewrite stream_run_app in Hrun. apply bind_Some in Hrun as (s1 & Hs1 & Hrecv).
    unfold sched, batch_schedule in Hs1. rewrite Hc in Hs1. apply batch_runs in Hs1 as (_ & [(e & _ & H)|[_ H]]);
      cbn [stream_run] in Hrecv; rewrite H in Hrecv; by simplify_eq/=.
Qed.

Lemma batch_schedule_fair : @FairSchedule batch_schedule demo_ledger.
Proof.
  assert (Hw : forall tr s, waiting (S := batch_schedule) tr = Some s ->
    exists opts k, cursor tr = Some (opts, k) /\ st_produced s = batch opts
      /\ ((exists ev, st_pc s = Sending ev) \/ st_closes s = 1)).
  { intros tr s (s0 & (opts & k & Hc & ->)%batch_stream_after & Hrun)%bind_Some. exists opts, k. split; [done|].
    unfold sched, batch_schedule in Hrun. rewrite Hc in Hrun. apply batch_runs in Hrun as (Hp & Hcase).
    split; [done|]. destruct Hcase as [(ev & Hpc & _)|[H1 _]]; [left; by exists ev|by right]. }
  split.
  - intros tr. unfold sched, batch_schedule. destruct (cursor tr) as [[opts k]|]; [|by intros ?%elem_of_nil].
    intros [H|H]%elem_of_app.
    + case_decide; [|by apply elem_of_nil in H]. by apply list_elem_of_fmap in H as (? & ? & _).
    + unfold gateway_ends in H. case_decide; absent_in H.
  - intros tr s (opts & k & _ & _ & H)%Hw. exact H.
  - intros tr s opts k p (o & k' & Hc & Hp & _)%Hw Hc' Hwp. rewrite Hc in Hc'. injection Hc' as -> ->.
    rewrite Hp. unfold batch. rewrite Hwp. apply prefix_take.
Qed.

(** ** Commands *)

(** Every variable set. *)
Definition demo_getenv (key : string) : string :=
  if bool_decide (key = "PEER_ENDPOINT") then "peer0.org1:7051"
  else if bool_decide (key = "KEY_PATH") then "keystore"
  else if bool_decide (key = "MSP_ID") then "Org1MSP"
  else if bool_decide (key = "PEER_HOST_OVERRIDE") then "" else "value".

(** Contexts end after the third event. *)
Definition stopping_events : EventEnv := {|
  env_ChaincodeEvents := @env_ChaincodeEvents fake_events;
  env_BlockEvents := @env_BlockEvents fake_events;
  env_recv := @env_recv fake_events;
  env_recv_block := @env_recv_block fake_events;
  Block_Number := @Block_Number fake_events;
  env_ctx_Err tr _ := if (length (handled tr) <? 2)%nat then None else Some (sentinelError context_Canceled);
  env_sleep _ _ _ := true |}.

Lemma stopping_events_deliver : @Delivers demo_ledger stopping_events.
Proof. exact fake_events_deliver. Qed.
