(* ===== verification/Witnesses.v ===== *)
(** * Witnesses: the theorems' hypotheses hold at concrete inputs *)

From S2P Require Import Prelude GoStrings GoRunes Ccerr Errors Classify Observe World Identity Config Client Contract Transactions Views Lifecycle Resubmit Outbox Events Positions Protocol Streams Listeners Commands Blocks BlockOutcome Backoff Restarts ErrorTyping Channel Schedules Progress BlockProgress Pool PendingThreads ClientThreads Instances.

#[local] Existing Instance ascii_tables.
#[local] Existing Instance peer_codes.

(** ** Package ccerr *)

Lemma Parse_render_witness :
  ccerr.Parse "NOT_FOUND: challan CH-1 does not exist "
  = (ccerr.NotFound, "challan CH-1 does not exist", true).
Proof.
  apply (ccerr.Parse_render (ccerr.mkError ccerr.NotFound "challan CH-1 does not exist ")).
  by apply (bool_decide_unpack _).
Defined.

Lemma Parse_render_response_witness :
  ccerr.Parse "chaincode response 409, ALREADY_EXISTS: CH-1" = (ccerr.AlreadyExists, "CH-1", true).
Proof.
  apply (ccerr.Parse_render_response (ccerr.mkError ccerr.AlreadyExists "CH-1") "409");
    [by apply (bool_decide_unpack _)|reflexivity].
Defined.

Lemma Parse_stable_witness :
  ccerr.Parse (ccerr.Error_Error (ccerr.mkError ccerr.Unauthorized "missing role"))
  = (ccerr.Unauthorized, "missing role", true).
Proof.
  apply (ccerr.Parse_stable "  UNAUTHORIZED:missing role" ccerr.Unauthorized "missing role").
  by vm_compute.
Defined.

(** ** Errors *)

Definition conflict_error : Error := newError KindConflict SourceNetwork "stale read".

Lemma helpers_see_through_wrapping_witness :
  IsRetryable (Some (wrapError "handler: x" (externalError 7 "y" [sdkError conflict_error]))) = true.
Proof.
  apply (helpers_see_through_wrapping conflict_error).
  apply wraps_errorf, wraps_external, wraps_here.
Defined.

Lemma conflict_error_wf : wf_error conflict_error.
Proof. apply newError_wf; [by eexists|done| |done]. by apply (bool_decide_unpack _). Qed.

Lemma wf_error_codes_witness : (400 <= Error_Code conflict_error <= 504)%Z.
Proof. apply (wf_error_codes conflict_error conflict_error_wf). Defined.

(** ** Classification *)

Lemma classify_outcome_unknown_witness :
  IsOutcomeUnknown (@classify _ (fake_grpc (one_status codes.DeadlineExceeded "submit timeout" [])) _
    (Some server_error) "tx1" phaseSubmit false) = true.
Proof.
  apply (@classify_outcome_unknown _ (fake_grpc _) _ server_error "tx1" phaseSubmit false
           foreign_server_error).
  right. by vm_compute.
Defined.

Lemma classify_retry_safe_witness :
  IsRetryable (@classify _ (fake_grpc (one_status codes.Aborted "BAD_REQUEST" [])) _
    (Some server_error) "tx1" phaseSubmit false) = true.
Proof.
  apply (@classify_retry_safe _ (fake_grpc _) _ server_error "tx1" phaseSubmit false
           foreign_server_error); [by left|]. by vm_compute.
Defined.

Lemma classify_context_witness :
  exists e, @classify _ (fake_grpc (one_status codes.Unavailable "no peers" ["down"])) _
    (Some server_error) "tx1" phaseEndorse false = Some (sdkError e) /\ Error_TxID e = "tx1".
Proof.
  destruct (@classify_context _ (fake_grpc (one_status codes.Unavailable "no peers" ["down"])) _
              server_error "tx1" phaseEndorse false foreign_server_error) as (e & E & Ht & _).
  exists e. exact (conj E Ht).
Defined.

Lemma classify_wf_witness :
  wf_error (@classify_status _ (fake_grpc (one_status codes.NotFound "gone" [])) server_error
              "tx1" phaseEvaluate true).
Proof.
  apply (@classify_wf _ (fake_grpc (one_status codes.NotFound "gone" [])) _ peer_codes_ok
           server_error "tx1" phaseEvaluate true); [discriminate|reflexivity].
Defined.

Lemma classify_timeout_witness :
  IsTimeout (@classify _ (fake_grpc (one_status codes.DeadlineExceeded "timeout" [])) _
    (Some server_error) "tx1" phaseEndorse true) = true.
Proof.
  apply (@classify_timeout _ (fake_grpc _) _ server_error "tx1" phaseEndorse true
           foreign_server_error). by vm_compute.
Defined.

Lemma classify_context_errors_witness :
  KindOf (@classify _ (fake_grpc (conv_table (fun _ => None))) _
    (Some (wrapError "evaluate: context canceled" (sentinelError context_Canceled)))
    "tx1" phaseEvaluate true) = KindCanceled.
Proof.
  apply (@classify_context_errors _ (fake_grpc _) _ (fake_grpc_ok _)
    (wrapError "evaluate: context canceled" (sentinelError context_Canceled))
    "tx1" phaseEvaluate true context_Canceled); [by split|done..].
Defined.

Lemma classify_commit_failure_witness :
  exists e, @classify _ (fake_grpc (conv_table (fun _ => None))) _
    (Some (commitError (mkCommitError "tx9" 11%Z "invalid"))) "tx1" phaseSubmit true
    = Some (sdkError e) /\ Error_TxID e = "tx9".
Proof.
  destruct (@classify_commit_failure _ (fake_grpc (conv_table (fun _ => None))) _
    (commitError (mkCommitError "tx9" 11%Z "invalid")) (mkCommitError "tx9" 11%Z "invalid")
    "tx1" phaseSubmit true eq_refl eq_refl) as (e & E & Ht & _).
  exists e. exact (conj E Ht).
Defined.

Lemma classify_ccerr_witness :
  exists e, @classify _ (fake_grpc (one_status codes.Aborted "see details"
                           ["connection refused"; "CONFLICT: version 3 != 4"])) _
    (Some server_error) "tx1" phaseEndorse true = Some (sdkError e)
    /\ Error_Kind e = KindConflict /\ Error_Message e = "version 3 != 4".
Proof.
  destruct (@classify_ccerr _ (fake_grpc (one_status codes.Aborted "see details"
                           ["connection refused"; "CONFLICT: version 3 != 4"])) _
    server_error "tx1" phaseEndorse true (ccerr.mkError ccerr.Conflict "version 3 != 4")
    [mkErrorDetail "peer0:7051" "Org1MSP" "connection refused"] []
    (mkErrorDetail "peer0:7051" "Org1MSP" "CONFLICT: version 3 != 4")
    foreign_server_error eq_refl eq_refl eq_refl)
    as (e & E & Hk & _ & Hm & _);
    [by vm_compute|by apply (bool_decide_unpack _)|by left|].
  exists e. split; [exact E|]. rewrite Hk, Hm. by vm_compute.
Defined.

Lemma classify_chaincode_iff_witness :
  IsChaincode (@classify _ (fake_grpc (one_status codes.Unknown "see details"
                           ["chaincode response 400, bad plate"])) _
    (Some server_error) "tx1" phaseEvaluate true) = true.
Proof.
  apply (@classify_chaincode_iff _ (fake_grpc _) _ server_error "tx1" phaseEvaluate true
           foreign_server_error). by vm_compute.
Defined.

Lemma legacyKind_peer_side_witness :
  legacyKind "rpc: Make Sure the Chaincode basic exists: chaincode basic not found" = "".
Proof.
  apply (legacyKind_peer_side "rpc: " "Make Sure the Chaincode"
           " basic exists: chaincode basic not found"); [done|].
  by apply (bool_decide_unpack _).
Defined.

(** ** Identities and configuration *)

#[local] Existing Instance fake_x509.
#[local] Existing Instance fake_fs.
#[local] Existing Instance fake_tls.
#[local] Existing Instance fake_ledger.

Lemma IdentityFromPEM_key_matches_witness :
  exists i w', IdentityFromPEM "Org1MSP" [Byte.x41] [Byte.x42] empty_world = (inr i, w')
    /\ MSPID i = "Org1MSP".
Proof.
  do 2 eexists. split; [reflexivity|].
  eapply (@IdentityFromPEM_key_matches _ fake_x509_ok "Org1MSP" [Byte.x41] [Byte.x42] empty_world).
  reflexivity.
Defined.

Lemma readPEMPath_directory_witness : readPEMPath "keystore" = os_ReadFile "keystore/priv_sk".
Proof.
  exact (readPEMPath_directory "keystore" [mkDirEntry ".hidden" true; mkDirEntry "priv_sk" true]
    eq_refl eq_refl).
Defined.

Lemma withDefaults_positive_witness : (0 < EndorseTimeout (withDefaults demo_config))%Z.
Proof. apply (withDefaults_positive demo_config true). by vm_compute. Defined.

Lemma serverNameFor_host_witness : serverNameFor demo_config = "peer0.org1".
Proof. apply (serverNameFor_host demo_config "" "peer0.org1" "7051"); auto. Defined.

(** ** Clients and transactions *)

Definition refused_env : Env :=
  fake_env ok_result (inr 40%N) (inl server_error) ok_status.
Definition lost_env : Env :=
  fake_env ok_result (inr 40%N) (inr 50%N) (inl server_error).
Definition good_env : Env := fake_env ok_result (inr 40%N) (inr 50%N) ok_status.
Definition unavailable : GrpcStatus := fake_grpc (one_status codes.Unavailable "connection lost" []).
#[local] Existing Instance unavailable.

(** Plain errors are [Unknown] with their text. *)
Definition plain_status : GrpcStatus := fake_grpc (conv_table (fun _ => None)).
Lemma plain_status_ok : @ConvertPlain plain_status.
Proof. by intros e He. Qed.
#[local] Existing Instance plain_status_ok.

Lemma refused_env_errors : @GatewayErrors refused_env.
Proof. apply fake_env_errors; (by left) || (right; by eexists). Qed.
Lemma lost_env_errors : @GatewayErrors lost_env.
Proof. apply fake_env_errors; (by left) || (right; by eexists). Qed.

(** A run on concrete inputs: the other outcome is refuted by computation. *)
Ltac run_demo E := try (exfalso; vm_compute in E; discriminate E).

#[local] Existing Instance refused_env_errors.
#[local] Existing Instance lost_env_errors.

Ltac compute_rpcs :=
  match goal with |- context [rpcs ?t] => let r := eval vm_compute in (rpcs t) in change (rpcs t) with r end.

Lemma New_no_leak_witness :
  match New (E := good_env) demo_config empty_world with
  | (inr fc, _) => wf_client fc
  | (inl _, _) => False
  end.
Proof.
  pose proof (New_no_leak (E := good_env) demo_config empty_world empty_world_wf) as H.
  destruct (New (E := good_env) demo_config empty_world) as [[err|fc] w'] eqn:E; run_demo E.
  destruct H as (new & _ & Hfc & _). exact Hfc.
Defined.

Lemma SubmitWith_outcome_witness :
  match Contract_SubmitWith (E := lost_env) (G := unavailable) demo_officer_contract None "Issue"
          [Args ["CH-1"]] empty_world with
  | (inl err, w') => exists new, w_trace w' = new /\ IsOutcomeUnknown (Some err) = in_doubt (rpcs new)
      /\ in_doubt (rpcs new) = true
  | (inr _, _) => False
  end.
Proof.
  destruct (Contract_SubmitWith (E := lost_env) (G := unavailable) demo_officer_contract None
    "Issue" [Args ["CH-1"]] empty_world) as [[err|res] w'] eqn:E; run_demo E.
  destruct (SubmitWith_outcome (E := lost_env) demo_officer_contract None
    "Issue" [Args ["CH-1"]] empty_world w' err E) as (new & En & Hu & _).
  exists new. split; [exact En|]. split; [exact Hu|]. simpl in En. subst new.
  vm_compute in E. injection E as <- <-. reflexivity.
Defined.

Lemma SubmitWith_success_witness :
  match Contract_SubmitWith (E := good_env) demo_officer_contract None "Issue"
          [Args ["CH-1"]] empty_world with
  | (inr res, w') => exists p k sctx st, res = mkTxResult (@Proposal_TransactionID good_env p)
        (Status_BlockNumber st) [Byte.x6f; Byte.x6b]
      /\ Status_Successful st = true /\ EvCommitStatus k sctx (inr st) ∈ rpcs (w_trace w')
  | (inl _, _) => False
  end.
Proof.
  destruct (Contract_SubmitWith (E := good_env) demo_officer_contract None
    "Issue" [Args ["CH-1"]] empty_world) as [[err|res] w'] eqn:E; run_demo E.
  destruct (SubmitWith_success (E := good_env) demo_officer_contract None
    "Issue" [Args ["CH-1"]] empty_world w' res E)
    as (new & p & ectx & tx & sctx & k & cctx & st & En & _ & Hc & Hs & Hr).
  simpl in En. subst new. exists p, k, cctx, st.
  split_and!; [exact Hr|exact Hs|]. simpl. rewrite Hc, !elem_of_cons. auto.
Defined.

Lemma SubmitWith_txID_witness :
  match Contract_SubmitWith (E := refused_env) demo_contract None "Issue" [Args ["CH-1"]]
          empty_world with
  | (inl err, w') => TxIDOf (Some err) = "tx1"
  | (inr _, _) => False
  end.
Proof.
  destruct (Contract_SubmitWith (E := refused_env) demo_contract None
    "Issue" [Args ["CH-1"]] empty_world) as [[err|res] w'] eqn:E; run_demo E.
  destruct (SubmitWith_txID (E := refused_env) demo_contract None
    "Issue" [Args ["CH-1"]] empty_world w' err E) as (new & En & Hid).
  destruct Hid as (p & _ & Hid); [|exact Hid].
  simpl in En. subst new. vm_compute in E. injection E as <- <-. discriminate.
Defined.

(** Three reports of a transaction of the officer's whose status is lost, each with
    operation, channel, chaincode, MSP and transaction ID. *)
Lemma SubmitWith_observed_witness :
  let seen := observations (w_trace (snd (Contract_SubmitWith (E := lost_env) demo_officer_contract None
    "Issue" [] empty_world))) in
  (Info_Operation <$> seen) = [OpEndorse; OpSubmit; OpCommit]
  /\ Forall (fun i => Info_Channel i = "mychannel" /\ Info_Chaincode i = "basic" /\ Info_Contract i = ""
       /\ Info_Function i = "Issue" /\ Info_MSPID i = "PoliceMSP" /\ Info_TxID i = "tx1") seen.
Proof.
  pose proof (SubmitWith_observed (E := lost_env) demo_officer_contract None "Issue" [] empty_world eq_refl) as H.
  destruct (Contract_SubmitWith (E := lost_env) demo_officer_contract None "Issue" [] empty_world)
    as [r w'] eqn:E.
  destruct H as (new & En & Ho & _ & Hf). simpl in En. subst new. simpl. split.
  - rewrite Ho. vm_compute in E. injection E as <- <-. reflexivity.
  - eapply Forall_impl; [|exact Hf]. intros i (p & _ & H1 & H2 & H3 & H4 & H5 & H6).
    rewrite H1, H2, H3, H4, H5, H6. repeat split.
Defined.

(** The officer reads with two lists of arguments: one Gateway with the officer's
    certificate and signer, and the proposal on it. *)
Lemma handle_identity_target_witness :
  let new := w_trace (snd (Contract_EvaluateWith (E := good_env) demo_officer_contract None "Read"
    [Args ["CH-1"]; Args ["CH-2"]] empty_world)) in
  connects_for demo_officer_contract (connects new)
  /\ asks_for demo_officer_contract "Read" [WithBytesArguments (bytes_of_string <$> ["CH-1"; "CH-2"])]
       (connects new) (asks new)
  /\ connects new <> [] /\ asks new <> [].
Proof.
  destruct (handle_identity_target (E := good_env) demo_officer_contract None "Read"
    [callArgs ["CH-1"]; callArgs ["CH-2"]] empty_world) as [(new & Ht & Hc & Ha) _].
  change (w_trace empty_world ++ new) with new in Ht. rewrite <- Ht in Hc, Ha.
  cbv zeta. split_and!; [exact Hc|exact Ha|vm_compute; discriminate|vm_compute; discriminate].
Defined.

Lemma SubmitWith_gateways_witness :
  closed (w_trace (snd (Contract_SubmitWith (E := good_env) demo_officer_contract None "Issue" []
    empty_world))) = [20%N].
Proof.
  pose proof (SubmitWith_gateways (E := good_env) demo_officer_contract None "Issue" [] empty_world
    empty_world_wf) as H.
  destruct (Contract_SubmitWith (E := good_env) demo_officer_contract None "Issue" [] empty_world)
    as [r w'] eqn:E.
  destruct H as (new & En & _ & Hb & _). simpl in En. subst new. simpl.
  vm_compute in E. injection E as <- <-.
  rewrite Hb; [reflexivity|]. intros k cctx err. compute_rpcs. absent.
Defined.

Lemma PendingTx_closes_once_witness :
  let p := mkPendingTx 4 "tx1" [] demo_officer_contract "Issue" 50%N (Some 20%N) in
  exists new, w_trace (snd (use_pending (E := good_env) p [use_Release; use_Wait None; use_Release]
    empty_world)) = new /\ closed new = [20%N].
Proof.
  intros p.
  destruct (PendingTx_closes_once (E := good_env) p [use_Release; use_Wait None; use_Release]
    empty_world) as (new & En & _ & Hu); [by apply (bool_decide_unpack _)|].
  exists new. split; [exact En|]. apply Hu. left. apply list_elem_of_here.
Defined.

Lemma EvaluateWith_spec_witness :
  exists new, w_trace (snd (Contract_EvaluateWith (E := lost_env) demo_contract None "Read" [] empty_world))
      = new
    /\ IsOutcomeUnknown (error_of (fst (Contract_EvaluateWith (E := lost_env) demo_contract None "Read" []
         empty_world))) = false.
Proof.
  pose proof (EvaluateWith_spec (E := lost_env) demo_contract None "Read" [] empty_world) as H.
  destruct (Contract_EvaluateWith (E := lost_env) demo_contract None "Read" [] empty_world) as [r w'].
  destruct H as (new & En & _ & Hu & _). exists new. exact (conj En Hu).
Defined.

Lemma TxStatus_spec_witness :
  match fst (Contract_TxStatus (E := lost_env) demo_contract None "tx1" empty_world) with
  | inr ts => ts = mkTxStatus "tx1" true 0%Z true
  | inl _ => False
  end.
Proof.
  pose proof (TxStatus_spec (E := lost_env) demo_contract None "tx1" empty_world) as H.
  destruct (Contract_TxStatus (E := lost_env) demo_contract None "tx1" empty_world) as [r w'] eqn:E.
  destruct H as (new & En & _ & Hs & _). simpl in En. subst new.
  vm_compute in E. injection E as <- <-. exact Hs.
Defined.

Lemma closed_client_refuses_witness :
  exists err, fst (Contract_SubmitWith (E := good_env) demo_contract None "Issue" []
      (snd (FabricClient_Close (E := good_env) demo_client empty_world))) = inl err
    /\ KindOf (Some err) = KindConfig.
Proof.
  destruct (closed_client_refuses (E := good_env) (G := plain_status) demo_contract None "Issue" "tx1" []
    (snd (FabricClient_Close (E := good_env) demo_client empty_world)))
    as (_ & _ & (err & new & Hr & Hk & _) & _); [by apply (bool_decide_unpack _)|].
  exists err. exact (conj Hr Hk).
Defined.

Lemma calls_bounded_witness :
  exists new, w_trace (snd (Contract_SubmitWith (E := good_env) demo_contract None "Issue" []
    empty_world)) = new /\ Forall bounded (rpcs new).
Proof.
  destruct (calls_bounded (E := good_env) demo_contract None "Issue" "tx1" [] empty_world
    demo_client_wf) as (_ & H & _).
  destruct H as (new & En & Hb). exists new. exact (conj En Hb).
Defined.

(** ** Events *)

(** One event is sent and received, the Gateway ends the stream, and so does the
    caller while the goroutine waits. *)
Definition demo_labels : list label :=
  [gw_send (mkGatewayEvent 4 "t1" "basic" "Issued" []); go_recv; user_recv; gw_close; user_close].
Definition demo_stream : stream := default stream_init (stream_run demo_labels stream_init).

Lemma demo_stream_reachable : reachable demo_stream.
Proof. by apply (stream_run_reachable demo_labels stream_init demo_stream reach_init). Qed.

(** One more event is waiting. *)
Definition sent_stream : stream :=
  default stream_init (stream_run [gw_send (mkGatewayEvent 4 "t1" "basic" "Issued" [])] stream_init).
Lemma sent_stream_reachable : reachable sent_stream.
Proof. by apply (stream_run_reachable [gw_send (mkGatewayEvent 4 "t1" "basic" "Issued" [])] stream_init _ reach_init). Qed.

Lemma stream_faithful_witness : st_delivered demo_stream `prefix_of` (out_event <$> st_produced demo_stream).
Proof. apply (stream_faithful demo_stream demo_stream_reachable). Defined.

Lemma stream_terminates_witness : exists ls s', forallb is_go ls = true
  /\ stream_run ls demo_stream = Some s' /\ st_releases s' = 1.
Proof.
  destruct (stream_terminates demo_stream demo_stream_reachable eq_refl eq_refl)
    as (_ & ls & s' & Hg & Hr & _ & _ & H1 & _).
  exists ls, s'. exact (conj Hg (conj Hr H1)).
Defined.

#[local] Existing Instance pair_checkpointer.
#[local] Existing Instance pair_checkpointer_ok.
#[local] Existing Instance fake_events.

Lemma NewMemoryCheckpointer_ok_witness : CheckpointerOk (NewMemoryCheckpointer 9).
Proof. apply (NewMemoryCheckpointer_ok 9). Defined.

Lemma ListenChaincodeEvents_no_gap_witness :
  exists m, handled (w_trace (snd (Contract_ListenChaincodeEvents (E := good_env) (G := plain_status)
      demo_contract Background 9 (Some demo_checkpointer) (Some (fun _ _ => ([], None))) [FromBlock 4]
      empty_world))) = out_event <$> take m demo_ledger.
Proof.
  destruct (ListenChaincodeEvents_no_gap (E := good_env) (G := plain_status) demo_contract Background 9
    demo_checkpointer (fun _ _ => ([], None)) [FromBlock 4] empty_world demo_ledger (4%N, "")
    (CheckpointerOk0 := demo_checkpointer_ok) (Delivers0 := fake_events_deliver) demo_ledger_wf)
    as (new & m & Ht & Hh); [reflexivity|].
  exists m. exact (eq_trans (f_equal handled Ht) Hh).
Defined.

Lemma ListenChaincodeEvents_backoff_witness :
  exists new, w_trace (snd (Contract_ListenChaincodeEvents (E := good_env) (G := plain_status)
      demo_contract Background 9 (Some demo_checkpointer) (Some (fun _ _ => ([], None))) [FromBlock 4]
      empty_world)) = new
    /\ Forall (fun d => Second <= d <= 30 * Second)%Z (sleeps new).
Proof.
  destruct (ListenChaincodeEvents_backoff (E := good_env) (G := plain_status) demo_contract Background 9
    demo_checkpointer (fun _ _ => ([], None)) [FromBlock 4] empty_world) as [_ H].
  destruct H as (new & Ht & Hf); [reflexivity|]. exists new. exact (conj Ht Hf).
Defined.

Lemma ListenBlocks_no_gap_witness :
  exists new, w_trace (snd (Contract_ListenBlocks (E := good_env) (G := plain_status)
      demo_contract Background 9 (Some demo_checkpointer) (Some (fun _ _ => ([], None))) [FromBlock 4]
      empty_world)) = new
    /\ consecutive 4 (handled_blocks new).
Proof.
  destruct (ListenBlocks_no_gap (E := good_env) (G := plain_status) demo_contract Background 9
    demo_checkpointer (fun _ _ => ([], None)) [FromBlock 4] empty_world (4%N, "")
    (CheckpointerOk0 := demo_checkpointer_ok) (H := fake_events_blocks))
    as (new & Ht & Hc); [reflexivity|].
  exists new. exact (conj Ht Hc).
Defined.

(** The demonstration handles the whole ledger over two streams. *)
Example demo_listener_handles_all :
  Event_TxID <$> handled (w_trace (snd (Contract_ListenChaincodeEvents (E := good_env) (G := plain_status)
      demo_contract Background 9 (Some demo_checkpointer) (Some (fun _ _ => ([], None))) [FromBlock 4]
      empty_world))) = ["t1"; "t2"; "t3"; "t4"].
Proof. vm_compute. reflexivity. Qed.

Lemma stream_delivers_all_witness : exists s', stream_run [go_recv; user_recv] sent_stream = Some s'
  /\ length [go_recv; user_recv] <= stream_measure sent_stream.
Proof.
  eexists. split; [reflexivity|].
  apply (stream_delivers_all sent_stream [go_recv; user_recv]
    (default stream_init (stream_run [go_recv; user_recv] sent_stream)) sent_stream_reachable eq_refl
    eq_refl eq_refl).
Defined.

Lemma ListenChaincodeEvents_over_streams_witness :
  exists m, handled (w_trace (snd (Contract_ListenChaincodeEvents (E := good_env) (G := plain_status)
      demo_contract Background 9 (Some demo_checkpointer) (Some (fun _ _ => ([], None))) [FromBlock 5]
      empty_world))) = out_event <$> take m (drop 2 demo_ledger).
Proof.
  destruct (ListenChaincodeEvents_over_streams (E := good_env) (G := plain_status) demo_contract Background 9
    demo_checkpointer (fun _ _ => ([], None)) [FromBlock 5] empty_world demo_ledger (5%N, "")
    (CheckpointerOk0 := demo_checkpointer_ok) (StreamChannel0 := fake_events_channel) demo_ledger_wf)
    as [(new & m & Ht & Hh) _]; [reflexivity|].
  exists m. exact (eq_trans (f_equal handled Ht) Hh).
Defined.

(** Over the batch schedule, from block 5; below, from block 4, the whole ledger
    over two streams. *)
Lemma ListenChaincodeEvents_over_schedules_witness :
  exists m, handled (w_trace (snd (Contract_ListenChaincodeEvents (E := good_env) (G := plain_status)
      (EE := scheduled (S := batch_schedule) fake_events) demo_contract Background 9 (Some demo_checkpointer)
      (Some (fun _ _ => ([], None))) [FromBlock 5] empty_world))) = out_event <$> take m (drop 2 demo_ledger).
Proof.
  destruct (ListenChaincodeEvents_over_schedules (E := good_env) (G := plain_status) (S := batch_schedule)
    fake_events demo_contract Background 9 demo_checkpointer (fun _ _ => ([], None)) [FromBlock 5] empty_world
    demo_ledger (5%N, "") (CheckpointerOk0 := demo_checkpointer_ok) (FairSchedule0 := batch_schedule_fair)
    demo_ledger_wf) as [(new & m & Ht & Hh) _]; [reflexivity|].
  exists m. exact (eq_trans (f_equal handled Ht) Hh).
Defined.

Example batch_schedule_handles_all :
  Event_TxID <$> handled (w_trace (snd (Contract_ListenChaincodeEvents (E := good_env) (G := plain_status)
      (EE := scheduled (S := batch_schedule) fake_events) demo_contract Background 9 (Some demo_checkpointer)
      (Some (fun _ _ => ([], None))) [FromBlock 4] empty_world))) = ["t1"; "t2"; "t3"; "t4"].
Proof. vm_compute. reflexivity. Qed.

(** Every second subscription is refused; the whole ledger is handled. *)
Lemma ListenChaincodeEvents_handles_all_witness :
  handled (w_trace (snd (Contract_ListenChaincodeEvents (E := good_env) (EE := flaky_events)
      (G := fake_grpc (one_status codes.Unavailable "peer is down" []))
      demo_contract Background 10 (Some demo_checkpointer) (Some (fun _ _ => ([], None))) [FromBlock 4]
      empty_world))) = out_event <$> demo_ledger.
Proof.
  destruct (ListenChaincodeEvents_handles_all (E := good_env) (EE := flaky_events)
    (G := fake_grpc (one_status codes.Unavailable "peer is down" [])) demo_contract Background
    demo_checkpointer (fun _ _ => ([], None)) demo_ledger 1
    (CheckpointerOk0 := demo_checkpointer_ok) (Delivers0 := flaky_events_deliver)
    (KeepsGoing0 := flaky_events_keep_going _ _ _ _) demo_ledger_wf ltac:(by eexists) 10 [FromBlock 4]
    empty_world (4%N, ""))
    as (new & Ht & Hh); [by apply (bool_decide_unpack _)|reflexivity|simpl; lia|].
  exact (eq_trans (f_equal handled Ht) Hh).
Defined.

(** The same for a chain of six blocks, from block 3. *)
Lemma ListenBlocks_handles_all_witness :
  exists blocks, consecutive (EE := flaky_events) 3 blocks /\ 3 <= length blocks /\
    blocks = handled_blocks (w_trace (snd (Contract_ListenBlocks (E := good_env) (EE := flaky_events)
      (G := fake_grpc (one_status codes.Unavailable "peer is down" []))
      demo_contract Background 14 (Some demo_checkpointer) (Some (fun _ _ => ([], None))) [FromBlock 3]
      empty_world))).
Proof.
  destruct (ListenBlocks_handles_all (E := good_env) (EE := flaky_events)
    (G := fake_grpc (one_status codes.Unavailable "peer is down" [])) demo_contract Background
    demo_checkpointer (fun _ _ => ([], None)) 6 1
    (CheckpointerOk0 := demo_checkpointer_ok) (H := flaky_events_blocks)
    (H0 := flaky_events_no_handler _ _ _ _)
    (KeepsGoingBlocks0 := flaky_events_keep_going_blocks 6 _ _ _ _) ltac:(by eexists) 14 [FromBlock 3]
    empty_world (3%N, ""))
    as (new & Ht & Hc & Hl); [by apply (bool_decide_unpack _)|reflexivity|lia|].
  exists (handled_blocks new). split; [exact Hc|]. split; [simpl in Hl; lia|].
  exact (f_equal handled_blocks (eq_sym Ht)).
Defined.

(** Which of its subscriptions were accepted: a refusal, a stream of two events,
    and again; then streams that deliver nothing more. *)
Example flaky_listener_sessions :
  omap (fun ev => match ev with EvChaincodeEvents _ _ _ _ r => Some (bool_decide (is_Some r)) | _ => None end)
    (w_trace (snd (Contract_ListenChaincodeEvents (E := good_env) (EE := flaky_events)
      (G := fake_grpc (one_status codes.Unavailable "peer is down" []))
      demo_contract Background 8 (Some demo_checkpointer) (Some (fun _ _ => ([], None))) [FromBlock 4]
      empty_world)))
  = [false; true; false; true; false; true; true; true].
Proof. vm_compute. reflexivity. Qed.

Lemma ListenChaincodeEvents_delays_witness :
  exists new, w_trace (snd (Contract_ListenChaincodeEvents (E := good_env) (G := plain_status)
      demo_contract Background 9 (Some demo_checkpointer) (Some (fun _ _ => ([], None))) [FromBlock 4]
      empty_world)) = new
    /\ sleeps new = delays Second (30 * Second)%Z 0 new.
Proof.
  destruct (ListenChaincodeEvents_delays (E := good_env) (G := plain_status) demo_contract Background 9
    demo_checkpointer (fun _ _ => ([], None)) [FromBlock 4] empty_world) as [_ H].
  destruct H as (new & Ht & Hf); [reflexivity|]. exists new. exact (conj Ht Hf).
Defined.

(** The third event is accepted but cannot be checkpointed: the listener returns
    the checkpointer's error, and its positions are those of the first two. *)
Lemma ListenChaincodeEvents_outcome_witness :
  exists new, verdict (E := good_env) (G := plain_status) demo_contract Background full_checkpointer
      [FromBlock 4] [] new (Some (Some (errorString "disk full")))
    /\ (Event_TxID <$> handled new) = ["t1"; "t2"; "t3"]
    /\ position full_checkpointer new = (4%N, "t2").
Proof.
  pose proof (ListenChaincodeEvents_outcome (E := good_env) (G := plain_status) demo_contract Background 9
    full_checkpointer (fun _ _ => ([], None)) [FromBlock 4] empty_world) as H.
  destruct (Contract_ListenChaincodeEvents _ _ _ _ _ _ _) as [r w'] eqn:E.
  destruct H as (new & Ht & Hv). exists new.
  change (w_trace empty_world ++ new) with new in Ht. rewrite <- Ht in Hv |- *.
  vm_compute in E. injection E as <- <-. split; [exact Hv|split; vm_compute; reflexivity].
Defined.

(** Blocks 4 and 5 are accepted; the second cannot be checkpointed. *)
Lemma ListenBlocks_outcome_witness :
  exists new, block_verdict (E := good_env) (G := plain_status) demo_officer_contract Background
      full_checkpointer (fun _ _ => ([], None)) (Contract_eventOptions demo_officer_contract [FromBlock 4])
      [] new (Some (Some (errorString "disk full")))
    /\ handled_blocks new = [4; 5]%N /\ closed new = opened new.
Proof.
  pose proof (ListenBlocks_outcome (E := good_env) (G := plain_status)
    (H := fake_events_no_handler _ _ _ _) demo_officer_contract Background
    full_checkpointer (fun _ _ => ([], None)) 9 [FromBlock 4] empty_world) as H.
  destruct (Contract_ListenBlocks _ _ _ _ _ _ _) as [r w'] eqn:E.
  destruct H as (new & Ht & Hv & Hg & _). exists new.
  change (w_trace empty_world ++ new) with new in Ht. rewrite <- Ht in Hv, Hg |- *.
  vm_compute in E. injection E as <- <-. split; [exact Hv|]. split; [vm_compute; reflexivity|].
  apply Hg. discriminate.
Defined.

(** ** Errors of calls *)

Lemma calls_return_typed_errors_witness :
  exists err, fst (Contract_SubmitWith (E := lost_env) (G := unavailable) demo_contract None "Issue" []
    empty_world) = inl err /\ typed_error err.
Proof.
  pose proof (calls_return_typed_errors (E := lost_env) (G := unavailable)
    (H := lost_env_errors) (H0 := peer_codes_ok)
    (H1 := fake_events_errors) empty_world) as (_ & _ & _ & _ & _ & _ & H & _).
  destruct (H demo_contract None "Issue" []) as (_ & _ & Ht).
  destruct (fst (Contract_SubmitWith (E := lost_env) (G := unavailable) demo_contract None "Issue" []
    empty_world)) as [err|res] eqn:E; run_demo E. exists err. exact (conj eq_refl Ht).
Defined.

(** What [Close] returns is not an [*Error], although the type's comment promises
    one from every call. *)
Definition closing_fails : Env := {|
  env_now := @env_now good_env; env_NewClient := @env_NewClient good_env;
  env_ConnClose _ _ := None; env_Connect := @env_Connect good_env;
  env_GatewayClose _ _ := Some (errorString "connection reset");
  env_NewProposal := @env_NewProposal good_env;
  Proposal_TransactionID := @Proposal_TransactionID good_env;
  env_Evaluate := @env_Evaluate good_env; env_Endorse := @env_Endorse good_env;
  Transaction_Result := @Transaction_Result good_env; env_Submit := @env_Submit good_env;
  env_CommitStatus := @env_CommitStatus good_env; env_NewHSMSigner := @env_NewHSMSigner good_env;
  env_CloseFn _ _ := Some (errorString "token removed") |}.

Example Close_returns_untyped :
  fst (FabricClient_Close (E := closing_fails) demo_client empty_world)
    = Some (joinError [errorString "connection reset"])
  /\ fst (Identity_Close (E := closing_fails) (Some demo_identity)
       (mkWorld [] {[id_addr demo_identity := 1%N]} ∅ ∅ ∅ 10)) = Some (errorString "token removed")
  /\ asError (fst (FabricClient_Close (E := closing_fails) demo_client empty_world)) = None.
Proof. vm_compute. by repeat split. Qed.

(** ** Goroutines *)

(** Two Waits and a Release on one transaction: the first Wait holds the mutex
    while the status is asked for, the Release closes the Gateway, and both Waits
    find it closed. *)
Definition demo_pending : PendingTx :=
  mkPendingTx 4 "tx1" [] demo_officer_contract "Issue" 50%N (Some 20%N).
Definition demo_uses : list pending_use := [use_Wait None; use_Release; use_Wait None].
Definition demo_schedule : list (nat * option (error + CommitInfo)) :=
  let valid := Some (inr (mkCommitInfo true 0%Z 7%N)) in
  [(0, None); (1, None); (0, valid); (1, None); (1, None); (0, None); (0, None);
   (2, None); (2, valid); (2, None); (2, None)].
Definition demo_threads : config pending_shared pending_local :=
  default (pending_init demo_uses)
    (pool_run (pending_step) demo_schedule (pending_init demo_uses)).

Lemma demo_threads_run :
  pool_run (pending_step) demo_schedule (pending_init demo_uses) = Some demo_threads.
Proof. by vm_compute. Qed.

Lemma demo_threads_reachable :
  pool_reachable (pending_step) (pending_init demo_uses) demo_threads.
Proof. eapply pool_run_reachable; [apply pool_init|apply demo_threads_run]. Qed.

Lemma PendingTx_threads_safe_witness : sh_released demo_threads.1 = 1
  /\ (forall i j ctx ctx', demo_threads.2 !! i = Some (WaitStatus ctx) ->
       demo_threads.2 !! j = Some (WaitStatus ctx') -> i = j).
Proof.
  destruct (PendingTx_threads_safe demo_uses demo_threads demo_threads_reachable) as (Hm & _ & Hr).
  split; [|exact Hm]. apply (Hr 1 (mkCommitInfo true 0%Z 7%N)). by left.
Defined.

Lemma PendingTx_refines_witness :
  exists ops w, spec_run (pending_spec_step (E := good_env) (G := plain_status) demo_pending)
      ops (empty_world, To_run <$> demo_uses)
    = Some (w, thread_of (G := plain_status) demo_pending <$> demo_threads.2)
  /\ closed (w_trace w) = [20%N].
Proof.
  destruct (PendingTx_refines (E := good_env) (G := plain_status) demo_pending demo_uses demo_threads
    empty_world) as (ops & w & Hops & new & Ht & Hc);
    [by apply (bool_decide_unpack _)|exact demo_threads_reachable|].
  exists ops, w. split; [exact Hops|]. exact (eq_trans (f_equal closed Ht) Hc).
Defined.

Lemma PendingTx_threads_finish_witness : length demo_schedule <= 6 * length demo_uses.
Proof.
  apply (PendingTx_threads_finish demo_uses demo_schedule demo_threads demo_threads_run).
Defined.

(** Two goroutines close the demonstration client, a third one starts a call after
    the first has set the flag. *)
Definition close_uses : list client_use := [use_Close; use_Close; use_Call].
Definition close_schedule : list (nat * option (option error)) :=
  [(0, None); (0, None); (2, None); (0, Some None); (0, Some None); (0, Some None); (0, None); (1, None)].
Definition close_threads : config client_shared client_local :=
  default (client_init close_uses)
    (pool_run (client_step demo_client) close_schedule (client_init close_uses)).

Lemma close_threads_reachable :
  pool_reachable (client_step demo_client) (client_init close_uses) close_threads.
Proof.
  eapply (pool_run_reachable _ _ close_schedule); [apply pool_init|by vm_compute].
Qed.

Lemma FabricClient_threads_witness :
  cl_released close_threads.1 = client_resources demo_client /\ close_threads.2 !! 2 = Some CallRefused.
Proof.
  destruct (FabricClient_threads demo_client close_uses close_threads close_threads_reachable)
    as (_ & H & _).
  split; [|by vm_compute]. eapply (H 1 []). by vm_compute.
Defined.

(** ** Commands *)

Lemma basic_main_writes_once_witness :
  exists new, w_trace (snd (basic_main (E := lost_env) (G := unavailable) demo_getenv empty_world)) = new
    /\ length (submissions new) <= 1 /\ submissions new = [40%N].
Proof.
  pose proof (basic_main_writes_once (E := lost_env) (G := unavailable) demo_getenv empty_world) as H.
  destruct (basic_main (E := lost_env) (G := unavailable) demo_getenv empty_world) as [[r out] w'] eqn:E.
  destruct H as (new & Ht & H1 & _). exists new. split; [exact Ht|]. split; [exact H1|].
  simpl in Ht. subst new. vm_compute in E. injection E as _ _ <-. reflexivity.
Defined.

(** The first run handles two events and is stopped, the second starts with the
    third. *)
Lemma events_main_resumes_witness :
  exists out1 w1 m1 m2, events_main (E := good_env) (EE := stopping_events) (G := plain_status) demo_getenv
      (fun _ => inr demo_checkpointer) 5 empty_world = (finished tt, out1, w1)
    /\ printed out1 = event_line <$> (out_event <$> take m1 demo_ledger)
    /\ printed (snd (fst (events_main (E := good_env) (EE := stopping_events) (G := plain_status) demo_getenv
         (fun _ => inr demo_checkpointer) 5 w1))) = event_line <$> (out_event <$> take m2 (drop m1 demo_ledger)).
Proof.
  destruct (events_main (E := good_env) (EE := stopping_events) (G := plain_status) demo_getenv
    (fun _ => inr demo_checkpointer) 5 empty_world) as [[r out1] w1] eqn:E1.
  destruct r as [[]| |]; run_demo E1.
  pose proof (events_main_resumes (E := good_env) (EE := stopping_events) (G := plain_status) demo_getenv
    (fun _ => inr demo_checkpointer) demo_checkpointer demo_ledger
    (CheckpointerOk0 := demo_checkpointer_ok) (Delivers0 := stopping_events_deliver) eq_refl demo_ledger_wf
    5 5 empty_world w1 out1 E1) as H.
  destruct (events_main _ _ 5 w1) as [[r2 out2] w2] eqn:E2.
  destruct H as (new1 & new2 & m1 & m2 & _ & _ & Hh1 & Hp1 & Hh2 & Hp2).
  exists out1, w1, m1, m2. split; [reflexivity|]. rewrite E2. cbn [fst snd].
  rewrite Hp1, Hh1, Hp2, Hh2. split; reflexivity.
Defined.

(** ** Crashes and restarts *)

(** Two processes of a service: the first is killed after its handler accepted the
    second event and before the checkpoint; the second opens a client and runs.
    The checkpointer's state is that of a file: it survives. *)
Section lives.
Variable cp : Checkpointer.

Definition first_run : trace := w_trace (snd (Contract_ListenChaincodeEvents (E := good_env) (G := plain_status)
  demo_contract Background 9 (Some cp) (Some (fun _ _ => ([], None))) [FromBlock 4] empty_world)).
Definition first_life : trace := take 6 first_run.
Definition second_process : World :=
  mkWorld (first_life ++ [EvNewClient "peer0.org1:7051" [] (Some 11%N)]) ∅ ∅ ∅ ∅ 10.
Definition second_run : trace := w_trace (snd (Contract_ListenChaincodeEvents (E := good_env) (G := plain_status)
  demo_contract Background 9 (Some cp) (Some (fun _ _ => ([], None))) [FromBlock 4] second_process)).
Definition second_life : trace := drop (length (w_trace second_process)) second_run.

End lives.

Lemma demo_lives cp : second_run cp = w_trace (second_process cp) ++ second_life cp ->
  lives (event_life (E := good_env) (G := plain_status) "mychannel" "basic" cp [FromBlock 4])
    [] [first_life cp; second_life cp].
Proof.
  intros H2. apply (one_more _ _ _ [EvNewClient "peer0.org1:7051" [] (Some 11%N)]); [|done|].
  { exists demo_contract, Background, 9, (fun _ _ => ([], None)), empty_world, (drop 6 (first_run cp)).
    split; [done|]. split; [done|]. unfold first_life. rewrite app_nil_l, take_drop. unfold first_run. reflexivity. }
  apply (one_more _ _ _ []); [|done|apply no_life].
  exists demo_contract, Background, 9, (fun _ _ => ([], None)), (second_process cp), [].
  split; [done|]. split; [done|]. rewrite app_nil_r. exact H2.
Qed.

Lemma second_life_split : second_run demo_checkpointer
  = w_trace (second_process demo_checkpointer) ++ second_life demo_checkpointer.
Proof. by vm_compute. Qed.

(** "A crash between your handler and the checkpoint can deliver an event again." *)
Example demo_lives_repeat :
  Event_TxID <$> concat (accepted <$> [first_life demo_checkpointer; second_life demo_checkpointer])
  = ["t1"; "t2"; "t2"; "t3"; "t4"].
Proof. vm_compute. reflexivity. Qed.

Lemma ListenChaincodeEvents_at_least_once_witness :
  exists m, squeeze (concat (accepted <$> [first_life demo_checkpointer; second_life demo_checkpointer]))
    = out_event <$> take m demo_ledger.
Proof.
  destruct (ListenChaincodeEvents_at_least_once (E := good_env) (G := plain_status) "mychannel" "basic"
    demo_checkpointer [FromBlock 4] demo_ledger []
    [first_life demo_checkpointer; second_life demo_checkpointer] (4%N, "")
    (CheckpointerOk0 := demo_checkpointer_ok) (Delivers0 := fake_events_deliver)
    demo_ledger_wf eq_refl (demo_lives _ second_life_split)) as (m & Hm & _).
  by exists m.
Defined.

Lemma second_life_split_database : second_run database_checkpointer
  = w_trace (second_process database_checkpointer) ++ second_life database_checkpointer.
Proof. by vm_compute. Qed.

(** With the position in the database nothing is repeated. *)
Example database_lives_repeat_nothing :
  Event_TxID <$> concat (accepted <$> [first_life database_checkpointer; second_life database_checkpointer])
  = ["t1"; "t2"; "t3"; "t4"].
Proof. vm_compute. reflexivity. Qed.

Lemma ListenChaincodeEvents_exactly_once_witness :
  exists m, concat (accepted <$> [first_life database_checkpointer; second_life database_checkpointer])
    = out_event <$> take m demo_ledger.
Proof.
  destruct (ListenChaincodeEvents_exactly_once (E := good_env) (G := plain_status) "mychannel" "basic"
    database_checkpointer [FromBlock 4] demo_ledger []
    [first_life database_checkpointer; second_life database_checkpointer] (4%N, "")
    (TransactionalCheckpointer0 := database_checkpointer_ok) (Delivers0 := fake_events_deliver)
    demo_ledger_wf eq_refl (demo_lives _ second_life_split_database)) as (m & Hm).
  by exists m.
Defined.

(** A block listener that is killed between handler and checkpoint, and restarted. *)
Section block_lives.
Variable cp : Checkpointer.

Definition block_run (w : World) : trace := w_trace (snd (Contract_ListenBlocks (E := good_env) (G := plain_status)
  demo_contract Background 4 (Some cp) (Some (fun _ _ => ([], None))) [FromBlock 3] w)).
Definition first_blocks : trace := take 6 (block_run empty_world).
Definition restarted : World := mkWorld first_blocks ∅ ∅ ∅ ∅ 10.
Definition second_blocks : trace := drop (length first_blocks) (block_run restarted).

Lemma demo_block_lives : block_run restarted = first_blocks ++ second_blocks ->
  lives (block_life (E := good_env) (G := plain_status) "mychannel" "basic" cp [FromBlock 3])
    [] [first_blocks; second_blocks].
Proof.
  intros H2. apply (one_more _ _ _ []); [|done|].
  { exists demo_contract, Background, 4, (fun _ _ => ([], None)), empty_world, (drop 6 (block_run empty_world)).
    split; [done|]. split; [done|]. unfold first_blocks. rewrite app_nil_l, take_drop. unfold block_run. reflexivity. }
  rewrite app_nil_r, app_nil_l. apply (one_more _ _ _ []); [|done|apply no_life].
  exists demo_contract, Background, 4, (fun _ _ => ([], None)), restarted, [].
  split; [done|]. split; [done|]. rewrite app_nil_r. exact H2.
Qed.

End block_lives.

Lemma second_blocks_split : block_run demo_checkpointer (restarted demo_checkpointer)
  = first_blocks demo_checkpointer ++ second_blocks demo_checkpointer.
Proof. by vm_compute. Qed.

Lemma second_blocks_split_database : block_run database_checkpointer (restarted database_checkpointer)
  = first_blocks database_checkpointer ++ second_blocks database_checkpointer.
Proof. by vm_compute. Qed.

Example demo_block_lives_repeat :
  concat (accepted_blocks <$> [first_blocks demo_checkpointer; second_blocks demo_checkpointer])
  = [3; 4; 4; 5; 6; 7]%N.
Proof. vm_compute. reflexivity. Qed.

Lemma ListenBlocks_at_least_once_witness :
  exists m, squeeze (Block_Number <$> concat (accepted_blocks <$>
      [first_blocks demo_checkpointer; second_blocks demo_checkpointer]))
    = N.of_nat <$> seq 3 m.
Proof.
  destruct (ListenBlocks_at_least_once (E := good_env) (G := plain_status) "mychannel" "basic"
    demo_checkpointer [FromBlock 3] []
    [first_blocks demo_checkpointer; second_blocks demo_checkpointer] (3%N, "")
    (CheckpointerOk0 := demo_checkpointer_ok) (H := fake_events_blocks)
    eq_refl (demo_block_lives _ second_blocks_split)) as (m & Hm & _).
  by exists m.
Defined.

Lemma ListenBlocks_exactly_once_witness :
  exists m, Block_Number <$> concat (accepted_blocks <$>
      [first_blocks database_checkpointer; second_blocks database_checkpointer])
    = N.of_nat <$> seq 3 m.
Proof.
  destruct (ListenBlocks_exactly_once (E := good_env) (G := plain_status) "mychannel" "basic"
    database_checkpointer [FromBlock 3] []
    [first_blocks database_checkpointer; second_blocks database_checkpointer] (3%N, "")
    (TransactionalCheckpointer0 := database_checkpointer_ok) (H := fake_events_blocks)
    eq_refl (demo_block_lives _ second_blocks_split_database)) as (m & Hm).
  by exists m.
Defined.

(** ** Submitting again *)

(** The first attempt is rejected and worth a retry; the second is ordered, its
    status is lost, and qscc finds it valid. *)
Definition busy_run : resolution * World :=
  resubmit (E := busy_env) (G := busy_status) demo_contract None "Issue" [Args ["CH-1"]] 3 empty_world.

Example busy_run_commits : fst busy_run = committed "2".
Proof. vm_compute. reflexivity. Qed.

(** One goal per element of a literal list, those closed at once that cannot be
    the one sought. *)
Ltac each_in H :=
  first [by apply elem_of_nil in H | apply elem_of_cons in H as [H|H]; [try done|each_in H]].

(** The ledger holds the second transaction. *)
Lemma busy_ledger : true_ledger (E := busy_env) (G := busy_status) pretty pretty (eq "2") (w_trace (snd busy_run)).
Proof.
  set (tr := w_trace (snd busy_run)). vm_compute in tr. subst tr. split.
  - intros id _ <-. eexists 2%N, _, (inr 2%N).
    split; [|by split]. repeat first [by apply list_elem_of_here|apply list_elem_of_further].
  - intros k x st H. each_in H.
  - intros k ch id p x raw vc H1 H2 Hu. each_in H1. each_in H2. simplify_eq.
    split; [done|]. intros _. by vm_compute in Hu; simplify_eq.
Qed.

Lemma resubmit_at_most_once_witness :
  tells (E := busy_env) (eq "2") (fst busy_run) (w_trace (snd busy_run))
  /\ forall id1 id2, id1 ∈ ids (E := busy_env) (w_trace (snd busy_run)) ->
    id2 ∈ ids (E := busy_env) (w_trace (snd busy_run)) -> "2" = id1 -> "2" = id2 -> id1 = id2.
Proof.
  pose proof (resubmit_at_most_once (E := busy_env) (G := busy_status) pretty pretty (eq "2")
    (H := busy_env_ids) (H0 := busy_env_errors) demo_contract None "Issue" [Args ["CH-1"]] 3 empty_world) as Hr.
  change (resubmit demo_contract None "Issue" [Args ["CH-1"]] 3 empty_world) with busy_run in Hr.
  destruct busy_run as [r w'] eqn:Er. destruct Hr as (new & Ht & Htells).
  assert (new = w_trace (snd busy_run)) as -> by (rewrite Er; simpl; rewrite Ht; reflexivity).
  simpl. pose proof (Htells busy_ledger) as Hall. rewrite Er in Hall. exact Hall.
Defined.

(** ** An outbox *)

(** The world after the attempt that is rejected, and the attempt that the orderer
    accepts. *)
Definition outbox_world : World :=
  snd (Contract_SubmitAsync (E := busy_env) (G := busy_status) demo_contract None "Issue" [Args ["CH-1"]] empty_world).
Definition outbox_accepted : (error + PendingTx) * World :=
  Contract_SubmitAsync (E := busy_env) (G := busy_status) demo_contract None "Issue" [Args ["CH-1"]] outbox_world.
Definition outbox_trace : trace :=
  drop (length (w_trace outbox_world)) (w_trace (snd outbox_accepted)).

Lemma outbox_trace_eq : w_trace (snd outbox_accepted) = w_trace outbox_world ++ outbox_trace.
Proof. vm_compute. reflexivity. Qed.

(** Killed when it had stored its row, and about to wait. *)
Lemma outbox_stored : outbox_life (E := busy_env) (G := busy_status) demo_contract None "Issue" [Args ["CH-1"]]
  outbox_world outbox_trace (stored_row "2").
Proof.
  assert (Hp : exists p, outbox_accepted = (inr p, snd outbox_accepted) /\ Pending_TxID p = "2")
    by (vm_compute; by eexists).
  destruct Hp as (p & Hs & <-). rewrite <- (app_nil_r outbox_trace).
  destruct (Wait_run (E := busy_env) (G := busy_status) p None (snd outbox_accepted)) as (r & d & w2 & Hw & Ht & _).
  by apply (life_stored _ _ _ _ _ p (snd outbox_accepted) r w2 outbox_trace [] d Hs outbox_trace_eq Hw).
Qed.

(** Killed before, after the orderer accepted the transaction. *)
Definition window_trace : trace := take 5 outbox_trace.

Lemma outbox_killed : outbox_life (E := busy_env) (G := busy_status) demo_contract None "Issue" [Args ["CH-1"]]
  outbox_world window_trace submitting.
Proof.
  apply (life_submitting _ _ _ _ _ (fst outbox_accepted) (snd outbox_accepted) _ (drop 5 outbox_trace));
    [exact (surjective_pairing _)|]. unfold window_trace. rewrite take_drop. exact outbox_trace_eq.
Qed.

(** In both cases the ledger holds the transaction. *)
Ltac solve_ledger :=
  split;
  [ intros id _ <-; eexists 2%N, _, (inr 2%N);
    split; [|by split]; repeat first [by apply list_elem_of_here|apply list_elem_of_further]
  | intros k x st H; each_in H
  | intros k ch id p x raw vc H1 H2 _; each_in H1; each_in H2 ].

(** The history of a service: the first process is refused, the second killed when
    it had stored its row. *)
Definition outbox_history : trace := w_trace outbox_world ++ outbox_trace ++ [].

Lemma outbox_ledger : true_ledger (E := busy_env) (G := busy_status) pretty pretty (eq "2") outbox_history.
Proof. set (tr := outbox_history). vm_compute in tr. subst tr. solve_ledger. Qed.

Lemma window_ledger : true_ledger (E := busy_env) (G := busy_status) pretty pretty (eq "2") window_trace.
Proof. set (tr := window_trace). vm_compute in tr. subst tr. solve_ledger. Qed.

Lemma outbox_service : exists err,
  service (E := busy_env) (G := busy_status) [] outbox_history
    [(w_trace outbox_world, refused err); (outbox_trace, stored_row "2")].
Proof.
  assert (Hr : exists err, Contract_SubmitAsync (E := busy_env) (G := busy_status) demo_contract None "Issue"
    [Args ["CH-1"]] empty_world = (inl err, outbox_world)) by (vm_compute; by eexists).
  destruct Hr as [err Hr]. exists err.
  apply (srv_submit demo_contract None "Issue" [Args ["CH-1"]] empty_world).
  { by apply (life_refused _ _ _ _ _ err outbox_world). }
  apply (srv_submit demo_contract None "Issue" [Args ["CH-1"]] outbox_world); [exact outbox_stored|]. constructor.
Qed.

Lemma outbox_tracks_witness : exists ls,
  NoDup (rows ls) /\ rows ls = ["2"]
  /\ (forall id, id ∈ ids (E := busy_env) outbox_history -> "2" = id ->
      exists a s, (a, s) ∈ ls /\ id ∈ ids (E := busy_env) a)
  /\ "2" ∈ ids (E := busy_env) outbox_history.
Proof.
  destruct outbox_service as [err Hs].
  destruct (outbox_tracks (E := busy_env) (G := busy_status) pretty pretty (eq "2")
    (TransactionIDs0 := busy_env_ids) (H := busy_env_errors) [] outbox_history _ Hs) as (Hn & Hv & Hrow).
  eexists. split; [exact Hn|]. split; [reflexivity|]. split.
  - intros id Hid Hval. destruct (Hv outbox_ledger id Hid Hval) as (a & s & Hin & Ha & _). by exists a, s.
  - exact (proj1 (Hrow "2" ltac:(by left))).
Defined.

(** After the restart, the query finds the transaction. *)
Example outbox_resolves :
  fst (Contract_TxStatus (E := busy_env) (G := busy_status) demo_contract None "2" (snd outbox_accepted))
  = inr (mkTxStatus "2" true 0%Z true).
Proof. vm_compute. reflexivity. Qed.

(** The window: a transaction is on the ledger, and the process that was killed
    had not been told its ID. *)
Lemma SubmitAsync_window :
  outbox_life (E := busy_env) (G := busy_status) demo_contract None "Issue" [Args ["CH-1"]]
    outbox_world window_trace submitting
  /\ true_ledger (E := busy_env) (G := busy_status) pretty pretty (eq "2") window_trace
  /\ "2" ∈ ids (E := busy_env) window_trace.
Proof.
  split; [exact outbox_killed|]. split; [exact window_ledger|]. vm_compute. by left.
Qed.

(** The command of examples/events, killed between the handler and the checkpoint
    of its first event, and started again. *)
Definition command_run (w : World) : trace := w_trace (snd (events_main (E := good_env) (G := plain_status)
  demo_getenv (fun _ => inr demo_checkpointer) 6 w)).
Definition killed_command : trace := take 5 (command_run empty_world).
Definition next_command : trace := drop 5 (command_run (mkWorld killed_command ∅ ∅ ∅ ∅ 10)).

Example killed_command_repeats :
  Event_TxID <$> concat (accepted <$> [killed_command; next_command]) = ["t1"; "t1"; "t2"; "t3"; "t4"].
Proof. vm_compute. reflexivity. Qed.

Lemma demo_commands : lives (command_life (E := good_env) (G := plain_status) demo_getenv
  (fun _ => inr demo_checkpointer)) [] [killed_command; next_command].
Proof.
  apply (one_more _ _ _ []); [|done|].
  { exists 6, empty_world, (drop 5 (command_run empty_world)). split; [done|].
    unfold killed_command. rewrite app_nil_l, take_drop. unfold command_run. reflexivity. }
  rewrite app_nil_r, app_nil_l. apply (one_more _ _ _ []); [|done|apply no_life].
  exists 6, (mkWorld killed_command ∅ ∅ ∅ ∅ 10), []. split; [done|]. rewrite app_nil_r. by vm_compute.
Qed.

Lemma events_main_killed_witness :
  exists m, squeeze (concat (accepted <$> [killed_command; next_command])) = out_event <$> take m demo_ledger.
Proof.
  destruct (events_main_killed (E := good_env) (G := plain_status) demo_getenv
    (fun _ => inr demo_checkpointer) demo_checkpointer demo_ledger
    (CheckpointerOk0 := demo_checkpointer_ok) (Delivers0 := fake_events_deliver) eq_refl demo_ledger_wf
    [] [killed_command; next_command] demo_commands) as (m & Hm & _).
  by exists m.
Defined.
