(* ===== verification/RepoTests.v ===== *)
(** * The repository's tests, run on the definitions

    The test files of the repository (ccerr/ccerr_test.go, client_test.go,
    identity_config_test.go, events_test.go) say what the authors expect on
    concrete inputs. Here the definitions are evaluated on these inputs and give
    these outputs. The test server, its certificates and its files are instances
    of the interfaces. A test whose point is in another package (how
    fabric-gateway encodes a proposal, how its file checkpointer stores) is not
    repeated. *)

From S2P Require Import Prelude GoStrings GoRunes Ccerr Errors Classify Observe World Identity Config Client Contract Views Events Positions Streams Instances.
Local Open Scope Z_scope.

(** ** ccerr/ccerr_test.go *)

Module ccerr_test.
Import ccerr.

Definition challan_missing : error :=
  ccerr_New (fun _ args => "challan " +:+ Join args "" +:+ " does not exist") NotFound "challan %s does not exist" ["CH-1"].

Example TestNewRendersParsableMessage :
  error_text challan_missing = "NOT_FOUND: challan CH-1 does not exist"
  /\ Parse (error_text challan_missing) = (NotFound, "challan CH-1 does not exist", true).
Proof. split; vm_compute; reflexivity. Qed.

Example TestParse :
  Parse <$> ["CONFLICT: version 2 != 3"; "chaincode response 409, ALREADY_EXISTS: CH-1";
             "  UNAUTHORIZED:missing role"; "the asset a1 does not exist"; "ERROR: something";
             "http://example: not a code"]
  = [(Conflict, "version 2 != 3", true); (AlreadyExists, "CH-1", true); (Unauthorized, "missing role", true);
     ("", "the asset a1 does not exist", false); ("", "ERROR: something", false);
     ("", "http://example: not a code", false)].
Proof. vm_compute. reflexivity. Qed.

Example TestIsSeesThroughWrapping :
  let err := Some (wrapError "issue challan: FAILED_PRECONDITION: already paid"
                     (ccerr_New (fun f _ => f) FailedPrecondition "already paid" ([] : list string))) in
  ccerr_Is err FailedPrecondition = true /\ ccerr_Is err NotFound = false.
Proof. by vm_compute. Qed.

End ccerr_test.

(** ** The test client *)

#[local] Existing Instances fake_x509 fake_fs fake_tls ascii_tables peer_codes fake_ledger.

(** [newTestClient]: an identity, the channel and the chaincode, over a connection
    of the caller. *)
Definition test_config (contract : string) (strict : bool) (observer : option Observer) : Config :=
  mkConfig "" "" "" "" "" None [] (Some demo_identity) "" "" "" "mychannel" "basic" contract
    0 0 0 0 strict None observer.

Definition newTestClient `{E : Env} (cfg : Config) : FabricClient * World :=
  match NewWithConnection (Some 10%N) cfg empty_world with
  | (inr fc, w) => (fc, w)
  | (inl _, w) => (demo_client, w)
  end.

(** Its server answers with these; [gatewayError] gives the status. *)
Definition serve (r : error + bytes) : Env := fake_env r (inr 1%N) (inr 2%N) ok_status.
Definition gatewayError (c : codes.Code) (msg : string) (details : list string) : GrpcStatus :=
  fake_grpc (one_status c msg details).

(** What a test looks at in an error, behind the caller's own wrapping. *)
Record seen := mkSeen {
  seen_Kind : Kind; seen_Source : ErrorSource; seen_Message : string;
  seen_TxID : string; seen_Unknown : bool }.

Definition look {A} (r : error + A) : option seen :=
  match r with
  | inl err =>
      (fun e => mkSeen (Error_Kind e) (Error_Source e) (Error_Message e) (Error_TxID e) (Error_OutcomeUnknown e))
        <$> asError (Some (wrapError "handler: ..." err))
  | inr _ => None
  end.

(** ** client_test.go *)

(** The trace of a test, from the first call after the client was made. *)
Definition calls (w0 w : World) : trace := drop (length (w_trace w0)) (w_trace w).

Section evaluate.
#[local] Instance G : GrpcStatus := gatewayError codes.Unknown "" [].
#[local] Instance E : Env := serve (inr (bytes_of_string "{}")).

Example TestEvaluatePassesArgumentsAndReturnsResult :
  let '(fc, w) := newTestClient (test_config "" false None) in
  let '(r, w') := FabricClient_Evaluate fc (Some Background) "ReadAsset" ["asset1"] w in
  r = inr (bytes_of_string "{}")
  /\ asks (calls w w') = [(GetContract (GetNetwork (Some 20%N) "mychannel") "basic", "ReadAsset",
       [WithBytesArguments [bytes_of_string "asset1"]], Some 30%N)].
Proof. vm_compute. split; reflexivity. Qed.

(** fabric-gateway puts the contract's name before the function's. *)
Example TestNamedContractPrefixesFunction :
  let '(fc, w) := newTestClient (test_config "ChallanContract" false None) in
  let '(r, w') := FabricClient_Evaluate fc (Some Background) "Get" ["x"] w in
  (fun a => a.1.1.1) <$> asks (calls w w')
    = [GetContractWithName (GetNetwork (Some 20%N) "mychannel") "basic" "ChallanContract"].
Proof. vm_compute. reflexivity. Qed.

Example TestTargetOverridesChannelChaincodeAndContract :
  let '(fc, w) := newTestClient (test_config "" false None) in
  let '(r, w') := Contract_Evaluate (FabricClient_Target fc "trafficchannel" "requests" "RequestContract")
                    (Some Background) "Get" [] w in
  (fun a => (a.1.1.1, a.1.1.2)) <$> asks (calls w w')
    = [(GetContractWithName (GetNetwork (Some 20%N) "trafficchannel") "requests" "RequestContract", "Get")].
Proof. vm_compute. reflexivity. Qed.

Example TestNilIdentityHandleFailsCleanly :
  let '(fc, w) := newTestClient (test_config "" false None) in
  let '(r, w') := Contract_Evaluate (FabricClient_WithIdentity fc None) (Some Background) "Read" [] w in
  seen_Kind <$> look r = Some KindConfig /\ rpcs (calls w w') = [].
Proof. vm_compute. split; reflexivity. Qed.

Example TestCloseIsIdempotentAndBlocksFurtherCalls :
  let '(fc, w) := newTestClient (test_config "" false None) in
  let '(e1, w1) := FabricClient_Close fc w in
  let '(e2, w2) := FabricClient_Close fc w1 in
  let '(r, w3) := FabricClient_Evaluate fc (Some Background) "Read" [] w2 in
  e1 = None /\ e2 = None /\ seen_Kind <$> look r = Some KindConfig
  /\ closed (calls w w3) = [20%N] /\ rpcs (calls w w3) = [].
Proof. vm_compute. split_and!; reflexivity. Qed.

End evaluate.

(** A server that blocks until the context is done. *)
Section timeouts.
#[local] Instance blocked : Env := serve (inl server_error).

Definition slow (G : GrpcStatus) (ctx : Context) : option Kind * list (option Context) :=
  let '(fc, w) := newTestClient (test_config "" false None) in
  let '(r, w') := FabricClient_Evaluate fc (Some ctx) "Slow" [] w in
  (seen_Kind <$> look r, rpc_ctx <$> rpcs (calls w w')).

Example TestEvaluateHonoursCallerDeadline :
  slow (gatewayError codes.DeadlineExceeded "context deadline exceeded" []) (CallerCtx 1 (Some 50))
  = (Some KindTimeout, [Some (WithCancel (CallerCtx 1 (Some 50)))]).
Proof. vm_compute. reflexivity. Qed.

Example TestEvaluateAppliesDefaultTimeoutWhenNoDeadline :
  slow (gatewayError codes.DeadlineExceeded "context deadline exceeded" []) Background
  = (Some KindTimeout, [Some (WithDeadline Background (5 * Second))]).
Proof. vm_compute. reflexivity. Qed.

Example TestEvaluateCancellation :
  (slow (gatewayError codes.Canceled "context canceled" []) (CallerCtx 1 None)).1 = Some KindCanceled.
Proof. vm_compute. reflexivity. Qed.

End timeouts.

(** *** Submitting *)

Definition submits (G : GrpcStatus) (E : Env) (fc_w : FabricClient * World) (fn : string)
    (opts : list CallOption) : (error + TxResult) * trace :=
  let '(r, w') := FabricClient_SubmitWith fc_w.1 (Some Background) fn opts fc_w.2 in
  (r, calls fc_w.2 w').

Definition answers (submit : error + Commit) (status : error + CommitInfo) : Env :=
  fake_env (inr []) (inr 1%N) submit status.
Definition no_error : GrpcStatus := gatewayError codes.Unknown "" [].
Definition test_client (E : Env) : FabricClient * World := newTestClient (test_config "" false None).

Example TestSubmitReturnsCommittedResult :
  let E := answers (inr 2%N) (inr (mkCommitInfo true 0 42)) in
  (submits no_error E (test_client E) "CreateAsset" [Args ["a1"]]).1
  = inr (mkTxResult "tx1" 42 [Byte.x6f; Byte.x6b]).
Proof. vm_compute. reflexivity. Qed.

Example TestSubmitWithTransientAndEndorsingOrgs :
  let E := answers (inr 2%N) ok_status in
  let secret : gmap string bytes := {["owner" := bytes_of_string "{}"]} in
  (fun a => a.1.2) <$> asks (submits no_error E (test_client E) "CreateChallan"
    [Args ["CH-1"]; BytesArgs [bytes_of_string "raw"]; Transient (Some secret); EndorsingOrgs ["PoliceMSP"]]).2
  = [[WithBytesArguments [bytes_of_string "CH-1"; bytes_of_string "raw"]; WithTransient secret;
      WithEndorsingOrganizations ["PoliceMSP"]]].
Proof. vm_compute. reflexivity. Qed.

(** The helpers on an error: conflict, retryable, unknown, and its fields. *)
Definition commit_as (code : Z) : option (bool * bool * bool) * option (Kind * Z * Z * string) :=
  let E := answers (inr 2%N) (inr (mkCommitInfo false code 9)) in
  match (submits no_error E (test_client E) "Update" [Args ["k"]]).1 with
  | inl err => (Some (IsConflict (Some err), IsRetryable (Some err), IsOutcomeUnknown (Some err)),
      (fun e => (Error_Kind e, Error_ValidationCode e, Error_Code e, Error_TxID e)) <$> asError (Some err))
  | inr _ => (None, None)
  end.

Example TestSubmitCommitConflictIsRetryable :
  commit_as 11 = (Some (true, true, false), Some (KindConflict, 11, 409, "tx1")).
Proof. vm_compute. reflexivity. Qed.

Example TestSubmitCommitFailedIsNotRetryable :
  commit_as 10 = (Some (false, false, false), Some (KindCommitFailed, 10, 500, "tx1")).
Proof. vm_compute. reflexivity. Qed.

(** The commit status times out, and comes on the second Wait. *)
Definition late_status (tr : trace) : error + CommitInfo :=
  if existsb (fun ev => match ev with EvCommitStatus _ _ _ => true | _ => false end) tr
  then inr (mkCommitInfo true 0 3) else inl server_error.
Definition late_env : Env :=
  let E := answers (inr 2%N) ok_status in {|
  env_now := @env_now E; env_NewClient := @env_NewClient E; env_ConnClose := @env_ConnClose E;
  env_Connect := @env_Connect E; env_GatewayClose := @env_GatewayClose E;
  env_NewProposal := @env_NewProposal E; Proposal_TransactionID := @Proposal_TransactionID E;
  env_Evaluate := @env_Evaluate E; env_Endorse := @env_Endorse E;
  Transaction_Result := @Transaction_Result E; env_Submit := @env_Submit E;
  env_CommitStatus tr _ _ := late_status tr;
  env_NewHSMSigner := @env_NewHSMSigner E; env_CloseFn := @env_CloseFn E |}.

Example TestCommitStatusTimeoutIsOutcomeUnknownWithTxID :
  let E := late_env in
  let G := gatewayError codes.DeadlineExceeded "context deadline exceeded" [] in
  let '(fc, w) := test_client E in
  match FabricClient_SubmitAsync fc (Some Background) "Create" [Args ["x"]] w with
  | (inr p, w1) =>
      let '(r1, w2) := PendingTx_Wait p (Some Background) w1 in
      let '(r2, w3) := PendingTx_Wait p (Some Background) w2 in
      match r1 with
      | inl err => IsOutcomeUnknown (Some err) = true /\ IsRetryable (Some err) = false
          /\ TxIDOf (Some err) = Pending_TxID p
      | inr _ => False
      end
      /\ Result_BlockNumber <$> (match r2 with inr res => Some res | _ => None end) = Some 3%N
  | _ => False
  end.
Proof. vm_compute. split_and!; reflexivity. Qed.

Definition phase_error (c : codes.Code) (msg : string) : option (Kind * bool * bool * string) :=
  let E := answers (inl server_error) ok_status in
  match (submits (gatewayError c msg []) E (test_client E) "Create" [Args ["x"]]).1 with
  | inl err => Some (KindOf (Some err), IsOutcomeUnknown (Some err), IsRetryable (Some err), TxIDOf (Some err))
  | inr _ => None
  end.

Example TestSubmitPhaseErrors :
  [phase_error codes.Aborted "received unsuccessful response from orderer: status=BAD_REQUEST";
   phase_error codes.DeadlineExceeded "submit timeout expired while broadcasting to ordering service";
   phase_error codes.Unavailable "no orderers could successfully process transaction"]
  = [Some (KindSubmit, false, true, "tx1"); Some (KindOutcomeUnknown, true, false, "tx1");
     Some (KindOutcomeUnknown, true, false, "tx1")].
Proof. vm_compute. reflexivity. Qed.

(** *** The classification table, on a query and on a transaction *)

Definition endorseMsg : string := "failed to endorse transaction, see attached details for more info".

Definition endorse_fails (strict : bool) (c : codes.Code) (msg : string) (details : list string)
    : option seen * option seen :=
  let G := gatewayError c msg details in
  let E := fake_env (inl server_error) (inl server_error) (inr 2%N) ok_status in
  let '(fc, w) := newTestClient (test_config "" strict None) in
  (look (FabricClient_Evaluate fc (Some Background) "Fn" [] w).1,
   look (FabricClient_Submit fc (Some Background) "Fn" [] w).1).

(** Both operations report the same, with the transaction's ID and a known outcome. *)
Definition both (k : Kind) (s : ErrorSource) (msg : string) : option seen * option seen :=
  let x := Some (mkSeen k s msg "tx1" false) in (x, x).

Example TestEndorseAndEvaluateErrorClassification :
  [endorse_fails false codes.Aborted endorseMsg ["NOT_FOUND: challan CH-9 does not exist"];
   endorse_fails true codes.Aborted endorseMsg ["chaincode response 409, ALREADY_EXISTS: challan CH-1"];
   endorse_fails false codes.Aborted endorseMsg ["connection refused"; "CONFLICT: version 3 != 4"];
   endorse_fails false codes.Aborted endorseMsg ["the asset a9 does not exist"];
   endorse_fails true codes.Aborted endorseMsg ["the asset a9 does not exist"];
   endorse_fails false codes.Aborted endorseMsg ["make sure the chaincode basic has been successfully defined on channel mychannel and try again: chaincode basic not found"];
   endorse_fails false codes.Unknown "evaluate call to endorser returned error: chaincode response 400, bad plate"
     ["chaincode response 400, bad plate"];
   endorse_fails false codes.Unavailable "no peers available" [];
   endorse_fails false codes.PermissionDenied "access denied" [];
   endorse_fails false codes.InvalidArgument "bad request" []]
  = [both KindNotFound SourceChaincode "challan CH-9 does not exist";
     both KindAlreadyExists SourceChaincode "challan CH-1";
     both KindConflict SourceChaincode "version 3 != 4";
     both KindNotFound SourceChaincode "the asset a9 does not exist";
     both KindEndorsement SourceNetwork endorseMsg;
     both KindEndorsement SourceNetwork endorseMsg;
     both KindChaincode SourceChaincode "bad plate";
     both KindUnavailable SourceNetwork "no peers available";
     both KindUnauthorized SourceNetwork "access denied";
     both KindInvalidArgument SourceNetwork "bad request"].
Proof. vm_compute. reflexivity. Qed.

(** *** Identities, queries, hooks *)

(** The signers of the Gateways that carried a trace's proposals: the default one,
    or the certificate and signer of the Gateway opened for it. *)
Example TestWithIdentitySignsAsOtherUser :
  let E := answers (inr 2%N) ok_status in
  let G := no_error in
  let '(fc, w) := test_client E in
  let '(r1, w1) := Contract_Submit (FabricClient_WithIdentity fc (Some demo_officer)) (Some Background)
                     "IssueChallan" ["CH-1"] w in
  let '(r2, w2) := FabricClient_Evaluate fc (Some Background) "Read" [] w1 in
  (fun x => X509_MspID x.1.1) <$> connects (calls w w1) = ["PoliceMSP"]
  /\ connects (calls w1 w2) = [] /\ closed (calls w w1) = opened (calls w w1).
Proof. vm_compute. split_and!; reflexivity. Qed.

(** qscc: an answer is decoded to a validation code, or the ID is unknown. *)
Definition tx_status (answer : error + bytes) (vc : Z) (details : list string) : option TxStatus :=
  let E := serve answer in
  let G := gatewayError codes.Aborted "failed to evaluate transaction, see attached details for more info" details in
  let L := {| Unmarshal_ProcessedTransaction _ := inr vc; Unmarshal_BlockchainInfo _ := inr 1234%N |} in
  let '(fc, w) := test_client E in
  match (FabricClient_TxStatus (L := L) fc (Some Background) "id" w).1 with inr st => Some st | inl _ => None end.

Example TestTxStatus :
  [tx_status ok_result 0 []; tx_status ok_result 11 [];
   tx_status (inl server_error) 0
     ["Failed to get transaction with id missing, error no such transaction ID [missing] in index"]]
  = [Some (mkTxStatus "id" true 0 true); Some (mkTxStatus "id" true 11 false);
     Some (mkTxStatus "id" false 0 false)].
Proof. vm_compute. reflexivity. Qed.

Example TestHeight :
  let E := serve ok_result in
  let G := no_error in
  let L := {| Unmarshal_ProcessedTransaction _ := inr 0; Unmarshal_BlockchainInfo _ := inr 1234%N |} in
  let '(fc, w) := test_client E in
  let '(r, w') := FabricClient_Height (L := L) fc (Some Background) w in
  r = inr 1234%N /\ (fun a => (a.1.1.1, a.1.1.2)) <$> asks (calls w w')
    = [(GetContract (GetNetwork (Some 20%N) "mychannel") "qscc", "GetChainInfo")].
Proof. vm_compute. split; reflexivity. Qed.

Example TestObserverSeesEveryPhase :
  let E := answers (inr 2%N) ok_status in
  let cl := newTestClient (test_config "" false (Some (ObserverFunc 1))) in
  (fun info => (Info_Operation info, Info_Function info, Info_MSPID info, Info_TxID info))
    <$> observations (submits no_error E cl "Create" [Args ["x"]]).2
  = [(OpEndorse, "Create", "Org1MSP", "tx1"); (OpSubmit, "Create", "Org1MSP", "tx1");
     (OpCommit, "Create", "Org1MSP", "tx1")].
Proof. vm_compute. reflexivity. Qed.

(** ** identity_config_test.go *)

(** A disk with two directories; user1's certificate and key belong together. *)
Definition disk (keys : list string) : FileSystem := {|
  os_Stat p := inr (bool_decide (p ∈ ["signcerts"; "keystore"]));
  os_ReadFile p := if bool_decide (p ∈ ["signcerts/cert.pem"; "keystore/abc_sk"]) then inr [Byte.x41]
                   else inl (errorString "no such file");
  os_ReadDir p := inr (if bool_decide (p = "signcerts")
    then [mkDirEntry ".DS_Store" true; mkDirEntry "cert.pem" true]
    else (fun f => mkDirEntry f true) <$> keys) |}.

Section identity_test.
#[local] Instance identity_env : Env := serve ok_result.

Definition loads (keys : list string) (certPath keyPath : string) : error + string :=
  match (LoadIdentity (F := disk keys) "Org1MSP" certPath keyPath empty_world).1 with
  | inr id => inr (MSPID id)
  | inl err => inl err
  end.

Example TestLoadIdentityFromMSPDirectories :
  loads ["abc_sk"] "signcerts" "keystore" = inr "Org1MSP"
  /\ loads ["abc_sk"] "signcerts/cert.pem" "keystore/abc_sk" = inr "Org1MSP".
Proof. vm_compute. split; reflexivity. Qed.

Example TestLoadIdentityRejectsAmbiguousKeystore :
  match loads ["a_sk"; "b_sk"] "signcerts" "keystore" with
  | inl err => KindOf (Some err) = KindConfig /\ Contains (error_text err) "holds 2 files" = true
  | inr _ => False
  end.
Proof. vm_compute. split; reflexivity. Qed.

Example TestIdentityFromPEMRejectsMismatchedKey :
  match (IdentityFromPEM "Org1MSP" [Byte.x41] [Byte.x41; Byte.x42] empty_world).1 with
  | inl err => Contains (error_text err) "does not match" = true
  | inr _ => False
  end.
Proof. vm_compute. reflexivity. Qed.

Example TestNewIdentityValidation :
  seen_Kind <$> look (NewIdentity "" None None empty_world).1 = Some KindConfig
  /\ (Identity_Close None empty_world).1 = None.
Proof. vm_compute. split; reflexivity. Qed.

Definition empty_config : Config :=
  mkConfig "" "" "" "" "" None [] None "" "" "" "" "" "" 0 0 0 0 false None None.

Example TestConfigValidation :
  match (New empty_config empty_world).1 with
  | inl err => KindOf (Some err) = KindConfig
      /\ Contains (error_text err) <$> ["PeerEndpoint"; "TLSCertPath"; "MSPID"; "ChannelName"; "ChaincodeName"]
         = [true; true; true; true; true]
  | inr _ => False
  end.
Proof. vm_compute. split; reflexivity. Qed.

(** Files that hold the certificates; [AppendCertsFromPEM] refuses bad.pem. *)
Definition tls_config (ca key : string) : Config :=
  mkConfig "peer0.org1.example.com:7051" "" ca "cert.pem" key None [] None "Org1MSP" "cert.pem" "key.pem"
    "mychannel" "basic" "" 0 0 0 0 false None None.
Definition tls_files : FileSystem := {|
  os_Stat _ := inr false;
  os_ReadFile p := inr (if bool_decide (p = "bad.pem") then [] else [Byte.x41]);
  os_ReadDir _ := inr [] |}.
Definition tls_lib : TLSLib := {|
  AppendCertsFromPEM b := negb (bool_decide (b = []));
  LoadX509KeyPair _ _ := inr 1%N;
  pair_leaf _ := [Byte.x01] |}.

Definition news (ca key : string) : option Kind * list Event :=
  let '(r, w) := New (F := tls_files) (T := tls_lib) (tls_config ca key) empty_world in
  match r with
  | inr fc => let '(e, w') := FabricClient_Close fc w in (KindOf <$> (Some <$> e), calls w w')
  | inl err => (Some (KindOf (Some err)), w_trace w)
  end.

(** The client is made without a call to the network; its Close ends what it
    opened. A bad CA file, or half of a client certificate, is a mistake of the
    configuration, and nothing is dialled. *)
Example TestNewBuildsTLSClientWithoutNetwork :
  news "ca.pem" "key.pem" = (None, [EvGatewayClose 20%N; EvConnClose 10%N])
  /\ news "bad.pem" "key.pem" = (Some KindConfig, [])
  /\ news "ca.pem" "" = (Some KindConfig, []).
Proof. vm_compute. split_and!; reflexivity. Qed.

End identity_test.

(** ** events_test.go *)

Section events_test.
#[local] Existing Instance pair_checkpointer.
#[local] Instance events_env : Env := serve ok_result.
#[local] Instance events_status : GrpcStatus := no_error.

(** How many subscriptions were opened. *)
Definition requests (tr : trace) : list (list EventsOption) :=
  omap (fun ev => match ev with EvChaincodeEvents _ _ _ o (Some _) | EvBlockEvents _ _ o (Some _) => Some o
                              | _ => None end) tr.

(** [eventLog]: a fixed list, from the start block or behind the transaction that
    the client names; the first connection is cut after [cutAfter] events. Once
    [stop] is handled the test cancels its context. *)
Definition eventLog (events : list (N * string)) (cutAfter : nat) (stop : string) : EventEnv :=
  let ledger := (fun e => mkGatewayEvent e.1 e.2 "basic" "Created" []) <$> events in
  let cancelled tr := bool_decide (stop ∈ Event_TxID <$> handled tr) in {|
  env_ChaincodeEvents _ _ _ _ _ := inr 60%N;
  env_BlockEvents _ _ _ _ := inr 61%N;
  env_recv tr _ :=
    if cancelled tr then inl false
    else match cursor tr with
    | Some (opts, k) =>
        if bool_decide (length (requests tr) = 1)%nat && (cutAfter <=? k)%nat then inl true
        else match wanted opts with
             | Some p => match ledger !! (index_of ledger p + k)%nat with
                         | Some ge => inr ge
                         | None => inl true
                         end
             | None => inl true
             end
    | None => inl true
    end;
  env_recv_block _ _ := None;
  Block_Number b := b;
  env_ctx_Err tr _ := if cancelled tr then Some (sentinelError context_Canceled) else None;
  env_sleep _ _ _ := true |}.

Definition memory : Checkpointer := NewMemoryCheckpointer 9.

(** A run of the listener: its result, the transactions handled, the options of its
    requests, and the checkpoint it leaves. *)
Definition listener_test (EE : EventEnv) (handle : EventHandler) (opts : list EventOption)
    : option (option error) * list string * list (list EventsOption) * (N * string) :=
  let '(fc, w) := test_client events_env in
  let '(r, w') := FabricClient_ListenChaincodeEvents fc Background 9 (Some memory) (Some handle) opts w in
  (r, Event_TxID <$> handled (calls w w'), requests (calls w w'), position memory (w_trace w')).

Example TestListenChaincodeEventsResumesFromCheckpointWithoutGapsOrDuplicates :
  listener_test (eventLog [(5%N, "A"); (5%N, "B"); (5%N, "C"); (6%N, "D")] 2 "D") (fun _ _ => ([], None))
    [FromBlock 5; RetryBackoff 10000000 50000000]
  = (Some None, ["A"; "B"; "C"; "D"],
     [[WithStartBlock 5; WithCheckpoint 0 ""]; [WithStartBlock 5; WithCheckpoint 5 "B"]], (6%N, "D")).
Proof. vm_compute. reflexivity. Qed.

Example TestListenChaincodeEventsStopsOnHandlerErrorWithoutCheckpointing :
  let boom := errorString "db down" in
  listener_test (eventLog [(1%N, "A"); (1%N, "B")] 100 "never")
    (fun _ ev => ([], if bool_decide (Event_TxID ev = "B") then Some boom else None)) [FromBlock 1]
  = (Some (Some boom), ["A"; "B"], [[WithStartBlock 1; WithCheckpoint 0 ""]], (1%N, "A")).
Proof. vm_compute. reflexivity. Qed.

(** Streams, as the test schedules them. *)
Definition event (tx : string) : GatewayEvent := mkGatewayEvent 1 tx "basic" "Created" [].

Example TestEventStreamReportsUnexpectedClose :
  match stream_run [gw_close; go_end; go_check; go_check; go_err; go_stop; go_close; go_release] stream_init with
  | Some s => match EventStream_Err s with
              | Some err => errors_Is err ErrStreamClosed = true
              | None => False
              end
  | None => False
  end.
Proof. vm_compute. reflexivity. Qed.

Example TestEventStreamCleanStopOnContextCancel :
  EventStream_Err <$> stream_run [user_cancel; gw_close; go_end; go_check; go_stop; go_close; go_release] stream_init
  = Some None.
Proof. vm_compute. reflexivity. Qed.

(** One event is read; the second is offered when the caller leaves. *)
Example TestEventStreamDoesNotLeakWhenConsumerStopsReading :
  (fun s => (st_pc s, st_closes s, st_releases s, Event_TxID <$> st_delivered s)) <$> stream_run
    [gw_send (event "A"); gw_send (event "B"); gw_send (event "C"); go_recv; user_recv; go_recv;
     user_cancel; go_drop; go_close; go_release] stream_init
  = Some (Finished, 1%nat, 1%nat, ["A"]).
Proof. vm_compute. reflexivity. Qed.

(** Blocks from the requested one to 3; the first connection breaks before block 2. *)
Definition block_server : EventEnv :=
  let cancelled tr := bool_decide (3%N ∈ handled_blocks tr) in {|
  env_ChaincodeEvents _ _ _ _ _ := inr 60%N;
  env_BlockEvents _ _ _ _ := inr 61%N;
  env_recv _ _ := inl true;
  env_recv_block tr _ :=
    if cancelled tr then None
    else match cursor tr with
    | Some (opts, k) =>
        p ← wanted opts;
        let b := (p.1 + N.of_nat k)%N in
        if (4 <=? b)%N || (bool_decide (length (requests tr) = 1)%nat && (b =? 2)%N) then None else Some b
    | None => None
    end;
  Block_Number b := b;
  env_ctx_Err tr _ := if cancelled tr then Some (sentinelError context_Canceled) else None;
  env_sleep _ _ _ := true |}.

Example TestListenBlocksCheckpointsAndReconnects :
  let EE := block_server in
  let '(fc, w) := test_client events_env in
  let '(r, w') := FabricClient_ListenBlocks fc Background 9 (Some memory) (Some (fun _ _ => ([], None)))
                    [FromBlock 0; RetryBackoff 10000000 20000000] w in
  r = Some None /\ handled_blocks (calls w w') = [0; 1; 2; 3]%N
  /\ wanted <$> requests (calls w w') = [Some (0%N, ""); Some (2%N, "")].
Proof. vm_compute. split_and!; reflexivity. Qed.

End events_test.
